(** * SEARChain verification core: Registry, Treasury, HourlyCredits, ProductionOracle

    A shallow embedding of the Solidity contracts

    - [contracts/Registry.sol]
    - [contracts/Treasury.sol]
    - [contracts/HourlyCredits.sol]
    - [contracts/ProductionOracle.sol]

    Every external function of a contract is a function from the [World] (the
    storage of the four contracts plus the event log) to a [Result]: either
    [Ok] with the new world, or [Revert] with the error.  A reverted call
    carries no world: the EVM discards every storage write and every event of
    a reverting transaction, including those of the nested calls it made.

    Unsigned integers are [Z] with Solidity 0.8 semantics written out:
    [+], [-], [*] and [++] revert with [Panic] when the result leaves the
    type, explicit conversions such as [uint16(x)] and [uint8(x)] truncate. *)

From stdpp Require Import base option list relations gmap fin_maps.
From Stdlib Require Import ZArith Lia.

Local Open Scope Z_scope.

(** ** Execution results *)

Inductive Error : Set :=
  (* Ownable *)
  | OwnableUnauthorizedAccount
  (* shared *)
  | ZeroAddress
  | ZeroAmount
  | OnlyAuthorizedOracle
  (* Registry *)
  | ProducerAlreadyRegistered
  | SystemAlreadyRegistered
  | ProducerNotFound
  | VerifierNotAllowlisted
  | VerifierAlreadyActive
  | VerifierNotActive
  | InsufficientStake
  | InsufficientStakeBalance
  | InvalidQuorumBps
  | SnapshotAlreadyExists
  | NoActiveVerifiers
  | VerifierNotInSnapshot
  (* ProductionOracle *)
  | ClaimAlreadyFinalized
  | ClaimDeadlineNotReached
  | ClaimDeadlinePassed
  | DuplicateSubmission
  | InvalidSignature
  | ProducerNotRegistered
  | ClaimNotDisputed
  | EnergyExceedsMaxSubmitted
  | EvidenceRootNotSubmitted
  (* Treasury *)
  | InsufficientRewardPool
  | FaultThresholdNotReached
  | AlreadySlashed
  | InsufficientPoolBalance
  (* HourlyCredits and the token libraries *)
  | OnlyProductionOracle
  | ERC1155InvalidReceiver
  | ERC20TransferFailed
  (* compiler-inserted checks *)
  | PanicArithmetic   (* Panic(0x11): overflow or underflow *)
  | PanicIndex        (* Panic(0x32) / Panic(0x31): array index or pop *).

Inductive Result (A : Type) : Type :=
  | Ok (a : A)
  | Revert (e : Error).
Arguments Ok {A} a.
Arguments Revert {A} e.

Definition bind {A B : Type} (m : Result A) (k : A -> Result B) : Result B :=
  match m with
  | Ok a => k a
  | Revert e => Revert e
  end.

Notation "x <- m ;; k" := (bind m (fun x => k))
  (at level 100, m at next level, right associativity).

Definition require (cond : bool) (e : Error) : Result unit :=
  if cond then Ok tt else Revert e.

(** The call returned normally. *)
Definition succeeds {A : Type} (r : Result A) : bool :=
  match r with
  | Ok _ => true
  | Revert _ => false
  end.

(** ** Integer types *)

Abbreviation address := Z (only parsing).
Abbreviation bytes32 := Z (only parsing).
Abbreviation uint := Z (only parsing).

Definition UINT16 : Z := 2 ^ 16.
Definition UINT32 : Z := 2 ^ 32.
Definition UINT64 : Z := 2 ^ 64.
Definition UINT256 : Z := 2 ^ 256.

(** Checked arithmetic of width [W] (the modulus [2^bits] of the type). *)
Definition add (W a b : Z) : Result Z :=
  if a + b <? W then Ok (a + b) else Revert PanicArithmetic.
Definition sub (a b : Z) : Result Z :=
  if b <=? a then Ok (a - b) else Revert PanicArithmetic.
Definition mul (W a b : Z) : Result Z :=
  if a * b <? W then Ok (a * b) else Revert PanicArithmetic.

(** Explicit conversions truncate. *)
Definition to_uint16 (x : Z) : Z := x mod UINT16.
Definition to_uint8 (x : Z) : Z := x mod 2 ^ 8.

(** A Solidity mapping is total: a key never written reads as the zero value
    [d] of the value type. *)
Definition sload {K V : Type} `{Countable K} (d : V) (m : gmap K V) (k : K) : V :=
  default d (m !! k).

(** ** Storage layout *)

(** *** Registry *)

Record Producer : Type := mkProducer {
  producerId : bytes32;
  systemIdHash : bytes32;
  metaHash : bytes32;
  payoutAddr : address;
  producerOwner : address;   (* field [owner] of struct Producer *)
  producerActive : bool      (* field [active] of struct Producer *)
}.

Definition noProducer : Producer := mkProducer 0 0 0 0 0 false.

Record Verifier : Type := mkVerifier {
  stake : uint;
  faults : uint;
  active : bool;
  allowlisted : bool
}.

Definition noVerifier : Verifier := mkVerifier 0 0 false false.

Record Snapshot : Type := mkSnapshot {
  verifiers : list address;
  timestamp : uint
}.

Definition noSnapshot : Snapshot := mkSnapshot [] 0.

Record RegistryState : Type := mkRegistry {
  registryOwner : address;
  _producers : gmap Z Producer;
  _systemIdRegistered : gmap Z bool;
  _verifiers : gmap Z Verifier;
  _activeVerifiers : list address;
  _activeVerifierIndex : gmap Z Z;          (* 1-indexed, 0 = absent *)
  _claimKeyToSnapshotId : gmap Z Z;
  _snapshots : gmap Z Snapshot;
  _nextSnapshotId : uint;
  registryProductionOracle : address;
  registryConsumptionOracle : address;
  registryQuorumBps : uint;
  registryClaimWindow : uint;
  minStake : uint;
  permissionedMode : bool
}.

(** *** Treasury *)

Inductive FaultType : Set :=
  | WrongValue
  | InvalidSignatureFault
  | DuplicateSubmissionFault
  | LateSubmission
  | MalformedClaim.

Record TreasuryState : Type := mkTreasury {
  treasuryOwner : address;
  treasuryProductionOracle : address;
  treasuryConsumptionOracle : address;
  rewardPool : uint;
  rewardPerWhWei : uint;
  slashBps : uint;
  faultThreshold : uint;
  slashingDisabled : bool;
  verifierFaults : gmap Z Z;
  pendingRewards : gmap Z Z;
  isSlashed : gmap Z bool
}.

(** *** HourlyCredits (ERC-1155, token id = hour id) *)

Record CreditsState : Type := mkCredits {
  creditsOwner : address;
  creditsProductionOracle : address;
  balances : gmap (Z * Z) Z                 (* (hourId, account) -> Wh *)
}.

(** *** ProductionOracle *)

Record ClaimBucket : Type := mkBucket {
  deadline : uint;
  snapshotId : uint;
  submissionCount : uint;                   (* uint32 *)
  finalized : bool;
  disputed : bool;
  verifiedEnergyWh : uint;                  (* uint64 *)
  maxSubmittedEnergyWh : uint;              (* uint64 *)
  winningValueHash : bytes32;
  evidenceRoot : bytes32;
  allSubmittersBitmap : uint;               (* uint16 *)
  winningVerifierBitmap : uint              (* uint16 *)
}.

Definition noBucket : ClaimBucket := mkBucket 0 0 0 false false 0 0 0 0 0 0.

Record ValueSubmission : Type := mkValueSubmission {
  count : uint;                             (* uint32 *)
  verifierBitmap : uint;                    (* uint16 *)
  vsEvidenceRoot : bytes32;                 (* field [evidenceRoot] *)
  energyWh : uint                           (* uint64 *)
}.

Definition noValueSubmission : ValueSubmission := mkValueSubmission 0 0 0 0.

Record OracleState : Type := mkOracle {
  this : address;                           (* address(this) *)
  oracleOwner : address;
  claimWindow : uint;
  quorumBps : uint;
  baselineMode : bool;
  singleVerifierOverride : address;
  _claimBuckets : gmap Z ClaimBucket;
  _valueSubmissions : gmap (Z * Z) ValueSubmission;
  _hasSubmitted : gmap (Z * Z) bool;
  _submittedEvidenceRoots : gmap (Z * Z) bool;
  _claimValueHashes : gmap Z (list bytes32)
}.

(** *** Events *)

Inductive Event : Type :=
  | ProducerRegistered (producerId systemIdHash owner metaHash payoutAddr : Z)
  | VerifierStaked (verifier amount totalStake : Z)
  | VerifierUnstaked (verifier amount totalStake : Z)
  | VerifierActivated (verifier : Z)
  | VerifierDeactivated (verifier : Z)
  | VerifierAllowlisted (verifier : Z)
  | VerifierRemovedFromAllowlist (verifier : Z)
  | SnapshotCreated (claimKey snapshotId verifierCount : Z)
  | QuorumBpsUpdated (oldValue newValue : Z)
  | ClaimWindowUpdated (oldValue newValue : Z)
  | ProductionOracleUpdated (oldOracle newOracle : Z)
  | ConsumptionOracleUpdated (oldOracle newOracle : Z)
  | RewardsDistributed (winnerBitmap snapshotId totalReward : Z)
  | FaultRecorded (verifier : Z) (faultType : FaultType) (totalFaults : Z)
  | Slashed (verifier amount : Z)
  | Deposited (depositor amount : Z)
  | Withdrawn (recipient amount : Z)
  | SlashingDisabledUpdated (disabled : bool)
  | RewardPerWhWeiUpdated (oldValue newValue : Z)
  | SlashBpsUpdated (oldValue newValue : Z)
  | FaultThresholdUpdated (oldValue newValue : Z)
  | HCNMinted (hourId to amountWh claimKey : Z)
  | ProductionSubmitted (claimKey verifier energyWh valueHash : Z)
  | ProductionFinalized (claimKey producerId hourId energyWh evidenceRoot : Z)
  | ClaimDisputed (claimKey producerId hourId : Z)   (* reason "No quorum reached" *)
  | ForceFinalized (claimKey admin energyWh : Z).

(** *** The world *)

Record World : Type := mkWorld {
  registry : RegistryState;
  treasury : TreasuryState;
  hourlyCredits : CreditsState;
  oracle : OracleState;
  log : list Event                          (* most recent event first *)
}.

Definition emit (e : Event) (w : World) : World :=
  mkWorld (registry w) (treasury w) (hourlyCredits w) (oracle w) (e :: log w).

Definition setRegistryState (r : RegistryState) (w : World) : World :=
  mkWorld r (treasury w) (hourlyCredits w) (oracle w) (log w).
Definition setTreasuryState (t : TreasuryState) (w : World) : World :=
  mkWorld (registry w) t (hourlyCredits w) (oracle w) (log w).
Definition setCreditsState (c : CreditsState) (w : World) : World :=
  mkWorld (registry w) (treasury w) c (oracle w) (log w).
Definition setOracleState (o : OracleState) (w : World) : World :=
  mkWorld (registry w) (treasury w) (hourlyCredits w) o (log w).

(** ** The chain environment

    What the contracts take from outside the repository: the hash function,
    signature recovery, and the receiver check of the ERC-1155 library. *)

Class Chain : Type := {
  (** [keccak256(abi.encodePacked(msg.sender, systemIdHash, block.timestamp))] *)
  keccakProducerId : address -> bytes32 -> uint -> bytes32;
  (** [keccak256(abi.encodePacked(bytes1(0x01), oracle, producerId, hourId))] *)
  keccakClaimKey : address -> bytes32 -> uint -> bytes32;
  (** [keccak256(abi.encodePacked(energyWh, evidenceRoot))] *)
  keccakValue : uint -> bytes32 -> bytes32;
  (** [ECDSA.recover] of the signed digest
      [(chainid, oracle, producerId, hourId, energyWh, evidenceRoot)] *)
  ecrecover : address -> bytes32 -> uint -> uint -> bytes32 -> Z -> address;
  (** ERC-1155 acceptance check of the receiving account *)
  acceptsCredits : address -> bool
}.

(** ** Storage arrays *)

Definition array_get {A : Type} (l : list A) (i : Z) : Result A :=
  match l !! Z.to_nat i with
  | Some x => Ok x
  | None => Revert PanicIndex
  end.

Definition array_set {A : Type} (l : list A) (i : Z) (x : A) : Result (list A) :=
  if i <? Z.of_nat (length l) then Ok (<[Z.to_nat i := x]> l) else Revert PanicIndex.

Definition array_pop {A : Type} (l : list A) : Result (list A) :=
  match l with
  | [] => Revert PanicIndex
  | _ :: _ => Ok (take (length l - 1)%nat l)
  end.

(** ** Registry.sol *)

Module Registry.

(** Field updates of the storage records. *)
Definition set_producers (x : gmap Z Producer) (r : RegistryState) : RegistryState :=
  mkRegistry (registryOwner r) x (_systemIdRegistered r) (_verifiers r)
    (_activeVerifiers r) (_activeVerifierIndex r) (_claimKeyToSnapshotId r)
    (_snapshots r) (_nextSnapshotId r) (registryProductionOracle r)
    (registryConsumptionOracle r) (registryQuorumBps r) (registryClaimWindow r)
    (minStake r) (permissionedMode r).
Definition set_systemIdRegistered (x : gmap Z bool) (r : RegistryState) : RegistryState :=
  mkRegistry (registryOwner r) (_producers r) x (_verifiers r)
    (_activeVerifiers r) (_activeVerifierIndex r) (_claimKeyToSnapshotId r)
    (_snapshots r) (_nextSnapshotId r) (registryProductionOracle r)
    (registryConsumptionOracle r) (registryQuorumBps r) (registryClaimWindow r)
    (minStake r) (permissionedMode r).
Definition set_verifiers (x : gmap Z Verifier) (r : RegistryState) : RegistryState :=
  mkRegistry (registryOwner r) (_producers r) (_systemIdRegistered r) x
    (_activeVerifiers r) (_activeVerifierIndex r) (_claimKeyToSnapshotId r)
    (_snapshots r) (_nextSnapshotId r) (registryProductionOracle r)
    (registryConsumptionOracle r) (registryQuorumBps r) (registryClaimWindow r)
    (minStake r) (permissionedMode r).
Definition set_activeVerifiers (x : list Z) (r : RegistryState) : RegistryState :=
  mkRegistry (registryOwner r) (_producers r) (_systemIdRegistered r) (_verifiers r)
    x (_activeVerifierIndex r) (_claimKeyToSnapshotId r)
    (_snapshots r) (_nextSnapshotId r) (registryProductionOracle r)
    (registryConsumptionOracle r) (registryQuorumBps r) (registryClaimWindow r)
    (minStake r) (permissionedMode r).
Definition set_activeVerifierIndex (x : gmap Z Z) (r : RegistryState) : RegistryState :=
  mkRegistry (registryOwner r) (_producers r) (_systemIdRegistered r) (_verifiers r)
    (_activeVerifiers r) x (_claimKeyToSnapshotId r)
    (_snapshots r) (_nextSnapshotId r) (registryProductionOracle r)
    (registryConsumptionOracle r) (registryQuorumBps r) (registryClaimWindow r)
    (minStake r) (permissionedMode r).
Definition set_snapshot (claimKey id next : Z) (s : Snapshot) (r : RegistryState)
  : RegistryState :=
  mkRegistry (registryOwner r) (_producers r) (_systemIdRegistered r) (_verifiers r)
    (_activeVerifiers r) (_activeVerifierIndex r)
    (<[claimKey := id]> (_claimKeyToSnapshotId r))
    (<[id := s]> (_snapshots r)) next (registryProductionOracle r)
    (registryConsumptionOracle r) (registryQuorumBps r) (registryClaimWindow r)
    (minStake r) (permissionedMode r).
Definition set_config (po co q cw ms : Z) (pm : bool) (r : RegistryState) : RegistryState :=
  mkRegistry (registryOwner r) (_producers r) (_systemIdRegistered r) (_verifiers r)
    (_activeVerifiers r) (_activeVerifierIndex r) (_claimKeyToSnapshotId r)
    (_snapshots r) (_nextSnapshotId r) po co q cw ms pm.

Definition set_stake (x : Z) (v : Verifier) : Verifier :=
  mkVerifier x (faults v) (active v) (allowlisted v).
Definition set_faults (x : Z) (v : Verifier) : Verifier :=
  mkVerifier (stake v) x (active v) (allowlisted v).
Definition set_active (x : bool) (v : Verifier) : Verifier :=
  mkVerifier (stake v) (faults v) x (allowlisted v).
Definition set_allowlisted (x : bool) (v : Verifier) : Verifier :=
  mkVerifier (stake v) (faults v) (active v) x.

Section Functions.
Context `{Chain}.

Definition onlyOwner (w : World) (sender : address) : Result unit :=
  require (sender =? registryOwner (registry w)) OwnableUnauthorizedAccount.

Definition onlyAuthorizedOracle (w : World) (sender : address) : Result unit :=
  require ((sender =? registryProductionOracle (registry w))
           || (sender =? registryConsumptionOracle (registry w)))
          OnlyAuthorizedOracle.

(** [_verifiers[verifier]] read and written as a whole struct. *)
Definition getVerifier (w : World) (verifier : address) : Verifier :=
  sload noVerifier (_verifiers (registry w)) verifier.

Definition storeVerifier (verifier : address) (v : Verifier) (w : World) : World :=
  setRegistryState
    (set_verifiers (<[verifier := v]> (_verifiers (registry w))) (registry w)) w.

(** *** Producers *)

Definition registerProducer (w : World) (sender now : Z)
    (systemIdHash metaHash payoutAddr : Z) : Result (World * bytes32) :=
  let r := registry w in
  _ <- require (negb (payoutAddr =? 0)) ZeroAddress ;;
  _ <- require (negb (sload false (_systemIdRegistered r) systemIdHash))
               SystemAlreadyRegistered ;;
  let producerId := keccakProducerId sender systemIdHash now in
  _ <- require (producerOwner (sload noProducer (_producers r) producerId) =? 0)
               ProducerAlreadyRegistered ;;
  let p := mkProducer producerId systemIdHash metaHash payoutAddr sender true in
  let r1 := set_producers (<[producerId := p]> (_producers r)) r in
  let r2 := set_systemIdRegistered
              (<[systemIdHash := true]> (_systemIdRegistered r1)) r1 in
  Ok (emit (ProducerRegistered producerId systemIdHash sender metaHash payoutAddr)
        (setRegistryState r2 w), producerId).

Definition getProducer (w : World) (producerId : bytes32) : Result Producer :=
  let p := sload noProducer (_producers (registry w)) producerId in
  _ <- require (negb (producerOwner p =? 0)) ProducerNotFound ;;
  Ok p.

(** *** Staking.  [tokenOk] is the outcome of the SEAR token transfer
    ([safeTransferFrom] / [safeTransfer]), decided by the token contract. *)

Definition stakeAsVerifier (w : World) (sender amount : Z) (tokenOk : bool)
  : Result World :=
  _ <- require (negb (amount =? 0)) ZeroAmount ;;
  _ <- require tokenOk ERC20TransferFailed ;;
  let v := getVerifier w sender in
  total <- add UINT256 (stake v) amount ;;
  Ok (emit (VerifierStaked sender amount total)
        (storeVerifier sender (set_stake total v) w)).

Definition unstake (w : World) (sender amount : Z) (tokenOk : bool) : Result World :=
  _ <- require (negb (amount =? 0)) ZeroAmount ;;
  let v := getVerifier w sender in
  _ <- require (negb (active v)) VerifierAlreadyActive ;;
  _ <- require (negb (stake v <? amount)) InsufficientStakeBalance ;;
  rest <- sub (stake v) amount ;;
  _ <- require tokenOk ERC20TransferFailed ;;
  Ok (emit (VerifierUnstaked sender amount rest)
        (storeVerifier sender (set_stake rest v) w)).

Definition activateVerifier (w : World) (sender : address) : Result World :=
  let r := registry w in
  let v := getVerifier w sender in
  _ <- require (negb (active v)) VerifierAlreadyActive ;;
  _ <- require (negb (permissionedMode r && negb (allowlisted v)))
               VerifierNotAllowlisted ;;
  _ <- require (negb (stake v <? minStake r)) InsufficientStake ;;
  let w1 := storeVerifier sender (set_active true v) w in
  let arr := _activeVerifiers r ++ [sender] in
  let r1 := set_activeVerifiers arr (registry w1) in
  let r2 := set_activeVerifierIndex
              (<[sender := Z.of_nat (length arr)]> (_activeVerifierIndex r1)) r1 in
  Ok (emit (VerifierActivated sender) (setRegistryState r2 w1)).

Definition deactivateVerifier (w : World) (sender : address) : Result World :=
  let r := registry w in
  let v := getVerifier w sender in
  _ <- require (active v) VerifierNotActive ;;
  let w1 := storeVerifier sender (set_active false v) w in
  index <- sub (sload 0 (_activeVerifierIndex r) sender) 1 ;;
  lastIndex <- sub (Z.of_nat (length (_activeVerifiers r))) 1 ;;
  r2 <- (if negb (index =? lastIndex) then
           lastVerifier <- array_get (_activeVerifiers r) lastIndex ;;
           arr <- array_set (_activeVerifiers r) index lastVerifier ;;
           index1 <- add UINT256 index 1 ;;
           let r1 := set_activeVerifiers arr (registry w1) in
           Ok (set_activeVerifierIndex
                 (<[lastVerifier := index1]> (_activeVerifierIndex r1)) r1)
         else Ok (registry w1)) ;;
  arr <- array_pop (_activeVerifiers r2) ;;
  let r3 := set_activeVerifiers arr r2 in
  let r4 := set_activeVerifierIndex (delete sender (_activeVerifierIndex r3)) r3 in
  Ok (emit (VerifierDeactivated sender) (setRegistryState r4 w1)).

Definition getActiveVerifiers (w : World) : list address :=
  _activeVerifiers (registry w).

(** *** Allowlist *)

Definition addToAllowlist (w : World) (sender verifier : address) : Result World :=
  _ <- onlyOwner w sender ;;
  _ <- require (negb (verifier =? 0)) ZeroAddress ;;
  Ok (emit (VerifierAllowlisted verifier)
        (storeVerifier verifier (set_allowlisted true (getVerifier w verifier)) w)).

Definition removeFromAllowlist (w : World) (sender verifier : address) : Result World :=
  _ <- onlyOwner w sender ;;
  Ok (emit (VerifierRemovedFromAllowlist verifier)
        (storeVerifier verifier (set_allowlisted false (getVerifier w verifier)) w)).

Definition configure (w : World) (f : RegistryState -> RegistryState) : World :=
  setRegistryState (f (registry w)) w.

Definition setPermissionedMode (w : World) (sender : address) (enabled : bool)
  : Result World :=
  _ <- onlyOwner w sender ;;
  Ok (configure w (fun r =>
        set_config (registryProductionOracle r) (registryConsumptionOracle r)
          (registryQuorumBps r) (registryClaimWindow r) (minStake r) enabled r)).

Definition setQuorumBps (w : World) (sender bps : Z) : Result World :=
  _ <- onlyOwner w sender ;;
  _ <- require (negb ((bps =? 0) || (10000 <? bps))) InvalidQuorumBps ;;
  Ok (emit (QuorumBpsUpdated (registryQuorumBps (registry w)) bps)
        (configure w (fun r =>
           set_config (registryProductionOracle r) (registryConsumptionOracle r)
             bps (registryClaimWindow r) (minStake r) (permissionedMode r) r))).

Definition setClaimWindow (w : World) (sender seconds_ : Z) : Result World :=
  _ <- onlyOwner w sender ;;
  Ok (emit (ClaimWindowUpdated (registryClaimWindow (registry w)) seconds_)
        (configure w (fun r =>
           set_config (registryProductionOracle r) (registryConsumptionOracle r)
             (registryQuorumBps r) seconds_ (minStake r) (permissionedMode r) r))).

Definition setMinStake (w : World) (sender amount : Z) : Result World :=
  _ <- onlyOwner w sender ;;
  Ok (configure w (fun r =>
        set_config (registryProductionOracle r) (registryConsumptionOracle r)
          (registryQuorumBps r) (registryClaimWindow r) amount (permissionedMode r) r)).

Definition setProductionOracle (w : World) (sender oracle_ : address) : Result World :=
  _ <- onlyOwner w sender ;;
  Ok (emit (ProductionOracleUpdated (registryProductionOracle (registry w)) oracle_)
        (configure w (fun r =>
           set_config oracle_ (registryConsumptionOracle r)
             (registryQuorumBps r) (registryClaimWindow r) (minStake r)
             (permissionedMode r) r))).

Definition setConsumptionOracle (w : World) (sender oracle_ : address) : Result World :=
  _ <- onlyOwner w sender ;;
  Ok (emit (ConsumptionOracleUpdated (registryConsumptionOracle (registry w)) oracle_)
        (configure w (fun r =>
           set_config (registryProductionOracle r) oracle_
             (registryQuorumBps r) (registryClaimWindow r) (minStake r)
             (permissionedMode r) r))).

(** *** Snapshots *)

(** One comparison of the exchange sort:
    [if (uint160(sorted[i]) > uint160(sorted[j])) swap].  Both indices are
    below the length wherever the loops of [_sortAddresses] call it. *)
Definition compareSwap (i j : nat) (sorted : list Z) : list Z :=
  match sorted !! i, sorted !! j with
  | Some a, Some b => if b <? a then <[j := a]> (<[i := b]> sorted) else sorted
  | _, _ => sorted
  end.

(** [for (j = i + 1; j < sorted.length; j++)] *)
Definition sortInner (i : nat) (sorted : list Z) : list Z :=
  foldl (fun acc j => compareSwap i j acc) sorted
        (seq (S i) (length sorted - S i)).

(** [for (i = 0; i < sorted.length; i++)] *)
Definition _sortAddresses (arr : list Z) : list Z :=
  foldl (fun acc i => sortInner i acc) arr (seq 0 (length arr)).

Definition createSnapshot (w : World) (sender now claimKey : Z)
  : Result (World * uint) :=
  let r := registry w in
  _ <- onlyAuthorizedOracle w sender ;;
  _ <- require (sload 0 (_claimKeyToSnapshotId r) claimKey =? 0)
               SnapshotAlreadyExists ;;
  _ <- require (negb (Z.of_nat (length (_activeVerifiers r)) =? 0))
               NoActiveVerifiers ;;
  let snapshotId := _nextSnapshotId r in
  next <- add UINT256 snapshotId 1 ;;
  let sortedVerifiers := _sortAddresses (_activeVerifiers r) in
  let r1 := set_snapshot claimKey snapshotId next
              (mkSnapshot sortedVerifiers now) r in
  Ok (emit (SnapshotCreated claimKey snapshotId
              (Z.of_nat (length sortedVerifiers)))
        (setRegistryState r1 w), snapshotId).

Definition getSnapshotId (w : World) (claimKey : bytes32) : uint :=
  sload 0 (_claimKeyToSnapshotId (registry w)) claimKey.

Definition getSnapshotVerifiers (w : World) (snapshotId : uint) : list address :=
  verifiers (sload noSnapshot (_snapshots (registry w)) snapshotId).

Definition getSnapshotCount (w : World) (snapshotId : uint) : uint :=
  Z.of_nat (length (getSnapshotVerifiers w snapshotId)).

(** The scan [for (i = 0; i < verifiers.length; i++) if (verifiers[i] == verifier)]. *)
Fixpoint scanIndex (verifier : address) (vs : list address) (i : Z) : option Z :=
  match vs with
  | [] => None
  | x :: rest => if x =? verifier then Some i else scanIndex verifier rest (i + 1)
  end.

Definition getVerifierIndex (w : World) (snapshotId : uint) (verifier : address)
  : Result Z :=
  match scanIndex verifier (getSnapshotVerifiers w snapshotId) 0 with
  | Some i => Ok (to_uint8 i)
  | None => Revert VerifierNotInSnapshot
  end.

(** *** Fault and stake management (no access control in the source) *)

Definition incrementFaults (w : World) (verifier : address) : Result World :=
  let v := getVerifier w verifier in
  f <- add UINT256 (faults v) 1 ;;
  Ok (storeVerifier verifier (set_faults f v) w).

Definition reduceStake (w : World) (verifier : address) (amount : uint)
  : Result World :=
  let v := getVerifier w verifier in
  if amount <=? stake v then
    rest <- sub (stake v) amount ;;
    Ok (storeVerifier verifier (set_stake rest v) w)
  else
    Ok (storeVerifier verifier (set_stake 0 v) w).

End Functions.
End Registry.

(** ** Treasury.sol *)

Module Treasury.

Definition set_rewardPool (x : Z) (t : TreasuryState) : TreasuryState :=
  mkTreasury (treasuryOwner t) (treasuryProductionOracle t)
    (treasuryConsumptionOracle t) x (rewardPerWhWei t) (slashBps t)
    (faultThreshold t) (slashingDisabled t) (verifierFaults t)
    (pendingRewards t) (isSlashed t).
Definition set_verifierFaults (x : gmap Z Z) (t : TreasuryState) : TreasuryState :=
  mkTreasury (treasuryOwner t) (treasuryProductionOracle t)
    (treasuryConsumptionOracle t) (rewardPool t) (rewardPerWhWei t) (slashBps t)
    (faultThreshold t) (slashingDisabled t) x (pendingRewards t) (isSlashed t).
Definition set_pendingRewards (x : gmap Z Z) (t : TreasuryState) : TreasuryState :=
  mkTreasury (treasuryOwner t) (treasuryProductionOracle t)
    (treasuryConsumptionOracle t) (rewardPool t) (rewardPerWhWei t) (slashBps t)
    (faultThreshold t) (slashingDisabled t) (verifierFaults t) x (isSlashed t).
Definition set_isSlashed (x : gmap Z bool) (t : TreasuryState) : TreasuryState :=
  mkTreasury (treasuryOwner t) (treasuryProductionOracle t)
    (treasuryConsumptionOracle t) (rewardPool t) (rewardPerWhWei t) (slashBps t)
    (faultThreshold t) (slashingDisabled t) (verifierFaults t)
    (pendingRewards t) x.
Definition set_config (po co rate bps threshold : Z) (disabled : bool)
    (t : TreasuryState) : TreasuryState :=
  mkTreasury (treasuryOwner t) po co (rewardPool t) rate bps threshold disabled
    (verifierFaults t) (pendingRewards t) (isSlashed t).

Definition onlyOwner (w : World) (sender : address) : Result unit :=
  require (sender =? treasuryOwner (treasury w)) OwnableUnauthorizedAccount.

Definition onlyAuthorizedOracle (w : World) (sender : address) : Result unit :=
  require ((sender =? treasuryProductionOracle (treasury w))
           || (sender =? treasuryConsumptionOracle (treasury w)))
          OnlyAuthorizedOracle.

Definition update (w : World) (f : TreasuryState -> TreasuryState) : World :=
  setTreasuryState (f (treasury w)) w.

(** *** Bitmaps *)

(** [while (bitmap != 0) { count += bitmap & 1; bitmap >>= 1; }] on a
    [uint16]: the loop ends after at most 16 shifts, which is the fuel. *)
Fixpoint popcountLoop (fuel : nat) (bitmap count : Z) : Z :=
  match fuel with
  | O => count
  | S fuel' =>
      if bitmap =? 0 then count
      else popcountLoop fuel' (Z.shiftr bitmap 1) (count + Z.land bitmap 1)
  end.

Definition _popcount (bitmap : Z) : Z := popcountLoop 16 bitmap 0.

(** [(bitmap & (1 << i)) != 0] *)
Definition bitSet (bitmap i : Z) : bool :=
  negb (Z.land bitmap (Z.shiftl 1 i) =? 0).

(** *** Rewards *)

(** [for (i = 0; i < verifiers.length && i < 16; i++)], started at index [i]
    with the verifiers from that index on. *)
Fixpoint rewardLoop (winnerBitmap rewardPerWinner i : Z) (vs : list address)
    (pending : gmap Z Z) (distributed : Z) : Result (gmap Z Z * Z) :=
  match vs with
  | [] => Ok (pending, distributed)
  | v :: rest =>
      if i <? 16 then
        if bitSet winnerBitmap i then
          p <- add UINT256 (sload 0 pending v) rewardPerWinner ;;
          d <- add UINT256 distributed rewardPerWinner ;;
          rewardLoop winnerBitmap rewardPerWinner (i + 1) rest (<[v := p]> pending) d
        else
          rewardLoop winnerBitmap rewardPerWinner (i + 1) rest pending distributed
      else Ok (pending, distributed)
  end.

Definition distributeRewards (w : World) (sender : address)
    (winnerBitmap snapshotId energyWh : Z) : Result World :=
  _ <- onlyAuthorizedOracle w sender ;;
  let winnerCount := _popcount winnerBitmap in
  if winnerCount =? 0 then
    Ok (emit (RewardsDistributed winnerBitmap snapshotId 0) w)
  else
    totalReward <- mul UINT256 energyWh (rewardPerWhWei (treasury w)) ;;
    if totalReward =? 0 then
      Ok (emit (RewardsDistributed winnerBitmap snapshotId 0) w)
    else
      _ <- require (negb (rewardPool (treasury w) <? totalReward))
                   InsufficientRewardPool ;;
      let rewardPerWinner := totalReward / winnerCount in
      let verifiers := Registry.getSnapshotVerifiers w snapshotId in
      r <- rewardLoop winnerBitmap rewardPerWinner 0 verifiers
             (pendingRewards (treasury w)) 0 ;;
      let w1 := update w (set_pendingRewards (fst r)) in
      pool <- sub (rewardPool (treasury w1)) (snd r) ;;
      Ok (emit (RewardsDistributed winnerBitmap snapshotId (snd r))
            (update w1 (set_rewardPool pool))).

Definition claimRewards (w : World) (sender : address) (tokenOk : bool)
  : Result World :=
  let amount := sload 0 (pendingRewards (treasury w)) sender in
  _ <- require (negb (amount =? 0)) ZeroAmount ;;
  _ <- require tokenOk ERC20TransferFailed ;;
  Ok (update w (fun t => set_pendingRewards (<[sender := 0]> (pendingRewards t)) t)).

Definition getPendingRewards (w : World) (verifier : address) : uint :=
  sload 0 (pendingRewards (treasury w)) verifier.

(** *** Faults and slashing *)

Definition getFaults (w : World) (verifier : address) : uint :=
  sload 0 (verifierFaults (treasury w)) verifier.

Definition getSlashed (w : World) (verifier : address) : bool :=
  sload false (isSlashed (treasury w)) verifier.

Definition _slash (w : World) (verifier : address) : Result World :=
  let w1 := update w (fun t => set_isSlashed (<[verifier := true]> (isSlashed t)) t) in
  let stake := stake (Registry.getVerifier w1 verifier) in
  product <- mul UINT256 stake (slashBps (treasury w1)) ;;
  let slashAmount := product / 10000 in
  w3 <- (if 0 <? slashAmount then
           w2 <- Registry.reduceStake w1 verifier slashAmount ;;
           pool <- add UINT256 (rewardPool (treasury w2)) slashAmount ;;
           Ok (update w2 (set_rewardPool pool))
         else Ok w1) ;;
  Ok (emit (Slashed verifier slashAmount) w3).

(** The body shared by [recordFault] and by the loop of [recordFaults]:
    count the fault, emit [FaultRecorded], auto-slash at the threshold. *)
Definition countFault (w : World) (verifier : address) (faultType : FaultType)
  : Result World :=
  f <- add UINT256 (getFaults w verifier) 1 ;;
  let w1 := update w (fun t =>
              set_verifierFaults (<[verifier := f]> (verifierFaults t)) t) in
  let w2 := emit (FaultRecorded verifier faultType (getFaults w1 verifier)) w1 in
  if negb (slashingDisabled (treasury w2))
     && (faultThreshold (treasury w2) <=? getFaults w2 verifier)
     && negb (getSlashed w2 verifier)
  then _slash w2 verifier
  else Ok w2.

Definition recordFault (w : World) (sender verifier : address)
    (faultType : FaultType) : Result World :=
  _ <- onlyAuthorizedOracle w sender ;;
  countFault w verifier faultType.

(** [for (i = 0; i < verifiers.length && i < 16; i++)] of [recordFaults]. *)
Fixpoint faultLoop (loserBitmap : Z) (faultType : FaultType) (i : Z)
    (vs : list address) (w : World) : Result World :=
  match vs with
  | [] => Ok w
  | v :: rest =>
      if i <? 16 then
        if bitSet loserBitmap i then
          w1 <- countFault w v faultType ;;
          faultLoop loserBitmap faultType (i + 1) rest w1
        else faultLoop loserBitmap faultType (i + 1) rest w
      else Ok w
  end.

Definition recordFaults (w : World) (sender : address)
    (loserBitmap snapshotId : Z) (faultType : FaultType) : Result World :=
  _ <- onlyAuthorizedOracle w sender ;;
  if loserBitmap =? 0 then Ok w
  else
    let verifiers := Registry.getSnapshotVerifiers w snapshotId in
    faultLoop loserBitmap faultType 0 verifiers w.

Definition slash (w : World) (verifier : address) : Result World :=
  _ <- require (negb (getFaults w verifier <? faultThreshold (treasury w)))
               FaultThresholdNotReached ;;
  _ <- require (negb (getSlashed w verifier)) AlreadySlashed ;;
  if slashingDisabled (treasury w) then Ok w
  else _slash w verifier.

(** *** Pool management *)

Definition deposit (w : World) (sender amount : Z) (tokenOk : bool) : Result World :=
  _ <- require (negb (amount =? 0)) ZeroAmount ;;
  _ <- require tokenOk ERC20TransferFailed ;;
  pool <- add UINT256 (rewardPool (treasury w)) amount ;;
  Ok (emit (Deposited sender amount) (update w (set_rewardPool pool))).

Definition withdraw (w : World) (sender amount : Z) (tokenOk : bool) : Result World :=
  _ <- onlyOwner w sender ;;
  _ <- require (negb (amount =? 0)) ZeroAmount ;;
  _ <- require (negb (rewardPool (treasury w) <? amount)) InsufficientPoolBalance ;;
  pool <- sub (rewardPool (treasury w)) amount ;;
  _ <- require tokenOk ERC20TransferFailed ;;
  Ok (emit (Withdrawn sender amount) (update w (set_rewardPool pool))).

Definition getRewardPool (w : World) : uint := rewardPool (treasury w).

(** *** Configuration *)

Definition setProductionOracle (w : World) (sender oracle_ : address) : Result World :=
  _ <- onlyOwner w sender ;;
  Ok (update w (fun t =>
        set_config oracle_ (treasuryConsumptionOracle t) (rewardPerWhWei t)
          (slashBps t) (faultThreshold t) (slashingDisabled t) t)).

Definition setConsumptionOracle (w : World) (sender oracle_ : address) : Result World :=
  _ <- onlyOwner w sender ;;
  Ok (update w (fun t =>
        set_config (treasuryProductionOracle t) oracle_ (rewardPerWhWei t)
          (slashBps t) (faultThreshold t) (slashingDisabled t) t)).

Definition setDisableSlashing (w : World) (sender : address) (disabled : bool)
  : Result World :=
  _ <- onlyOwner w sender ;;
  Ok (emit (SlashingDisabledUpdated disabled)
        (update w (fun t =>
           set_config (treasuryProductionOracle t) (treasuryConsumptionOracle t)
             (rewardPerWhWei t) (slashBps t) (faultThreshold t) disabled t))).

Definition setRewardPerWhWei (w : World) (sender weiPerWh : Z) : Result World :=
  _ <- onlyOwner w sender ;;
  Ok (emit (RewardPerWhWeiUpdated (rewardPerWhWei (treasury w)) weiPerWh)
        (update w (fun t =>
           set_config (treasuryProductionOracle t) (treasuryConsumptionOracle t)
             weiPerWh (slashBps t) (faultThreshold t) (slashingDisabled t) t))).

Definition setSlashBps (w : World) (sender bps : Z) : Result World :=
  _ <- onlyOwner w sender ;;
  Ok (emit (SlashBpsUpdated (slashBps (treasury w)) bps)
        (update w (fun t =>
           set_config (treasuryProductionOracle t) (treasuryConsumptionOracle t)
             (rewardPerWhWei t) bps (faultThreshold t) (slashingDisabled t) t))).

Definition setFaultThreshold (w : World) (sender threshold : Z) : Result World :=
  _ <- onlyOwner w sender ;;
  Ok (emit (FaultThresholdUpdated (faultThreshold (treasury w)) threshold)
        (update w (fun t =>
           set_config (treasuryProductionOracle t) (treasuryConsumptionOracle t)
             (rewardPerWhWei t) (slashBps t) threshold (slashingDisabled t) t))).

End Treasury.

(** ** HourlyCredits.sol *)

Module HourlyCredits.
Section Functions.
Context `{Chain}.

Definition balanceOf (w : World) (account : address) (hourId : uint) : uint :=
  sload 0 (balances (hourlyCredits w)) (hourId, account).

(** [mint] is [onlyProductionOracle]; then ERC-1155 [_mint]: the zero
    receiver and a receiver that refuses the token revert, the balance
    addition is checked. *)
Definition mint (w : World) (sender to hourId amountWh claimKey : Z) : Result World :=
  let c := hourlyCredits w in
  _ <- require (sender =? creditsProductionOracle c) OnlyProductionOracle ;;
  _ <- require (negb (to =? 0)) ERC1155InvalidReceiver ;;
  b <- add UINT256 (balanceOf w to hourId) amountWh ;;
  _ <- require (acceptsCredits to) ERC1155InvalidReceiver ;;
  Ok (emit (HCNMinted hourId to amountWh claimKey)
        (setCreditsState
           (mkCredits (creditsOwner c) (creditsProductionOracle c)
              (<[(hourId, to) := b]> (balances c))) w)).

Definition setProductionOracle (w : World) (sender oracle_ : address) : Result World :=
  let c := hourlyCredits w in
  _ <- require (sender =? creditsOwner c) OwnableUnauthorizedAccount ;;
  _ <- require (negb (oracle_ =? 0)) ZeroAddress ;;
  Ok (emit (ProductionOracleUpdated (creditsProductionOracle c) oracle_)
        (setCreditsState (mkCredits (creditsOwner c) oracle_ (balances c)) w)).
End Functions.
End HourlyCredits.

(** ** ProductionOracle.sol *)

Module ProductionOracle.

Definition set_claimBuckets (x : gmap Z ClaimBucket) (o : OracleState) : OracleState :=
  mkOracle (this o) (oracleOwner o) (claimWindow o) (quorumBps o) (baselineMode o)
    (singleVerifierOverride o) x (_valueSubmissions o) (_hasSubmitted o)
    (_submittedEvidenceRoots o) (_claimValueHashes o).
Definition set_valueSubmissions (x : gmap (Z * Z) ValueSubmission) (o : OracleState)
  : OracleState :=
  mkOracle (this o) (oracleOwner o) (claimWindow o) (quorumBps o) (baselineMode o)
    (singleVerifierOverride o) (_claimBuckets o) x (_hasSubmitted o)
    (_submittedEvidenceRoots o) (_claimValueHashes o).
Definition set_hasSubmitted (x : gmap (Z * Z) bool) (o : OracleState) : OracleState :=
  mkOracle (this o) (oracleOwner o) (claimWindow o) (quorumBps o) (baselineMode o)
    (singleVerifierOverride o) (_claimBuckets o) (_valueSubmissions o) x
    (_submittedEvidenceRoots o) (_claimValueHashes o).
Definition set_submittedEvidenceRoots (x : gmap (Z * Z) bool) (o : OracleState)
  : OracleState :=
  mkOracle (this o) (oracleOwner o) (claimWindow o) (quorumBps o) (baselineMode o)
    (singleVerifierOverride o) (_claimBuckets o) (_valueSubmissions o)
    (_hasSubmitted o) x (_claimValueHashes o).
Definition set_claimValueHashes (x : gmap Z (list Z)) (o : OracleState) : OracleState :=
  mkOracle (this o) (oracleOwner o) (claimWindow o) (quorumBps o) (baselineMode o)
    (singleVerifierOverride o) (_claimBuckets o) (_valueSubmissions o)
    (_hasSubmitted o) (_submittedEvidenceRoots o) x.
Definition set_config (cw q : Z) (bm : bool) (svo : Z) (o : OracleState) : OracleState :=
  mkOracle (this o) (oracleOwner o) cw q bm svo (_claimBuckets o)
    (_valueSubmissions o) (_hasSubmitted o) (_submittedEvidenceRoots o)
    (_claimValueHashes o).

(** Writes through the storage pointer [bucket]. *)
Definition openBucket (id dl : Z) (b : ClaimBucket) : ClaimBucket :=
  mkBucket dl id (submissionCount b) (finalized b) (disputed b)
    (verifiedEnergyWh b) (maxSubmittedEnergyWh b) (winningValueHash b)
    (evidenceRoot b) (allSubmittersBitmap b) (winningVerifierBitmap b).
Definition set_allSubmittersBitmap (x : Z) (b : ClaimBucket) : ClaimBucket :=
  mkBucket (deadline b) (snapshotId b) (submissionCount b) (finalized b) (disputed b)
    (verifiedEnergyWh b) (maxSubmittedEnergyWh b) (winningValueHash b)
    (evidenceRoot b) x (winningVerifierBitmap b).
Definition set_maxSubmittedEnergyWh (x : Z) (b : ClaimBucket) : ClaimBucket :=
  mkBucket (deadline b) (snapshotId b) (submissionCount b) (finalized b) (disputed b)
    (verifiedEnergyWh b) x (winningValueHash b)
    (evidenceRoot b) (allSubmittersBitmap b) (winningVerifierBitmap b).
Definition set_submissionCount (x : Z) (b : ClaimBucket) : ClaimBucket :=
  mkBucket (deadline b) (snapshotId b) x (finalized b) (disputed b)
    (verifiedEnergyWh b) (maxSubmittedEnergyWh b) (winningValueHash b)
    (evidenceRoot b) (allSubmittersBitmap b) (winningVerifierBitmap b).
Definition markDisputed (b : ClaimBucket) : ClaimBucket :=
  mkBucket (deadline b) (snapshotId b) (submissionCount b) false true
    (verifiedEnergyWh b) (maxSubmittedEnergyWh b) (winningValueHash b)
    (evidenceRoot b) (allSubmittersBitmap b) (winningVerifierBitmap b).
Definition markFinalized (wh valueHash root winnerBitmap : Z) (b : ClaimBucket)
  : ClaimBucket :=
  mkBucket (deadline b) (snapshotId b) (submissionCount b) true false
    wh (maxSubmittedEnergyWh b) valueHash root (allSubmittersBitmap b) winnerBitmap.

Section Functions.
Context `{Chain}.

Definition onlyOwner (w : World) (sender : address) : Result unit :=
  require (sender =? oracleOwner (oracle w)) OwnableUnauthorizedAccount.

Definition update (w : World) (f : OracleState -> OracleState) : World :=
  setOracleState (f (oracle w)) w.

(** *** Views *)

Definition getClaimKey (w : World) (producerId_ hourId : Z) : bytes32 :=
  keccakClaimKey (this (oracle w)) producerId_ hourId.

Definition getClaimBucket (w : World) (claimKey : bytes32) : ClaimBucket :=
  sload noBucket (_claimBuckets (oracle w)) claimKey.

Definition hasSubmitted (w : World) (claimKey : bytes32) (verifier : address) : bool :=
  sload false (_hasSubmitted (oracle w)) (claimKey, verifier).

Definition isFinalized (w : World) (claimKey : bytes32) : bool :=
  finalized (getClaimBucket w claimKey).

Definition getValueSubmissions (w : World) (claimKey valueHash : bytes32)
  : ValueSubmission :=
  sload noValueSubmission (_valueSubmissions (oracle w)) (claimKey, valueHash).

Definition isEvidenceRootSubmitted (w : World) (claimKey root : bytes32) : bool :=
  sload false (_submittedEvidenceRoots (oracle w)) (claimKey, root).

Definition claimValueHashes (w : World) (claimKey : bytes32) : list bytes32 :=
  sload [] (_claimValueHashes (oracle w)) claimKey.

(** *** Storage writes *)

Definition storeBucket (claimKey : bytes32) (b : ClaimBucket) (w : World) : World :=
  update w (fun o => set_claimBuckets (<[claimKey := b]> (_claimBuckets o)) o).

Definition storeValueSubmission (claimKey valueHash : bytes32) (v : ValueSubmission)
    (w : World) : World :=
  update w (fun o =>
    set_valueSubmissions (<[(claimKey, valueHash) := v]> (_valueSubmissions o)) o).

Definition markSubmitted (claimKey : bytes32) (verifier : address) (w : World) : World :=
  update w (fun o =>
    set_hasSubmitted (<[(claimKey, verifier) := true]> (_hasSubmitted o)) o).

Definition markEvidenceRoot (claimKey root : bytes32) (w : World) : World :=
  update w (fun o =>
    set_submittedEvidenceRoots
      (<[(claimKey, root) := true]> (_submittedEvidenceRoots o)) o).

Definition pushValueHash (claimKey valueHash : bytes32) (w : World) : World :=
  update w (fun o =>
    set_claimValueHashes
      (<[claimKey := sload [] (_claimValueHashes o) claimKey ++ [valueHash]]>
         (_claimValueHashes o)) o).

(** *** Submission *)

Definition _validateSignature (w : World)
    (producerId_ hourId wh root signature : Z) : Result address :=
  let recovered := ecrecover (this (oracle w)) producerId_ hourId wh root signature in
  _ <- require (negb (recovered =? 0)) InvalidSignature ;;
  Ok recovered.

Definition _isProducerRegistered (w : World) (producerId_ : bytes32) : bool :=
  match Registry.getProducer w producerId_ with
  | Ok _ => true
  | Revert _ => false
  end.

Definition _finalizeWithValue (w : World)
    (claimKey producerId_ hourId wh root winnerBitmap : Z) : Result World :=
  let w1 := storeBucket claimKey
              (markFinalized wh (keccakValue wh root) root winnerBitmap
                 (getClaimBucket w claimKey)) w in
  producer <- Registry.getProducer w1 producerId_ ;;
  w2 <- HourlyCredits.mint w1 (this (oracle w1)) (payoutAddr producer)
          hourId wh claimKey ;;
  w3 <- Treasury.distributeRewards w2 (this (oracle w2)) winnerBitmap
          (snapshotId (getClaimBucket w2 claimKey)) wh ;;
  Ok (emit (ProductionFinalized claimKey producerId_ hourId wh root) w3).

(** The storage writes of an accepted submission: the statements of the
    [try] block after the duplicate check, up to the
    [ProductionSubmitted] event. *)
Definition recordSubmission (w1 : World)
    (claimKey verifier verifierIndex wh root : Z) : Result World :=
  let bit := to_uint16 (Z.shiftl 1 verifierIndex) in
  let w2 := markSubmitted claimKey verifier w1 in
  let b2 := getClaimBucket w2 claimKey in
  let w3 := storeBucket claimKey
              (set_allSubmittersBitmap
                 (Z.lor (allSubmittersBitmap b2) bit) b2) w2 in
  let valueHash := keccakValue wh root in
  let valueSub := getValueSubmissions w3 claimKey valueHash in
  (* track a new valueHash *)
  let w4 := if count valueSub =? 0
            then pushValueHash claimKey valueHash w3 else w3 in
  let valueSub1 := if count valueSub =? 0
                   then mkValueSubmission (count valueSub)
                          (verifierBitmap valueSub) root wh
                   else valueSub in
  c <- add UINT32 (count valueSub1) 1 ;;
  let valueSub2 := mkValueSubmission c
                     (Z.lor (verifierBitmap valueSub1) bit)
                     (vsEvidenceRoot valueSub1) (energyWh valueSub1) in
  let w5 := storeValueSubmission claimKey valueHash valueSub2 w4 in
  let w6 := markEvidenceRoot claimKey root w5 in
  let b6 := getClaimBucket w6 claimKey in
  let w7 := if maxSubmittedEnergyWh b6 <? wh
            then storeBucket claimKey (set_maxSubmittedEnergyWh wh b6) w6
            else w6 in
  let b7 := getClaimBucket w7 claimKey in
  n <- add UINT32 (submissionCount b7) 1 ;;
  let w8 := storeBucket claimKey (set_submissionCount n b7) w7 in
  Ok (emit (ProductionSubmitted claimKey verifier wh valueHash) w8).

Definition submitProduction (w : World) (sender now : Z)
    (producerId_ hourId wh root signature : Z) : Result World :=
  let self := this (oracle w) in
  let claimKey := getClaimKey w producerId_ hourId in
  _ <- require (negb (finalized (getClaimBucket w claimKey))) ClaimAlreadyFinalized ;;
  _ <- require (_isProducerRegistered w producerId_) ProducerNotRegistered ;;
  verifier <- _validateSignature w producerId_ hourId wh root signature ;;
  _ <- require (active (Registry.getVerifier w verifier)) VerifierNotActive ;;
  (* first submission creates snapshot and sets deadline *)
  w1 <- (if snapshotId (getClaimBucket w claimKey) =? 0 then
           r <- Registry.createSnapshot w self now claimKey ;;
           dl <- add UINT256 now (claimWindow (oracle w)) ;;
           Ok (storeBucket claimKey
                 (openBucket (snd r) dl (getClaimBucket (fst r) claimKey)) (fst r))
         else Ok w) ;;
  if deadline (getClaimBucket w1 claimKey) <? now then
    (* record late submission fault, then revert *)
    _ <- Treasury.recordFault w1 self verifier LateSubmission ;;
    Revert ClaimDeadlinePassed
  else
    match Registry.getVerifierIndex w1
            (snapshotId (getClaimBucket w1 claimKey)) verifier with
    | Revert _ => Revert VerifierNotInSnapshot
    | Ok verifierIndex =>
        if hasSubmitted w1 claimKey verifier then
          _ <- Treasury.recordFault w1 self verifier DuplicateSubmissionFault ;;
          Revert DuplicateSubmission
        else
          w9 <- recordSubmission w1 claimKey verifier verifierIndex wh root ;;
          (* baseline mode with the single verifier: finalize immediately;
             [valueSub] is a storage pointer, read after the update *)
          if baselineMode (oracle w9)
             && negb (singleVerifierOverride (oracle w9) =? 0)
             && (verifier =? singleVerifierOverride (oracle w9))
          then _finalizeWithValue w9 claimKey producerId_ hourId wh root
                 (verifierBitmap
                    (getValueSubmissions w9 claimKey (keccakValue wh root)))
          else Ok w9
    end.

(** *** Finalization *)

(** The loop over [_claimValueHashes[claimKey]]: the running pair
    [(winningValueHash, maxCount)], replaced on a strictly larger count. *)
Definition tallyStep (w : World) (claimKey : bytes32) (acc : Z * Z) (valueHash : Z)
  : Z * Z :=
  let c := count (getValueSubmissions w claimKey valueHash) in
  if snd acc <? c then (valueHash, c) else acc.

Definition findWinner (w : World) (claimKey : bytes32) : Z * Z :=
  foldl (tallyStep w claimKey) (0, 0) (claimValueHashes w claimKey).

(** [(snapshotCount * quorumBps + 9999) / 10000] *)
Definition quorumOf (snapshotCount bps : Z) : Result Z :=
  product <- mul UINT256 snapshotCount bps ;;
  rounded <- add UINT256 product 9999 ;;
  Ok (rounded / 10000).

Definition finalizeProduction (w : World) (sender now : Z)
    (producerId_ hourId : Z) : Result World :=
  let claimKey := getClaimKey w producerId_ hourId in
  let bucket := getClaimBucket w claimKey in
  _ <- require (negb (finalized bucket)) ClaimAlreadyFinalized ;;
  _ <- require (negb ((deadline bucket =? 0) || (now <=? deadline bucket)))
               ClaimDeadlineNotReached ;;
  let snapshotCount := Registry.getSnapshotCount w (snapshotId bucket) in
  quorumRequired <- quorumOf snapshotCount (quorumBps (oracle w)) ;;
  let winner := findWinner w claimKey in
  let quorumReached := quorumRequired <=? snd winner in
  if negb quorumReached then
    Ok (emit (ClaimDisputed claimKey producerId_ hourId)
          (storeBucket claimKey (markDisputed bucket) w))
  else
    let winningSub := getValueSubmissions w claimKey (fst winner) in
    w1 <- _finalizeWithValue w claimKey producerId_ hourId
            (energyWh winningSub) (vsEvidenceRoot winningSub)
            (verifierBitmap winningSub) ;;
    let bucket1 := getClaimBucket w1 claimKey in
    let winningSub1 := getValueSubmissions w1 claimKey (fst winner) in
    let loserBitmap := Z.lxor (allSubmittersBitmap bucket1)
                              (verifierBitmap winningSub1) in
    let loserBitmap := Z.land loserBitmap (allSubmittersBitmap bucket1) in
    if negb (loserBitmap =? 0) then
      Treasury.recordFaults w1 (this (oracle w1)) loserBitmap
        (snapshotId bucket1) WrongValue
    else Ok w1.

Definition forceFinalize (w : World) (sender now : Z)
    (producerId_ hourId wh root : Z) : Result World :=
  _ <- onlyOwner w sender ;;
  let claimKey := getClaimKey w producerId_ hourId in
  let bucket := getClaimBucket w claimKey in
  _ <- require (disputed bucket) ClaimNotDisputed ;;
  _ <- require (negb (now <=? deadline bucket)) ClaimDeadlineNotReached ;;
  _ <- require (negb (maxSubmittedEnergyWh bucket <? wh)) EnergyExceedsMaxSubmitted ;;
  _ <- require (isEvidenceRootSubmitted w claimKey root) EvidenceRootNotSubmitted ;;
  let w1 := storeBucket claimKey
              (markFinalized wh (winningValueHash bucket) root 0 bucket) w in
  producer <- Registry.getProducer w1 producerId_ ;;
  w2 <- HourlyCredits.mint w1 (this (oracle w1)) (payoutAddr producer)
          hourId wh claimKey ;;
  Ok (emit (ProductionFinalized claimKey producerId_ hourId wh root)
        (emit (ForceFinalized claimKey sender wh) w2)).

(** *** Configuration *)

Definition setBaselineMode (w : World) (sender : address) (enabled : bool)
  : Result World :=
  _ <- onlyOwner w sender ;;
  Ok (update w (fun o =>
        set_config (claimWindow o) (quorumBps o) enabled (singleVerifierOverride o) o)).

Definition setSingleVerifierOverride (w : World) (sender verifier : address)
  : Result World :=
  _ <- onlyOwner w sender ;;
  Ok (update w (fun o =>
        set_config (claimWindow o) (quorumBps o) (baselineMode o) verifier o)).

Definition setClaimWindow (w : World) (sender seconds_ : Z) : Result World :=
  _ <- onlyOwner w sender ;;
  Ok (update w (fun o =>
        set_config seconds_ (quorumBps o) (baselineMode o)
          (singleVerifierOverride o) o)).

Definition setQuorumBps (w : World) (sender bps : Z) : Result World :=
  _ <- onlyOwner w sender ;;
  Ok (update w (fun o =>
        set_config (claimWindow o) bps (baselineMode o)
          (singleVerifierOverride o) o)).

End Functions.
End ProductionOracle.

(** ** Transactions

    One [Call] per state-changing external function of the four contracts,
    with the exceptions named here.

    The owner-only setters [setRegistry], [setTreasury] and [setHourlyCredits]
    of the ProductionOracle, which rewire it to other deployments, are left
    out: a [World] holds one deployment of each contract, and the four stay
    wired to each other.  A statement about [reachable] worlds is therefore a
    statement about a deployment whose owner has not rewired the oracle; after
    a rewire the oracle reads the snapshots of another Registry, and what is
    proved here about the bitmaps of a claim no longer applies.

    [burn] of HourlyCredits belongs to the Retirement contract.  The consumer
    side of the Registry ([registerConsumer]) and the Registry's own
    [rewardPerWhWei], [slashBps] and [faultThreshold], storage that none of
    the functions below reads, are left out as well. *)

Inductive Call : Type :=
  (* Registry *)
  | RegisterProducer (systemIdHash metaHash payoutAddr : Z)
  | StakeAsVerifier (amount : Z) (tokenOk : bool)
  | Unstake (amount : Z) (tokenOk : bool)
  | ActivateVerifier
  | DeactivateVerifier
  | AddToAllowlist (verifier : Z)
  | RemoveFromAllowlist (verifier : Z)
  | SetPermissionedMode (enabled : bool)
  | RegistrySetQuorumBps (bps : Z)
  | RegistrySetClaimWindow (seconds_ : Z)
  | SetMinStake (amount : Z)
  | RegistrySetProductionOracle (oracle_ : Z)
  | RegistrySetConsumptionOracle (oracle_ : Z)
  | CreateSnapshot (claimKey : Z)
  | IncrementFaults (verifier : Z)
  | ReduceStake (verifier amount : Z)
  (* Treasury *)
  | DistributeRewards (winnerBitmap snapshotId energyWh : Z)
  | ClaimRewards (tokenOk : bool)
  | RecordFault (verifier : Z) (faultType : FaultType)
  | RecordFaults (loserBitmap snapshotId : Z) (faultType : FaultType)
  | Slash (verifier : Z)
  | Deposit (amount : Z) (tokenOk : bool)
  | Withdraw (amount : Z) (tokenOk : bool)
  | TreasurySetProductionOracle (oracle_ : Z)
  | TreasurySetConsumptionOracle (oracle_ : Z)
  | SetDisableSlashing (disabled : bool)
  | SetRewardPerWhWei (weiPerWh : Z)
  | SetSlashBps (bps : Z)
  | SetFaultThreshold (threshold : Z)
  (* HourlyCredits *)
  | Mint (to hourId amountWh claimKey : Z)
  | CreditsSetProductionOracle (oracle_ : Z)
  (* ProductionOracle *)
  | SubmitProduction (producerId hourId energyWh evidenceRoot signature : Z)
  | FinalizeProduction (producerId hourId : Z)
  | ForceFinalize (producerId hourId energyWh evidenceRoot : Z)
  | SetBaselineMode (enabled : bool)
  | SetSingleVerifierOverride (verifier : Z)
  | OracleSetClaimWindow (seconds_ : Z)
  | OracleSetQuorumBps (bps : Z).

Definition fits (W x : Z) : Prop := 0 <= x < W.

(** The arguments fit their Solidity types. *)
Definition wellTyped (c : Call) : Prop :=
  match c with
  | RegisterProducer s m p => fits UINT256 s /\ fits UINT256 m /\ fits UINT256 p
  | StakeAsVerifier a _ | Unstake a _ | Deposit a _ | Withdraw a _ => fits UINT256 a
  | AddToAllowlist v | RemoveFromAllowlist v | IncrementFaults v | Slash v
  | SetSingleVerifierOverride v => fits UINT256 v
  | RegistrySetQuorumBps x | RegistrySetClaimWindow x | SetMinStake x
  | RegistrySetProductionOracle x | RegistrySetConsumptionOracle x
  | CreateSnapshot x | TreasurySetProductionOracle x
  | TreasurySetConsumptionOracle x | SetRewardPerWhWei x | SetSlashBps x
  | SetFaultThreshold x | CreditsSetProductionOracle x
  | OracleSetClaimWindow x | OracleSetQuorumBps x => fits UINT256 x
  | ReduceStake v a => fits UINT256 v /\ fits UINT256 a
  | DistributeRewards b s e => fits UINT16 b /\ fits UINT256 s /\ fits UINT64 e
  | RecordFault v _ => fits UINT256 v
  | RecordFaults b s _ => fits UINT16 b /\ fits UINT256 s
  | Mint t h a k => fits UINT256 t /\ fits UINT256 h /\ fits UINT256 a /\ fits UINT256 k
  | SubmitProduction p h e r s =>
      fits UINT256 p /\ fits UINT256 h /\ fits UINT64 e /\ fits UINT256 r /\ 0 <= s
  | FinalizeProduction p h => fits UINT256 p /\ fits UINT256 h
  | ForceFinalize p h e r =>
      fits UINT256 p /\ fits UINT256 h /\ fits UINT64 e /\ fits UINT256 r
  | ActivateVerifier | DeactivateVerifier | SetPermissionedMode _ | ClaimRewards _
  | SetDisableSlashing _ | SetBaselineMode _ => True
  end.

Section Transactions.
Context `{Chain}.

(** The call [c] made by [sender] in a block with timestamp [now]. *)
Definition exec (w : World) (sender now : Z) (c : Call) : Result World :=
  match c with
  | RegisterProducer s m p =>
      r <- Registry.registerProducer w sender now s m p ;; Ok (fst r)
  | StakeAsVerifier a ok => Registry.stakeAsVerifier w sender a ok
  | Unstake a ok => Registry.unstake w sender a ok
  | ActivateVerifier => Registry.activateVerifier w sender
  | DeactivateVerifier => Registry.deactivateVerifier w sender
  | AddToAllowlist v => Registry.addToAllowlist w sender v
  | RemoveFromAllowlist v => Registry.removeFromAllowlist w sender v
  | SetPermissionedMode b => Registry.setPermissionedMode w sender b
  | RegistrySetQuorumBps x => Registry.setQuorumBps w sender x
  | RegistrySetClaimWindow x => Registry.setClaimWindow w sender x
  | SetMinStake x => Registry.setMinStake w sender x
  | RegistrySetProductionOracle x => Registry.setProductionOracle w sender x
  | RegistrySetConsumptionOracle x => Registry.setConsumptionOracle w sender x
  | CreateSnapshot k => r <- Registry.createSnapshot w sender now k ;; Ok (fst r)
  | IncrementFaults v => Registry.incrementFaults w v
  | ReduceStake v a => Registry.reduceStake w v a
  | DistributeRewards b s e => Treasury.distributeRewards w sender b s e
  | ClaimRewards ok => Treasury.claimRewards w sender ok
  | RecordFault v t => Treasury.recordFault w sender v t
  | RecordFaults b s t => Treasury.recordFaults w sender b s t
  | Slash v => Treasury.slash w v
  | Deposit a ok => Treasury.deposit w sender a ok
  | Withdraw a ok => Treasury.withdraw w sender a ok
  | TreasurySetProductionOracle x => Treasury.setProductionOracle w sender x
  | TreasurySetConsumptionOracle x => Treasury.setConsumptionOracle w sender x
  | SetDisableSlashing b => Treasury.setDisableSlashing w sender b
  | SetRewardPerWhWei x => Treasury.setRewardPerWhWei w sender x
  | SetSlashBps x => Treasury.setSlashBps w sender x
  | SetFaultThreshold x => Treasury.setFaultThreshold w sender x
  | Mint t h a k => HourlyCredits.mint w sender t h a k
  | CreditsSetProductionOracle x => HourlyCredits.setProductionOracle w sender x
  | SubmitProduction p h e r s => ProductionOracle.submitProduction w sender now p h e r s
  | FinalizeProduction p h => ProductionOracle.finalizeProduction w sender now p h
  | ForceFinalize p h e r => ProductionOracle.forceFinalize w sender now p h e r
  | SetBaselineMode b => ProductionOracle.setBaselineMode w sender b
  | SetSingleVerifierOverride v => ProductionOracle.setSingleVerifierOverride w sender v
  | OracleSetClaimWindow x => ProductionOracle.setClaimWindow w sender x
  | OracleSetQuorumBps x => ProductionOracle.setQuorumBps w sender x
  end.

(** The world after the transaction: a reverted transaction changes nothing. *)
Definition transact (w : World) (sender now : Z) (c : Call) : World :=
  match exec w sender now c with
  | Ok w' => w'
  | Revert _ => w
  end.

(** The world right after deployment (the constructors and the initial
    values of the state variables). *)
Definition deploy (registryOwner_ treasuryOwner_ creditsOwner_ oracleOwner_
                   oracleAddress : address) : World :=
  mkWorld
    (mkRegistry registryOwner_ ∅ ∅ ∅ [] ∅ ∅ ∅ 1 0 0 6667 3600
       (100 * 10 ^ 18) true)
    (mkTreasury treasuryOwner_ 0 0 0 (10 ^ 12) 1000 3 false ∅ ∅ ∅)
    (mkCredits creditsOwner_ 0 ∅)
    (mkOracle oracleAddress oracleOwner_ 3600 6667 false 0 ∅ ∅ ∅ ∅ ∅)
    [].

(** The worlds reached from a deployment by transactions of [Call]: the
    oracle keeps the Registry, the Treasury and the HourlyCredits it was
    deployed with. *)
Inductive reachable : World -> Prop :=
  | reachable_deploy ro to co oo oa : reachable (deploy ro to co oo oa)
  | reachable_transact w sender now c :
      reachable w -> fits UINT256 sender -> fits UINT256 now -> wellTyped c ->
      reachable (transact w sender now c).

End Transactions.

(** ** Specification vocabulary *)

Definition stakeOf (w : World) (v : Z) : Z := stake (Registry.getVerifier w v).

Definition verifierOf (r : RegistryState) (v : Z) : Verifier :=
  sload noVerifier (_verifiers r) v.

Definition indexOf (r : RegistryState) (v : Z) : Z :=
  sload 0 (_activeVerifierIndex r) v.

Definition snapshotOf (r : RegistryState) (id : Z) : list Z :=
  verifiers (sload noSnapshot (_snapshots r) id).

(** *** Changes of the Registry storage

    Every transaction changes the Registry through a sequence of the
    following steps: a write to storage the invariants do not read
    ([quiet]), or one successful call of a Registry function. *)

Definition quiet (r r' : RegistryState) : Prop :=
  _verifiers r' = _verifiers r /\
  _activeVerifiers r' = _activeVerifiers r /\
  _activeVerifierIndex r' = _activeVerifierIndex r /\
  _snapshots r' = _snapshots r /\
  _nextSnapshotId r' = _nextSnapshotId r.

Inductive registryCall (w w' : World) : Prop :=
  | rc_stake sender a ok :
      0 <= a -> Registry.stakeAsVerifier w sender a ok = Ok w' -> registryCall w w'
  | rc_unstake sender a ok :
      Registry.unstake w sender a ok = Ok w' -> registryCall w w'
  | rc_activate sender :
      Registry.activateVerifier w sender = Ok w' -> registryCall w w'
  | rc_deactivate sender :
      Registry.deactivateVerifier w sender = Ok w' -> registryCall w w'
  | rc_allow sender v :
      Registry.addToAllowlist w sender v = Ok w' -> registryCall w w'
  | rc_disallow sender v :
      Registry.removeFromAllowlist w sender v = Ok w' -> registryCall w w'
  | rc_snapshot sender now claimKey id :
      Registry.createSnapshot w sender now claimKey = Ok (w', id) -> registryCall w w'
  | rc_faults v :
      Registry.incrementFaults w v = Ok w' -> registryCall w w'
  | rc_reduce v a :
      Registry.reduceStake w v a = Ok w' -> registryCall w w'.

Inductive regStep : RegistryState -> RegistryState -> Prop :=
  | rs_quiet r r' : quiet r r' -> regStep r r'
  | rs_call w w' : registryCall w w' -> regStep (registry w) (registry w').

(** A change of the world that leaves the oracle storage alone. *)
Definition outside (w w' : World) : Prop :=
  rtc regStep (registry w) (registry w') /\ oracle w' = oracle w.

(** *** Invariant of the Registry storage *)

Record registryInv (r : RegistryState) : Prop := mkRegistryInv {
  ri_stake : forall v, 0 <= stake (verifierOf r v);
  ri_member : forall v, v ∈ _activeVerifiers r -> active (verifierOf r v) = true;
  ri_index : forall v, active (verifierOf r v) = true ->
      1 <= indexOf r v /\
      _activeVerifiers r !! Z.to_nat (indexOf r v - 1) = Some v;
  ri_nodup : NoDup (_activeVerifiers r);
  ri_next : 1 <= _nextSnapshotId r;
  ri_snapshots : forall id s, _snapshots r !! id = Some s ->
      1 <= id < _nextSnapshotId r
}.

(** Calls of the other three contracts leave the oracle storage alone and
    change the Registry by Registry steps only. *)
Definition oracleCall (c : Call) : bool :=
  match c with
  | SubmitProduction _ _ _ _ _ | FinalizeProduction _ _ | ForceFinalize _ _ _ _
  | SetBaselineMode _ | SetSingleVerifierOverride _ | OracleSetClaimWindow _
  | OracleSetQuorumBps _ => true
  | _ => false
  end.


(** The bucket and the tally of a claim after an accepted submission with
    bitmap bit [bit]. *)
Definition acceptedBucket (b : ClaimBucket) (bit wh : Z) : ClaimBucket :=
  mkBucket (deadline b) (snapshotId b) (submissionCount b + 1) (finalized b)
    (disputed b) (verifiedEnergyWh b)
    (if maxSubmittedEnergyWh b <? wh then wh else maxSubmittedEnergyWh b)
    (winningValueHash b) (evidenceRoot b)
    (Z.lor (allSubmittersBitmap b) bit) (winningVerifierBitmap b).

Definition acceptedTally (t : ValueSubmission) (bit wh root : Z) : ValueSubmission :=
  mkValueSubmission (count t + 1) (Z.lor (verifierBitmap t) bit)
    (if count t =? 0 then root else vsEvidenceRoot t)
    (if count t =? 0 then wh else energyWh t).

Definition afterSubmission `{Chain} (w1 : World) (claimKey verifier bit wh root : Z)
  : World :=
  let o := oracle w1 in
  let valueHash := keccakValue wh root in
  let t := ProductionOracle.getValueSubmissions w1 claimKey valueHash in
  emit (ProductionSubmitted claimKey verifier wh valueHash)
    (setOracleState
       (mkOracle (this o) (oracleOwner o) (claimWindow o) (quorumBps o)
          (baselineMode o) (singleVerifierOverride o)
          (<[claimKey := acceptedBucket
                           (ProductionOracle.getClaimBucket w1 claimKey) bit wh]>
             (_claimBuckets o))
          (<[(claimKey, valueHash) := acceptedTally t bit wh root]>
             (_valueSubmissions o))
          (<[(claimKey, verifier) := true]> (_hasSubmitted o))
          (<[(claimKey, root) := true]> (_submittedEvidenceRoots o))
          (if count t =? 0
           then <[claimKey := ProductionOracle.claimValueHashes w1 claimKey
                                ++ [valueHash]]> (_claimValueHashes o)
           else _claimValueHashes o))
       w1).

(** The condition under which a counted fault triggers the auto-slash. *)
Definition slashDue (w : World) (v : Z) : bool :=
  negb (slashingDisabled (treasury w))
  && (faultThreshold (treasury w) <=? Treasury.getFaults w v + 1)
  && negb (Treasury.getSlashed w v).


(** *** Bitmaps *)

(** The number of set bits among the lowest [n] bits of [b]. *)
Fixpoint bitCount (n : nat) (b : Z) : Z :=
  match n with
  | O => 0
  | S n' => (if Z.testbit b 0 then 1 else 0) + bitCount n' (Z.shiftr b 1)
  end.

(** The verifiers paid by the reward loop started at index [i]: those at a
    position below 16 whose bit is set, in snapshot order. *)
Fixpoint paidFrom (winnerBitmap i : Z) (vs : list Z) : list Z :=
  match vs with
  | [] => []
  | v :: rest =>
      if i <? 16 then
        if Treasury.bitSet winnerBitmap i
        then v :: paidFrom winnerBitmap (i + 1) rest
        else paidFrom winnerBitmap (i + 1) rest
      else []
  end.

(** How many times [v] occurs in [l]. *)
Definition timesIn (v : Z) (l : list Z) : Z :=
  Z.of_nat (length (filter (fun x => x = v) l)).

(** ** A concrete chain and concrete worlds, for the examples

    Stand-ins for the hash functions (injective on the inputs used below);
    a signature is the signer's address; every receiver accepts credits. *)

Definition toyChain : Chain := {|
  keccakProducerId := fun sender systemId now => 1 + sender + 1000 * systemId + 1000000 * now;
  keccakClaimKey := fun _ producer hour => 1 + producer + 1000000000 * hour;
  keccakValue := fun wh root => 1 + wh + 1000000000 * root;
  ecrecover := fun _ _ _ _ _ signature => signature;
  acceptsCredits := fun _ => true
|}.

(** A transaction: sender, block timestamp, call. *)
Definition Tx : Type := Z * Z * Call.

Definition transactAll `{Chain} (w : World) (txs : list Tx) : World :=
  foldl (fun w t => transact w (fst (fst t)) (snd (fst t)) (snd t)) w txs.

Definition run (w : World) (txs : list Tx) : World := @transactAll toyChain w txs.

Definition admin : Z := 900.
Definition oracleAddr : Z := 800.
Definition producerOwnerAddr : Z := 700.

Definition genesis : World := @deploy admin admin admin admin oracleAddr.

(** Wire the contracts, fund the reward pool with [pool], register one
    producer and activate the verifiers [vs], each with the minimum stake. *)
Definition setup (pool : Z) (vs : list Z) : list Tx :=
  [(admin, 10, RegistrySetProductionOracle oracleAddr);
   (admin, 10, TreasurySetProductionOracle oracleAddr);
   (admin, 10, CreditsSetProductionOracle oracleAddr)]
  ++ (if pool =? 0 then [] else [(admin, 10, Deposit pool true)])
  ++ [(producerOwnerAddr, 10, RegisterProducer 5 6 701)]
  ++ flat_map (fun v => [(admin, 10, AddToAllowlist v);
                         (v, 10, StakeAsVerifier (100 * 10 ^ 18) true);
                         (v, 10, ActivateVerifier)]) vs.

Definition theProducer : Z := 1 + producerOwnerAddr + 1000 * 5 + 1000000 * 10.
Definition theHour : Z := 500.
Definition theClaim : Z := 1 + theProducer + 1000000000 * theHour.

Definition validTx (t : Tx) : Prop :=
  fits UINT256 (fst (fst t)) /\ fits UINT256 (snd (fst t)) /\ wellTyped (snd t).

(** A verifier stakes 100, then is cut by 30. *)
Definition stakedWorld : World :=
  run genesis [(1, 10, StakeAsVerifier 100 true); (2, 11, ReduceStake 1 30)].

Definition otherOracle : Z := 801.

(** Three active verifiers, a funded pool, and a second authorized oracle
    address in the Treasury and the Registry. *)
Definition faultWorld : World :=
  run genesis (setup (10 ^ 30) [1; 2; 3]
               ++ [(admin, 11, TreasurySetConsumptionOracle otherOracle);
                   (admin, 11, RegistrySetConsumptionOracle otherOracle)]).

(** Verifier 1 has two recorded faults (threshold 3, slashBps 1000). *)
Definition twoFaultsWorld : World :=
  run faultWorld [(otherOracle, 12, RecordFault 1 WrongValue);
                  (otherOracle, 13, RecordFault 1 LateSubmission)].

(** The owner has set [slashBps] above 10000. *)
Definition overSlashWorld : World :=
  run twoFaultsWorld [(admin, 14, SetSlashBps 20000)].

(** The second oracle has created snapshot 1 = [1; 2; 3]. *)
Definition snapshotWorld : World :=
  run faultWorld [(otherOracle, 12, CreateSnapshot 4242)].

(** Verifier 1 has submitted 5000 Wh for the claim at time 100; the window
    closes at 3700. *)
Definition submittedWorld : World :=
  run faultWorld [(1, 100, SubmitProduction theProducer theHour 5000 7 1)].

(** *** Finalization vocabulary *)

(** The maximum submission count over the value tallies of a claim (0 when
    there is none). *)
Definition maxTally `{Chain} (w : World) (claimKey : Z) : Z :=
  foldl (fun m valueHash =>
           Z.max m (count (ProductionOracle.getValueSubmissions w claimKey valueHash)))
        0 (ProductionOracle.claimValueHashes w claimKey).

(** [quorumRequired = ceil(snapshotCount * quorumBps / 10000)], computed as
    in the source. *)
Definition quorumRequired `{Chain} (w : World) (claimKey : Z) : Z :=
  (Registry.getSnapshotCount w
     (snapshotId (ProductionOracle.getClaimBucket w claimKey))
   * quorumBps (oracle w) + 9999) / 10000.

(** The quorum-reached branch of [finalizeProduction]. *)
Definition finalizeWinner `{Chain} (w : World) (p h : Z) : Result World :=
  let ck := ProductionOracle.getClaimKey w p h in
  let winner := fst (ProductionOracle.findWinner w ck) in
  let tally := ProductionOracle.getValueSubmissions w ck winner in
  w1 <- ProductionOracle._finalizeWithValue w ck p h
          (energyWh tally) (vsEvidenceRoot tally) (verifierBitmap tally) ;;
  let bucket1 := ProductionOracle.getClaimBucket w1 ck in
  let loserBitmap :=
    Z.land (Z.lxor (allSubmittersBitmap bucket1)
              (verifierBitmap (ProductionOracle.getValueSubmissions w1 ck winner)))
           (allSubmittersBitmap bucket1) in
  if negb (loserBitmap =? 0) then
    Treasury.recordFaults w1 (this (oracle w1)) loserBitmap (snapshotId bucket1) WrongValue
  else Ok w1.


(** All three verifiers have submitted 5000 Wh with evidence root 7. *)
Definition threeSubmissions : list Tx :=
  [(1, 100, SubmitProduction theProducer theHour 5000 7 1);
   (2, 100, SubmitProduction theProducer theHour 5000 7 2);
   (3, 101, SubmitProduction theProducer theHour 5000 7 3)].

Definition agreedWorld : World := run faultWorld threeSubmissions.

(** The same, with an empty reward pool. *)
Definition unfundedWorld : World := run (run genesis (setup 0 [1; 2; 3])) threeSubmissions.

(** Two of three verifiers have submitted, with different values. *)
Definition splitWorld : World :=
  run faultWorld [(1, 100, SubmitProduction theProducer theHour 5000 7 1);
                  (2, 100, SubmitProduction theProducer theHour 6000 8 2)].

(** ... and [finalizeProduction] has been called once, after the deadline. *)
Definition disputedWorld : World :=
  run splitWorld [(9, 5000, FinalizeProduction theProducer theHour)].

(** *** Snapshot vocabulary *)

(** The position of [v] in the ascending order of [l]: the number of members
    of [l] with a smaller address. *)
Definition rank (v : Z) (l : list Z) : Z :=
  Z.of_nat (length (filter (fun x => x < v) l)).

(** [l] is in ascending order. *)
Definition ascending (l : list Z) : Prop :=
  forall (a b : nat) (x y : Z), (a < b)%nat -> l !! a = Some x -> l !! b = Some y -> x <= y.

(** The first [k] positions of [l] are final: each holds a value not above
    any value at a later position. *)
Definition settled (k : nat) (l : list Z) : Prop :=
  forall (a b : nat) (x y : Z),
    (a < k)%nat -> (a < b)%nat -> l !! a = Some x -> l !! b = Some y -> x <= y.

(** Position [i] holds a value not above the values at positions [i+1 .. j-1]. *)
Definition leastUpTo (i j : nat) (l : list Z) : Prop :=
  forall (b : nat) (x y : Z),
    (i < b < j)%nat -> l !! i = Some x -> l !! b = Some y -> x <= y.

(** *** Worlds with many verifiers *)

(** [n] active verifiers with the addresses [1 .. n], a funded pool and a
    second authorized oracle address. *)
Definition verifiersUpTo (n : nat) : list Z := map Z.of_nat (seq 1 n).

Definition crowd (n : nat) : World :=
  run genesis (setup (10 ^ 30) (verifiersUpTo n)
               ++ [(admin, 11, TreasurySetConsumptionOracle otherOracle);
                   (admin, 11, RegistrySetConsumptionOracle otherOracle)]).

(** 257 active verifiers: one more than an 8-bit index can tell apart. *)
Definition crowdedWorld : World := crowd 257.

(** *** Claim vocabulary *)

(** The snapshot a claim is tallied against. *)
Definition claimSnapshot (w : World) (ck : Z) : list Z :=
  Registry.getSnapshotVerifiers w (snapshotId (ProductionOracle.getClaimBucket w ck)).

(** Every set bit of [a] is set in [b]. *)
Definition subset (a b : Z) : Prop :=
  forall i, Z.testbit a i = true -> Z.testbit b i = true.

(** The bitmaps of a claim whose snapshot fits the 16-bit field. *)
Record bitsInv (w : World) (ck : Z) : Prop := mkBitsInv {
  bi_range :
    0 <= allSubmittersBitmap (ProductionOracle.getClaimBucket w ck)
      < 2 ^ Z.of_nat (length (claimSnapshot w ck));
  bi_submitted : forall (i : nat) (v : Z),
    claimSnapshot w ck !! i = Some v ->
    Z.testbit (allSubmittersBitmap (ProductionOracle.getClaimBucket w ck)) (Z.of_nat i)
    = true ->
    ProductionOracle.hasSubmitted w ck v = true;
  bi_tally : forall vh,
    0 <= verifierBitmap (ProductionOracle.getValueSubmissions w ck vh)
      < 2 ^ Z.of_nat (length (claimSnapshot w ck)) /\
    subset (verifierBitmap (ProductionOracle.getValueSubmissions w ck vh))
           (allSubmittersBitmap (ProductionOracle.getClaimBucket w ck)) /\
    bitCount 16 (verifierBitmap (ProductionOracle.getValueSubmissions w ck vh))
    = count (ProductionOracle.getValueSubmissions w ck vh);
  bi_count :
    bitCount 16 (allSubmittersBitmap (ProductionOracle.getClaimBucket w ck))
    = submissionCount (ProductionOracle.getClaimBucket w ck)
}.

(** Invariant of the oracle storage of one claim. *)
Record claimInv (w : World) (ck : Z) : Prop := mkClaimInv {
  ci_id : 0 <= snapshotId (ProductionOracle.getClaimBucket w ck)
            < _nextSnapshotId (registry w);
  ci_max : 0 <= maxSubmittedEnergyWh (ProductionOracle.getClaimBucket w ck);
  ci_energy : forall vh,
    energyWh (ProductionOracle.getValueSubmissions w ck vh)
    <= maxSubmittedEnergyWh (ProductionOracle.getClaimBucket w ck);
  ci_verified :
    finalized (ProductionOracle.getClaimBucket w ck) = true ->
    verifiedEnergyWh (ProductionOracle.getClaimBucket w ck)
    <= maxSubmittedEnergyWh (ProductionOracle.getClaimBucket w ck) /\
    disputed (ProductionOracle.getClaimBucket w ck) = false;
  ci_bits : (length (claimSnapshot w ck) <= 16)%nat -> bitsInv w ck
}.

(** The owner resolves the disputed claim with 5000 Wh. *)
Definition forcedWorld : World :=
  run disputedWorld [(admin, 6000, ForceFinalize theProducer theHour 5000 7)].

(** *** Treasury vocabulary *)

(** The sum of all pending rewards. *)
Definition totalPending (w : World) : Z :=
  map_fold (fun _ x acc => x + acc) 0 (pendingRewards (treasury w)).

(** The indices below [n] at which [b] has a set bit. *)
Definition setBits (n : nat) (b : Z) : list nat :=
  filter (fun i : nat => Z.testbit b (Z.of_nat i) = true) (seq 0 n).

(** The calls that write claim storage. *)
Definition claimCall (c : Call) : bool :=
  match c with
  | SubmitProduction _ _ _ _ _ | FinalizeProduction _ _ | ForceFinalize _ _ _ _ => true
  | _ => false
  end.

(** Fault counters have not dropped and no slash mark was removed. *)
Definition faultsKept (w w' : World) : Prop :=
  forall v, Treasury.getFaults w v <= Treasury.getFaults w' v /\
            (Treasury.getSlashed w v = true -> Treasury.getSlashed w' v = true).

(** *** Access control *)

(** The owner a call is reserved to, for the calls marked [onlyOwner]. *)
Definition ownerOf (w : World) (c : Call) : option Z :=
  match c with
  | AddToAllowlist _ | RemoveFromAllowlist _ | SetPermissionedMode _
  | RegistrySetQuorumBps _ | RegistrySetClaimWindow _ | SetMinStake _
  | RegistrySetProductionOracle _ | RegistrySetConsumptionOracle _ =>
      Some (registryOwner (registry w))
  | Withdraw _ _ | TreasurySetProductionOracle _ | TreasurySetConsumptionOracle _
  | SetDisableSlashing _ | SetRewardPerWhWei _ | SetSlashBps _ | SetFaultThreshold _ =>
      Some (treasuryOwner (treasury w))
  | CreditsSetProductionOracle _ => Some (creditsOwner (hourlyCredits w))
  | ForceFinalize _ _ _ _ | SetBaselineMode _ | SetSingleVerifierOverride _
  | OracleSetClaimWindow _ | OracleSetQuorumBps _ => Some (oracleOwner (oracle w))
  | _ => None
  end.

(** The calls reserved to an oracle: whether [sender] may make the call, for
    the calls marked [onlyAuthorizedOracle] or [onlyProductionOracle]. *)
Definition oracleMay (w : World) (sender : Z) (c : Call) : option bool :=
  match c with
  | CreateSnapshot _ =>
      Some ((sender =? registryProductionOracle (registry w))
            || (sender =? registryConsumptionOracle (registry w)))
  | DistributeRewards _ _ _ | RecordFault _ _ | RecordFaults _ _ _ =>
      Some ((sender =? treasuryProductionOracle (treasury w))
            || (sender =? treasuryConsumptionOracle (treasury w)))
  | Mint _ _ _ _ => Some (sender =? creditsProductionOracle (hourlyCredits w))
  | _ => None
  end.

(** Verifier 1 has deactivated itself. *)
Definition benchedWorld : World := run faultWorld [(1, 12, DeactivateVerifier)].

(** The agreed claim has been finalized: the three winners hold rewards. *)
Definition paidWorld : World :=
  run agreedWorld [(9, 5000, FinalizeProduction theProducer theHour)].

(** Baseline mode is on and verifier 1 is the single verifier. *)
Definition baselineWorld : World :=
  run faultWorld [(admin, 12, SetBaselineMode true);
                  (admin, 12, SetSingleVerifierOverride 1)].

(** *** Write-once records of the Registry *)

(** The producers, the registered system ids and the snapshot id of every
    claim key. *)
Definition registryRecords (w : World)
  : gmap Z Producer * gmap Z bool * gmap Z Z :=
  (_producers (registry w), _systemIdRegistered (registry w),
   _claimKeyToSnapshotId (registry w)).

(** Nothing recorded is lost: a registered system id stays registered, a
    producer reads as before, and a claim key keeps its snapshot id. *)
Definition recordsKept (w w' : World) : Prop :=
  (forall s, sload false (_systemIdRegistered (registry w)) s = true ->
             sload false (_systemIdRegistered (registry w')) s = true) /\
  (forall id p, Registry.getProducer w id = Ok p -> Registry.getProducer w' id = Ok p) /\
  (forall ck, Registry.getSnapshotId w ck <> 0 ->
              Registry.getSnapshotId w' ck = Registry.getSnapshotId w ck).

(** *** Slashing vocabulary *)

(** [slashAmount] as [_slash] computes it for [v] in [w]. *)
Definition slashAmountOf (w : World) (v : Z) : Z :=
  stakeOf w v * slashBps (treasury w) / 10000.

(** What a batch of faults adds to the reward pool: the slash amount of every
    verifier of the batch whose slash is due ([_slash] adds nothing when the
    amount is not positive). *)
Definition slashTotal (w : World) (batch : list Z) : Z :=
  foldr (fun u acc => (if slashDue w u then Z.max 0 (slashAmountOf w u) else 0) + acc)
        0 batch.

(** No checked addition or multiplication can overflow while a batch of at
    most 16 faults is recorded: the fault counters have room for 16 more, every
    stake is at most [cap], and the reward pool has room for 16 slash amounts
    of a stake of [cap]. *)
Definition faultHeadroom (w : World) (cap : Z) : Prop :=
  0 <= slashBps (treasury w) /\
  (forall v, Treasury.getFaults w v + 16 < UINT256) /\
  (forall v, 0 <= stakeOf w v <= cap) /\
  cap * slashBps (treasury w) < UINT256 /\
  rewardPool (treasury w) + 16 * (cap * slashBps (treasury w) / 10000) < UINT256.

(** Verifier 1 has two recorded faults and snapshot 1 = [1; 2; 3] exists. *)
Definition batchWorld : World :=
  run twoFaultsWorld [(otherOracle, 14, CreateSnapshot 4242)].

(** * Verification *)

(** ** Inversion of successful calls *)

Lemma bind_ok {A B : Type} (m : Result A) (k : A -> Result B) (b : B) :
  bind m k = Ok b -> exists a, m = Ok a /\ k a = Ok b.
Proof. destruct m as [a|e]; simpl; [eauto | discriminate]. Qed.

Lemma require_ok (c : bool) (e : Error) (u : unit) : require c e = Ok u -> c = true.
Proof. destruct c; simpl; [reflexivity | discriminate]. Qed.

Lemma require_true (c : bool) (e : Error) : c = true -> require c e = Ok tt.
Proof. intros ->. reflexivity. Qed.

Lemma add_ok (W a b c : Z) : add W a b = Ok c -> c = a + b /\ a + b < W.
Proof.
  unfold add. destruct (a + b <? W) eqn:E; [|discriminate].
  intros [= <-]. split; [reflexivity | lia].
Qed.

Lemma add_fits (W a b : Z) : a + b < W -> add W a b = Ok (a + b).
Proof. intros Hlt. unfold add. destruct (a + b <? W) eqn:E; [reflexivity | lia]. Qed.

Lemma sub_ok (a b c : Z) : sub a b = Ok c -> c = a - b /\ b <= a.
Proof.
  unfold sub. destruct (b <=? a) eqn:E; [|discriminate].
  intros [= <-]. split; [reflexivity | lia].
Qed.

Lemma sub_fits (a b : Z) : b <= a -> sub a b = Ok (a - b).
Proof. intros Hle. unfold sub. destruct (b <=? a) eqn:E; [reflexivity | lia]. Qed.

Lemma mul_ok (W a b c : Z) : mul W a b = Ok c -> c = a * b /\ a * b < W.
Proof.
  unfold mul. destruct (a * b <? W) eqn:E; [|discriminate].
  intros [= <-]. split; [reflexivity | lia].
Qed.

Lemma mul_fits (W a b : Z) : a * b < W -> mul W a b = Ok (a * b).
Proof. intros Hlt. unfold mul. destruct (a * b <? W) eqn:E; [reflexivity | lia]. Qed.

(** Decompose a hypothesis [H : body = Ok w] along the binds and branches of
    the body. *)
Ltac inv_ok H :=
  cbv beta zeta in H;
  lazymatch type of H with
  | bind _ _ = Ok _ =>
      let a := fresh "x" in
      let Ha := fresh "E" in
      apply bind_ok in H as (a & Ha & H); inv_ok Ha; inv_ok H
  | require _ _ = Ok _ => apply require_ok in H
  | add _ _ _ = Ok _ => apply add_ok in H as [? H]
  | sub _ _ = Ok _ => apply sub_ok in H as [? H]
  | mul _ _ _ = Ok _ => apply mul_ok in H as [? H]
  | Ok _ = Ok _ => injection H as H
  | Revert _ = Ok _ => discriminate H
  | (if ?c then _ else _) = Ok _ =>
      let E := fresh "C" in destruct c eqn:E; inv_ok H
  | _ => idtac
  end.

(** ** Storage reads after writes *)

Section Storage.
Context {K V : Type} `{Countable K}.

Lemma sload_insert (d : V) (m : gmap K V) (k : K) (v : V) :
  sload d (<[k := v]> m) k = v.
Proof. unfold sload. by rewrite lookup_insert_eq. Qed.

Lemma sload_insert_ne (d : V) (m : gmap K V) (k k' : K) (v : V) :
  k <> k' -> sload d (<[k := v]> m) k' = sload d m k'.
Proof. intros Hne. unfold sload. by rewrite lookup_insert_ne. Qed.

Lemma sload_delete (d : V) (m : gmap K V) (k : K) :
  sload d (delete k m) k = d.
Proof. unfold sload. by rewrite lookup_delete_eq. Qed.

Lemma sload_delete_ne (d : V) (m : gmap K V) (k k' : K) :
  k <> k' -> sload d (delete k m) k' = sload d m k'.
Proof. intros Hne. unfold sload. by rewrite lookup_delete_ne. Qed.

Lemma sload_empty (d : V) (k : K) : sload d (∅ : gmap K V) k = d.
Proof. unfold sload. by rewrite lookup_empty. Qed.
End Storage.

Lemma getVerifier_store (w : World) (v u : Z) (x : Verifier) :
  Registry.getVerifier (Registry.storeVerifier v x w) u
  = if decide (v = u) then x else Registry.getVerifier w u.
Proof.
  unfold Registry.getVerifier, Registry.storeVerifier. simpl.
  destruct (decide (v = u)) as [->|Hne].
  - apply sload_insert.
  - by apply sload_insert_ne.
Qed.

(** ** Registry: [reduceStake] *)

Lemma reduceStake_ok (w : World) (v a : Z) :
  Registry.reduceStake w v a
  = Ok (Registry.storeVerifier v
          (Registry.set_stake (if a <=? stakeOf w v then stakeOf w v - a else 0)
             (Registry.getVerifier w v)) w).
Proof.
  unfold Registry.reduceStake, stakeOf.
  destruct (a <=? stake (Registry.getVerifier w v)) eqn:E; [|reflexivity].
  rewrite sub_fits by lia. reflexivity.
Qed.

(** ** The Registry invariant is preserved by every Registry step *)

(** Case analysis on a read [sload d (<[k := x]> m) k']. *)
Ltac sload_case k k' :=
  destruct (decide (k = k')) as [->|?];
  [rewrite ?sload_insert in * | rewrite ?sload_insert_ne in * by done].

Lemma registryInv_store (r : RegistryState) (v : Z) (x : Verifier) :
  registryInv r -> active x = active (verifierOf r v) -> 0 <= stake x ->
  registryInv (Registry.set_verifiers (<[v := x]> (_verifiers r)) r).
Proof.
  intros [Hs Hm Hi Hn Hx Hp] Hact Hst.
  split; unfold verifierOf, indexOf in *; simpl; try done.
  - intros u. sload_case v u; auto.
  - intros u Hu. sload_case v u; auto. rewrite Hact. auto.
  - intros u. sload_case v u; [rewrite Hact|]; apply Hi.
Qed.

Lemma registryInv_quiet (r r' : RegistryState) :
  quiet r r' -> registryInv r -> registryInv r'.
Proof.
  intros (Hv & Ha & Hi & Hs & Hn) [Hst Hm Hix Hnd Hx Hp].
  split; unfold verifierOf, indexOf in *; rewrite ?Hv, ?Ha, ?Hi, ?Hs, ?Hn; auto.
Qed.

Lemma activate_inv (w w' : World) (sender : Z) :
  registryInv (registry w) -> Registry.activateVerifier w sender = Ok w' ->
  registryInv (registry w').
Proof.
  intros [Hst Hm Hix Hnd Hx Hp] Hcall.
  unfold Registry.activateVerifier in Hcall. inv_ok Hcall. subst w'.
  change (Registry.getVerifier w sender) with (verifierOf (registry w) sender) in *.
  set (r := registry w) in *.
  assert (Hinactive : active (verifierOf r sender) = false).
  { destruct (active (verifierOf r sender)); [discriminate | reflexivity]. }
  assert (Hnotin : sender ∉ _activeVerifiers r).
  { intros Hin. apply Hm in Hin. congruence. }
  split; unfold verifierOf, indexOf in *; simpl.
  - intros u. sload_case sender u; simpl; auto.
  - intros u Hu. sload_case sender u; simpl; auto.
    apply elem_of_app in Hu as [Hu|Hu]; auto.
    apply list_elem_of_singleton in Hu. congruence.
  - intros u. sload_case sender u; simpl.
    + intros _. rewrite length_app. simpl. split; [lia|].
      replace (Z.to_nat (Z.of_nat (length (_activeVerifiers r) + 1) - 1))
        with (length (_activeVerifiers r)) by lia.
      by apply list_lookup_middle.
    + intros Hu. destruct (Hix u Hu) as [H1 H2]. split; [done|].
      rewrite lookup_app_l; [done|]. by eapply lookup_lt_Some.
  - apply NoDup_app. split; [done|]. split; [|apply NoDup_singleton].
    intros y Hy1 Hy2. apply list_elem_of_singleton in Hy2. congruence.
  - done.
  - done.
Qed.

Lemma array_get_ok {A : Type} (l : list A) (i : Z) (x : A) :
  array_get l i = Ok x -> l !! Z.to_nat i = Some x.
Proof. unfold array_get. destruct (l !! Z.to_nat i); [congruence | discriminate]. Qed.

Lemma array_set_ok {A : Type} (l l' : list A) (i : Z) (x : A) :
  array_set l i x = Ok l' -> l' = <[Z.to_nat i := x]> l /\ i < Z.of_nat (length l).
Proof.
  unfold array_set. destruct (i <? Z.of_nat (length l)) eqn:E; [|discriminate].
  intros [= <-]. split; [reflexivity | lia].
Qed.

Lemma array_pop_ok {A : Type} (l l' : list A) :
  array_pop l = Ok l' -> l' = take (length l - 1)%nat l.
Proof. unfold array_pop. destruct l; [discriminate | congruence]. Qed.

Lemma deactivate_inv (w w' : World) (sender : Z) :
  registryInv (registry w) -> Registry.deactivateVerifier w sender = Ok w' ->
  registryInv (registry w').
Proof.
  intros [Hst Hm Hix Hnd Hx Hp] Hcall.
  unfold Registry.deactivateVerifier in Hcall. inv_ok Hcall; subst w'.
  all: change (Registry.getVerifier w sender) with (verifierOf (registry w) sender) in *.
  all: set (r := registry w) in *.
  all: destruct (Hix sender E) as [Hi1 Hi2]; unfold indexOf in Hi1, Hi2.
  all: set (l := _activeVerifiers r) in *.
  all: set (i := Z.to_nat (sload 0 (_activeVerifierIndex r) sender - 1)) in *.
  all: assert (Hil : (i < length l)%nat) by (by eapply lookup_lt_Some).
  all: assert (Hinj : forall j u, l !! j = Some u -> u = sender -> j = i)
         by (intros j u Hj ->; by eapply (proj1 (NoDup_alt l) Hnd)).
  - (* the deactivated verifier is not the last: swap, then pop *)
    apply array_get_ok in E3. apply array_set_ok in E4 as [-> _].
    subst x2. simpl in E6. apply array_pop_ok in E6. subst x6 x5 x0 x1.
    rewrite length_insert in *. fold l in E3 |- *.
    assert (Hne : i <> (length l - 1)%nat).
    { intros Heq. apply negb_true_iff, Z.eqb_neq in C. apply C. subst i. lia. }
    replace (Z.to_nat (Z.of_nat (length l) - 1)) with (length l - 1)%nat in E3 by lia.
    replace (Z.to_nat (sload 0 (_activeVerifierIndex r) sender - 1)) with i by done.
    assert (Hx3 : x3 <> sender).
    { intros ->. apply Hne. symmetry. by eapply Hinj. }
    assert (Hlook : forall j u,
      take (length l - 1) (<[i := x3]> l) !! j = Some u <->
      (j < length l - 1)%nat /\ ((j = i /\ u = x3) \/ (j <> i /\ l !! j = Some u))).
    { intros j u. rewrite lookup_take_Some, list_lookup_insert_Some. split.
      - intros [[(-> & -> & _)|[? ?]] ?]; split; auto.
      - intros [? [[-> ->]|[? ?]]]; split; auto. }
    split; unfold verifierOf, indexOf in *; simpl.
    + intros u. sload_case sender u; simpl; auto.
    + intros u Hu. apply list_elem_of_lookup in Hu as [j Hj].
      apply Hlook in Hj as [Hj [[-> ->]|[Hji Hj']]].
      * rewrite sload_insert_ne by done. apply Hm. by eapply list_elem_of_lookup_2.
      * sload_case sender u; [exfalso; apply Hji; by eapply Hinj|].
        apply Hm. by eapply list_elem_of_lookup_2.
    + intros u. sload_case sender u; simpl; [discriminate|]. intros Hu.
      rewrite sload_delete_ne by done.
      destruct (Hix u Hu) as [Hu1 Hu2].
      sload_case x3 u.
      * split; [lia|]. apply Hlook. split; [lia|]. left. split; [lia | done].
      * split; [done|]. apply Hlook.
        assert (Z.to_nat (sload 0 (_activeVerifierIndex r) u - 1) <> i).
        { intros Heq. rewrite Heq in Hu2. congruence. }
        assert (Z.to_nat (sload 0 (_activeVerifierIndex r) u - 1) <> (length l - 1)%nat).
        { intros Heq. rewrite Heq in Hu2. congruence. }
        apply lookup_lt_Some in Hu2 as Hlt. fold l in Hlt.
        split; [lia|]. right. done.
    + apply NoDup_alt. intros j1 j2 u H1 H2.
      apply Hlook in H1 as [Hj1 H1]. apply Hlook in H2 as [Hj2 H2].
      destruct H1 as [[-> ->]|[? H1]], H2 as [[-> ?]|[? H2]]; try done.
      * assert (j2 = (length l - 1)%nat) by (by eapply (proj1 (NoDup_alt l) Hnd)). lia.
      * subst. assert (j1 = (length l - 1)%nat) by (by eapply (proj1 (NoDup_alt l) Hnd)). lia.
      * by eapply (proj1 (NoDup_alt l) Hnd).
    + done.
    + done.
  - (* the deactivated verifier is the last: pop *)
    subst x2. simpl in E3. apply array_pop_ok in E3. subst x3 x0 x1. fold l.
    assert (Heq : i = (length l - 1)%nat).
    { apply negb_false_iff, Z.eqb_eq in C. subst i. lia. }
    split; unfold verifierOf, indexOf in *; simpl.
    + intros u. sload_case sender u; simpl; auto.
    + intros u Hu. apply list_elem_of_lookup in Hu as [j Hj].
      apply lookup_take_Some in Hj as [Hj Hlt].
      sload_case sender u; [exfalso; assert (j = i) by (by eapply Hinj); lia|].
      apply Hm. by eapply list_elem_of_lookup_2.
    + intros u. sload_case sender u; simpl; [discriminate|]. intros Hu.
      rewrite sload_delete_ne by done.
      destruct (Hix u Hu) as [Hu1 Hu2]. split; [done|].
      apply lookup_take_Some. split; [done|].
      assert (Z.to_nat (sload 0 (_activeVerifierIndex r) u - 1) <> i).
      { intros Heq'. rewrite Heq' in Hu2. congruence. }
      apply lookup_lt_Some in Hu2 as Hlt. fold l in Hlt. lia.
    + apply NoDup_alt. intros j1 j2 u H1 H2.
      apply lookup_take_Some in H1 as [H1 _]. apply lookup_take_Some in H2 as [H2 _].
      by eapply (proj1 (NoDup_alt l) Hnd).
    + done.
    + done.
Qed.

Lemma createSnapshot_inv (w w' : World) (sender now claimKey id : Z) :
  registryInv (registry w) ->
  Registry.createSnapshot w sender now claimKey = Ok (w', id) ->
  registryInv (registry w').
Proof.
  intros [Hst Hm Hix Hnd Hx Hp] Hcall.
  unfold Registry.createSnapshot in Hcall. inv_ok Hcall.
  simplify_eq.
  split; unfold verifierOf, indexOf in *; simpl; auto; [lia|].
  intros id s Hs. destruct (decide (_nextSnapshotId (registry w) = id)) as [<-|Hne].
  - lia.
  - rewrite lookup_insert_ne in Hs by done. apply Hp in Hs. lia.
Qed.

Lemma registryCall_inv (w w' : World) :
  registryCall w w' -> registryInv (registry w) -> registryInv (registry w').
Proof.
  intros Hcall Hinv. pose proof Hinv as [Hst Hm Hix Hnd Hx Hp].
  destruct Hcall as [sender a ok Ha Hc|sender a ok Hc|sender Hc|sender Hc
                    |sender v Hc|sender v Hc|sender now ck id Hc|v Hc|v a Hc].
  - unfold Registry.stakeAsVerifier in Hc. inv_ok Hc. subst.
    apply registryInv_store; simpl; auto. specialize (Hst sender).
    unfold Registry.getVerifier, verifierOf in *. lia.
  - unfold Registry.unstake in Hc. inv_ok Hc. subst.
    apply registryInv_store; simpl; auto. lia.
  - by eapply activate_inv.
  - by eapply deactivate_inv.
  - unfold Registry.addToAllowlist in Hc. inv_ok Hc. subst.
    apply registryInv_store; simpl; auto. apply Hst.
  - unfold Registry.removeFromAllowlist in Hc. inv_ok Hc. subst.
    apply registryInv_store; simpl; auto. apply Hst.
  - by eapply createSnapshot_inv.
  - unfold Registry.incrementFaults in Hc. inv_ok Hc. subst.
    apply registryInv_store; simpl; auto. apply Hst.
  - rewrite reduceStake_ok in Hc. injection Hc as <-. simpl.
    apply registryInv_store; simpl; auto.
    specialize (Hst v). unfold stakeOf, Registry.getVerifier, verifierOf in *.
    destruct (a <=? stake (sload noVerifier (_verifiers (registry w)) v)) eqn:E; lia.
Qed.

Lemma regStep_inv (r r' : RegistryState) :
  regStep r r' -> registryInv r -> registryInv r'.
Proof.
  intros [r1 r2 Hq|w w' Hc]; [by apply registryInv_quiet | by apply registryCall_inv].
Qed.

Lemma regSteps_inv (r r' : RegistryState) :
  rtc regStep r r' -> registryInv r -> registryInv r'.
Proof. induction 1; eauto using regStep_inv. Qed.

(** ** What a transaction changes outside its own contract *)

Lemma outside_refl (w : World) : outside w w.
Proof. split; [apply rtc_refl | reflexivity]. Qed.

Lemma outside_trans (w1 w2 w3 : World) : outside w1 w2 -> outside w2 w3 -> outside w1 w3.
Proof. intros [H1 H2] [H3 H4]. split; [by etrans | congruence]. Qed.

Lemma outside_same (w w' : World) :
  registry w' = registry w -> oracle w' = oracle w -> outside w w'.
Proof. intros Hr Ho. split; [rewrite Hr; apply rtc_refl | done]. Qed.

Lemma outside_call (w w' : World) :
  registryCall w w' -> oracle w' = oracle w -> outside w w'.
Proof. intros Hc Ho. split; [apply rtc_once; by constructor | done]. Qed.

Lemma reduceStake_outside (w w' : World) (v a : Z) :
  Registry.reduceStake w v a = Ok w' -> outside w w'.
Proof.
  intros Hc. apply outside_call; [by eapply rc_reduce|].
  rewrite reduceStake_ok in Hc. by injection Hc as <-.
Qed.

Lemma distributeRewards_frame (w w' : World) (sender b id e : Z) :
  Treasury.distributeRewards w sender b id e = Ok w' ->
  registry w' = registry w /\ oracle w' = oracle w /\
  hourlyCredits w' = hourlyCredits w.
Proof.
  intros Hc. unfold Treasury.distributeRewards in Hc. inv_ok Hc; subst; auto.
Qed.

Lemma mint_frame `{Chain} (w w' : World) (sender to h a k : Z) :
  HourlyCredits.mint w sender to h a k = Ok w' ->
  registry w' = registry w /\ oracle w' = oracle w /\ treasury w' = treasury w.
Proof.
  intros Hc. unfold HourlyCredits.mint in Hc. inv_ok Hc; subst; auto.
Qed.

Lemma slash_internal_outside (w w' : World) (v : Z) :
  Treasury._slash w v = Ok w' -> outside w w'.
Proof.
  intros Hc. unfold Treasury._slash in Hc. inv_ok Hc; subst; simpl.
  - match goal with
    | Hr : Registry.reduceStake _ _ _ = Ok _ |- _ =>
        apply reduceStake_outside in Hr as [? ?]
    end.
    split; simpl; auto.
  - by apply outside_same.
Qed.

Lemma countFault_outside (w w' : World) (v : Z) (t : FaultType) :
  Treasury.countFault w v t = Ok w' -> outside w w'.
Proof.
  intros Hc. unfold Treasury.countFault in Hc. inv_ok Hc; subst.
  - apply slash_internal_outside in Hc as [? ?]. split; simpl in *; auto.
  - by apply outside_same.
Qed.

Lemma faultLoop_outside (b : Z) (t : FaultType) (vs : list Z) (i : Z) (w w' : World) :
  Treasury.faultLoop b t i vs w = Ok w' -> outside w w'.
Proof.
  revert i w. induction vs as [|v vs IH]; intros i w Hc; simpl in Hc.
  - injection Hc as <-. apply outside_refl.
  - inv_ok Hc.
    + eapply outside_trans; [by eapply countFault_outside | by eapply IH].
    + by eapply IH.
    + subst. apply outside_refl.
Qed.

Lemma recordFault_outside (w w' : World) (sender v : Z) (t : FaultType) :
  Treasury.recordFault w sender v t = Ok w' -> outside w w'.
Proof.
  intros Hc. unfold Treasury.recordFault in Hc. inv_ok Hc.
  by eapply countFault_outside.
Qed.

Lemma recordFaults_outside (w w' : World) (sender b id : Z) (t : FaultType) :
  Treasury.recordFaults w sender b id t = Ok w' -> outside w w'.
Proof.
  intros Hc. unfold Treasury.recordFaults in Hc. inv_ok Hc.
  - subst. apply outside_refl.
  - by eapply faultLoop_outside.
Qed.

Lemma slash_outside (w w' : World) (v : Z) :
  Treasury.slash w v = Ok w' -> outside w w'.
Proof.
  intros Hc. unfold Treasury.slash in Hc. inv_ok Hc.
  - subst. apply outside_refl.
  - by eapply slash_internal_outside.
Qed.

Ltac quiet_step :=
  split; [apply rtc_once, rs_quiet; repeat split | reflexivity].

Lemma exec_outside `{Chain} (w w' : World) (sender now : Z) (c : Call) :
  oracleCall c = false -> wellTyped c -> exec w sender now c = Ok w' -> outside w w'.
Proof.
  intros Hoc Hwt Hc. destruct c; try discriminate Hoc; simpl in Hc.
  - unfold Registry.registerProducer in Hc. inv_ok Hc. subst. quiet_step.
  - apply outside_call; [by eapply rc_stake; [apply Hwt | done]|].
    unfold Registry.stakeAsVerifier in Hc. by inv_ok Hc; subst.
  - apply outside_call; [by eapply rc_unstake|].
    unfold Registry.unstake in Hc. by inv_ok Hc; subst.
  - apply outside_call; [by eapply rc_activate|].
    unfold Registry.activateVerifier in Hc. by inv_ok Hc; subst.
  - apply outside_call; [by eapply rc_deactivate|].
    unfold Registry.deactivateVerifier in Hc. by inv_ok Hc; subst.
  - apply outside_call; [by eapply rc_allow|].
    unfold Registry.addToAllowlist in Hc. by inv_ok Hc; subst.
  - apply outside_call; [by eapply rc_disallow|].
    unfold Registry.removeFromAllowlist in Hc. by inv_ok Hc; subst.
  - unfold Registry.setPermissionedMode in Hc. inv_ok Hc. subst. quiet_step.
  - unfold Registry.setQuorumBps in Hc. inv_ok Hc. subst. quiet_step.
  - unfold Registry.setClaimWindow in Hc. inv_ok Hc. subst. quiet_step.
  - unfold Registry.setMinStake in Hc. inv_ok Hc. subst. quiet_step.
  - unfold Registry.setProductionOracle in Hc. inv_ok Hc. subst. quiet_step.
  - unfold Registry.setConsumptionOracle in Hc. inv_ok Hc. subst. quiet_step.
  - inv_ok Hc. subst. destruct x as [w1 id]. simpl.
    apply outside_call; [by eapply rc_snapshot|].
    unfold Registry.createSnapshot in E. inv_ok E. by simplify_eq.
  - apply outside_call; [by eapply rc_faults|].
    unfold Registry.incrementFaults in Hc. by inv_ok Hc; subst.
  - by eapply reduceStake_outside.
  - apply distributeRewards_frame in Hc as (? & ? & ?). by apply outside_same.
  - unfold Treasury.claimRewards in Hc. inv_ok Hc. subst. by apply outside_same.
  - by eapply recordFault_outside.
  - by eapply recordFaults_outside.
  - by eapply slash_outside.
  - unfold Treasury.deposit in Hc. inv_ok Hc. subst. by apply outside_same.
  - unfold Treasury.withdraw in Hc. inv_ok Hc. subst. by apply outside_same.
  - unfold Treasury.setProductionOracle in Hc. inv_ok Hc. subst. by apply outside_same.
  - unfold Treasury.setConsumptionOracle in Hc. inv_ok Hc. subst. by apply outside_same.
  - unfold Treasury.setDisableSlashing in Hc. inv_ok Hc. subst. by apply outside_same.
  - unfold Treasury.setRewardPerWhWei in Hc. inv_ok Hc. subst. by apply outside_same.
  - unfold Treasury.setSlashBps in Hc. inv_ok Hc. subst. by apply outside_same.
  - unfold Treasury.setFaultThreshold in Hc. inv_ok Hc. subst. by apply outside_same.
  - apply mint_frame in Hc as (? & ? & ?). by apply outside_same.
  - unfold HourlyCredits.setProductionOracle in Hc. inv_ok Hc. subst. by apply outside_same.
Qed.

(** ** Oracle calls: their effect on the Registry *)

Lemma finalizeWithValue_effect `{Chain} (w w' : World) (ck p h wh root b : Z) :
  ProductionOracle._finalizeWithValue w ck p h wh root b = Ok w' ->
  registry w' = registry w /\
  oracle w' = oracle (ProductionOracle.storeBucket ck
                        (ProductionOracle.markFinalized wh (keccakValue wh root) root b
                           (ProductionOracle.getClaimBucket w ck)) w).
Proof.
  intros Hc. unfold ProductionOracle._finalizeWithValue in Hc. inv_ok Hc. subst.
  repeat match goal with
  | Hm : HourlyCredits.mint _ _ _ _ _ _ = Ok _ |- _ =>
      apply mint_frame in Hm as (? & ? & ?)
  | Hd : Treasury.distributeRewards _ _ _ _ _ = Ok _ |- _ =>
      apply distributeRewards_frame in Hd as (? & ? & ?)
  end.
  simpl in *. split; congruence.
Qed.


Lemma getClaimBucket_store `{Chain} (w : World) (k k' : Z) (b : ClaimBucket) :
  ProductionOracle.getClaimBucket (ProductionOracle.storeBucket k b w) k'
  = if decide (k = k') then b else ProductionOracle.getClaimBucket w k'.
Proof.
  unfold ProductionOracle.getClaimBucket, ProductionOracle.storeBucket. simpl.
  destruct (decide (k = k')) as [->|?]; [apply sload_insert | by apply sload_insert_ne].
Qed.

Lemma getClaimBucket_store_eq `{Chain} (w : World) (k : Z) (b : ClaimBucket) :
  ProductionOracle.getClaimBucket (ProductionOracle.storeBucket k b w) k = b.
Proof. rewrite getClaimBucket_store. by destruct (decide (k = k)). Qed.

Lemma recordSubmission_ok `{Chain} (w1 w9 : World) (ck v idx wh root : Z) :
  ProductionOracle.recordSubmission w1 ck v idx wh root = Ok w9 ->
  w9 = afterSubmission w1 ck v (to_uint16 (Z.shiftl 1 idx)) wh root /\
  count (ProductionOracle.getValueSubmissions w1 ck (keccakValue wh root)) + 1 < UINT32 /\
  submissionCount (ProductionOracle.getClaimBucket w1 ck) + 1 < UINT32.
Proof.
  unfold ProductionOracle.recordSubmission, afterSubmission.
  set (bit := to_uint16 (Z.shiftl 1 idx)).
  set (vh := keccakValue wh root).
  set (t := ProductionOracle.getValueSubmissions w1 ck vh).
  set (b := ProductionOracle.getClaimBucket w1 ck).
  cbv zeta.
  replace (ProductionOracle.getValueSubmissions _ ck vh) with t by reflexivity.
  replace (ProductionOracle.getClaimBucket (ProductionOracle.markSubmitted ck v w1) ck)
    with b by reflexivity.
  set (b3 := ProductionOracle.set_allSubmittersBitmap _ b).
  set (w3 := ProductionOracle.storeBucket ck b3 _).
  assert (Hb6 : forall w t', ProductionOracle.getClaimBucket
            (ProductionOracle.markEvidenceRoot ck root
               (ProductionOracle.storeValueSubmission ck vh t' w)) ck
          = ProductionOracle.getClaimBucket w ck) by reflexivity.
  assert (Hb3 : ProductionOracle.getClaimBucket w3 ck = b3)
    by apply getClaimBucket_store_eq.
  assert (Hb4 : ProductionOracle.getClaimBucket
                  (ProductionOracle.pushValueHash ck vh w3) ck = b3)
    by apply getClaimBucket_store_eq.
  intros Hc.
  destruct (count t =? 0) eqn:Ect;
    apply bind_ok in Hc as (c & Hadd & Hc); apply add_ok in Hadd as [-> Hc1];
    rewrite !Hb6, ?Hb3, ?Hb4 in Hc;
    destruct (maxSubmittedEnergyWh b3 <? wh) eqn:Emax;
    rewrite ?getClaimBucket_store_eq, ?Hb6, ?Hb3, ?Hb4 in Hc;
    apply bind_ok in Hc as (n & Hadd & Hc); apply add_ok in Hadd as [-> Hc2];
    injection Hc as <-; (split; [|split; assumption]).
  all: unfold ProductionOracle.claimValueHashes, ProductionOracle.storeBucket,
         ProductionOracle.markEvidenceRoot, ProductionOracle.storeValueSubmission,
         ProductionOracle.pushValueHash, ProductionOracle.markSubmitted,
         ProductionOracle.update, w3, emit, setOracleState; simpl.
  all: rewrite ?insert_insert_eq.
  all: change (maxSubmittedEnergyWh b3) with (maxSubmittedEnergyWh b) in Emax.
  all: unfold acceptedBucket, acceptedTally; rewrite Ect, Emax.
  all: reflexivity.
Qed.

(** The shape of every accepted submission. *)
Lemma submitProduction_ok `{Chain} (w w' : World) (sender now p h wh root sig : Z) :
  ProductionOracle.submitProduction w sender now p h wh root sig = Ok w' ->
  let ck := ProductionOracle.getClaimKey w p h in
  let v := ecrecover (this (oracle w)) p h wh root sig in
  exists w1 idx,
    finalized (ProductionOracle.getClaimBucket w ck) = false /\
    active (Registry.getVerifier w v) = true /\
    ((snapshotId (ProductionOracle.getClaimBucket w ck) <> 0 /\ w1 = w) \/
     (snapshotId (ProductionOracle.getClaimBucket w ck) = 0 /\
      exists wr id,
        Registry.createSnapshot w (this (oracle w)) now ck = Ok (wr, id) /\
        now + claimWindow (oracle w) < UINT256 /\
        w1 = ProductionOracle.storeBucket ck
               (ProductionOracle.openBucket id (now + claimWindow (oracle w))
                  (ProductionOracle.getClaimBucket wr ck)) wr)) /\
    now <= deadline (ProductionOracle.getClaimBucket w1 ck) /\
    Registry.getVerifierIndex w1
      (snapshotId (ProductionOracle.getClaimBucket w1 ck)) v = Ok idx /\
    ProductionOracle.hasSubmitted w1 ck v = false /\
    let w9 := afterSubmission w1 ck v (to_uint16 (Z.shiftl 1 idx)) wh root in
    (w' = w9 \/
     ProductionOracle._finalizeWithValue w9 ck p h wh root
       (verifierBitmap
          (ProductionOracle.getValueSubmissions w9 ck (keccakValue wh root))) = Ok w').
Proof.
  intros Hc ck v. unfold ProductionOracle.submitProduction in Hc.
  fold ck in Hc. cbv zeta in Hc.
  apply bind_ok in Hc as (? & Hfin & Hc). apply require_ok in Hfin.
  apply bind_ok in Hc as (? & _ & Hc).
  apply bind_ok in Hc as (v' & Hsig & Hc).
  assert (v' = v) as ->.
  { unfold ProductionOracle._validateSignature in Hsig. inv_ok Hsig. by subst. }
  apply bind_ok in Hc as (? & Hact & Hc). apply require_ok in Hact.
  apply bind_ok in Hc as (w1 & Hw1 & Hc).
  destruct (deadline (ProductionOracle.getClaimBucket w1 ck) <? now) eqn:Hdl.
  { apply bind_ok in Hc as (? & _ & Hc). discriminate. }
  destruct (Registry.getVerifierIndex w1 _ v) as [idx|] eqn:Hidx; [|discriminate].
  destruct (ProductionOracle.hasSubmitted w1 ck v) eqn:Hdup.
  { apply bind_ok in Hc as (? & _ & Hc). discriminate. }
  apply bind_ok in Hc as (w9 & Hw9 & Hc).
  apply recordSubmission_ok in Hw9 as (-> & _ & _).
  exists w1, idx. repeat split.
  - by apply negb_true_iff in Hfin.
  - done.
  - destruct (snapshotId (ProductionOracle.getClaimBucket w ck) =? 0) eqn:Hs.
    + right. split; [lia|]. apply bind_ok in Hw1 as ([wr id] & Hsnap & Hw1).
      apply bind_ok in Hw1 as (dl & Hadd & Hw1). apply add_ok in Hadd as [-> Hlt].
      injection Hw1 as <-. by exists wr, id.
    + left. split; [lia|]. by injection Hw1.
  - lia.
  - done.
  - done.
  - cbv zeta. match goal with
    | Hb : (if ?c then _ else _) = Ok w' |- _ => destruct c
    end; [by right | left; by injection Hc].
Qed.

Lemma createSnapshot_oracle (w w' : World) (sender now ck id : Z) :
  Registry.createSnapshot w sender now ck = Ok (w', id) ->
  oracle w' = oracle w /\ treasury w' = treasury w /\
  hourlyCredits w' = hourlyCredits w /\ id = _nextSnapshotId (registry w).
Proof.
  intros Hc. unfold Registry.createSnapshot in Hc. inv_ok Hc. by simplify_eq.
Qed.

Lemma submitProduction_registry `{Chain} (w w' : World) (sender now p h wh root sig : Z) :
  ProductionOracle.submitProduction w sender now p h wh root sig = Ok w' ->
  rtc regStep (registry w) (registry w').
Proof.
  intros Hc. apply submitProduction_ok in Hc.
  destruct Hc as (w1 & idx & _ & _ & Hw1 & _ & _ & _ & Hw').
  assert (Hr1 : rtc regStep (registry w) (registry w1)).
  { destruct Hw1 as [[_ ->]|(_ & wr & id & Hsnap & _ & ->)]; [apply rtc_refl|].
    simpl. apply rtc_once, rs_call. by eapply rc_snapshot. }
  destruct Hw' as [->|Hfin]; [done|].
  apply finalizeWithValue_effect in Hfin as [-> _]. done.
Qed.

Lemma finalizeProduction_registry `{Chain} (w w' : World) (sender now p h : Z) :
  ProductionOracle.finalizeProduction w sender now p h = Ok w' ->
  rtc regStep (registry w) (registry w').
Proof.
  intros Hc. unfold ProductionOracle.finalizeProduction in Hc.
  cbv zeta in Hc.
  apply bind_ok in Hc as (? & _ & Hc). apply bind_ok in Hc as (? & _ & Hc).
  apply bind_ok in Hc as (q & _ & Hc).
  match type of Hc with (if ?c then _ else _) = _ => destruct c end.
  - injection Hc as <-. apply rtc_refl.
  - apply bind_ok in Hc as (w1 & Hfin & Hc).
    apply finalizeWithValue_effect in Hfin as [Hr _].
    match type of Hc with (if ?c then _ else _) = _ => destruct c end.
    + apply recordFaults_outside in Hc as [Hc _]. by rewrite <- Hr.
    + injection Hc as <-. rewrite Hr. apply rtc_refl.
Qed.

Lemma forceFinalize_registry `{Chain} (w w' : World) (sender now p h wh root : Z) :
  ProductionOracle.forceFinalize w sender now p h wh root = Ok w' ->
  registry w' = registry w.
Proof.
  intros Hc. unfold ProductionOracle.forceFinalize in Hc. inv_ok Hc. subst.
  match goal with
  | Hm : HourlyCredits.mint _ _ _ _ _ _ = Ok _ |- _ =>
      apply mint_frame in Hm as (Hreg & _ & _)
  end.
  simpl. by rewrite Hreg.
Qed.

Lemma exec_registry `{Chain} (w w' : World) (sender now : Z) (c : Call) :
  wellTyped c -> exec w sender now c = Ok w' -> rtc regStep (registry w) (registry w').
Proof.
  intros Hwt Hc. destruct (oracleCall c) eqn:Hoc.
  - destruct c; try discriminate Hoc; simpl in Hc.
    + by eapply submitProduction_registry.
    + by eapply finalizeProduction_registry.
    + apply forceFinalize_registry in Hc as ->. apply rtc_refl.
    + unfold ProductionOracle.setBaselineMode in Hc. inv_ok Hc. subst. apply rtc_refl.
    + unfold ProductionOracle.setSingleVerifierOverride in Hc. inv_ok Hc. subst.
      apply rtc_refl.
    + unfold ProductionOracle.setClaimWindow in Hc. inv_ok Hc. subst. apply rtc_refl.
    + unfold ProductionOracle.setQuorumBps in Hc. inv_ok Hc. subst. apply rtc_refl.
  - by eapply exec_outside.
Qed.

Lemma deploy_registryInv `{Chain} (ro to co oo oa : Z) :
  registryInv (registry (deploy ro to co oo oa)).
Proof.
  split; unfold verifierOf, indexOf; simpl.
  - intros v. by rewrite sload_empty.
  - intros v Hv. by apply elem_of_nil in Hv.
  - intros v. by rewrite sload_empty.
  - apply NoDup_nil_2.
  - lia.
  - intros id s Hs. by rewrite lookup_empty in Hs.
Qed.

Lemma transact_cases `{Chain} (w : World) (sender now : Z) (c : Call) :
  transact w sender now c = w \/ exec w sender now c = Ok (transact w sender now c).
Proof. unfold transact. destruct (exec w sender now c); auto. Qed.

Lemma reachable_registryInv `{Chain} (w : World) :
  reachable w -> registryInv (registry w).
Proof.
  induction 1 as [|w sender now c Hw IH Hs Hn Hwt]; [apply deploy_registryInv|].
  destruct (transact_cases w sender now c) as [->|Hex]; [done|].
  eapply regSteps_inv; [|done]. by eapply exec_registry.
Qed.

(** ** C10: [reduceStake] *)

(** C10.  [Registry.reduceStake(v, a)] never fails, for any caller, verifier
    and amount: when [a <= stake(v)] the stake decreases by exactly [a],
    otherwise it is set to 0, and no other verifier is touched.  Hence, in
    every world reachable by any sequence of transactions, no stake is
    negative. *)
Theorem reduceStake_never_fails `{Chain} (w : World) (v a : Z) :
  (exists w',
     Registry.reduceStake w v a = Ok w' /\
     stakeOf w' v = (if a <=? stakeOf w v then stakeOf w v - a else 0) /\
     (forall u, u <> v -> Registry.getVerifier w' u = Registry.getVerifier w u)) /\
  (reachable w -> forall u, 0 <= stakeOf w u).
Proof.
  split.
  - eexists. split; [apply reduceStake_ok|]. split.
    + unfold stakeOf at 1. rewrite getVerifier_store.
      destruct (decide (v = v)); [reflexivity | done].
    + intros u Hu. rewrite getVerifier_store.
      destruct (decide (v = u)); [congruence | reflexivity].
  - intros Hw u. apply reachable_registryInv in Hw. apply (ri_stake _ Hw).
Qed.

(** ** Treasury: faults and slashing *)

Lemma getFaults_update (w : World) (m : gmap Z Z) (u : Z) :
  Treasury.getFaults
    (Treasury.update w (fun t => Treasury.set_verifierFaults m t)) u = sload 0 m u.
Proof. reflexivity. Qed.

(** What [_slash] does when it succeeds. *)
Lemma slash_internal_effect (w w' : World) (v : Z) :
  Treasury._slash w v = Ok w' ->
  let amount := stakeOf w v * slashBps (treasury w) / 10000 in
  stakeOf w' v = (if 0 <? amount
                  then if amount <=? stakeOf w v then stakeOf w v - amount else 0
                  else stakeOf w v) /\
  rewardPool (treasury w') = (if 0 <? amount then rewardPool (treasury w) + amount
                              else rewardPool (treasury w)) /\
  Treasury.getSlashed w' v = true /\
  (forall u, u <> v -> Registry.getVerifier w' u = Registry.getVerifier w u) /\
  (forall u, u <> v -> Treasury.getSlashed w' u = Treasury.getSlashed w u) /\
  (forall u, faults (Registry.getVerifier w' u) = faults (Registry.getVerifier w u)) /\
  (forall u, Treasury.getFaults w' u = Treasury.getFaults w u) /\
  log w' = Slashed v amount :: log w.
Proof.
  intros Hc amount. unfold Treasury._slash in Hc.
  cbv zeta in Hc. apply bind_ok in Hc as (product & Hmul & Hc).
  apply mul_ok in Hmul as [-> _].
  change (stake (Registry.getVerifier _ v)) with (stakeOf w v) in Hc.
  change (slashBps (treasury _)) with (slashBps (treasury w)) in Hc.
  fold amount in Hc.
  apply bind_ok in Hc as (w3 & Hw3 & Hc). injection Hc as <-.
  destruct (0 <? amount) eqn:Hpos.
  - apply bind_ok in Hw3 as (w2 & Hred & Hw3).
    rewrite reduceStake_ok in Hred. injection Hred as <-.
    apply bind_ok in Hw3 as (pool & Hadd & Hw3). apply add_ok in Hadd as [-> _].
    injection Hw3 as <-.
    change (stakeOf (Treasury.update w _) v) with (stakeOf w v).
    unfold stakeOf, Treasury.getSlashed, Treasury.getFaults, Registry.getVerifier,
      Registry.storeVerifier in *; simpl.
    repeat split.
    + rewrite sload_insert. simpl.
      by destruct (amount <=? stake (sload noVerifier (_verifiers (registry w)) v)).
    + apply sload_insert.
    + intros u Hu. by rewrite sload_insert_ne.
    + intros u Hu. by apply sload_insert_ne.
    + intros u. sload_case v u; reflexivity.
  - injection Hw3 as <-.
    unfold stakeOf, Treasury.getSlashed, Treasury.getFaults, Registry.getVerifier in *;
      simpl.
    repeat split.
    + apply sload_insert.
    + intros u Hu. by apply sload_insert_ne.
Qed.

Lemma slash_internal_succeeds (w : World) (v : Z) :
  let amount := stakeOf w v * slashBps (treasury w) / 10000 in
  stakeOf w v * slashBps (treasury w) < UINT256 ->
  rewardPool (treasury w) + amount < UINT256 ->
  exists w', Treasury._slash w v = Ok w'.
Proof.
  intros amount Hmul Hadd. unfold Treasury._slash. cbv zeta.
  change (stake (Registry.getVerifier _ v)) with (stakeOf w v).
  change (slashBps (treasury _)) with (slashBps (treasury w)).
  rewrite mul_fits by done. simpl. fold amount.
  destruct (0 <? amount); simpl; [|eauto].
  rewrite reduceStake_ok. simpl.
  change (rewardPool _) with (rewardPool (treasury w)).
  rewrite add_fits by done. simpl. eauto.
Qed.

Lemma countFault_unfold (w : World) (v : Z) (t : FaultType) :
  Treasury.getFaults w v + 1 < UINT256 ->
  Treasury.countFault w v t =
  let w2 := emit (FaultRecorded v t (Treasury.getFaults w v + 1))
              (Treasury.update w (fun s =>
                 Treasury.set_verifierFaults
                   (<[v := Treasury.getFaults w v + 1]> (verifierFaults s)) s)) in
  if slashDue w v then Treasury._slash w2 v else Ok w2.
Proof.
  intros Hlt. unfold Treasury.countFault. rewrite add_fits by done.
  unfold slashDue, Treasury.getFaults, Treasury.getSlashed. simpl.
  rewrite !sload_insert. reflexivity.
Qed.

Lemma countFault_effect (w w' : World) (v : Z) (t : FaultType) :
  Treasury.countFault w v t = Ok w' ->
  let amount := stakeOf w v * slashBps (treasury w) / 10000 in
  Treasury.getFaults w' v = Treasury.getFaults w v + 1 /\
  (forall u, u <> v -> Treasury.getFaults w' u = Treasury.getFaults w u) /\
  (forall u, faults (Registry.getVerifier w' u) = faults (Registry.getVerifier w u)) /\
  (forall u, u <> v -> Registry.getVerifier w' u = Registry.getVerifier w u) /\
  (forall u, u <> v -> Treasury.getSlashed w' u = Treasury.getSlashed w u) /\
  (if slashDue w v
   then stakeOf w' v = (if 0 <? amount
                        then if amount <=? stakeOf w v then stakeOf w v - amount else 0
                        else stakeOf w v) /\
        rewardPool (treasury w') = (if 0 <? amount then rewardPool (treasury w) + amount
                                    else rewardPool (treasury w)) /\
        Treasury.getSlashed w' v = true
   else Registry.getVerifier w' v = Registry.getVerifier w v /\
        rewardPool (treasury w') = rewardPool (treasury w) /\
        Treasury.getSlashed w' v = Treasury.getSlashed w v).
Proof.
  intros Hc amount.
  assert (Hlt : Treasury.getFaults w v + 1 < UINT256).
  { unfold Treasury.countFault in Hc. apply bind_ok in Hc as (f & Hadd & _).
    by apply add_ok in Hadd as [_ ?]. }
  rewrite countFault_unfold in Hc by done. cbv zeta in Hc.
  set (w2 := emit _ _) in Hc.
  assert (Hf2 : Treasury.getFaults w2 v = Treasury.getFaults w v + 1).
  { unfold Treasury.getFaults, w2. simpl. apply sload_insert. }
  assert (Hf2' : forall u, u <> v -> Treasury.getFaults w2 u = Treasury.getFaults w u).
  { intros u Hu. unfold Treasury.getFaults, w2. simpl. by apply sload_insert_ne. }
  destruct (slashDue w v).
  - apply slash_internal_effect in Hc.
    change (stakeOf w2 v) with (stakeOf w v) in Hc.
    change (slashBps (treasury w2)) with (slashBps (treasury w)) in Hc.
    change (rewardPool (treasury w2)) with (rewardPool (treasury w)) in Hc.
    fold amount in Hc.
    destruct Hc as (Hst & Hpool & Hsl & Hothers & Hslo & Hfaults & Hcount & _).
    repeat split; auto.
    + by rewrite Hcount.
    + intros u Hu. rewrite Hcount. by apply Hf2'.
  - injection Hc as <-. repeat split; auto.
Qed.

Lemma countFault_succeeds (w : World) (v : Z) (t : FaultType) :
  let amount := stakeOf w v * slashBps (treasury w) / 10000 in
  Treasury.getFaults w v + 1 < UINT256 ->
  (slashDue w v = true ->
   stakeOf w v * slashBps (treasury w) < UINT256 /\
   rewardPool (treasury w) + amount < UINT256) ->
  exists w', Treasury.countFault w v t = Ok w'.
Proof.
  intros amount Hlt Hdue. rewrite countFault_unfold by done. cbv zeta.
  destruct (slashDue w v); [|eauto].
  destruct Hdue as [Hmul Hadd]; [done|].
  by apply slash_internal_succeeds.
Qed.

(** A verifier already slashed keeps its stake through every later fault. *)
Lemma countFault_slashed (w w' : World) (v u : Z) (t : FaultType) :
  Treasury.getSlashed w v = true -> Treasury.countFault w u t = Ok w' ->
  stakeOf w' v = stakeOf w v /\ Treasury.getSlashed w' v = true.
Proof.
  intros Hsl Hc. apply countFault_effect in Hc.
  destruct Hc as (_ & _ & _ & Hothers & Hslo & Hdue).
  destruct (decide (v = u)) as [->|Hne].
  - unfold slashDue in Hdue. rewrite Hsl, andb_false_r in Hdue.
    destruct Hdue as (Hv & _ & Hs). unfold stakeOf. rewrite Hv, Hs. done.
  - unfold stakeOf. rewrite Hothers, Hslo by done. done.
Qed.

Lemma faultLoop_slashed (b : Z) (t : FaultType) (vs : list Z) (i : Z)
    (w w' : World) (v : Z) :
  Treasury.getSlashed w v = true -> Treasury.faultLoop b t i vs w = Ok w' ->
  stakeOf w' v = stakeOf w v /\ Treasury.getSlashed w' v = true.
Proof.
  revert i w. induction vs as [|u vs IH]; intros i w Hsl Hc; simpl in Hc.
  - by injection Hc as <-.
  - destruct (i <? 16); [|by injection Hc as <-].
    destruct (Treasury.bitSet b i); [|by eapply IH].
    apply bind_ok in Hc as (w1 & Hcount & Hc).
    destruct (countFault_slashed _ _ _ _ _ Hsl Hcount) as [Hst1 Hsl1].
    destruct (IH _ _ Hsl1 Hc) as [Hst2 Hsl2]. split; [congruence | done].
Qed.

Lemma faultLoop_registry_faults (b : Z) (t : FaultType) (vs : list Z) (i : Z)
    (w w' : World) :
  Treasury.faultLoop b t i vs w = Ok w' ->
  forall u, faults (Registry.getVerifier w' u) = faults (Registry.getVerifier w u).
Proof.
  revert i w. induction vs as [|v vs IH]; intros i w Hc u; simpl in Hc.
  - by injection Hc as <-.
  - destruct (i <? 16); [|by injection Hc as <-].
    destruct (Treasury.bitSet b i); [|by eapply IH].
    apply bind_ok in Hc as (w1 & Hcount & Hc).
    apply countFault_effect in Hcount as (_ & _ & Hf & _).
    rewrite (IH _ _ Hc u). apply Hf.
Qed.

(** ** C9: where faults are counted *)

(** C9.  Recording a fault does not touch the Verifier record of the
    Registry: after a successful [Treasury.recordFault(v, type)] the
    Treasury's own counter [verifierFaults[v]] has grown by one, while the
    [faults] field returned by [Registry.getVerifier] is the same for every
    verifier; the same holds for every successful [recordFaults] batch.
    ([Registry.incrementFaults] is never called by the Treasury.) *)
Theorem recordFault_keeps_registry_faults (w : World) (sender : Z) (t : FaultType) :
  (forall v w', Treasury.recordFault w sender v t = Ok w' ->
     Treasury.getFaults w' v = Treasury.getFaults w v + 1 /\
     forall u, faults (Registry.getVerifier w' u) = faults (Registry.getVerifier w u)) /\
  (forall loserBitmap id w', Treasury.recordFaults w sender loserBitmap id t = Ok w' ->
     forall u, faults (Registry.getVerifier w' u) = faults (Registry.getVerifier w u)).
Proof.
  split.
  - intros v w' Hc. unfold Treasury.recordFault in Hc.
    apply bind_ok in Hc as (? & _ & Hc).
    apply countFault_effect in Hc as (Hf & _ & Hr & _). auto.
  - intros b id w' Hc u. unfold Treasury.recordFaults in Hc.
    apply bind_ok in Hc as (? & _ & Hc).
    destruct (b =? 0); [by injection Hc as <-|].
    by eapply faultLoop_registry_faults.
Qed.

(** ** Faults recorded by an authorized oracle *)

Lemma recordFault_authorized (w : World) (sender v : Z) (t : FaultType) :
  Treasury.onlyAuthorizedOracle w sender = Ok tt ->
  Treasury.recordFault w sender v t = Treasury.countFault w v t.
Proof. intros Hauth. unfold Treasury.recordFault. by rewrite Hauth. Qed.

(** ** Bitmaps *)

Lemma bitCount_shift (n : nat) (b : Z) :
  bitCount (S n) b = (if Z.testbit b 0 then 1 else 0) + bitCount n (Z.shiftr b 1).
Proof. reflexivity. Qed.

Lemma bitCount_nonneg (n : nat) (b : Z) : 0 <= bitCount n b.
Proof.
  revert b. induction n as [|n IH]; intros b; [simpl; lia|].
  rewrite bitCount_shift.
  specialize (IH (Z.shiftr b 1)). destruct (Z.testbit b 0); lia.
Qed.

Lemma bitCount_zero (n : nat) : bitCount n 0 = 0.
Proof.
  induction n as [|n IH]; [done|].
  rewrite bitCount_shift, Z.shiftr_0_l, IH. by rewrite Z.bits_0.
Qed.

Lemma land_1_testbit (b : Z) : Z.land b 1 = if Z.testbit b 0 then 1 else 0.
Proof.
  change 1 with (Z.ones 1) at 1. rewrite Z.land_ones by lia.
  change (2 ^ 1) with 2. rewrite <- Z.bit0_mod.
  by destruct (Z.testbit b 0).
Qed.

Lemma shiftr_1_bound (b : Z) (n : nat) :
  0 <= b < 2 ^ Z.of_nat (S n) -> 0 <= Z.shiftr b 1 < 2 ^ Z.of_nat n.
Proof.
  intros [H0 H1]. rewrite Z.shiftr_div_pow2 by lia. change (2 ^ 1) with 2.
  replace (Z.of_nat (S n)) with (Z.of_nat n + 1) in H1 by lia.
  rewrite Z.pow_add_r in H1 by lia. change (2 ^ 1) with 2 in H1.
  split; [apply Z.div_pos; lia | apply Z.div_lt_upper_bound; lia].
Qed.

Lemma popcountLoop_spec (n : nat) (b c : Z) :
  0 <= b < 2 ^ Z.of_nat n -> Treasury.popcountLoop n b c = c + bitCount n b.
Proof.
  revert b c. induction n as [|n IH]; intros b c Hb.
  - simpl. lia.
  - rewrite bitCount_shift. cbn [Treasury.popcountLoop].
    destruct (b =? 0) eqn:E.
    + apply Z.eqb_eq in E. subst. rewrite Z.shiftr_0_l, bitCount_zero, Z.bits_0. lia.
    + rewrite IH by (by apply shiftr_1_bound). rewrite land_1_testbit. lia.
Qed.

Lemma popcount_bitCount (b : Z) : fits UINT16 b -> Treasury._popcount b = bitCount 16 b.
Proof. intros Hb. unfold Treasury._popcount. by rewrite popcountLoop_spec. Qed.

Lemma bitSet_testbit (b i : Z) : 0 <= i -> Treasury.bitSet b i = Z.testbit b i.
Proof.
  intros Hi. unfold Treasury.bitSet. rewrite Z.shiftl_1_l.
  destruct (Z.testbit b i) eqn:E.
  - apply negb_true_iff, Z.eqb_neq. intros Hz.
    assert (Z.testbit (Z.land b (2 ^ i)) i = true).
    { rewrite Z.land_spec, E, Z.pow2_bits_true; done. }
    rewrite Hz, Z.bits_0 in H. discriminate.
  - apply negb_false_iff, Z.eqb_eq. apply Z.bits_inj'. intros j Hj.
    rewrite Z.land_spec, Z.bits_0. destruct (decide (j = i)) as [->|Hne].
    + by rewrite E.
    + rewrite Z.pow2_bits_false by lia. apply andb_false_r.
Qed.

Lemma bitCount_mono (n m : nat) (b : Z) : (n <= m)%nat -> bitCount n b <= bitCount m b.
Proof.
  revert m b. induction n as [|n IH]; intros m b Hle.
  - apply bitCount_nonneg.
  - destruct m as [|m]; [lia|]. rewrite !bitCount_shift.
    specialize (IH m (Z.shiftr b 1)). lia.
Qed.

Lemma bitCount_small (n m : nat) (b : Z) :
  (n <= m)%nat -> 0 <= b < 2 ^ Z.of_nat n -> bitCount m b = bitCount n b.
Proof.
  revert m b. induction n as [|n IH]; intros m b Hle Hb.
  - simpl in *. assert (b = 0) as -> by lia. apply bitCount_zero.
  - destruct m as [|m]; [lia|]. rewrite !bitCount_shift. rewrite (IH m); [done | lia |].
    by apply shiftr_1_bound.
Qed.

(** The number of verifiers the reward loop pays. *)
Lemma paidFrom_length (b : Z) (vs : list Z) (i : nat) :
  0 <= b -> (i <= 16)%nat ->
  Z.of_nat (length (paidFrom b (Z.of_nat i) vs))
  = bitCount (min (length vs) (16 - i)) (Z.shiftr b (Z.of_nat i)).
Proof.
  intros Hb. revert i. induction vs as [|v vs IH]; intros i Hi; [done|].
  cbn [paidFrom length].
  destruct (Z.of_nat i <? 16) eqn:E.
  - assert (Hlt : (i < 16)%nat) by lia.
    replace (min (S (length vs)) (16 - i))%nat
      with (S (min (length vs) (16 - S i))) by lia.
    rewrite bitCount_shift, Z.shiftr_shiftr by lia.
    replace (Z.of_nat i + 1) with (Z.of_nat (S i)) by lia.
    rewrite <- IH by lia.
    rewrite bitSet_testbit by lia.
    rewrite Z.shiftr_spec by lia. rewrite Z.add_0_l.
    destruct (Z.testbit b (Z.of_nat i)); cbn [length]; lia.
  - replace (16 - i)%nat with 0%nat by lia. by rewrite Nat.min_0_r.
Qed.

Lemma paid_le_popcount (b : Z) (vs : list Z) :
  fits UINT16 b ->
  Z.of_nat (length (paidFrom b 0 vs)) <= Treasury._popcount b /\
  (b < 2 ^ Z.of_nat (length vs) ->
   Z.of_nat (length (paidFrom b 0 vs)) = Treasury._popcount b).
Proof.
  intros Hb. rewrite popcount_bitCount by done.
  pose proof (paidFrom_length b vs 0 (proj1 Hb) (Nat.le_0_l _)) as Hlen.
  change (Z.of_nat 0) with 0 in Hlen. rewrite Z.shiftr_0_r in Hlen. rewrite Hlen.
  replace (16 - 0)%nat with 16%nat by lia. split.
  - apply bitCount_mono. lia.
  - intros Hsmall. symmetry. destruct (decide (length vs <= 16)%nat).
    + rewrite Nat.min_l by done. apply bitCount_small; [done|]. split; [apply Hb | done].
    + by rewrite Nat.min_r by lia.
Qed.

(** ** C5: reward distribution *)

Lemma timesIn_cons (v u : Z) (l : list Z) :
  timesIn v (u :: l) = (if decide (u = v) then 1 else 0) + timesIn v l.
Proof.
  unfold timesIn. rewrite filter_cons.
  destruct (decide (u = v)); cbn [length]; lia.
Qed.

Lemma timesIn_nil (v : Z) : timesIn v [] = 0.
Proof. reflexivity. Qed.

Lemma rewardLoop_effect (b r : Z) (vs : list Z) (i : Z) (pending : gmap Z Z) (d : Z)
    (res : gmap Z Z * Z) :
  Treasury.rewardLoop b r i vs pending d = Ok res ->
  snd res = d + r * Z.of_nat (length (paidFrom b i vs)) /\
  forall v, sload 0 (fst res) v = sload 0 pending v + r * timesIn v (paidFrom b i vs).
Proof.
  revert i pending d. induction vs as [|u vs IH]; intros i pending d Hc;
    cbn [Treasury.rewardLoop paidFrom] in *.
  - injection Hc as <-. simpl. split; [lia|]. intros v. rewrite timesIn_nil. lia.
  - destruct (i <? 16).
    + destruct (Treasury.bitSet b i).
      * apply bind_ok in Hc as (p & Hp & Hc). apply add_ok in Hp as [-> _].
        apply bind_ok in Hc as (d' & Hd & Hc). apply add_ok in Hd as [-> _].
        apply IH in Hc as [Hsum Hpend]. split.
        -- rewrite Hsum. cbn [length]. lia.
        -- intros v. rewrite Hpend, timesIn_cons.
           destruct (decide (u = v)) as [->|Hne].
           ++ rewrite sload_insert. lia.
           ++ rewrite sload_insert_ne by done. lia.
      * by apply IH.
    + injection Hc as <-. simpl. split; [lia|]. intros v. rewrite timesIn_nil. lia.
Qed.

Lemma rewardLoop_succeeds (b r : Z) (vs : list Z) (i : Z) (pending : gmap Z Z) (d : Z) :
  0 <= r -> 0 <= i <= 16 ->
  (forall v, sload 0 pending v + r * (16 - i) < UINT256) ->
  d + r * (16 - i) < UINT256 ->
  exists res, Treasury.rewardLoop b r i vs pending d = Ok res.
Proof.
  intros Hr. revert i pending d.
  induction vs as [|u vs IH]; intros i pending d Hi Hpend Hd;
    cbn [Treasury.rewardLoop]; [eauto|].
  destruct (i <? 16) eqn:E; [|eauto].
  destruct (Treasury.bitSet b i).
  - pose proof (Hpend u) as Hu.
    rewrite add_fits by nia. cbn [bind]. rewrite add_fits by nia. cbn [bind].
    apply IH; [lia | | nia].
    intros v. destruct (decide (u = v)) as [->|Hne].
    + rewrite sload_insert. nia.
    + rewrite sload_insert_ne by done. specialize (Hpend v). nia.
  - apply IH; [lia | | nia]. intros v. specialize (Hpend v). nia.
Qed.

Lemma popcount_nonneg (b : Z) : fits UINT16 b -> 0 <= Treasury._popcount b.
Proof. intros Hb. rewrite popcount_bitCount by done. apply bitCount_nonneg. Qed.

Lemma paidFrom_sublist (b i : Z) (vs : list Z) : sublist (paidFrom b i vs) vs.
Proof.
  revert i. induction vs as [|u vs IH]; intros i; cbn [paidFrom]; [constructor|].
  destruct (i <? 16); [|apply sublist_nil_l].
  destruct (Treasury.bitSet b i); [by apply sublist_skip | by apply sublist_cons].
Qed.

Lemma timesIn_NoDup (v : Z) (l : list Z) :
  NoDup l -> timesIn v l = if decide (v ∈ l) then 1 else 0.
Proof.
  induction 1 as [|u l Hnotin Hnd IH].
  - rewrite timesIn_nil. destruct (decide (v ∈ [])) as [Hin|]; [|done].
    by apply elem_of_nil in Hin.
  - rewrite timesIn_cons, IH. destruct (decide (u = v)) as [->|Hne].
    + destruct (decide (v ∈ l)); [done|].
      destruct (decide (v ∈ v :: l)) as [|Hn]; [done|]. exfalso. apply Hn. left.
    + destruct (decide (v ∈ l)) as [Hin|Hnin].
      * destruct (decide (v ∈ u :: l)) as [|Hn]; [done|]. exfalso. apply Hn. by right.
      * destruct (decide (v ∈ u :: l)) as [Hin|]; [|done].
        apply elem_of_cons in Hin as [->|Hin]; done.
Qed.

(** C5 (amended).  For a call of [distributeRewards(winnerBitmap, snapshotId,
    wh)] by an authorized oracle: if [popcount(winnerBitmap) = 0] or [wh = 0]
    or [rewardPerWhWei = 0] it emits [RewardsDistributed(winnerBitmap,
    snapshotId, 0)] and changes no storage.  Otherwise, with
    [total = wh * rewardPerWhWei] (below [2^256]), it fails
    [InsufficientRewardPool] when [total > rewardPool]; and when
    [total <= rewardPool] (and no pending balance overflows) it succeeds, pays
    [perWinner = floor(total / popcount(winnerBitmap))] to the snapshot
    verifier at every index below [min(|snapshot|, 16)] whose bit is set, and
    lowers [rewardPool] by [perWinner] times the number of verifiers paid.
    That number is at most [popcount(winnerBitmap)], and equal to it when every
    set bit is below the snapshot length. *)
Theorem distributeRewards_spec (w : World) (sender winnerBitmap snapshotId wh : Z) :
  let winners := Treasury._popcount winnerBitmap in
  let total := wh * rewardPerWhWei (treasury w) in
  let perWinner := total / winners in
  let vs := Registry.getSnapshotVerifiers w snapshotId in
  let paid := paidFrom winnerBitmap 0 vs in
  Treasury.onlyAuthorizedOracle w sender = Ok tt ->
  fits UINT16 winnerBitmap ->
  (winners = 0 \/ wh = 0 \/ rewardPerWhWei (treasury w) = 0 ->
   Treasury.distributeRewards w sender winnerBitmap snapshotId wh
   = Ok (emit (RewardsDistributed winnerBitmap snapshotId 0) w)) /\
  (winners <> 0 -> 0 < total < UINT256 -> rewardPool (treasury w) < total ->
   Treasury.distributeRewards w sender winnerBitmap snapshotId wh
   = Revert InsufficientRewardPool) /\
  (winners <> 0 -> 0 < total < UINT256 -> total <= rewardPool (treasury w) ->
   (forall v, 0 <= Treasury.getPendingRewards w v /\
              Treasury.getPendingRewards w v + 16 * perWinner < UINT256) ->
   exists w',
     Treasury.distributeRewards w sender winnerBitmap snapshotId wh = Ok w' /\
     (forall v, Treasury.getPendingRewards w' v
                = Treasury.getPendingRewards w v + perWinner * timesIn v paid) /\
     (NoDup vs -> forall v, timesIn v paid = if decide (v ∈ paid) then 1 else 0) /\
     rewardPool (treasury w')
     = rewardPool (treasury w) - perWinner * Z.of_nat (length paid) /\
     Z.of_nat (length paid) <= winners /\
     (winnerBitmap < 2 ^ Z.of_nat (length vs) -> Z.of_nat (length paid) = winners) /\
     log w' = RewardsDistributed winnerBitmap snapshotId
                (perWinner * Z.of_nat (length paid)) :: log w /\
     registry w' = registry w /\ oracle w' = oracle w /\
     hourlyCredits w' = hourlyCredits w).
Proof.
  intros winners total perWinner vs paid Hauth Hb.
  pose proof (popcount_nonneg _ Hb) as Hw0. fold winners in Hw0.
  unfold Treasury.distributeRewards. rewrite Hauth. cbn [bind]. fold winners.
  split; [|split].
  - intros [Hz|[Hz|Hz]].
    + rewrite Hz. reflexivity.
    + destruct (winners =? 0); [reflexivity|].
      subst wh. rewrite mul_fits by (unfold UINT256; lia). reflexivity.
    + destruct (winners =? 0); [reflexivity|].
      rewrite Hz. rewrite mul_fits by (unfold UINT256; lia). cbn [bind].
      rewrite Z.mul_0_r. reflexivity.
  - intros Hw Htot Hpool. fold total.
    destruct (winners =? 0) eqn:E; [lia|].
    rewrite mul_fits by lia. cbn [bind]. fold total.
    destruct (total =? 0) eqn:E0; [lia|].
    destruct (rewardPool (treasury w) <? total) eqn:E1; [reflexivity | lia].
  - intros Hw Htot Hpool Hpend.
    destruct (winners =? 0) eqn:E; [lia|].
    rewrite mul_fits by lia. cbn [bind]. fold total.
    destruct (total =? 0) eqn:E0; [lia|].
    destruct (rewardPool (treasury w) <? total) eqn:E1; [lia|]. cbn [negb require bind].
    fold perWinner vs.
    assert (Hpw : 0 <= perWinner) by (apply Z.div_pos; lia).
    assert (Hpw' : perWinner * winners <= total).
    { unfold perWinner. rewrite Z.mul_comm. apply Z.mul_div_le. lia. }
    destruct (paid_le_popcount winnerBitmap vs Hb) as [Hle Heq].
    fold paid winners in Hle, Heq.
    destruct (rewardLoop_succeeds winnerBitmap perWinner vs 0
                (pendingRewards (treasury w)) 0) as [res Hres]; [lia | lia | | |].
    { intros v. specialize (Hpend v). unfold Treasury.getPendingRewards in Hpend. lia. }
    { specialize (Hpend 0). lia. }
    rewrite Hres. cbn [bind].
    apply rewardLoop_effect in Hres as [Hsum Hres]. fold paid in Hsum, Hres.
    cbn [treasury Treasury.update setTreasuryState Treasury.set_pendingRewards rewardPool].
    rewrite sub_fits by nia. cbn [bind].
    eexists. split; [reflexivity|]. repeat split.
    + intros v. unfold Treasury.getPendingRewards. cbn. apply Hres.
    + intros Hnd v. apply timesIn_NoDup. exact (sublist_NoDup _ _ Hnd (paidFrom_sublist _ _ _)).
    + cbn. rewrite Hsum. lia.
    + done.
    + done.
    + cbn. rewrite Hsum. reflexivity.
Qed.

(** ** C6: slashing *)

(** *** Batches of faults *)

Lemma countFault_config (w w' : World) (v : Z) (t : FaultType) :
  Treasury.countFault w v t = Ok w' ->
  slashBps (treasury w') = slashBps (treasury w) /\
  faultThreshold (treasury w') = faultThreshold (treasury w) /\
  slashingDisabled (treasury w') = slashingDisabled (treasury w).
Proof.
  intros Hc. unfold Treasury.countFault in Hc.
  apply bind_ok in Hc as (f & _ & Hc). cbv zeta in Hc.
  match type of Hc with (if ?c then _ else _) = _ => destruct c end.
  - unfold Treasury._slash in Hc. cbv zeta in Hc.
    apply bind_ok in Hc as (product & _ & Hc).
    apply bind_ok in Hc as (w3 & Hw3 & Hc). injection Hc as <-.
    destruct (0 <? _).
    + apply bind_ok in Hw3 as (w2 & Hred & Hw3).
      rewrite reduceStake_ok in Hred. injection Hred as <-.
      apply bind_ok in Hw3 as (pool & _ & Hw3). by injection Hw3 as <-.
    + by injection Hw3 as <-.
  - by injection Hc as <-.
Qed.

(** A counted fault of [v] changes nothing that the slash of another
    verifier reads. *)
Lemma countFault_other (w w' : World) (v u : Z) (t : FaultType) :
  Treasury.countFault w v t = Ok w' -> u <> v ->
  Treasury.getFaults w' u = Treasury.getFaults w u /\
  Treasury.getSlashed w' u = Treasury.getSlashed w u /\
  stakeOf w' u = stakeOf w u /\
  slashDue w' u = slashDue w u /\
  slashAmountOf w' u = slashAmountOf w u.
Proof.
  intros Hc Hne. destruct (countFault_config _ _ _ _ Hc) as (Hbps & Hth & Hdis).
  apply countFault_effect in Hc. destruct Hc as (_ & Hf & _ & Hv & Hs & _).
  assert (Hst : stakeOf w' u = stakeOf w u) by (unfold stakeOf; by rewrite Hv).
  unfold slashDue, slashAmountOf.
  rewrite Hf, Hs, Hst, Hbps, Hth, Hdis by done. done.
Qed.

Lemma faultLoop_other (b : Z) (t : FaultType) (vs : list Z) (i : Z) (w w' : World) (u : Z) :
  Treasury.faultLoop b t i vs w = Ok w' -> u ∉ vs ->
  Treasury.getFaults w' u = Treasury.getFaults w u /\
  Treasury.getSlashed w' u = Treasury.getSlashed w u /\
  stakeOf w' u = stakeOf w u.
Proof.
  revert i w. induction vs as [|v vs IH]; intros i w Hc Hu; simpl in Hc.
  - by injection Hc as <-.
  - apply not_elem_of_cons in Hu as [Hne Hu].
    destruct (i <? 16); [|by injection Hc as <-].
    destruct (Treasury.bitSet b i); [|by eapply IH].
    apply bind_ok in Hc as (w1 & Hcount & Hc).
    destruct (countFault_other _ _ _ _ _ Hcount Hne) as (Hf & Hs & Hst & _).
    destruct (IH _ _ Hc Hu) as (Hf' & Hs' & Hst'). split; [|split]; congruence.
Qed.

Lemma slashTotal_same (w w' : World) (l : list Z) :
  (forall u, u ∈ l -> slashDue w' u = slashDue w u /\
                      slashAmountOf w' u = slashAmountOf w u) ->
  slashTotal w' l = slashTotal w l.
Proof.
  induction l as [|u l IH]; intros Hl; [done|]. cbn [slashTotal foldr].
  destruct (Hl u) as [-> ->]; [left|].
  fold (slashTotal w' l). fold (slashTotal w l). rewrite IH; [done|].
  intros x Hx. apply Hl. by right.
Qed.

(** The effect of the fault loop on a snapshot without repeated addresses:
    every verifier of the batch gets one more fault; those whose slash is due
    are slashed, each on its own stake; the reward pool grows by the slash
    amounts. *)
Lemma faultLoop_effect (b : Z) (t : FaultType) (vs : list Z) (i : Z) (w w' : World) :
  NoDup vs -> Treasury.faultLoop b t i vs w = Ok w' ->
  rewardPool (treasury w') = rewardPool (treasury w) + slashTotal w (paidFrom b i vs) /\
  forall u, u ∈ paidFrom b i vs ->
    Treasury.getFaults w' u = Treasury.getFaults w u + 1 /\
    (slashDue w u = true ->
     Treasury.getSlashed w' u = true /\
     stakeOf w' u = (if 0 <? slashAmountOf w u
                     then if slashAmountOf w u <=? stakeOf w u
                          then stakeOf w u - slashAmountOf w u else 0
                     else stakeOf w u)).
Proof.
  intros Hnd. revert i w.
  induction Hnd as [|v vs Hv Hnd IH]; intros i w Hc; cbn [Treasury.faultLoop paidFrom] in *.
  - injection Hc as <-. split; [cbn; lia|]. intros u Hu. by apply elem_of_nil in Hu.
  - destruct (i <? 16).
    2:{ injection Hc as <-. split; [cbn; lia|]. intros u Hu. by apply elem_of_nil in Hu. }
    destruct (Treasury.bitSet b i); [|by apply IH].
    apply bind_ok in Hc as (w1 & Hcount & Hc).
    pose proof (paidFrom_sublist b (i + 1) vs) as Hsub.
    assert (Hrest : forall u, u ∈ paidFrom b (i + 1) vs -> u <> v).
    { intros u Hu ->. apply Hv. by eapply elem_of_sublist. }
    destruct (IH _ _ Hc) as [Hpool Hall].
    destruct (faultLoop_other _ _ _ _ _ _ v Hc Hv) as (Hfv & Hsv & Hstv).
    pose proof (countFault_effect _ _ _ _ Hcount) as Heff. cbv zeta in Heff.
    destruct Heff as (Hf1 & _ & _ & _ & _ & Hdue).
    fold (slashAmountOf w v) in Hdue.
    split.
    + rewrite Hpool. cbn [slashTotal foldr]. fold (slashTotal w (paidFrom b (i + 1) vs)).
      rewrite (slashTotal_same w w1).
      2:{ intros u Hu. destruct (countFault_other _ _ _ _ _ Hcount (Hrest u Hu))
            as (_ & _ & _ & ? & ?). done. }
      destruct (slashDue w v).
      * destruct Hdue as (_ & -> & _). destruct (0 <? slashAmountOf w v) eqn:E; lia.
      * destruct Hdue as (_ & -> & _). lia.
    + intros u Hu. apply elem_of_cons in Hu as [->|Hu].
      * split; [lia|]. intros Hd. rewrite Hd in Hdue. destruct Hdue as (Hst & _ & Hsl).
        split; [congruence|]. by rewrite Hstv.
      * destruct (countFault_other _ _ _ _ _ Hcount (Hrest u Hu))
          as (Hfu & _ & Hstu & Hdu & Hau).
        destruct (Hall u Hu) as [Hf Hs]. split; [lia|].
        intros Hd. rewrite Hdu, Hau, Hstu in Hs. by apply Hs.
Qed.

Lemma paidFrom_elem (b : Z) (vs : list Z) (k : Z) (i : nat) (v : Z) :
  vs !! i = Some v -> k + Z.of_nat i < 16 ->
  Treasury.bitSet b (k + Z.of_nat i) = true ->
  v ∈ paidFrom b k vs.
Proof.
  revert k i. induction vs as [|u vs IH]; intros k i Hi Hlt Hbit; [done|].
  cbn [paidFrom]. destruct i as [|i].
  - injection Hi as ->. rewrite Z.add_0_r in Hbit.
    replace (k <? 16) with true by (symmetry; apply Z.ltb_lt; lia).
    rewrite Hbit. left.
  - replace (k <? 16) with true by (symmetry; apply Z.ltb_lt; lia).
    assert (Hin : v ∈ paidFrom b (k + 1) vs).
    { apply (IH (k + 1) i); [done | lia|].
      replace (k + 1 + Z.of_nat i) with (k + Z.of_nat (S i)) by lia. done. }
    destruct (Treasury.bitSet b k); [by right | done].
Qed.

Lemma filter_others (l : list Z) (v : Z) :
  v ∉ l -> filter (fun u => u <> v) l = l.
Proof.
  induction l as [|u l IH]; intros Hv; [done|].
  apply not_elem_of_cons in Hv as [Hne Hv].
  rewrite filter_cons_True by done. by rewrite IH.
Qed.

(** In a batch without repeated addresses the share of [v] can be told apart
    from the share of the others. *)
Lemma slashTotal_split (w : World) (l : list Z) (v : Z) :
  NoDup l -> v ∈ l ->
  slashTotal w l
  = (if slashDue w v then Z.max 0 (slashAmountOf w v) else 0)
    + slashTotal w (filter (fun u => u <> v) l).
Proof.
  induction 1 as [|u l Hu Hnd IH]; intros Hin; [by apply elem_of_nil in Hin|].
  cbn [slashTotal foldr]. fold (slashTotal w l).
  destruct (decide (u = v)) as [->|Hne].
  - rewrite filter_cons_False by (intros Hx; by apply Hx).
    by rewrite filter_others.
  - apply elem_of_cons in Hin as [->|Hin]; [done|].
    rewrite filter_cons_True by done. cbn [slashTotal foldr].
    fold (slashTotal w (filter (fun u0 => u0 <> v) l)). rewrite IH by done. lia.
Qed.

(** *** When recording faults succeeds *)

Lemma countFault_bounds (w w' : World) (v : Z) (t : FaultType) (cap : Z) :
  Treasury.countFault w v t = Ok w' ->
  0 <= slashBps (treasury w) ->
  (forall u, 0 <= stakeOf w u <= cap) ->
  (forall u, Treasury.getFaults w' u <= Treasury.getFaults w u + 1) /\
  (forall u, 0 <= stakeOf w' u <= cap) /\
  slashBps (treasury w') = slashBps (treasury w) /\
  rewardPool (treasury w')
  <= rewardPool (treasury w) + cap * slashBps (treasury w) / 10000.
Proof.
  intros Hc Hbps Hst. destruct (countFault_config _ _ _ _ Hc) as (Hb & _ & _).
  apply countFault_effect in Hc. cbv zeta in Hc.
  destruct Hc as (Hf & Hfo & _ & Hvo & _ & Hdue).
  pose proof (Hst v) as Hv.
  set (a := stakeOf w v * slashBps (treasury w) / 10000) in *.
  assert (Ha : 0 <= a <= cap * slashBps (treasury w) / 10000).
  { unfold a. split.
    - apply Z.div_pos; [|lia]. apply Z.mul_nonneg_nonneg; lia.
    - apply Z.div_le_mono; [lia|]. apply Z.mul_le_mono_nonneg_r; lia. }
  assert (Hnew : 0 <= stakeOf w' v <= cap /\
                 rewardPool (treasury w')
                 <= rewardPool (treasury w) + cap * slashBps (treasury w) / 10000).
  { destruct (slashDue w v).
    - destruct Hdue as (-> & -> & _).
      destruct (0 <? a) eqn:E1; [destruct (a <=? stakeOf w v) eqn:E2|]; lia.
    - destruct Hdue as (Hsame & -> & _). unfold stakeOf. rewrite Hsame.
      fold (stakeOf w v). lia. }
  split; [|split; [|split; [done | apply Hnew]]].
  - intros u. destruct (decide (u = v)) as [->|Hne]; [lia | rewrite Hfo by done; lia].
  - intros u. destruct (decide (u = v)) as [->|Hne]; [apply Hnew|].
    unfold stakeOf. rewrite Hvo by done. apply Hst.
Qed.

Lemma faultLoop_succeeds (b : Z) (t : FaultType) (vs : list Z) (i : Z) (w : World)
    (cap : Z) :
  0 <= i <= 16 ->
  0 <= slashBps (treasury w) ->
  (forall u, Treasury.getFaults w u + (16 - i) < UINT256) ->
  (forall u, 0 <= stakeOf w u <= cap) ->
  cap * slashBps (treasury w) < UINT256 ->
  rewardPool (treasury w) + (16 - i) * (cap * slashBps (treasury w) / 10000) < UINT256 ->
  exists w', Treasury.faultLoop b t i vs w = Ok w'.
Proof.
  revert i w. induction vs as [|v vs IH]; intros i w Hi Hbps Hf Hst Hmul Hpool;
    cbn [Treasury.faultLoop]; [eauto|].
  destruct (i <? 16) eqn:E; [|eauto].
  apply Z.ltb_lt in E.
  destruct (Treasury.bitSet b i).
  2:{ apply (IH (i + 1) w); [lia | done | | done | done |].
      - intros u. specialize (Hf u). lia.
      - assert (0 <= cap * slashBps (treasury w) / 10000).
        { apply Z.div_pos; [|lia]. apply Z.mul_nonneg_nonneg; [|lia].
          specialize (Hst 0). lia. }
        nia. }
  assert (Hm : 0 <= cap * slashBps (treasury w) / 10000).
  { apply Z.div_pos; [|lia]. apply Z.mul_nonneg_nonneg; [|lia]. specialize (Hst 0). lia. }
  destruct (countFault_succeeds w v t) as [w1 Hw1].
  { specialize (Hf v). lia. }
  { intros _. pose proof (Hst v) as Hv. split.
    - assert (stakeOf w v * slashBps (treasury w) <= cap * slashBps (treasury w))
        by (apply Z.mul_le_mono_nonneg_r; lia). lia.
    - assert (stakeOf w v * slashBps (treasury w) / 10000
              <= cap * slashBps (treasury w) / 10000).
      { apply Z.div_le_mono; [lia|]. apply Z.mul_le_mono_nonneg_r; lia. }
      nia. }
  rewrite Hw1. cbn [bind].
  destruct (countFault_bounds _ _ _ _ cap Hw1 Hbps Hst) as (Hf1 & Hst1 & Hb1 & Hp1).
  apply (IH (i + 1) w1); [lia | by rewrite Hb1 | | done | by rewrite Hb1 |].
  - intros u. specialize (Hf u). specialize (Hf1 u). lia.
  - rewrite Hb1. nia.
Qed.

Lemma recordFaults_succeeds (w : World) (sender b id : Z) (t : FaultType) (cap : Z) :
  Treasury.onlyAuthorizedOracle w sender = Ok tt ->
  faultHeadroom w cap ->
  exists w', Treasury.recordFaults w sender b id t = Ok w'.
Proof.
  intros Hauth (Hbps & Hf & Hst & Hmul & Hpool).
  unfold Treasury.recordFaults. rewrite Hauth. cbn [bind].
  destruct (b =? 0); [eauto|].
  apply (faultLoop_succeeds b t _ 0 w cap); try done; lia.
Qed.

(** *** When the reward distribution succeeds *)

Lemma distributeRewards_insufficient (w : World) (sender b id wh : Z) :
  Treasury.onlyAuthorizedOracle w sender = Ok tt ->
  Treasury._popcount b <> 0 ->
  0 < wh * rewardPerWhWei (treasury w) < UINT256 ->
  rewardPool (treasury w) < wh * rewardPerWhWei (treasury w) ->
  Treasury.distributeRewards w sender b id wh = Revert InsufficientRewardPool.
Proof.
  intros Hauth Hw Htot Hpool. unfold Treasury.distributeRewards.
  rewrite Hauth. cbn [bind].
  destruct (Treasury._popcount b =? 0) eqn:E; [lia|].
  rewrite mul_fits by lia. cbn [bind].
  destruct (wh * rewardPerWhWei (treasury w) =? 0) eqn:E0; [lia|].
  destruct (rewardPool (treasury w) <? wh * rewardPerWhWei (treasury w)) eqn:E1;
    [reflexivity | lia].
Qed.

(** The distribution succeeds when the pool covers the reward and no pending
    balance overflows; it touches the pending rewards and the pool only, and
    the pool does not grow. *)
Lemma distributeRewards_succeeds (w : World) (sender b id wh : Z) :
  let total := wh * rewardPerWhWei (treasury w) in
  Treasury.onlyAuthorizedOracle w sender = Ok tt ->
  fits UINT16 b ->
  0 <= total <= rewardPool (treasury w) ->
  rewardPool (treasury w) < UINT256 ->
  (forall v, 0 <= Treasury.getPendingRewards w v /\
             Treasury.getPendingRewards w v + 16 * (total / Treasury._popcount b)
             < UINT256) ->
  exists w',
    Treasury.distributeRewards w sender b id wh = Ok w' /\
    registry w' = registry w /\ oracle w' = oracle w /\
    hourlyCredits w' = hourlyCredits w /\
    (forall v, Treasury.getFaults w' v = Treasury.getFaults w v) /\
    slashBps (treasury w') = slashBps (treasury w) /\
    treasuryProductionOracle (treasury w') = treasuryProductionOracle (treasury w) /\
    treasuryConsumptionOracle (treasury w') = treasuryConsumptionOracle (treasury w) /\
    rewardPool (treasury w') <= rewardPool (treasury w).
Proof.
  intros total Hauth Hb Htot Hlt Hpend.
  pose proof (popcount_nonneg _ Hb) as Hw0.
  unfold Treasury.distributeRewards. rewrite Hauth. cbn [bind].
  destruct (Treasury._popcount b =? 0) eqn:E.
  { eexists. split; [reflexivity|]. repeat split; simpl; lia. }
  rewrite mul_fits by (fold total; lia). cbn [bind]. fold total.
  destruct (total =? 0) eqn:E0.
  { eexists. split; [reflexivity|]. repeat split; simpl; lia. }
  destruct (rewardPool (treasury w) <? total) eqn:E1; [lia|]. cbn [negb require bind].
  set (perWinner := total / Treasury._popcount b) in *.
  set (vs := Registry.getSnapshotVerifiers w id).
  assert (Hpw : 0 <= perWinner) by (apply Z.div_pos; lia).
  assert (Hpw' : perWinner * Treasury._popcount b <= total).
  { unfold perWinner. rewrite Z.mul_comm. apply Z.mul_div_le. lia. }
  destruct (paid_le_popcount b vs Hb) as [Hle _].
  destruct (rewardLoop_succeeds b perWinner vs 0 (pendingRewards (treasury w)) 0)
    as [res Hres]; [lia | lia | | |].
  { intros v. specialize (Hpend v). unfold Treasury.getPendingRewards in Hpend. lia. }
  { specialize (Hpend 0). lia. }
  rewrite Hres. cbn [bind].
  apply rewardLoop_effect in Hres as [Hsum _].
  cbn [treasury Treasury.update setTreasuryState Treasury.set_pendingRewards rewardPool].
  rewrite sub_fits by nia. cbn [bind].
  eexists. split; [reflexivity|]. repeat split; simpl; try done. nia.
Qed.

(** C6 (amended).  Let the next fault of [v] bring its count to the threshold,
    with slashing enabled and [v] not yet slashed, and let
    [slashAmount = stake * slashBps / 10000] be computed from the current
    stake of [v].  Whether the fault is recorded by [recordFault] or by a
    [recordFaults] batch that includes [v], [v] is slashed once: its stake in
    the Registry drops by [min(stake, slashAmount)] (the Registry clamps at 0;
    this is [slashAmount] itself when [slashBps <= 10000]), [rewardPool] grows
    by the full [slashAmount] (in a batch: plus the slash amounts of the other
    verifiers the batch slashes) and [isSlashed[v]] is set.  Both calls succeed
    when the caller is an authorized oracle and no counter overflows.  In any
    world where [isSlashed[v]] is set, no [recordFault], no [recordFaults]
    batch and no [slash] call changes the stake of [v] or clears the flag:
    [slash(v)] reverts. *)
Theorem slash_exactly_once (w : World) (v : Z) :
  let amount := slashAmountOf w v in
  slashingDisabled (treasury w) = false ->
  Treasury.getSlashed w v = false ->
  faultThreshold (treasury w) <= Treasury.getFaults w v + 1 ->
  0 <= stakeOf w v ->
  0 <= slashBps (treasury w) ->
  (0 <= amount /\
   (slashBps (treasury w) <= 10000 -> Z.min (stakeOf w v) amount = amount) /\
   (10000 < slashBps (treasury w) -> Z.min (stakeOf w v) amount = stakeOf w v)) /\
  (forall sender t,
     Treasury.onlyAuthorizedOracle w sender = Ok tt ->
     Treasury.getFaults w v + 1 < UINT256 ->
     stakeOf w v * slashBps (treasury w) < UINT256 ->
     rewardPool (treasury w) + amount < UINT256 ->
     exists w',
       Treasury.recordFault w sender v t = Ok w' /\
       stakeOf w' v = stakeOf w v - Z.min (stakeOf w v) amount /\
       rewardPool (treasury w') = rewardPool (treasury w) + amount /\
       Treasury.getSlashed w' v = true) /\
  (forall sender b id t,
     let vs := Registry.getSnapshotVerifiers w id in
     (forall cap,
        Treasury.onlyAuthorizedOracle w sender = Ok tt ->
        faultHeadroom w cap ->
        exists w', Treasury.recordFaults w sender b id t = Ok w') /\
     (forall w' (i : nat),
        Treasury.recordFaults w sender b id t = Ok w' ->
        NoDup vs -> vs !! i = Some v -> (i < 16)%nat ->
        Treasury.bitSet b (Z.of_nat i) = true ->
        stakeOf w' v = stakeOf w v - Z.min (stakeOf w v) amount /\
        rewardPool (treasury w')
        = rewardPool (treasury w) + amount
          + slashTotal w (filter (fun u => u <> v) (paidFrom b 0 vs)) /\
        Treasury.getSlashed w' v = true)) /\
  (forall w1, Treasury.getSlashed w1 v = true ->
     (forall s u t1 w2, Treasury.recordFault w1 s u t1 = Ok w2 ->
        stakeOf w2 v = stakeOf w1 v /\ Treasury.getSlashed w2 v = true) /\
     (forall s b id t1 w2, Treasury.recordFaults w1 s b id t1 = Ok w2 ->
        stakeOf w2 v = stakeOf w1 v /\ Treasury.getSlashed w2 v = true) /\
     (exists e, Treasury.slash w1 v = Revert e)).
Proof.
  intros amount Hen Hns Hth Hst Hbps.
  assert (Hdue : slashDue w v = true).
  { unfold slashDue. rewrite Hen, Hns. simpl. rewrite andb_true_r. lia. }
  assert (Ha : 0 <= amount).
  { unfold amount, slashAmountOf. apply Z.div_pos; [|lia].
    apply Z.mul_nonneg_nonneg; lia. }
  assert (Hle : slashBps (treasury w) <= 10000 -> amount <= stakeOf w v).
  { intros Hb. unfold amount, slashAmountOf. apply Z.div_le_upper_bound; [lia|]. nia. }
  assert (Hge : 10000 < slashBps (treasury w) -> stakeOf w v <= amount).
  { intros Hb. unfold amount, slashAmountOf. apply Z.div_le_lower_bound; [lia|]. nia. }
  assert (Hnew : (if 0 <? amount
                  then if amount <=? stakeOf w v then stakeOf w v - amount else 0
                  else stakeOf w v)
                 = stakeOf w v - Z.min (stakeOf w v) amount).
  { destruct (0 <? amount) eqn:E1; [destruct (amount <=? stakeOf w v) eqn:E2|]; lia. }
  split; [|split; [|split]].
  - split; [exact Ha|]. split; intros Hb; [specialize (Hle Hb) | specialize (Hge Hb)]; lia.
  - intros sender t Hauth Hf Hmul Hpool.
    rewrite recordFault_authorized by done.
    destruct (countFault_succeeds w v t) as [w' Hw']; [lia | done |].
    exists w'. split; [done|].
    apply countFault_effect in Hw' as (_ & _ & _ & _ & _ & Hs).
    rewrite Hdue in Hs. fold (slashAmountOf w v) in Hs. fold amount in Hs.
    destruct Hs as (Hs1 & Hs2 & Hs3). rewrite Hnew in Hs1.
    split; [exact Hs1|]. split; [|exact Hs3].
    rewrite Hs2. destruct (0 <? amount) eqn:E; lia.
  - intros sender b id t vs. split.
    + intros cap Hauth Hroom. by eapply recordFaults_succeeds.
    + intros w' i Hcall Hnd Hi Hlt Hbit.
      unfold Treasury.recordFaults in Hcall.
      apply bind_ok in Hcall as (? & _ & Hcall).
      destruct (b =? 0) eqn:Eb.
      { apply Z.eqb_eq in Eb. subst b. unfold Treasury.bitSet in Hbit.
        rewrite Z.land_0_l in Hbit. discriminate Hbit. }
      fold vs in Hcall.
      assert (Hin : v ∈ paidFrom b 0 vs).
      { apply (paidFrom_elem b vs 0 i); [done | lia | by rewrite Z.add_0_l]. }
      destruct (faultLoop_effect _ _ _ _ _ _ Hnd Hcall) as [Hpool Hall].
      destruct (Hall v Hin) as [_ Hslash]. destruct (Hslash Hdue) as [Hsl Hstake].
      fold amount in Hstake. rewrite Hnew in Hstake.
      split; [exact Hstake|]. split; [|exact Hsl].
      rewrite Hpool, (slashTotal_split w _ v); [|by eapply sublist_NoDup, paidFrom_sublist | done].
      rewrite Hdue. fold amount. lia.
  - intros w1 Hsl. repeat split.
    + unfold Treasury.recordFault in H. apply bind_ok in H as (? & _ & H).
      by destruct (countFault_slashed _ _ _ _ _ Hsl H).
    + unfold Treasury.recordFault in H. apply bind_ok in H as (? & _ & H).
      by destruct (countFault_slashed _ _ _ _ _ Hsl H).
    + unfold Treasury.recordFaults in H. apply bind_ok in H as (? & _ & H).
      destruct (b =? 0); [by injection H as <-|].
      by destruct (faultLoop_slashed _ _ _ _ _ _ _ Hsl H).
    + unfold Treasury.recordFaults in H. apply bind_ok in H as (? & _ & H).
      destruct (b =? 0); [by injection H as <-|].
      by destruct (faultLoop_slashed _ _ _ _ _ _ _ Hsl H).
    + unfold Treasury.slash.
      destruct (Treasury.getFaults w1 v <? faultThreshold (treasury w1)); simpl; [eauto|].
      rewrite Hsl. simpl. eauto.
Qed.

(** ** C4: faults recorded on the rejecting paths *)

Lemma bind_then_revert {A B : Type} (m : Result A) (e : Error) :
  exists e', (_ <- m ;; (Revert e : Result B)) = Revert e'.
Proof. destruct m; simpl; eauto. Qed.

Lemma transact_revert `{Chain} (w : World) (sender now : Z) (c : Call) (e : Error) :
  exec w sender now c = Revert e -> transact w sender now c = w.
Proof. intros Hc. unfold transact. by rewrite Hc. Qed.

(** C4.  The faults that [submitProduction] records for a late or a
    duplicate submission do not persist.  On both paths the code is
    [treasury.recordFault(...)] followed by [revert]: the call as a whole
    reverts, so the transaction leaves the world, and with it the signer's
    fault counter, exactly as it was. *)
Theorem rejected_submission_records_no_fault `{Chain} (w : World)
    (sender now p h wh root sig : Z) :
  let ck := ProductionOracle.getClaimKey w p h in
  let v := ecrecover (this (oracle w)) p h wh root sig in
  let bucket := ProductionOracle.getClaimBucket w ck in
  let call := SubmitProduction p h wh root sig in
  finalized bucket = false ->
  ProductionOracle._isProducerRegistered w p = true ->
  v <> 0 ->
  active (Registry.getVerifier w v) = true ->
  snapshotId bucket <> 0 ->
  (deadline bucket < now ->
   exec w sender now call
   = (_ <- Treasury.recordFault w (this (oracle w)) v LateSubmission ;;
      Revert ClaimDeadlinePassed)) /\
  (now <= deadline bucket ->
   (exists idx, Registry.getVerifierIndex w (snapshotId bucket) v = Ok idx) ->
   ProductionOracle.hasSubmitted w ck v = true ->
   exec w sender now call
   = (_ <- Treasury.recordFault w (this (oracle w)) v DuplicateSubmissionFault ;;
      Revert DuplicateSubmission)) /\
  (deadline bucket < now \/
   (now <= deadline bucket /\
    (exists idx, Registry.getVerifierIndex w (snapshotId bucket) v = Ok idx) /\
    ProductionOracle.hasSubmitted w ck v = true) ->
   transact w sender now call = w /\
   Treasury.getFaults (transact w sender now call) v = Treasury.getFaults w v).
Proof.
  intros ck v bucket call Hfin Hreg Hv Hact Hsnap.
  assert (Hprefix : exec w sender now call =
    if deadline bucket <? now then
      _ <- Treasury.recordFault w (this (oracle w)) v LateSubmission ;;
      Revert ClaimDeadlinePassed
    else
      match Registry.getVerifierIndex w (snapshotId bucket) v with
      | Revert _ => Revert VerifierNotInSnapshot
      | Ok verifierIndex =>
          if ProductionOracle.hasSubmitted w ck v then
            _ <- Treasury.recordFault w (this (oracle w)) v DuplicateSubmissionFault ;;
            Revert DuplicateSubmission
          else
            w9 <- ProductionOracle.recordSubmission w ck v verifierIndex wh root ;;
            if baselineMode (oracle w9)
               && negb (singleVerifierOverride (oracle w9) =? 0)
               && (v =? singleVerifierOverride (oracle w9))
            then ProductionOracle._finalizeWithValue w9 ck p h wh root
                   (verifierBitmap
                      (ProductionOracle.getValueSubmissions w9 ck (keccakValue wh root)))
            else Ok w9
      end).
  { unfold call, exec, ProductionOracle.submitProduction. cbv zeta.
    fold ck. fold bucket. rewrite Hfin, Hreg. cbn [negb require bind].
    unfold ProductionOracle._validateSignature. cbv zeta. fold v.
    destruct (v =? 0) eqn:Ev; [lia|]. cbn [negb require bind].
    rewrite Hact. cbn [require bind].
    destruct (snapshotId bucket =? 0) eqn:Es; [lia|]. cbn [bind].
    fold bucket. reflexivity. }
  assert (Hlate : deadline bucket < now ->
    exec w sender now call
    = (_ <- Treasury.recordFault w (this (oracle w)) v LateSubmission ;;
       Revert ClaimDeadlinePassed)).
  { intros Hlt. rewrite Hprefix.
    destruct (deadline bucket <? now) eqn:E; [reflexivity | lia]. }
  assert (Hdup : now <= deadline bucket ->
    (exists idx, Registry.getVerifierIndex w (snapshotId bucket) v = Ok idx) ->
    ProductionOracle.hasSubmitted w ck v = true ->
    exec w sender now call
    = (_ <- Treasury.recordFault w (this (oracle w)) v DuplicateSubmissionFault ;;
       Revert DuplicateSubmission)).
  { intros Hle [idx Hidx] Hsub. rewrite Hprefix.
    destruct (deadline bucket <? now) eqn:E; [lia|].
    by rewrite Hidx, Hsub. }
  split; [exact Hlate|]. split; [exact Hdup|].
  intros Hcase.
  assert (Hrev : exists e, exec w sender now call = Revert e).
  { destruct Hcase as [Hlt|(Hle & Hidx & Hsub)].
    - rewrite Hlate by done. apply bind_then_revert.
    - rewrite Hdup by done. apply bind_then_revert. }
  destruct Hrev as [e Hrev]. rewrite (transact_revert _ _ _ _ _ Hrev). done.
Qed.

(** ** Finalization *)

Lemma tallyStep_snd `{Chain} (w : World) (ck : Z) (acc : Z * Z) (vh : Z) :
  snd (ProductionOracle.tallyStep w ck acc vh)
  = Z.max (snd acc) (count (ProductionOracle.getValueSubmissions w ck vh)).
Proof.
  unfold ProductionOracle.tallyStep.
  destruct (snd acc <? count (ProductionOracle.getValueSubmissions w ck vh)) eqn:E;
    simpl; lia.
Qed.

Lemma foldl_tallyStep_snd `{Chain} (w : World) (ck : Z) (l : list Z) (acc : Z * Z) :
  snd (foldl (ProductionOracle.tallyStep w ck) acc l)
  = foldl (fun m vh => Z.max m (count (ProductionOracle.getValueSubmissions w ck vh)))
          (snd acc) l.
Proof.
  revert acc. induction l as [|vh l IH]; intros acc; simpl; [done|].
  by rewrite IH, tallyStep_snd.
Qed.

Lemma findWinner_max `{Chain} (w : World) (ck : Z) :
  snd (ProductionOracle.findWinner w ck) = maxTally w ck.
Proof. unfold ProductionOracle.findWinner, maxTally. by rewrite foldl_tallyStep_snd. Qed.

Lemma foldl_tallyStep_winner `{Chain} (w : World) (ck : Z) (l : list Z) (acc : Z * Z) :
  let r := foldl (ProductionOracle.tallyStep w ck) acc l in
  r = acc \/
  (fst r ∈ l /\ count (ProductionOracle.getValueSubmissions w ck (fst r)) = snd r).
Proof.
  revert acc. induction l as [|vh l IH]; intros acc; simpl; [by left|].
  destruct (IH (ProductionOracle.tallyStep w ck acc vh)) as [Heq|[Hin Hcount]].
  - rewrite Heq. unfold ProductionOracle.tallyStep.
    destruct (snd acc <? count (ProductionOracle.getValueSubmissions w ck vh));
      [right; simpl; split; [left | done] | by left].
  - right. split; [by right | done].
Qed.

(** The winner found by the loop carries the maximum count. *)
Lemma findWinner_winner `{Chain} (w : World) (ck : Z) :
  0 < maxTally w ck ->
  fst (ProductionOracle.findWinner w ck) ∈ ProductionOracle.claimValueHashes w ck /\
  count (ProductionOracle.getValueSubmissions w ck
           (fst (ProductionOracle.findWinner w ck))) = maxTally w ck.
Proof.
  intros Hpos. rewrite <- findWinner_max in *.
  destruct (foldl_tallyStep_winner w ck (ProductionOracle.claimValueHashes w ck) (0, 0))
    as [Heq|H1]; [|done].
  unfold ProductionOracle.findWinner in Hpos. rewrite Heq in Hpos. simpl in Hpos. lia.
Qed.

Lemma maxTally_upper `{Chain} (w : World) (ck vh : Z) :
  vh ∈ ProductionOracle.claimValueHashes w ck ->
  count (ProductionOracle.getValueSubmissions w ck vh) <= maxTally w ck.
Proof.
  unfold maxTally. generalize 0 as m.
  induction (ProductionOracle.claimValueHashes w ck) as [|x l IH]; intros m Hin.
  - by apply elem_of_nil in Hin.
  - simpl. assert (Hmono : forall l' a b, a <= b ->
      a <= foldl (fun m vh => Z.max m (count (ProductionOracle.getValueSubmissions w ck vh)))
             b l').
    { induction l' as [|y l' IH']; intros a b Hab; simpl; [done|]. apply IH'. lia. }
    apply elem_of_cons in Hin as [->|Hin]; [apply Hmono; lia | by apply IH].
Qed.

(** [(x + 9999) / 10000] is the ceiling of [x / 10000]. *)
Lemma ceiling_10000 (x : Z) :
  10000 * ((x + 9999) / 10000 - 1) < x <= 10000 * ((x + 9999) / 10000).
Proof.
  pose proof (Z.div_mod (x + 9999) 10000 ltac:(lia)) as Hdm.
  pose proof (Z.mod_pos_bound (x + 9999) 10000 ltac:(lia)) as Hb. lia.
Qed.

Lemma quorumOf_ok (n bps : Z) :
  0 <= n * bps -> n * bps + 9999 < UINT256 ->
  ProductionOracle.quorumOf n bps = Ok ((n * bps + 9999) / 10000).
Proof.
  intros H0 H1. unfold ProductionOracle.quorumOf.
  rewrite mul_fits by lia. cbn [bind]. rewrite add_fits by lia. reflexivity.
Qed.

Lemma quorumOf_inv (n bps q : Z) :
  ProductionOracle.quorumOf n bps = Ok q -> q = (n * bps + 9999) / 10000.
Proof.
  unfold ProductionOracle.quorumOf. intros Hq. inv_ok Hq. by subst.
Qed.

Lemma finalizeProduction_unfold `{Chain} (w : World) (sender now p h : Z) :
  let ck := ProductionOracle.getClaimKey w p h in
  let bucket := ProductionOracle.getClaimBucket w ck in
  ProductionOracle.finalizeProduction w sender now p h =
  (_ <- require (negb (finalized bucket)) ClaimAlreadyFinalized ;;
   _ <- require (negb ((deadline bucket =? 0) || (now <=? deadline bucket)))
                ClaimDeadlineNotReached ;;
   q <- ProductionOracle.quorumOf
          (Registry.getSnapshotCount w (snapshotId bucket)) (quorumBps (oracle w)) ;;
   if maxTally w ck <? q then
     Ok (emit (ClaimDisputed ck p h)
           (ProductionOracle.storeBucket ck (ProductionOracle.markDisputed bucket) w))
   else finalizeWinner w p h).
Proof.
  intros ck bucket. unfold ProductionOracle.finalizeProduction, finalizeWinner.
  cbv zeta. fold ck. fold bucket.
  destruct (require (negb (finalized bucket)) ClaimAlreadyFinalized); [|done].
  cbn [bind].
  destruct (require _ ClaimDeadlineNotReached); [|done]. cbn [bind].
  destruct (ProductionOracle.quorumOf _ _) as [q|]; [|done]. cbn [bind].
  rewrite findWinner_max. fold ck.
  rewrite <- Z.ltb_antisym. reflexivity.
Qed.

Lemma finalizeWinner_ok `{Chain} (w w' : World) (p h : Z) :
  let ck := ProductionOracle.getClaimKey w p h in
  let tally := ProductionOracle.getValueSubmissions w ck
                 (fst (ProductionOracle.findWinner w ck)) in
  finalizeWinner w p h = Ok w' ->
  rtc regStep (registry w) (registry w') /\
  oracle w' = oracle (ProductionOracle.storeBucket ck
                        (ProductionOracle.markFinalized (energyWh tally)
                           (keccakValue (energyWh tally) (vsEvidenceRoot tally))
                           (vsEvidenceRoot tally) (verifierBitmap tally)
                           (ProductionOracle.getClaimBucket w ck)) w).
Proof.
  intros ck tally Hc. unfold finalizeWinner in Hc. cbv zeta in Hc.
  fold ck in Hc. fold tally in Hc.
  apply bind_ok in Hc as (w1 & Hfin & Hc).
  apply finalizeWithValue_effect in Hfin as [Hr Ho].
  match type of Hc with (if ?c then _ else _) = _ => destruct c end.
  - apply recordFaults_outside in Hc as [Hc Ho']. rewrite <- Hr. split; [done | congruence].
  - injection Hc as <-. rewrite Hr. split; [apply rtc_refl | done].
Qed.

Lemma getClaimBucket_oracle `{Chain} (w w' : World) (ck : Z) :
  oracle w' = oracle w ->
  ProductionOracle.getClaimBucket w' ck = ProductionOracle.getClaimBucket w ck.
Proof. intros Ho. unfold ProductionOracle.getClaimBucket. by rewrite Ho. Qed.

Lemma mint_succeeds `{Chain} (w : World) (sender to h a k : Z) :
  sender = creditsProductionOracle (hourlyCredits w) ->
  to <> 0 ->
  HourlyCredits.balanceOf w to h + a < UINT256 ->
  acceptsCredits to = true ->
  exists w', HourlyCredits.mint w sender to h a k = Ok w'.
Proof.
  intros -> Hto Hbal Hacc. unfold HourlyCredits.mint. cbv zeta.
  rewrite Z.eqb_refl. cbn [require bind].
  destruct (to =? 0) eqn:E; [lia|]. cbn [negb require bind].
  rewrite add_fits by done. cbn [bind]. rewrite Hacc. cbn [require bind]. eauto.
Qed.

(** *** When finalization succeeds *)

Lemma faultHeadroom_pool (w : World) (cap : Z) :
  faultHeadroom w cap -> rewardPool (treasury w) < UINT256.
Proof.
  intros (Hbps & _ & Hst & _ & Hpool).
  assert (0 <= cap * slashBps (treasury w) / 10000).
  { apply Z.div_pos; [|lia]. apply Z.mul_nonneg_nonneg; [|lia]. specialize (Hst 0). lia. }
  lia.
Qed.

Lemma faultHeadroom_transport (w w' : World) (cap : Z) :
  faultHeadroom w cap ->
  registry w' = registry w ->
  (forall v, Treasury.getFaults w' v = Treasury.getFaults w v) ->
  slashBps (treasury w') = slashBps (treasury w) ->
  rewardPool (treasury w') <= rewardPool (treasury w) ->
  faultHeadroom w' cap.
Proof.
  intros (Hbps & Hf & Hst & Hmul & Hpool) Hr Hf' Hb Hp.
  unfold faultHeadroom, stakeOf, Registry.getVerifier. rewrite Hr, Hb.
  split; [done|]. split; [intros v; rewrite Hf'; apply Hf|].
  split; [exact Hst|]. split; [done | lia].
Qed.

(** With a registered producer, a mint that succeeds, a reward the pool can
    pay and headroom for the counters, the quorum branch of
    [finalizeProduction] succeeds. *)
Lemma finalizeWinner_succeeds `{Chain} (w : World) (p h : Z) (producer : Producer)
    (cap : Z) :
  let ck := ProductionOracle.getClaimKey w p h in
  let tally := ProductionOracle.getValueSubmissions w ck
                 (fst (ProductionOracle.findWinner w ck)) in
  let total := energyWh tally * rewardPerWhWei (treasury w) in
  Registry.getProducer w p = Ok producer ->
  payoutAddr producer <> 0 ->
  this (oracle w) = creditsProductionOracle (hourlyCredits w) ->
  HourlyCredits.balanceOf w (payoutAddr producer) h + energyWh tally < UINT256 ->
  acceptsCredits (payoutAddr producer) = true ->
  Treasury.onlyAuthorizedOracle w (this (oracle w)) = Ok tt ->
  fits UINT16 (verifierBitmap tally) ->
  0 <= total <= rewardPool (treasury w) ->
  (forall v, 0 <= Treasury.getPendingRewards w v /\
             Treasury.getPendingRewards w v
             + 16 * (total / Treasury._popcount (verifierBitmap tally)) < UINT256) ->
  faultHeadroom w cap ->
  exists w', finalizeWinner w p h = Ok w'.
Proof.
  intros ck tally total Hprod Hpay Hwire Hbal Hacc Hauth Hfits Htot Hpend Hroom.
  unfold finalizeWinner. cbv zeta. fold ck. fold tally.
  unfold ProductionOracle._finalizeWithValue. cbv zeta.
  set (w1 := ProductionOracle.storeBucket ck _ w).
  change (Registry.getProducer w1 p) with (Registry.getProducer w p).
  rewrite Hprod. cbn [bind].
  destruct (mint_succeeds w1 (this (oracle w1)) (payoutAddr producer) h
              (energyWh tally) ck) as [w2 Hw2];
    [exact Hwire | exact Hpay | exact Hbal | exact Hacc |].
  rewrite Hw2. cbn [bind].
  apply mint_frame in Hw2 as (Hr2 & Ho2 & Ht2).
  assert (Ht2' : treasury w2 = treasury w) by (rewrite Ht2; reflexivity).
  assert (Hr2' : registry w2 = registry w) by (rewrite Hr2; reflexivity).
  assert (Hthis : this (oracle w2) = this (oracle w)) by (rewrite Ho2; reflexivity).
  destruct (distributeRewards_succeeds w2 (this (oracle w2)) (verifierBitmap tally)
              (snapshotId (ProductionOracle.getClaimBucket w2 ck)) (energyWh tally))
    as (w3 & Hw3 & Hr3 & Ho3 & _ & Hf3 & Hb3 & Hpo3 & Hco3 & Hp3).
  { unfold Treasury.onlyAuthorizedOracle. rewrite Ht2', Hthis. exact Hauth. }
  { exact Hfits. }
  { rewrite Ht2'. exact Htot. }
  { rewrite Ht2'. by eapply faultHeadroom_pool. }
  { intros v. unfold Treasury.getPendingRewards. rewrite Ht2'. apply Hpend. }
  rewrite Hw3. cbn [bind].
  match goal with |- context [if ?c then _ else _] => destruct c end; [|eauto].
  eapply recordFaults_succeeds.
  - unfold Treasury.onlyAuthorizedOracle. cbn [emit treasury oracle].
    rewrite Ho3, Hthis, Hpo3, Hco3, Ht2'. exact Hauth.
  - apply (faultHeadroom_transport w _ cap Hroom).
    + cbn [emit registry]. by rewrite Hr3.
    + intros v. unfold Treasury.getFaults in *. cbn [emit treasury].
      rewrite Hf3. by rewrite Ht2'.
    + cbn [emit treasury]. by rewrite Hb3, Ht2'.
    + cbn [emit treasury]. by rewrite <- Ht2'.
Qed.

(** C1 (amended).  For a production claim whose deadline has passed and that
    is not finalized (and with [snapshotCount * quorumBps + 9999] below
    [2^256]), [finalizeProduction] computes
    [quorumRequired = ceil(snapshotCount * quorumBps / 10000)] as
    [(n*b + 9999) / 10000].  If the maximum submission count over the value
    tallies of the claim is strictly less than [quorumRequired], it succeeds,
    sets [disputed = true], leaves [finalized = false] and emits
    [ClaimDisputed].  Otherwise it finalizes with the winning tally: it
    succeeds and sets [finalized = true] with [verifiedWh] equal to the
    winning tally's [wh], provided the producer is registered, the mint
    succeeds, [wh * rewardPerWhWei] does not exceed [rewardPool] and no
    counter overflows; every successful call has this result.  It does not
    succeed when the reward pool cannot pay: with a registered producer, a
    successful mint, at least one winner bit and [0 < wh * rewardPerWhWei]
    above [rewardPool], the call fails [InsufficientRewardPool] and nothing is
    finalized. *)
Theorem finalizeProduction_spec `{Chain} (w : World) (sender now p h : Z) :
  let ck := ProductionOracle.getClaimKey w p h in
  let bucket := ProductionOracle.getClaimBucket w ck in
  let n := Registry.getSnapshotCount w (snapshotId bucket) in
  let tally := ProductionOracle.getValueSubmissions w ck
                 (fst (ProductionOracle.findWinner w ck)) in
  let total := energyWh tally * rewardPerWhWei (treasury w) in
  finalized bucket = false ->
  deadline bucket <> 0 ->
  deadline bucket < now ->
  0 <= quorumBps (oracle w) ->
  n * quorumBps (oracle w) + 9999 < UINT256 ->
  10000 * (quorumRequired w ck - 1) < n * quorumBps (oracle w)
    <= 10000 * quorumRequired w ck /\
  (maxTally w ck < quorumRequired w ck ->
   ProductionOracle.finalizeProduction w sender now p h
   = Ok (emit (ClaimDisputed ck p h)
           (ProductionOracle.storeBucket ck (ProductionOracle.markDisputed bucket) w)) /\
   disputed (ProductionOracle.markDisputed bucket) = true /\
   finalized (ProductionOracle.markDisputed bucket) = false) /\
  (quorumRequired w ck <= maxTally w ck ->
   (0 < maxTally w ck ->
    fst (ProductionOracle.findWinner w ck) ∈ ProductionOracle.claimValueHashes w ck /\
    count tally = maxTally w ck) /\
   ProductionOracle.finalizeProduction w sender now p h = finalizeWinner w p h /\
   (forall producer cap,
      Registry.getProducer w p = Ok producer ->
      payoutAddr producer <> 0 ->
      this (oracle w) = creditsProductionOracle (hourlyCredits w) ->
      HourlyCredits.balanceOf w (payoutAddr producer) h + energyWh tally < UINT256 ->
      acceptsCredits (payoutAddr producer) = true ->
      Treasury.onlyAuthorizedOracle w (this (oracle w)) = Ok tt ->
      fits UINT16 (verifierBitmap tally) ->
      0 <= total <= rewardPool (treasury w) ->
      (forall v, 0 <= Treasury.getPendingRewards w v /\
                 Treasury.getPendingRewards w v
                 + 16 * (total / Treasury._popcount (verifierBitmap tally)) < UINT256) ->
      faultHeadroom w cap ->
      exists w',
        ProductionOracle.finalizeProduction w sender now p h = Ok w' /\
        finalized (ProductionOracle.getClaimBucket w' ck) = true /\
        verifiedEnergyWh (ProductionOracle.getClaimBucket w' ck) = energyWh tally) /\
   (forall w', ProductionOracle.finalizeProduction w sender now p h = Ok w' ->
      let bucket' := ProductionOracle.getClaimBucket w' ck in
      finalized bucket' = true /\
      disputed bucket' = false /\
      verifiedEnergyWh bucket' = energyWh tally /\
      evidenceRoot bucket' = vsEvidenceRoot tally /\
      winningVerifierBitmap bucket' = verifierBitmap tally) /\
   (forall producer,
      Registry.getProducer w p = Ok producer ->
      payoutAddr producer <> 0 ->
      this (oracle w) = creditsProductionOracle (hourlyCredits w) ->
      HourlyCredits.balanceOf w (payoutAddr producer) h + energyWh tally < UINT256 ->
      acceptsCredits (payoutAddr producer) = true ->
      Treasury.onlyAuthorizedOracle w (this (oracle w)) = Ok tt ->
      fits UINT16 (verifierBitmap tally) ->
      Treasury._popcount (verifierBitmap tally) <> 0 ->
      0 < total < UINT256 ->
      rewardPool (treasury w) < total ->
      ProductionOracle.finalizeProduction w sender now p h
      = Revert InsufficientRewardPool)).
Proof.
  intros ck bucket n tally total Hfin Hdl0 Hdl Hbps Hov.
  assert (Hn : 0 <= n) by (unfold n, Registry.getSnapshotCount; lia).
  assert (Hq : ProductionOracle.quorumOf n (quorumBps (oracle w))
               = Ok (quorumRequired w ck)).
  { apply quorumOf_ok; [nia | done]. }
  assert (Hunfold : ProductionOracle.finalizeProduction w sender now p h =
    if maxTally w ck <? quorumRequired w ck then
      Ok (emit (ClaimDisputed ck p h)
            (ProductionOracle.storeBucket ck (ProductionOracle.markDisputed bucket) w))
    else finalizeWinner w p h).
  { rewrite finalizeProduction_unfold. cbv zeta. fold ck. fold bucket. fold n.
    rewrite Hfin. cbn [negb require bind].
    destruct (deadline bucket =? 0) eqn:E0; [lia|].
    destruct (now <=? deadline bucket) eqn:E1; [lia|]. cbn [orb negb require bind].
    rewrite Hq. reflexivity. }
  split; [apply ceiling_10000|]. split.
  - intros Hlt. rewrite Hunfold.
    destruct (maxTally w ck <? quorumRequired w ck) eqn:E; [done | lia].
  - intros Hge.
    assert (Hwin : ProductionOracle.finalizeProduction w sender now p h
                   = finalizeWinner w p h).
    { rewrite Hunfold. destruct (maxTally w ck <? quorumRequired w ck) eqn:E; [lia | done]. }
    assert (Hresult : forall w',
              ProductionOracle.finalizeProduction w sender now p h = Ok w' ->
              let bucket' := ProductionOracle.getClaimBucket w' ck in
              finalized bucket' = true /\
              disputed bucket' = false /\
              verifiedEnergyWh bucket' = energyWh tally /\
              evidenceRoot bucket' = vsEvidenceRoot tally /\
              winningVerifierBitmap bucket' = verifierBitmap tally).
    { intros w' Hok. rewrite Hwin in Hok.
      apply finalizeWinner_ok in Hok as [_ Ho]. fold ck in Ho. fold tally in Ho.
      cbv zeta. unfold ProductionOracle.getClaimBucket. rewrite Ho. simpl.
      rewrite sload_insert. simpl. done. }
    split; [apply findWinner_winner|]. split; [exact Hwin|]. split; [|split].
    + intros producer cap Hprod Hpay Hwire Hbal Hacc Hauth Hfits Htot Hpend Hroom.
      destruct (finalizeWinner_succeeds w p h producer cap) as [w' Hw']; try done.
      exists w'. rewrite Hwin. split; [exact Hw'|].
      rewrite <- Hwin in Hw'. destruct (Hresult w' Hw') as (Hf & _ & Hwh & _).
      split; [exact Hf | exact Hwh].
    + exact Hresult.
    + intros producer Hprod Hpay Hwire Hbal Hacc Hauth Hfits Hpop Htot Hpool.
      rewrite Hwin. unfold finalizeWinner. cbv zeta. fold ck. fold tally.
      unfold ProductionOracle._finalizeWithValue. cbv zeta.
      set (w1 := ProductionOracle.storeBucket ck _ w).
      change (Registry.getProducer w1 p) with (Registry.getProducer w p).
      rewrite Hprod. cbn [bind].
      destruct (mint_succeeds w1 (this (oracle w1)) (payoutAddr producer) h
                  (energyWh tally) ck) as [w2 Hw2];
        [exact Hwire | exact Hpay | exact Hbal | exact Hacc |].
      rewrite Hw2. cbn [bind].
      apply mint_frame in Hw2 as (Hr2 & Ho2 & Ht2).
      rewrite (distributeRewards_insufficient w2); [done | | done | |].
      * unfold Treasury.onlyAuthorizedOracle. rewrite Ht2, Ho2. exact Hauth.
      * rewrite Ht2. exact Htot.
      * rewrite Ht2. exact Hpool.
Qed.

(** ** C8: a second [finalizeProduction] *)



(** ** The exchange sort of [_sortAddresses] *)

Lemma compareSwap_length (i j : nat) (l : list Z) :
  length (Registry.compareSwap i j l) = length l.
Proof.
  unfold Registry.compareSwap.
  destruct (l !! i) as [a|]; [|done]. destruct (l !! j) as [b|]; [|done].
  destruct (b <? a); [|done]. by rewrite !length_insert.
Qed.

Lemma compareSwap_perm (i j : nat) (l : list Z) : Registry.compareSwap i j l ≡ₚ l.
Proof.
  unfold Registry.compareSwap.
  destruct (l !! i) as [a|] eqn:Ei; [|done]. destruct (l !! j) as [b|] eqn:Ej; [|done].
  destruct (b <? a); [|done]. by apply Permutation_insert_swap.
Qed.

(** After the comparison, position [i] holds the smaller and position [j]
    the larger of the two values. *)
Lemma compareSwap_lookup (i j k : nat) (l : list Z) (a b : Z) :
  i <> j -> l !! i = Some a -> l !! j = Some b ->
  Registry.compareSwap i j l !! k =
  if decide (k = i) then Some (Z.min a b)
  else if decide (k = j) then Some (Z.max a b) else l !! k.
Proof.
  intros Hij Hi Hj. unfold Registry.compareSwap. rewrite Hi, Hj.
  pose proof (lookup_lt_Some _ _ _ Hi) as Hli.
  pose proof (lookup_lt_Some _ _ _ Hj) as Hlj.
  destruct (b <? a) eqn:E.
  - destruct (decide (k = i)) as [->|Hki].
    + rewrite list_lookup_insert_ne by done.
      rewrite list_lookup_insert_eq by done. f_equal. lia.
    + destruct (decide (k = j)) as [->|Hkj].
      * rewrite list_lookup_insert_eq by (by rewrite length_insert). f_equal. lia.
      * by rewrite !list_lookup_insert_ne.
  - destruct (decide (k = i)) as [->|Hki]; [rewrite Hi; f_equal; lia|].
    destruct (decide (k = j)) as [->|Hkj]; [rewrite Hj; f_equal; lia | done].
Qed.

Lemma compareSwap_inv (i j : nat) (l : list Z) :
  (i < j < length l)%nat -> settled i l -> leastUpTo i j l ->
  settled i (Registry.compareSwap i j l) /\ leastUpTo i (S j) (Registry.compareSwap i j l).
Proof.
  intros [Hij Hjl] Hset Hleast.
  destruct (lookup_lt_is_Some_2 l i) as [a Ha]; [lia|].
  destruct (lookup_lt_is_Some_2 l j) as [b Hb]; [lia|].
  assert (Hlook := fun k => compareSwap_lookup i j k l a b ltac:(lia) Ha Hb).
  split.
  - intros p q x y Hp Hpq Hx Hy. rewrite Hlook in Hx, Hy.
    destruct (decide (p = i)); [lia|]. destruct (decide (p = j)); [lia|].
    pose proof (Hset p i x a Hp ltac:(lia) Hx Ha).
    pose proof (Hset p j x b Hp ltac:(lia) Hx Hb).
    destruct (decide (q = i)); [simplify_eq; lia|].
    destruct (decide (q = j)); [simplify_eq; lia|].
    by eapply (Hset p q).
  - intros q x y Hq Hx Hy. rewrite Hlook in Hx, Hy.
    destruct (decide (i = i)); [|done]. simplify_eq.
    destruct (decide (q = i)); [lia|].
    destruct (decide (q = j)); [simplify_eq; lia|].
    pose proof (Hleast q a y ltac:(lia) Ha Hy). lia.
Qed.

Lemma sortInner_loop (i : nat) (m j : nat) (l : list Z) :
  (i < j)%nat -> (j + m <= length l)%nat -> settled i l -> leastUpTo i j l ->
  let l' := foldl (fun acc j => Registry.compareSwap i j acc) l (seq j m) in
  settled i l' /\ leastUpTo i (j + m) l' /\ length l' = length l /\ l' ≡ₚ l.
Proof.
  revert j l. induction m as [|m IH]; intros j l Hij Hlen Hset Hleast; simpl.
  - rewrite Nat.add_0_r. done.
  - destruct (compareSwap_inv i j l) as [Hset' Hleast']; [lia | done | done |].
    destruct (IH (S j) (Registry.compareSwap i j l)) as (H1 & H2 & H3 & H4);
      [lia | rewrite compareSwap_length; lia | done | done |].
    replace (j + S m)%nat with (S j + m)%nat by lia.
    split; [done|]. split; [done|]. split.
    + by rewrite H3, compareSwap_length.
    + by rewrite H4, compareSwap_perm.
Qed.

Lemma sortInner_inv (i : nat) (l : list Z) :
  (i < length l)%nat -> settled i l ->
  settled (S i) (Registry.sortInner i l) /\
  length (Registry.sortInner i l) = length l /\ Registry.sortInner i l ≡ₚ l.
Proof.
  intros Hi Hset. unfold Registry.sortInner.
  destruct (sortInner_loop i (length l - S i) (S i) l) as (H1 & H2 & H3 & H4);
    [lia | lia | done | intros b x y Hb; lia |].
  split; [|done].
  replace (S i + (length l - S i))%nat with (length l) in H2 by lia.
  intros a b x y Ha Hab Hx Hy.
  destruct (decide (a = i)) as [->|Hne].
  - eapply (H2 b); [|done..]. apply lookup_lt_Some in Hy. rewrite H3 in Hy. lia.
  - eapply (H1 a b); [lia|done..].
Qed.

Lemma sortOuter_loop (m i : nat) (l : list Z) :
  (i + m <= length l)%nat -> settled i l ->
  let l' := foldl (fun acc i => Registry.sortInner i acc) l (seq i m) in
  settled (i + m) l' /\ length l' = length l /\ l' ≡ₚ l.
Proof.
  revert i l. induction m as [|m IH]; intros i l Hlen Hset; simpl.
  - rewrite Nat.add_0_r. done.
  - destruct (sortInner_inv i l) as (H1 & H2 & H3); [lia | done |].
    destruct (IH (S i) (Registry.sortInner i l)) as (H4 & H5 & H6); [lia | done |].
    replace (i + S m)%nat with (S i + m)%nat by lia.
    split; [done|]. split; [congruence|]. by rewrite H6.
Qed.

(** [_sortAddresses] returns the addresses in ascending order. *)
Lemma sortAddresses_sorted (arr : list Z) :
  ascending (Registry._sortAddresses arr) /\
  length (Registry._sortAddresses arr) = length arr /\
  Registry._sortAddresses arr ≡ₚ arr.
Proof.
  unfold Registry._sortAddresses.
  destruct (sortOuter_loop (length arr) 0 arr) as (H1 & H2 & H3);
    [lia | intros a b x y Ha; lia |].
  split; [|done]. intros a b x y Hab Hx Hy.
  eapply (H1 a b); [|done..]. apply lookup_lt_Some in Hy. simpl. rewrite H2 in Hy. lia.
Qed.

(** ** Snapshot indices *)

Lemma scanIndex_none (v : Z) (vs : list Z) (i : Z) :
  v ∉ vs -> Registry.scanIndex v vs i = None.
Proof.
  revert i. induction vs as [|x vs IH]; intros i Hv; [done|].
  simpl. apply not_elem_of_cons in Hv as [Hne Hv].
  destruct (x =? v) eqn:E; [apply Z.eqb_eq in E; congruence|]. by apply IH.
Qed.

Lemma scanIndex_found (v : Z) (vs : list Z) (n : nat) (i : Z) :
  NoDup vs -> vs !! n = Some v -> Registry.scanIndex v vs i = Some (i + Z.of_nat n).
Proof.
  revert n i. induction vs as [|x vs IH]; intros n i Hnd Hn; [done|].
  apply NoDup_cons in Hnd as [Hx Hnd]. simpl. destruct n as [|n]; simpl in Hn.
  - simplify_eq. rewrite Z.eqb_refl. f_equal. lia.
  - destruct (x =? v) eqn:E.
    + apply Z.eqb_eq in E. subst x. destruct Hx. by eapply list_elem_of_lookup_2.
    + rewrite (IH n (i + 1)) by done. f_equal. lia.
Qed.

Lemma filter_none (P : Z -> Prop) `{forall x, Decision (P x)} (l : list Z) :
  (forall y, y ∈ l -> ~ P y) -> filter P l = [].
Proof.
  induction l as [|x l IH]; intros Hl; [done|].
  rewrite filter_cons_False by (apply Hl; left). apply IH. intros y Hy. apply Hl. by right.
Qed.

Lemma ascending_cons (x : Z) (l : list Z) :
  ascending (x :: l) -> ascending l /\ forall y, y ∈ l -> x <= y.
Proof.
  intros Hasc. split.
  - intros a b u v Hab Ha Hb. by apply (Hasc (S a) (S b) u v); [lia|..].
  - intros y Hy. apply list_elem_of_lookup in Hy as [n Hn].
    by apply (Hasc 0%nat (S n) x y); [lia|..].
Qed.

(** In an ascending list without duplicates, the position of a member is
    the number of smaller members. *)
Lemma rank_position (l : list Z) (n : nat) (v : Z) :
  ascending l -> NoDup l -> l !! n = Some v -> rank v l = Z.of_nat n.
Proof.
  unfold rank. revert n. induction l as [|x l IH]; intros n Hasc Hnd Hn; [done|].
  apply ascending_cons in Hasc as [Hasc Hle].
  apply NoDup_cons in Hnd as [Hx Hnd]. destruct n as [|n]; simpl in Hn.
  - simplify_eq. rewrite filter_cons_False by lia.
    rewrite filter_none; [done|]. intros y Hy. specialize (Hle y Hy). lia.
  - assert (x < v).
    { assert (v ∈ l) by by eapply list_elem_of_lookup_2.
      specialize (Hle v ltac:(done)). assert (x <> v) by congruence. lia. }
    rewrite filter_cons_True by done. simpl length.
    rewrite Nat2Z.inj_succ, (IH n) by done. lia.
Qed.

Lemma rank_perm (v : Z) (l l' : list Z) : l ≡ₚ l' -> rank v l = rank v l'.
Proof. intros Hp. unfold rank. by rewrite Hp. Qed.

Lemma rank_bound (v : Z) (l : list Z) : 0 <= rank v l <= Z.of_nat (length l).
Proof. unfold rank. pose proof (length_filter (fun x => x < v) l). lia. Qed.

Lemma createSnapshot_stores (w w' : World) (sender now ck id : Z) :
  Registry.createSnapshot w sender now ck = Ok (w', id) ->
  Registry.getSnapshotVerifiers w' id
  = Registry._sortAddresses (_activeVerifiers (registry w)).
Proof.
  intros Hc. unfold Registry.createSnapshot in Hc. inv_ok Hc. simplify_eq.
  unfold Registry.getSnapshotVerifiers. simpl. by rewrite sload_insert.
Qed.

(** C7.  A snapshot created in a reachable world holds the active verifier
    set in ascending order of address, so every active verifier [v] stands
    at position [rank v] (the number of active verifiers with a smaller
    address).  [getVerifierIndex] returns that position cast to [uint8]:
    the position itself when there are at most 256 active verifiers, and
    the position modulo 256 beyond that ([activateVerifier] has no cap).  It
    fails with [VerifierNotInSnapshot] for every address not in the
    snapshot. *)
Theorem snapshot_index `{Chain} (w w' : World) (sender now ck id : Z) :
  reachable w ->
  Registry.createSnapshot w sender now ck = Ok (w', id) ->
  let act := _activeVerifiers (registry w) in
  let snap := Registry.getSnapshotVerifiers w' id in
  ascending snap /\ snap ≡ₚ act /\
  (forall v, active (Registry.getVerifier w v) = true ->
     v ∈ act /\
     snap !! Z.to_nat (rank v act) = Some v /\
     Registry.getVerifierIndex w' id v = Ok (to_uint8 (rank v act)) /\
     ((length act <= 256)%nat -> Registry.getVerifierIndex w' id v = Ok (rank v act))) /\
  (forall v, v ∉ snap -> Registry.getVerifierIndex w' id v = Revert VerifierNotInSnapshot).
Proof.
  intros Hreach Hcall act snap.
  pose proof (reachable_registryInv w Hreach) as [_ _ Hix Hnd _ _].
  assert (Hsnap : snap = Registry._sortAddresses act) by by eapply createSnapshot_stores.
  destruct (sortAddresses_sorted act) as (Hasc & _ & Hperm). rewrite <- Hsnap in Hasc, Hperm.
  assert (Hnd' : NoDup snap) by by rewrite Hperm.
  split; [done|]. split; [done|]. split.
  - intros v Hv.
    assert (Hin : v ∈ act).
    { destruct (Hix v Hv) as [_ Hl]. by eapply list_elem_of_lookup_2. }
    split; [done|].
    assert (Hin' : v ∈ snap) by by rewrite Hperm.
    apply list_elem_of_lookup in Hin' as [n Hn].
    assert (Hrank : rank v act = Z.of_nat n).
    { rewrite <- (rank_perm v snap act Hperm). by apply rank_position. }
    assert (Hidx : Registry.getVerifierIndex w' id v = Ok (to_uint8 (rank v act))).
    { unfold Registry.getVerifierIndex. fold snap.
      by rewrite (scanIndex_found v snap n 0 Hnd' Hn), Hrank. }
    rewrite Hrank, Nat2Z.id. split; [done|]. split; [by rewrite <- Hrank|].
    intros Hlen. rewrite <- Hrank, Hidx. f_equal. unfold to_uint8.
    apply Z.mod_small. split; [apply rank_bound|]. rewrite Hrank.
    apply lookup_lt_Some in Hn. rewrite Hperm in Hn. lia.
  - intros v Hv. unfold Registry.getVerifierIndex. fold snap. by rewrite scanIndex_none.
Qed.

(** ** Bitmaps of submitters *)

Lemma bitCount_le (n : nat) (b : Z) : bitCount n b <= Z.of_nat n.
Proof.
  revert b. induction n as [|n IH]; intros b; [done|].
  rewrite bitCount_shift. specialize (IH (Z.shiftr b 1)).
  destruct (Z.testbit b 0); lia.
Qed.

Lemma lor_bound (a b n : Z) :
  0 <= n -> 0 <= a < 2 ^ n -> 0 <= b < 2 ^ n -> 0 <= Z.lor a b < 2 ^ n.
Proof.
  intros Hn Ha Hb. assert (H0 : 0 <= Z.lor a b) by (apply Z.lor_nonneg; lia).
  split; [done|].
  destruct (decide (Z.lor a b = 0)) as [->|Hne]; [lia|].
  apply Z.log2_lt_pow2; [lia|]. rewrite Z.log2_lor by lia.
  destruct (decide (a = 0)) as [->|Ha0]; destruct (decide (b = 0)) as [->|Hb0].
  - done.
  - rewrite Z.max_r by (pose proof (Z.log2_nonneg b); simpl; lia).
    apply Z.log2_lt_pow2; lia.
  - rewrite Z.max_l by (pose proof (Z.log2_nonneg a); simpl; lia).
    apply Z.log2_lt_pow2; lia.
  - apply Z.max_lub_lt; apply Z.log2_lt_pow2; lia.
Qed.

(** Setting a clear bit below [n] raises the count by one. *)
Lemma bitCount_set (n i : nat) (b : Z) :
  (i < n)%nat -> Z.testbit b (Z.of_nat i) = false ->
  bitCount n (Z.lor b (2 ^ Z.of_nat i)) = bitCount n b + 1.
Proof.
  revert i b. induction n as [|n IH]; intros i b Hi Hbit; [lia|].
  rewrite !bitCount_shift, Z.lor_spec, Z.shiftr_lor.
  destruct i as [|i].
  - change (Z.of_nat 0) with 0 in *. rewrite Hbit.
    change (2 ^ 0) with 1. change (Z.testbit 1 0) with true.
    change (Z.shiftr 1 1) with 0. rewrite Z.lor_0_r. simpl. lia.
  - rewrite Z.pow2_bits_eqb by lia.
    replace (Z.of_nat (S i) =? 0) with false by (symmetry; apply Z.eqb_neq; lia).
    rewrite orb_false_r.
    replace (Z.shiftr (2 ^ Z.of_nat (S i)) 1) with (2 ^ Z.of_nat i).
    2:{ rewrite Z.shiftr_div_pow2 by lia. rewrite Nat2Z.inj_succ, Z.pow_succ_r by lia.
        change (2 ^ 1) with 2. by rewrite Z.mul_comm, Z.div_mul. }
    rewrite (IH i); [lia | lia |].
    rewrite Z.shiftr_spec by lia. rewrite <- Hbit. f_equal. lia.
Qed.

(** [uint16(1 << verifierIndex)] *)
Lemma bit_of_index (idx : Z) :
  0 <= idx ->
  to_uint16 (Z.shiftl 1 idx) = if idx <? 16 then 2 ^ idx else 0.
Proof.
  intros Hidx. unfold to_uint16, UINT16. rewrite Z.shiftl_1_l.
  destruct (idx <? 16) eqn:E.
  - apply Z.ltb_lt in E. apply Z.mod_small. split; [lia|].
    apply Z.pow_lt_mono_r; lia.
  - apply Z.ltb_ge in E. replace idx with ((idx - 16) + 16) by lia.
    rewrite Z.pow_add_r by lia. apply Z.mod_mul. lia.
Qed.

Lemma scanIndex_inv (v : Z) (vs : list Z) (i k : Z) :
  Registry.scanIndex v vs i = Some k ->
  exists n : nat, k = i + Z.of_nat n /\ vs !! n = Some v.
Proof.
  revert i. induction vs as [|x vs IH]; intros i Hk; [done|].
  simpl in Hk. destruct (x =? v) eqn:E.
  - apply Z.eqb_eq in E. simplify_eq. exists 0%nat. split; [lia|done].
  - destruct (IH _ Hk) as (n & -> & Hn). exists (S n). split; [lia|done].
Qed.

Lemma getVerifierIndex_inv (w : World) (id v idx : Z) :
  Registry.getVerifierIndex w id v = Ok idx ->
  exists n : nat, Registry.getSnapshotVerifiers w id !! n = Some v /\
                  idx = to_uint8 (Z.of_nat n).
Proof.
  unfold Registry.getVerifierIndex. intros Hidx.
  destruct (Registry.scanIndex v _ 0) as [k|] eqn:E; [|done].
  apply scanIndex_inv in E as (n & -> & Hn). exists n. split; [done|]. by simplify_eq.
Qed.

(** ** Snapshots are never rewritten *)

Lemma registryCall_snapshots (w w' : World) :
  registryCall w w' ->
  _nextSnapshotId (registry w) <= _nextSnapshotId (registry w') /\
  forall id, id < _nextSnapshotId (registry w) ->
    _snapshots (registry w') !! id = _snapshots (registry w) !! id.
Proof.
  intros [sender a ok Ha Hc|sender a ok Hc|sender Hc|sender Hc|sender v Hc|sender v Hc
         |sender now ck id Hc|v Hc|v a Hc].
  7:{ unfold Registry.createSnapshot in Hc. inv_ok Hc. simplify_eq. simpl. split; [lia|].
      intros id' Hid. apply lookup_insert_ne. lia. }
  8:{ rewrite reduceStake_ok in Hc. injection Hc as <-. simpl. split; [lia|done]. }
  all: unfold Registry.stakeAsVerifier, Registry.unstake, Registry.activateVerifier,
         Registry.deactivateVerifier, Registry.addToAllowlist,
         Registry.removeFromAllowlist, Registry.incrementFaults in Hc.
  all: inv_ok Hc; subst; simpl; (split; [lia|done]).
Qed.

Lemma regSteps_snapshots (r r' : RegistryState) :
  rtc regStep r r' ->
  _nextSnapshotId r <= _nextSnapshotId r' /\
  forall id, id < _nextSnapshotId r -> _snapshots r' !! id = _snapshots r !! id.
Proof.
  induction 1 as [r|r1 r2 r3 Hstep _ [IHn IHs]]; [done|].
  assert (Hs : _nextSnapshotId r1 <= _nextSnapshotId r2 /\
               forall id, id < _nextSnapshotId r1 ->
                          _snapshots r2 !! id = _snapshots r1 !! id).
  { destruct Hstep as [r r' (_ & _ & _ & Hsn & Hnx)|w w' Hcall].
    - rewrite Hsn, Hnx. done.
    - by apply registryCall_snapshots. }
  destruct Hs as [Hn Hs]. split; [lia|].
  intros id Hid. rewrite IHs by lia. by apply Hs.
Qed.

(** ** The invariant of a claim *)

(** The invariant reads the bucket's counters and bitmaps, the tallies, the
    submitted flags and the claim's snapshot: a step that keeps them keeps the
    invariant. *)
Lemma claimInv_transport (w w' : World) (ck : Z) :
  let b := ProductionOracle.getClaimBucket w ck in
  let b' := ProductionOracle.getClaimBucket w' ck in
  snapshotId b' = snapshotId b ->
  maxSubmittedEnergyWh b' = maxSubmittedEnergyWh b ->
  allSubmittersBitmap b' = allSubmittersBitmap b ->
  submissionCount b' = submissionCount b ->
  (finalized b' = true ->
   verifiedEnergyWh b' <= maxSubmittedEnergyWh b' /\ disputed b' = false) ->
  (forall vh, ProductionOracle.getValueSubmissions w' ck vh
              = ProductionOracle.getValueSubmissions w ck vh) ->
  (forall v, ProductionOracle.hasSubmitted w ck v = true ->
             ProductionOracle.hasSubmitted w' ck v = true) ->
  _nextSnapshotId (registry w) <= _nextSnapshotId (registry w') ->
  (forall id, id < _nextSnapshotId (registry w) ->
     _snapshots (registry w') !! id = _snapshots (registry w) !! id) ->
  claimInv w ck -> claimInv w' ck.
Proof.
  intros b b' Hid Hmax Hall Hcount Hver Htally Hsub Hnext Hsnap [Ii Im Ie Iv Ib].
  fold b in Ii, Im, Ie, Iv.
  assert (HS : claimSnapshot w' ck = claimSnapshot w ck).
  { unfold claimSnapshot, Registry.getSnapshotVerifiers, sload. fold b b'.
    rewrite Hid, Hsnap by lia. done. }
  split; fold b'.
  - rewrite Hid. lia.
  - by rewrite Hmax.
  - intros vh. rewrite Htally, Hmax. apply Ie.
  - done.
  - rewrite HS. intros Hlen. destruct (Ib Hlen) as [Br Bs Bt Bc]. fold b in Br, Bs, Bt, Bc.
    split; fold b'; rewrite ?HS, ?Hall, ?Hcount; try done.
    + intros i v Hi Hbit. apply Hsub. by eapply Bs.
    + intros vh. rewrite Htally. apply Bt.
Qed.

Lemma claimInv_outside (w w' : World) (ck : Z) :
  outside w w' -> claimInv w ck -> claimInv w' ck.
Proof.
  intros [Hreg Ho] Hinv. destruct (regSteps_snapshots _ _ Hreg) as [Hn Hs].
  assert (Hb : ProductionOracle.getClaimBucket w' ck = ProductionOracle.getClaimBucket w ck)
    by (unfold ProductionOracle.getClaimBucket; by rewrite Ho).
  apply (claimInv_transport w w' ck); rewrite ?Hb; try done.
  - apply (ci_verified _ _ Hinv).
  - intros vh. unfold ProductionOracle.getValueSubmissions. by rewrite Ho.
  - intros v. unfold ProductionOracle.hasSubmitted. by rewrite Ho.
Qed.

(** *** Reads after an accepted submission *)

Section AfterSubmission.
Context `{Chain}.
Variables (w1 : World) (ck v bit wh root : Z).

Lemma afterSubmission_registry :
  registry (afterSubmission w1 ck v bit wh root) = registry w1.
Proof. reflexivity. Qed.

Lemma afterSubmission_bucket (ck' : Z) :
  ProductionOracle.getClaimBucket (afterSubmission w1 ck v bit wh root) ck'
  = if decide (ck = ck')
    then acceptedBucket (ProductionOracle.getClaimBucket w1 ck) bit wh
    else ProductionOracle.getClaimBucket w1 ck'.
Proof.
  unfold afterSubmission, ProductionOracle.getClaimBucket. simpl.
  destruct (decide (ck = ck')) as [->|Hne];
    [apply sload_insert | by apply sload_insert_ne].
Qed.

Lemma afterSubmission_tally (ck' vh : Z) :
  ProductionOracle.getValueSubmissions (afterSubmission w1 ck v bit wh root) ck' vh
  = if decide ((ck, keccakValue wh root) = (ck', vh))
    then acceptedTally
           (ProductionOracle.getValueSubmissions w1 ck (keccakValue wh root)) bit wh root
    else ProductionOracle.getValueSubmissions w1 ck' vh.
Proof.
  unfold afterSubmission, ProductionOracle.getValueSubmissions. simpl.
  destruct (decide (_ = _)) as [Heq|Hne];
    [injection Heq as -> ->; apply sload_insert | by apply sload_insert_ne].
Qed.

Lemma afterSubmission_hasSubmitted (ck' u : Z) :
  ProductionOracle.hasSubmitted (afterSubmission w1 ck v bit wh root) ck' u
  = if decide ((ck, v) = (ck', u)) then true
    else ProductionOracle.hasSubmitted w1 ck' u.
Proof.
  unfold afterSubmission, ProductionOracle.hasSubmitted. simpl.
  destruct (decide (_ = _)) as [Heq|Hne];
    [injection Heq as -> ->; apply sload_insert | by apply sload_insert_ne].
Qed.

(** Claims other than [ck] are untouched. *)
Lemma afterSubmission_other (ck' : Z) :
  ck <> ck' -> claimInv w1 ck' -> claimInv (afterSubmission w1 ck v bit wh root) ck'.
Proof.
  intros Hne Hinv.
  assert (Hb := afterSubmission_bucket ck'). destruct (decide (ck = ck')); [done|].
  apply (claimInv_transport w1 _ ck'); rewrite ?Hb; try done.
  - apply (ci_verified _ _ Hinv).
  - intros vh. rewrite afterSubmission_tally. destruct (decide (_ = _)); [congruence|done].
  - intros u Hu. rewrite afterSubmission_hasSubmitted. by destruct (decide (_ = _)).
Qed.

End AfterSubmission.

(** The claim itself: the accepted submission sets the submitter's bit,
    which was clear, and counts it once in the bucket and once in the tally. *)
Lemma afterSubmission_inv `{Chain} (w1 : World) (ck v idx wh root : Z) :
  Registry.getVerifierIndex w1
    (snapshotId (ProductionOracle.getClaimBucket w1 ck)) v = Ok idx ->
  ProductionOracle.hasSubmitted w1 ck v = false ->
  claimInv w1 ck ->
  claimInv (afterSubmission w1 ck v (to_uint16 (Z.shiftl 1 idx)) wh root) ck.
Proof.
  intros Hidx Hnew [Ii Im Ie Iv Ib].
  set (bit := to_uint16 (Z.shiftl 1 idx)).
  set (w9 := afterSubmission w1 ck v bit wh root).
  set (b := ProductionOracle.getClaimBucket w1 ck) in *.
  set (vh0 := keccakValue wh root).
  set (t := ProductionOracle.getValueSubmissions w1 ck vh0).
  assert (Hb : ProductionOracle.getClaimBucket w9 ck = acceptedBucket b bit wh).
  { unfold w9. rewrite afterSubmission_bucket. by destruct (decide (ck = ck)). }
  assert (Ht : forall vh, ProductionOracle.getValueSubmissions w9 ck vh
             = if decide (vh0 = vh) then acceptedTally t bit wh root
               else ProductionOracle.getValueSubmissions w1 ck vh).
  { intros vh. unfold w9. rewrite afterSubmission_tally. fold vh0 t.
    destruct (decide (vh0 = vh)) as [->|Hne].
    - by destruct (decide ((ck, vh) = (ck, vh))).
    - destruct (decide ((ck, vh0) = (ck, vh))); [congruence|done]. }
  assert (Hh : forall u, ProductionOracle.hasSubmitted w9 ck u
             = if decide (v = u) then true else ProductionOracle.hasSubmitted w1 ck u).
  { intros u. unfold w9. rewrite afterSubmission_hasSubmitted.
    destruct (decide (v = u)) as [->|Hne].
    - by destruct (decide ((ck, u) = (ck, u))).
    - destruct (decide ((ck, v) = (ck, u))); [congruence|done]. }
  assert (HS : claimSnapshot w9 ck = claimSnapshot w1 ck).
  { unfold claimSnapshot. rewrite Hb. reflexivity. }
  assert (Hmax : maxSubmittedEnergyWh b <= maxSubmittedEnergyWh (acceptedBucket b bit wh)
                 /\ wh <= maxSubmittedEnergyWh (acceptedBucket b bit wh)).
  { simpl. destruct (maxSubmittedEnergyWh b <? wh) eqn:E; lia. }
  split; rewrite ?Hb, ?HS.
  - exact Ii.
  - lia.
  - intros vh. rewrite Ht. destruct (decide (vh0 = vh)) as [_|_].
    + simpl energyWh. destruct (count t =? 0); [lia|]. specialize (Ie vh0). fold t in Ie. lia.
    + specialize (Ie vh). lia.
  - intros Hf. destruct (Iv Hf) as [Hv Hd]. split; [|exact Hd].
    cbn [verifiedEnergyWh acceptedBucket]. lia.
  - intros Hlen. destruct (Ib Hlen) as [Br Bs Bt Bc]. fold b in Br, Bs, Bt, Bc.
    apply getVerifierIndex_inv in Hidx as (n & Hn & ->). fold b in Hn.
    change (Registry.getSnapshotVerifiers w1 (snapshotId b)) with (claimSnapshot w1 ck) in Hn.
    pose proof (lookup_lt_Some _ _ _ Hn) as Hlt.
    assert (Hbit : bit = 2 ^ Z.of_nat n).
    { unfold bit. replace (to_uint8 (Z.of_nat n)) with (Z.of_nat n)
        by (unfold to_uint8; rewrite Z.mod_small; lia).
      rewrite bit_of_index by lia.
      replace (Z.of_nat n <? 16) with true by (symmetry; apply Z.ltb_lt; lia). done. }
    assert (Hclear : Z.testbit (allSubmittersBitmap b) (Z.of_nat n) = false).
    { destruct (Z.testbit (allSubmittersBitmap b) (Z.of_nat n)) eqn:E; [|done].
      rewrite (Bs n v Hn E) in Hnew. done. }
    assert (Hpow : 0 <= 2 ^ Z.of_nat n < 2 ^ Z.of_nat (length (claimSnapshot w1 ck))).
    { split; [lia|]. apply Z.pow_lt_mono_r; lia. }
    split; rewrite ?Hb, ?HS; simpl allSubmittersBitmap; simpl submissionCount;
      rewrite ?Hbit.
    + apply lor_bound; [lia|done..].
    + intros i u Hi Hset. rewrite Hh. destruct (decide (v = u)) as [|Hne]; [done|].
      rewrite Z.lor_spec in Hset. apply orb_true_iff in Hset as [Hset|Hset].
      * by eapply Bs.
      * rewrite Z.pow2_bits_eqb in Hset by lia. apply Z.eqb_eq in Hset.
        apply Nat2Z.inj in Hset. subst i. congruence.
    + intros vh. rewrite Ht. destruct (Bt vh) as (Hr & Hsub & Hcnt).
      destruct (decide (vh0 = vh)) as [<-|_].
      * fold t in Hr, Hsub, Hcnt. simpl verifierBitmap. simpl count. rewrite Hbit.
        split; [apply lor_bound; [lia|done..]|]. split.
        -- intros i. rewrite !Z.lor_spec. intros Hset.
           apply orb_true_iff in Hset as [Hset|Hset]; apply orb_true_iff; auto.
        -- rewrite bitCount_set; [lia | lia |].
           destruct (Z.testbit (verifierBitmap t) (Z.of_nat n)) eqn:E; [|done].
           apply Hsub in E. congruence.
      * split; [done|]. split; [|done].
        intros i Hset. rewrite Z.lor_spec. apply orb_true_iff. left. by apply Hsub.
    + rewrite bitCount_set; [lia | lia | done].
Qed.

(** A write to the bucket of [ck] that keeps its counters and bitmaps,
    followed by changes outside the oracle. *)
Lemma claimInv_storeBucket `{Chain} (w w' : World) (ck ck' : Z) (b' : ClaimBucket) :
  let b := ProductionOracle.getClaimBucket w ck in
  oracle w' = oracle (ProductionOracle.storeBucket ck b' w) ->
  rtc regStep (registry w) (registry w') ->
  snapshotId b' = snapshotId b ->
  maxSubmittedEnergyWh b' = maxSubmittedEnergyWh b ->
  allSubmittersBitmap b' = allSubmittersBitmap b ->
  submissionCount b' = submissionCount b ->
  (finalized b' = true ->
   verifiedEnergyWh b' <= maxSubmittedEnergyWh b /\ disputed b' = false) ->
  claimInv w ck' -> claimInv w' ck'.
Proof.
  intros b Ho Hreg Hid Hmax Hall Hcount Hver Hinv.
  destruct (regSteps_snapshots _ _ Hreg) as [Hn Hs].
  assert (Hb : ProductionOracle.getClaimBucket w' ck'
             = if decide (ck = ck') then b' else ProductionOracle.getClaimBucket w ck').
  { rewrite <- getClaimBucket_store. unfold ProductionOracle.getClaimBucket. by rewrite Ho. }
  apply (claimInv_transport w w' ck'); try done; rewrite ?Hb.
  1-5: destruct (decide (ck = ck')) as [<-|_]; try done.
  - intros Hf. rewrite Hmax. auto.
  - apply (ci_verified _ _ Hinv).
  - intros vh. unfold ProductionOracle.getValueSubmissions. by rewrite Ho.
  - intros v. unfold ProductionOracle.hasSubmitted. by rewrite Ho.
Qed.

Lemma createSnapshot_next (w w' : World) (sender now ck id : Z) :
  Registry.createSnapshot w sender now ck = Ok (w', id) ->
  _nextSnapshotId (registry w') = _nextSnapshotId (registry w) + 1.
Proof.
  intros Hc. unfold Registry.createSnapshot in Hc. inv_ok Hc. by simplify_eq.
Qed.

(** The first submission of a claim: the snapshot is created and the bucket
    is opened with its id; nothing has been counted yet. *)
Lemma openBucket_inv `{Chain} (w wr : World) (sender now ck id dl ck' : Z) :
  registryInv (registry w) ->
  snapshotId (ProductionOracle.getClaimBucket w ck) = 0 ->
  Registry.createSnapshot w sender now ck = Ok (wr, id) ->
  claimInv w ck' ->
  claimInv (ProductionOracle.storeBucket ck
              (ProductionOracle.openBucket id dl (ProductionOracle.getClaimBucket wr ck))
              wr) ck'.
Proof.
  intros Hreg Hzero Hsnap Hinv.
  set (w1 := ProductionOracle.storeBucket ck _ wr).
  destruct (createSnapshot_oracle _ _ _ _ _ _ Hsnap) as (Ho & _ & _ & ->).
  assert (Hcall : registryCall w wr) by by eapply rc_snapshot.
  destruct (registryCall_snapshots _ _ Hcall) as [Hn Hs].
  assert (Hbr : forall k, ProductionOracle.getClaimBucket wr k
                          = ProductionOracle.getClaimBucket w k).
  { intros k. unfold ProductionOracle.getClaimBucket. by rewrite Ho. }
  assert (Ht : forall vh, ProductionOracle.getValueSubmissions w1 ck' vh
                          = ProductionOracle.getValueSubmissions w ck' vh).
  { intros vh. unfold ProductionOracle.getValueSubmissions, w1. simpl. by rewrite Ho. }
  assert (Hh : forall v, ProductionOracle.hasSubmitted w1 ck' v
                         = ProductionOracle.hasSubmitted w ck' v).
  { intros v. unfold ProductionOracle.hasSubmitted, w1. simpl. by rewrite Ho. }
  assert (Hb : ProductionOracle.getClaimBucket w1 ck'
             = if decide (ck = ck')
               then ProductionOracle.openBucket (_nextSnapshotId (registry w)) dl
                      (ProductionOracle.getClaimBucket w ck)
               else ProductionOracle.getClaimBucket w ck').
  { unfold w1. rewrite getClaimBucket_store, !Hbr. done. }
  destruct (decide (ck = ck')) as [<-|Hne].
  2:{ apply (claimInv_transport w w1 ck'); rewrite ?Hb; try done.
      - apply (ci_verified _ _ Hinv).
      - intros v. by rewrite Hh. }
  destruct Hinv as [Ii Im Ie Iv Ib].
  pose proof (ri_next _ Hreg) as Hnext.
  assert (Hempty : claimSnapshot w ck = []).
  { unfold claimSnapshot, Registry.getSnapshotVerifiers, sload. rewrite Hzero.
    destruct (_snapshots (registry w) !! 0) as [s|] eqn:E; [|done].
    apply (ri_snapshots _ Hreg) in E. lia. }
  destruct Ib as [Br Bs Bt Bc]; [rewrite Hempty; simpl; lia|].
  rewrite Hempty in Br, Bt. change (2 ^ Z.of_nat (length (@nil Z))) with 1 in Br, Bt.
  assert (Hopen : forall x, x = ProductionOracle.openBucket (_nextSnapshotId (registry w)) dl
                                  (ProductionOracle.getClaimBucket w ck) ->
            snapshotId x = _nextSnapshotId (registry w) /\
            maxSubmittedEnergyWh x
            = maxSubmittedEnergyWh (ProductionOracle.getClaimBucket w ck) /\
            finalized x = finalized (ProductionOracle.getClaimBucket w ck) /\
            verifiedEnergyWh x = verifiedEnergyWh (ProductionOracle.getClaimBucket w ck) /\
            disputed x = disputed (ProductionOracle.getClaimBucket w ck) /\
            allSubmittersBitmap x
            = allSubmittersBitmap (ProductionOracle.getClaimBucket w ck) /\
            submissionCount x = submissionCount (ProductionOracle.getClaimBucket w ck))
    by (by intros x ->).
  destruct (Hopen _ Hb) as (Oid & Omax & Ofin & Over & Odis & Oall & Ocnt).
  assert (Hpos : 0 < 2 ^ Z.of_nat (length (claimSnapshot w1 ck)))
    by (apply Z.pow_pos_nonneg; lia).
  split; rewrite ?Oid, ?Omax, ?Ofin, ?Over, ?Odis; try done.
  - change (registry w1) with (registry wr).
    rewrite (createSnapshot_next _ _ _ _ _ _ Hsnap). lia.
  - intros vh. rewrite Ht. apply Ie.
  - intros Hlen. split; rewrite ?Oall, ?Ocnt; try done.
    + lia.
    + intros i v _ Hbit.
      replace (allSubmittersBitmap (ProductionOracle.getClaimBucket w ck)) with 0 in Hbit
        by lia. by rewrite Z.bits_0 in Hbit.
    + intros vh. rewrite Ht. destruct (Bt vh) as (Hr & Hsub & Hcnt).
      split; [lia | done].
Qed.

(** *** The oracle's functions keep the invariant *)

Lemma submitProduction_inv `{Chain} (w w' : World) (sender now p h wh root sig : Z) :
  registryInv (registry w) ->
  ProductionOracle.submitProduction w sender now p h wh root sig = Ok w' ->
  (forall k, claimInv w k) -> forall k, claimInv w' k.
Proof.
  intros Hreg Hcall Hinv k.
  apply submitProduction_ok in Hcall. cbv zeta in Hcall.
  set (ck := ProductionOracle.getClaimKey w p h) in *.
  set (v := ecrecover (this (oracle w)) p h wh root sig) in *.
  destruct Hcall as (w1 & idx & _ & _ & Hw1 & _ & Hidx & Hnew & Hend).
  assert (H1 : forall k, claimInv w1 k).
  { intros k'. destruct Hw1 as [[_ ->]|(Hzero & wr & id & Hsnap & _ & ->)]; [done|].
    by eapply openBucket_inv. }
  set (w9 := afterSubmission w1 ck v (to_uint16 (Z.shiftl 1 idx)) wh root) in *.
  assert (H9 : forall k, claimInv w9 k).
  { intros k'. destruct (decide (ck = k')) as [<-|Hne].
    - by apply afterSubmission_inv.
    - by apply afterSubmission_other. }
  destruct Hend as [->|Hfin]; [done|].
  apply finalizeWithValue_effect in Hfin as [Hr Ho].
  eapply (claimInv_storeBucket w9 w' ck k); [exact Ho | rewrite Hr; apply rtc_refl | try done..].
  intros _. split; [|done]. simpl. unfold w9. rewrite afterSubmission_bucket.
  destruct (decide (ck = ck)); [|done]. simpl.
  destruct (maxSubmittedEnergyWh (ProductionOracle.getClaimBucket w1 ck) <? wh) eqn:E; lia.
Qed.

Lemma finalizeProduction_inv `{Chain} (w w' : World) (sender now p h : Z) :
  ProductionOracle.finalizeProduction w sender now p h = Ok w' ->
  (forall k, claimInv w k) -> forall k, claimInv w' k.
Proof.
  intros Hcall Hinv k. rewrite finalizeProduction_unfold in Hcall. cbv zeta in Hcall.
  set (ck := ProductionOracle.getClaimKey w p h) in *.
  apply bind_ok in Hcall as (? & _ & Hcall).
  apply bind_ok in Hcall as (? & _ & Hcall).
  apply bind_ok in Hcall as (q & _ & Hcall).
  destruct (maxTally w ck <? q).
  - injection Hcall as <-.
    eapply (claimInv_storeBucket w _ ck k); [reflexivity | apply rtc_refl | try done..].
  - apply finalizeWinner_ok in Hcall as [Hr Ho]. fold ck in Ho.
    eapply (claimInv_storeBucket w w' ck k); [exact Ho | exact Hr | try done..].
    intros _. split; [|done]. simpl. apply (ci_energy _ _ (Hinv ck)).
Qed.

Lemma forceFinalize_inv `{Chain} (w w' : World) (sender now p h wh root : Z) :
  ProductionOracle.forceFinalize w sender now p h wh root = Ok w' ->
  (forall k, claimInv w k) -> forall k, claimInv w' k.
Proof.
  intros Hcall Hinv k. unfold ProductionOracle.forceFinalize in Hcall. cbv zeta in Hcall.
  set (ck := ProductionOracle.getClaimKey w p h) in *.
  apply bind_ok in Hcall as (? & _ & Hcall).
  apply bind_ok in Hcall as (? & _ & Hcall).
  apply bind_ok in Hcall as (? & _ & Hcall).
  apply bind_ok in Hcall as (? & Hmax & Hcall). apply require_ok in Hmax.
  apply bind_ok in Hcall as (? & _ & Hcall).
  apply bind_ok in Hcall as (producer & _ & Hcall).
  apply bind_ok in Hcall as (w2 & Hmint & Hcall).
  apply mint_frame in Hmint as (Hr & Ho & _). injection Hcall as <-.
  eapply (claimInv_storeBucket w _ ck k); [exact Ho | | try done..].
  - simpl. rewrite Hr. apply rtc_refl.
  - intros _. split; [|done]. simpl. apply negb_true_iff, Z.ltb_ge in Hmax. exact Hmax.
Qed.

(** The configuration setters write none of the claim storage. *)
Lemma claimInv_config `{Chain} (w : World) (cw q : Z) (bm : bool) (svo k : Z) :
  claimInv w k ->
  claimInv (ProductionOracle.update w (ProductionOracle.set_config cw q bm svo)) k.
Proof.
  intros Hinv. apply (claimInv_transport w _ k); try done. apply (ci_verified _ _ Hinv).
Qed.

Lemma exec_claimInv `{Chain} (w w' : World) (sender now : Z) (c : Call) :
  wellTyped c -> registryInv (registry w) ->
  exec w sender now c = Ok w' ->
  (forall k, claimInv w k) -> forall k, claimInv w' k.
Proof.
  intros Hwt Hreg Hexec Hinv k.
  destruct (oracleCall c) eqn:Hoc.
  2:{ eapply claimInv_outside; [by eapply exec_outside | done]. }
  destruct c; try discriminate Hoc; simpl in Hexec.
  - by eapply submitProduction_inv.
  - by eapply finalizeProduction_inv.
  - by eapply forceFinalize_inv.
  - unfold ProductionOracle.setBaselineMode in Hexec. inv_ok Hexec. subst.
    by apply claimInv_config.
  - unfold ProductionOracle.setSingleVerifierOverride in Hexec. inv_ok Hexec. subst.
    by apply claimInv_config.
  - unfold ProductionOracle.setClaimWindow in Hexec. inv_ok Hexec. subst.
    by apply claimInv_config.
  - unfold ProductionOracle.setQuorumBps in Hexec. inv_ok Hexec. subst.
    by apply claimInv_config.
Qed.

Lemma deploy_claimInv (ro to co oo oa k : Z) : claimInv (deploy ro to co oo oa) k.
Proof.
  split; try done.
  intros _. split; try done.
  intros vh. split; [done|]. split; [|done]. intros i Hi. by rewrite Z.bits_0 in Hi.
Qed.

Lemma reachable_claimInv `{Chain} (w : World) :
  reachable w -> forall k, claimInv w k.
Proof.
  induction 1 as [|w sender now c Hw IH Hs Hn Hwt]; [intros k; apply deploy_claimInv|].
  destruct (transact_cases w sender now c) as [->|Hex]; [done|].
  eapply exec_claimInv; [done | by apply reachable_registryInv | done | done].
Qed.

(** ** Bitmaps and counters of a claim *)

(** With at most 16 verifiers in the snapshot, the bitmap of submitters
    counts the submissions. *)
Lemma bitmap_counts_submissions (w : World) (ck : Z) :
  claimInv w ck -> (length (claimSnapshot w ck) <= 16)%nat ->
  Treasury._popcount (allSubmittersBitmap (ProductionOracle.getClaimBucket w ck))
  = submissionCount (ProductionOracle.getClaimBucket w ck) /\
  submissionCount (ProductionOracle.getClaimBucket w ck)
  <= Z.of_nat (length (claimSnapshot w ck)).
Proof.
  intros Hinv Hlen. destruct (ci_bits _ _ Hinv Hlen) as [Br _ _ Bc].
  assert (Hp : 2 ^ Z.of_nat (length (claimSnapshot w ck)) <= 2 ^ 16)
    by (apply Z.pow_le_mono_r; lia).
  rewrite popcount_bitCount by (unfold fits, UINT16; lia).
  split; [done|]. rewrite <- Bc.
  rewrite (bitCount_small (length (claimSnapshot w ck)) 16) by done.
  apply bitCount_le.
Qed.

(** In every state reachable without rewiring the oracle ([reachable]), for
    every claim whose snapshot has at most 16 verifiers: the number of set
    bits of [allSubmittersBitmap] is [submissionCount], which is at most the
    number of verifiers in the snapshot. *)
Theorem submitters_bitmap_counts `{Chain} (w : World) (ck : Z) :
  reachable w ->
  (length (claimSnapshot w ck) <= 16)%nat ->
  Treasury._popcount (allSubmittersBitmap (ProductionOracle.getClaimBucket w ck))
  = submissionCount (ProductionOracle.getClaimBucket w ck) /\
  submissionCount (ProductionOracle.getClaimBucket w ck)
  <= Z.of_nat (length (claimSnapshot w ck)).
Proof.
  intros Hreach. apply bitmap_counts_submissions. by apply reachable_claimInv.
Qed.

(** An accepted submission, in a state reachable without rewiring the oracle,
    is counted once.  The signer stands at some position [n] of the claim's
    snapshot; [submissionCount] grows by one and [uint16(1 << uint8(n))] is
    or-ed into [allSubmittersBitmap] ([getVerifierIndex] returns the position
    cast to [uint8]).  With at most 16 verifiers in the snapshot that is bit
    [n], which was clear before; at a position from 16 to 255 the cast to
    [uint16] leaves no bit and the bitmap keeps its value. *)
Theorem submission_sets_one_bit `{Chain} (w w' : World) (sender now p h wh root sig : Z) :
  reachable w ->
  ProductionOracle.submitProduction w sender now p h wh root sig = Ok w' ->
  let ck := ProductionOracle.getClaimKey w p h in
  let v := ecrecover (this (oracle w)) p h wh root sig in
  let b := ProductionOracle.getClaimBucket w ck in
  let b' := ProductionOracle.getClaimBucket w' ck in
  exists n : nat,
    claimSnapshot w' ck !! n = Some v /\
    submissionCount b' = submissionCount b + 1 /\
    allSubmittersBitmap b'
    = Z.lor (allSubmittersBitmap b) (to_uint16 (Z.shiftl 1 (to_uint8 (Z.of_nat n)))) /\
    ((length (claimSnapshot w' ck) <= 16)%nat ->
       Z.testbit (allSubmittersBitmap b) (Z.of_nat n) = false /\
       allSubmittersBitmap b' = Z.lor (allSubmittersBitmap b) (2 ^ Z.of_nat n) /\
       Treasury._popcount (allSubmittersBitmap b') = submissionCount b') /\
    ((16 <= n < 256)%nat -> allSubmittersBitmap b' = allSubmittersBitmap b).
Proof.
  intros Hreach Hcall ck v b b'. pose proof (reachable_claimInv w Hreach) as Hinv.
  pose proof (reachable_registryInv w Hreach) as Hreg.
  pose proof (submitProduction_inv _ _ _ _ _ _ _ _ _ Hreg Hcall Hinv ck) as Hinv'.
  apply submitProduction_ok in Hcall. cbv zeta in Hcall. fold ck v in Hcall.
  destruct Hcall as (w1 & idx & _ & _ & Hw1 & _ & Hidx & Hnew & Hend).
  set (bit := to_uint16 (Z.shiftl 1 idx)) in *.
  set (w9 := afterSubmission w1 ck v bit wh root) in *.
  set (b1 := ProductionOracle.getClaimBucket w1 ck) in *.
  (* opening the bucket keeps the counters *)
  assert (H1 : submissionCount b1 = submissionCount b /\
               allSubmittersBitmap b1 = allSubmittersBitmap b /\ claimInv w1 ck).
  { destruct Hw1 as [[_ ->]|(Hzero & wr & id & Hsnap & _ & ->)]; [done|].
    split; [|split]; [| |by eapply openBucket_inv].
    all: unfold b1; rewrite getClaimBucket_store_eq;
      cbn [submissionCount allSubmittersBitmap ProductionOracle.openBucket];
      unfold b, ProductionOracle.getClaimBucket;
      by rewrite (proj1 (createSnapshot_oracle _ _ _ _ _ _ Hsnap)). }
  destruct H1 as (Hc1 & Ha1 & Hinv1).
  assert (Hb9 : ProductionOracle.getClaimBucket w9 ck = acceptedBucket b1 bit wh).
  { unfold w9. rewrite afterSubmission_bucket. by destruct (decide (ck = ck)). }
  (* the baseline shortcut writes none of them *)
  assert (Hb' : submissionCount b' = submissionCount b1 + 1 /\
                allSubmittersBitmap b' = Z.lor (allSubmittersBitmap b1) bit /\
                snapshotId b' = snapshotId b1 /\
                _snapshots (registry w') = _snapshots (registry w1)).
  { destruct Hend as [->|Hfin]; [unfold b'; by rewrite Hb9|].
    apply finalizeWithValue_effect in Hfin as [Hr Ho].
    unfold b'. rewrite (getClaimBucket_oracle _ _ _ Ho), Hr.
    rewrite getClaimBucket_store_eq, Hb9. done. }
  destruct Hb' as (Hc' & Ha' & Hid' & Hsn').
  assert (HS : claimSnapshot w' ck = claimSnapshot w1 ck).
  { unfold claimSnapshot, Registry.getSnapshotVerifiers. fold b' b1. by rewrite Hid', Hsn'. }
  pose proof Hidx as Hidx'.
  apply getVerifierIndex_inv in Hidx as (n & Hn & Hi). fold b1 in Hn.
  change (Registry.getSnapshotVerifiers w1 (snapshotId b1)) with (claimSnapshot w1 ck) in Hn.
  exists n. rewrite HS, Hc', Ha', Hc1, Ha1. fold bit. rewrite <- Hi. fold bit.
  split; [done|]. split; [done|]. split; [done|]. split.
  - intros Hlen. pose proof (lookup_lt_Some _ _ _ Hn) as Hlt.
    assert (Hbit : bit = 2 ^ Z.of_nat n).
    { unfold bit. rewrite Hi. replace (to_uint8 (Z.of_nat n)) with (Z.of_nat n)
        by (unfold to_uint8; rewrite Z.mod_small; lia).
      rewrite bit_of_index by lia.
      replace (Z.of_nat n <? 16) with true by (symmetry; apply Z.ltb_lt; lia). done. }
    split; [|split; [by rewrite Hbit|]].
    + destruct (ci_bits _ _ Hinv1 Hlen) as [_ Bs _ _]. fold b1 in Bs. rewrite <- Ha1.
      destruct (Z.testbit (allSubmittersBitmap b1) (Z.of_nat n)) eqn:E; [|done].
      rewrite (Bs n v Hn E) in Hnew. done.
    + rewrite <- Ha1, <- Ha', <- Hc1, <- Hc'.
      apply bitmap_counts_submissions; [done | by rewrite HS].
  - intros Hn16. assert (Hz : bit = 0); [|rewrite Hz; apply Z.lor_0_r].
    unfold bit. rewrite Hi. replace (to_uint8 (Z.of_nat n)) with (Z.of_nat n)
      by (unfold to_uint8; rewrite Z.mod_small; lia).
    rewrite bit_of_index by lia.
    replace (Z.of_nat n <? 16) with false by (symmetry; apply Z.ltb_ge; lia). done.
Qed.

(** ** Finalized claims *)

(** In every reachable state, the verified energy of a finalized claim is at
    most the largest energy submitted for it, whichever path finalized it. *)
Theorem verified_within_submitted `{Chain} (w : World) (ck : Z) :
  reachable w ->
  finalized (ProductionOracle.getClaimBucket w ck) = true ->
  verifiedEnergyWh (ProductionOracle.getClaimBucket w ck)
  <= maxSubmittedEnergyWh (ProductionOracle.getClaimBucket w ck).
Proof.
  intros Hreach Hfin. apply (ci_verified _ _ (reachable_claimInv w Hreach ck) Hfin).
Qed.

(** When [finalizeProduction], called in a state reachable without rewiring
    the oracle, finalizes a claim whose snapshot has at most 16 verifiers, the
    winning bitmap is the bitmap of the winning tally and it has at least
    [quorumRequired] bits set. *)
Theorem quorum_of_winners `{Chain} (w w' : World) (sender now p h : Z) :
  reachable w ->
  ProductionOracle.finalizeProduction w sender now p h = Ok w' ->
  let ck := ProductionOracle.getClaimKey w p h in
  let b' := ProductionOracle.getClaimBucket w' ck in
  finalized b' = true ->
  (length (claimSnapshot w ck) <= 16)%nat ->
  winningVerifierBitmap b'
  = verifierBitmap (ProductionOracle.getValueSubmissions w ck
                      (fst (ProductionOracle.findWinner w ck))) /\
  quorumRequired w ck <= Treasury._popcount (winningVerifierBitmap b').
Proof.
  intros Hreach Hcall ck b' Hfin Hlen.
  pose proof (reachable_claimInv w Hreach) as Hinv.
  rewrite finalizeProduction_unfold in Hcall. cbv zeta in Hcall. fold ck in Hcall.
  apply bind_ok in Hcall as (? & _ & Hcall).
  apply bind_ok in Hcall as (? & _ & Hcall).
  apply bind_ok in Hcall as (q & Hq & Hcall).
  apply quorumOf_inv in Hq.
  change ((Registry.getSnapshotCount w
             (snapshotId (ProductionOracle.getClaimBucket w ck))
           * quorumBps (oracle w) + 9999) / 10000)
    with (quorumRequired w ck) in Hq. subst q.
  destruct (maxTally w ck <? quorumRequired w ck) eqn:Hmax.
  { injection Hcall as <-. unfold b' in Hfin.
    change (ProductionOracle.getClaimBucket
              (emit (ClaimDisputed ck p h)
                 (ProductionOracle.storeBucket ck
                    (ProductionOracle.markDisputed
                       (ProductionOracle.getClaimBucket w ck)) w)) ck)
      with (ProductionOracle.getClaimBucket
              (ProductionOracle.storeBucket ck
                 (ProductionOracle.markDisputed
                    (ProductionOracle.getClaimBucket w ck)) w) ck) in Hfin.
    rewrite getClaimBucket_store_eq in Hfin. discriminate Hfin. }
  apply Z.ltb_ge in Hmax.
  apply finalizeWinner_ok in Hcall as [_ Ho]. fold ck in Ho.
  set (winner := fst (ProductionOracle.findWinner w ck)) in *.
  set (t := ProductionOracle.getValueSubmissions w ck winner) in *.
  assert (Hb : b' = ProductionOracle.markFinalized (energyWh t)
                      (keccakValue (energyWh t) (vsEvidenceRoot t))
                      (vsEvidenceRoot t) (verifierBitmap t)
                      (ProductionOracle.getClaimBucket w ck)).
  { unfold b'. rewrite (getClaimBucket_oracle _ _ _ Ho).
    apply getClaimBucket_store_eq. }
  rewrite Hb. cbn [winningVerifierBitmap ProductionOracle.markFinalized]. split; [done|].
  destruct (ci_bits _ _ (Hinv ck) Hlen) as [_ _ Bt _].
  destruct (Bt winner) as (Hr & _ & Hcnt). fold t in Hr, Hcnt.
  assert (Hp : 2 ^ Z.of_nat (length (claimSnapshot w ck)) <= 2 ^ 16)
    by (apply Z.pow_le_mono_r; lia).
  rewrite popcount_bitCount by (unfold fits, UINT16; lia). rewrite Hcnt.
  destruct (decide (0 < maxTally w ck)) as [Hpos|Hnon].
  - destruct (findWinner_winner w ck Hpos) as [_ Hw]. fold winner t in Hw. lia.
  - pose proof (bitCount_nonneg 16 (verifierBitmap t)). lia.
Qed.

(** [forceFinalize] succeeds only for the owner, on a disputed claim, after
    the deadline, with an energy not above the largest submitted one and an
    evidence root that was submitted.  It finalizes the claim with that energy
    and an empty winning bitmap, and leaves the Treasury and the Registry
    alone: no reward is distributed and no fault recorded. *)
Theorem forceFinalize_effect `{Chain} (w w' : World) (sender now p h wh root : Z) :
  ProductionOracle.forceFinalize w sender now p h wh root = Ok w' ->
  let ck := ProductionOracle.getClaimKey w p h in
  let b := ProductionOracle.getClaimBucket w ck in
  let b' := ProductionOracle.getClaimBucket w' ck in
  (sender = oracleOwner (oracle w) /\ disputed b = true /\ deadline b < now /\
   wh <= maxSubmittedEnergyWh b /\
   ProductionOracle.isEvidenceRootSubmitted w ck root = true) /\
  (finalized b' = true /\ disputed b' = false /\ verifiedEnergyWh b' = wh /\
   evidenceRoot b' = root /\ winningVerifierBitmap b' = 0) /\
  treasury w' = treasury w /\ registry w' = registry w.
Proof.
  intros Hcall ck b b'.
  unfold ProductionOracle.forceFinalize in Hcall. cbv zeta in Hcall. fold ck b in Hcall.
  apply bind_ok in Hcall as (? & Hown & Hcall).
  unfold ProductionOracle.onlyOwner in Hown. apply require_ok in Hown.
  apply bind_ok in Hcall as (? & Hdis & Hcall). apply require_ok in Hdis.
  apply bind_ok in Hcall as (? & Hdl & Hcall). apply require_ok in Hdl.
  apply bind_ok in Hcall as (? & Hmax & Hcall). apply require_ok in Hmax.
  apply bind_ok in Hcall as (? & Hroot & Hcall). apply require_ok in Hroot.
  apply bind_ok in Hcall as (producer & _ & Hcall).
  apply bind_ok in Hcall as (w2 & Hmint & Hcall).
  apply mint_frame in Hmint as (Hr & Ho & Ht). injection Hcall as <-.
  split; [|split; [|split]].
  - apply Z.eqb_eq in Hown. apply negb_true_iff in Hdl, Hmax.
    apply Z.leb_gt in Hdl. apply Z.ltb_ge in Hmax. done.
  - assert (Hb : b' = ProductionOracle.markFinalized wh (winningValueHash b) root 0 b).
    { unfold b', ProductionOracle.getClaimBucket. cbn [oracle emit]. rewrite Ho.
      apply (getClaimBucket_store_eq w ck). }
    by rewrite Hb.
  - cbn [treasury emit]. exact Ht.
  - cbn [registry emit]. exact Hr.
Qed.

(** ** The Registry: the set of active verifiers *)

(** In every reachable state the array of active verifiers has no duplicates,
    holds exactly the verifiers flagged active, and the 1-based index stored
    for an active verifier is its slot in the array. *)
Theorem active_set_consistent `{Chain} (w : World) :
  reachable w ->
  NoDup (Registry.getActiveVerifiers w) /\
  forall v,
    (v ∈ Registry.getActiveVerifiers w <-> active (Registry.getVerifier w v) = true) /\
    (active (Registry.getVerifier w v) = true ->
     1 <= indexOf (registry w) v <= Z.of_nat (length (Registry.getActiveVerifiers w)) /\
     Registry.getActiveVerifiers w !! Z.to_nat (indexOf (registry w) v - 1) = Some v).
Proof.
  intros Hreach. destruct (reachable_registryInv w Hreach) as [_ Hm Hix Hnd _ _].
  split; [done|]. intros v.
  change (Registry.getVerifier w v) with (verifierOf (registry w) v).
  unfold Registry.getActiveVerifiers. split.
  - split; [apply Hm|]. intros Hv. destruct (Hix v Hv) as [_ Hl].
    by eapply list_elem_of_lookup_2.
  - intros Hv. destruct (Hix v Hv) as [H1 Hl]. split; [|done].
    apply lookup_lt_Some in Hl. lia.
Qed.

(** The verifier records after [deactivateVerifier]. *)
Lemma deactivate_verifiers (w w' : World) (sender : Z) :
  Registry.deactivateVerifier w sender = Ok w' ->
  active (Registry.getVerifier w sender) = true /\
  forall u, Registry.getVerifier w' u
            = if decide (sender = u)
              then Registry.set_active false (Registry.getVerifier w sender)
              else Registry.getVerifier w u.
Proof.
  intros Hcall. unfold Registry.deactivateVerifier in Hcall. inv_ok Hcall; subst.
  all: split; [done|]; intros u; unfold Registry.getVerifier; simpl.
  all: destruct (decide (sender = u)) as [->|Hne];
    [apply sload_insert | by apply sload_insert_ne].
Qed.

(** [deactivateVerifier] never fails for an active verifier. *)
Lemma deactivate_succeeds (w : World) (sender : Z) :
  registryInv (registry w) ->
  Z.of_nat (length (_activeVerifiers (registry w))) < UINT256 ->
  active (Registry.getVerifier w sender) = true ->
  exists w', Registry.deactivateVerifier w sender = Ok w'.
Proof.
  intros [_ _ Hix _ _ _] Hlen Hact.
  change (Registry.getVerifier w sender) with (verifierOf (registry w) sender) in Hact.
  destruct (Hix sender Hact) as [H1 Hl]. unfold indexOf in *.
  pose proof (lookup_lt_Some _ _ _ Hl) as Hlt.
  unfold Registry.deactivateVerifier.
  change (Registry.getVerifier w sender) with (verifierOf (registry w) sender).
  rewrite Hact. cbn [require bind].
  set (r := registry w) in *. set (l := _activeVerifiers r) in *.
  set (ix := sload 0 (_activeVerifierIndex r) sender) in *.
  rewrite !sub_fits by lia. cbn [bind].
  destruct (negb (ix - 1 =? Z.of_nat (length l) - 1)) eqn:C.
  - apply negb_true_iff, Z.eqb_neq in C.
    destruct (lookup_lt_is_Some_2 l (Z.to_nat (Z.of_nat (length l) - 1))) as [x Hx]; [lia|].
    unfold array_get at 1. rewrite Hx. cbn [bind]. unfold array_set.
    replace (ix - 1 <? Z.of_nat (length l)) with true by (symmetry; apply Z.ltb_lt; lia).
    cbn [bind]. rewrite add_fits by lia. cbn [bind]. unfold array_pop. simpl.
    destruct (<[Z.to_nat (ix - 1) := x]> l) eqn:E; [|eauto].
    apply (f_equal length) in E. rewrite length_insert in E. simpl in E. lia.
  - cbn [bind]. unfold array_pop. simpl. fold r l. destruct l; [simpl in Hlt; lia | eauto].
Qed.

(** [deactivateVerifier] succeeds exactly for an active verifier; it removes
    the caller, and nobody else, from the set of active verifiers and keeps
    the caller's stake. *)
Theorem deactivate_removes_caller `{Chain} (w : World) (sender : Z) :
  reachable w ->
  Z.of_nat (length (Registry.getActiveVerifiers w)) < UINT256 ->
  (active (Registry.getVerifier w sender) = false ->
   Registry.deactivateVerifier w sender = Revert VerifierNotActive) /\
  (active (Registry.getVerifier w sender) = true ->
   exists w',
     Registry.deactivateVerifier w sender = Ok w' /\
     (Registry.getActiveVerifiers w ≡ₚ sender :: Registry.getActiveVerifiers w') /\
     (sender ∉ Registry.getActiveVerifiers w') /\
     active (Registry.getVerifier w' sender) = false /\
     stake (Registry.getVerifier w' sender) = stake (Registry.getVerifier w sender)).
Proof.
  intros Hreach Hlen. pose proof (reachable_registryInv w Hreach) as Hinv. split.
  - intros Hact. unfold Registry.deactivateVerifier. by rewrite Hact.
  - intros Hact. destruct (deactivate_succeeds w sender Hinv Hlen Hact) as [w' Hcall].
    exists w'. split; [done|].
    pose proof (deactivate_inv _ _ _ Hinv Hcall) as Hinv'.
    destruct (deactivate_verifiers _ _ _ Hcall) as [_ Hver].
    destruct Hinv as [_ Hm Hix Hnd _ _]. destruct Hinv' as [_ Hm' Hix' Hnd' _ _].
    assert (Hflag : forall u, active (verifierOf (registry w') u)
                    = if decide (sender = u) then false
                      else active (verifierOf (registry w) u)).
    { intros u. change (verifierOf (registry w') u) with (Registry.getVerifier w' u).
      rewrite Hver. by destruct (decide (sender = u)). }
    assert (Hnot : sender ∉ Registry.getActiveVerifiers w').
    { intros Hin. apply Hm' in Hin. rewrite Hflag in Hin.
      by destruct (decide (sender = sender)). }
    split; [|split; [done|]].
    + apply NoDup_Permutation; [done | by apply NoDup_cons|].
      intros u. rewrite elem_of_cons. unfold Registry.getActiveVerifiers. split.
      * intros Hu. destruct (decide (u = sender)) as [|Hne]; [by left|right].
        assert (Hau : active (verifierOf (registry w') u) = true).
        { rewrite Hflag. destruct (decide (sender = u)); [congruence | by apply Hm]. }
        destruct (Hix' u Hau) as [_ Hl]. by eapply list_elem_of_lookup_2.
      * intros [->|Hu].
        -- destruct (Hix sender Hact) as [_ Hl]. by eapply list_elem_of_lookup_2.
        -- apply Hm' in Hu. rewrite Hflag in Hu.
           destruct (decide (sender = u)); [done|].
           destruct (Hix u Hu) as [_ Hl]. by eapply list_elem_of_lookup_2.
    + rewrite Hver. by destruct (decide (sender = sender)).
Qed.

(** A verifier that activates and deactivates again leaves the array of
    active verifiers, its own record and its stored index as they were. *)
Theorem activate_then_deactivate (w w1 : World) (sender : Z) :
  Registry.activateVerifier w sender = Ok w1 ->
  Registry.getActiveVerifiers w1 = Registry.getActiveVerifiers w ++ [sender] /\
  active (Registry.getVerifier w1 sender) = true /\
  exists w2,
    Registry.deactivateVerifier w1 sender = Ok w2 /\
    Registry.getActiveVerifiers w2 = Registry.getActiveVerifiers w /\
    Registry.getVerifier w2 sender = Registry.getVerifier w sender /\
    indexOf (registry w2) sender = 0.
Proof.
  intros Hcall. unfold Registry.activateVerifier in Hcall. inv_ok Hcall. subst w1.
  apply negb_true_iff in E.
  set (v := Registry.getVerifier w sender) in *.
  split; [reflexivity|]. split.
  { unfold Registry.getVerifier. simpl. by rewrite sload_insert. }
  unfold Registry.deactivateVerifier.
  set (w1 := emit _ _).
  assert (Hv1 : Registry.getVerifier w1 sender = Registry.set_active true v).
  { unfold Registry.getVerifier, w1. simpl. by rewrite sload_insert. }
  rewrite Hv1. cbn [active Registry.set_active require bind].
  assert (Hix : sload 0 (_activeVerifierIndex (registry w1)) sender
                = Z.of_nat (length (_activeVerifiers (registry w) ++ [sender])))
    by (unfold w1; simpl; by rewrite sload_insert).
  assert (Hl1 : _activeVerifiers (registry w1) = _activeVerifiers (registry w) ++ [sender])
    by reflexivity.
  rewrite Hix, Hl1. rewrite length_app. simpl length.
  rewrite !sub_fits by lia. cbn [bind]. rewrite Z.eqb_refl. cbn [negb bind].
  unfold array_pop. simpl.
  destruct (_activeVerifiers (registry w) ++ [sender]) as [|a l] eqn:El.
  { by apply app_eq_nil in El as [_ ?]. }
  eexists. split; [reflexivity|]. rewrite <- El.
  unfold Registry.getActiveVerifiers, Registry.getVerifier, indexOf. simpl.
  rewrite length_app. simpl.
  replace (length (_activeVerifiers (registry w)) + 1 - 1)%nat
    with (length (_activeVerifiers (registry w))) by lia.
  rewrite take_app_length, sload_insert, sload_delete.
  split; [done|]. split; [|done]. destruct v as [s f a0 al]. simpl in *. by subst.
Qed.


(** ** The Registry keeps its records *)

Lemma recordsKept_refl (w : World) : recordsKept w w.
Proof. by repeat split. Qed.

Lemma recordsKept_trans (w1 w2 w3 : World) :
  recordsKept w1 w2 -> recordsKept w2 w3 -> recordsKept w1 w3.
Proof.
  intros (Hs1 & Hp1 & Hc1) (Hs2 & Hp2 & Hc2). split; [|split].
  - intros s Hs. by apply Hs2, Hs1.
  - intros id p Hp. by apply Hp2, Hp1.
  - intros ck Hck. rewrite Hc2; [by apply Hc1|]. by rewrite Hc1.
Qed.

Lemma recordsKept_same (w w' : World) :
  registryRecords w' = registryRecords w -> recordsKept w w'.
Proof.
  unfold registryRecords. intros [= Hp Hs Hc].
  unfold recordsKept, Registry.getProducer, Registry.getSnapshotId.
  rewrite Hp, Hs, Hc. by repeat split.
Qed.

Lemma slash_internal_records (w w' : World) (v : Z) :
  Treasury._slash w v = Ok w' -> registryRecords w' = registryRecords w.
Proof.
  intros Hc. unfold Treasury._slash in Hc. cbv zeta in Hc.
  apply bind_ok in Hc as (product & _ & Hc).
  apply bind_ok in Hc as (w3 & Hw3 & Hc). injection Hc as <-.
  destruct (0 <? _).
  - apply bind_ok in Hw3 as (w2 & Hred & Hw3).
    rewrite reduceStake_ok in Hred. injection Hred as <-.
    apply bind_ok in Hw3 as (pool & _ & Hw3). by injection Hw3 as <-.
  - by injection Hw3 as <-.
Qed.

Lemma countFault_records (w w' : World) (v : Z) (t : FaultType) :
  Treasury.countFault w v t = Ok w' -> registryRecords w' = registryRecords w.
Proof.
  intros Hc. unfold Treasury.countFault in Hc.
  apply bind_ok in Hc as (f & _ & Hc). cbv zeta in Hc.
  match type of Hc with (if ?c then _ else _) = _ => destruct c end.
  - by apply slash_internal_records in Hc.
  - by injection Hc as <-.
Qed.

Lemma faultLoop_records (b : Z) (t : FaultType) (vs : list Z) (i : Z) (w w' : World) :
  Treasury.faultLoop b t i vs w = Ok w' -> registryRecords w' = registryRecords w.
Proof.
  revert i w. induction vs as [|v vs IH]; intros i w Hc; simpl in Hc.
  - by injection Hc as <-.
  - destruct (i <? 16); [|by injection Hc as <-].
    destruct (Treasury.bitSet b i); [|by eapply IH].
    apply bind_ok in Hc as (w1 & Hcount & Hc).
    apply countFault_records in Hcount. apply IH in Hc. congruence.
Qed.

Lemma recordFaults_records (w w' : World) (sender b id : Z) (t : FaultType) :
  Treasury.recordFaults w sender b id t = Ok w' -> registryRecords w' = registryRecords w.
Proof.
  intros Hc. unfold Treasury.recordFaults in Hc. inv_ok Hc.
  - by subst.
  - by eapply faultLoop_records.
Qed.

Lemma finalizeWithValue_records `{Chain} (w w' : World) (ck p h wh root b : Z) :
  ProductionOracle._finalizeWithValue w ck p h wh root b = Ok w' ->
  registryRecords w' = registryRecords w.
Proof.
  intros Hc. apply finalizeWithValue_effect in Hc as [Hr _].
  unfold registryRecords. by rewrite Hr.
Qed.

Lemma createSnapshot_records (w w' : World) (sender now ck id : Z) :
  Registry.createSnapshot w sender now ck = Ok (w', id) -> recordsKept w w'.
Proof.
  intros Hc. unfold Registry.createSnapshot in Hc. inv_ok Hc. simplify_eq.
  apply Z.eqb_eq in E0.
  unfold recordsKept, Registry.getProducer, Registry.getSnapshotId. simpl.
  split; [done|]. split; [done|].
  intros ck' Hck'. apply sload_insert_ne. intros ->. done.
Qed.

Lemma registerProducer_records `{Chain} (w w' : World) (sender now s m pay id : Z) :
  Registry.registerProducer w sender now s m pay = Ok (w', id) -> recordsKept w w'.
Proof.
  intros Hc. unfold Registry.registerProducer in Hc. inv_ok Hc. simplify_eq.
  apply Z.eqb_eq in E1.
  unfold recordsKept, Registry.getProducer, Registry.getSnapshotId. simpl.
  split; [|split; [|done]].
  - intros s' Hs'. destruct (decide (s = s')) as [->|Hne];
      [apply sload_insert | by rewrite sload_insert_ne].
  - intros id' p Hp.
    destruct (decide (keccakProducerId sender s now = id')) as [<-|Hne];
      [|by rewrite sload_insert_ne].
    rewrite E1 in Hp. discriminate Hp.
Qed.

(** No call loses a record of the Registry. *)
Lemma exec_records `{Chain} (w w' : World) (sender now : Z) (c : Call) :
  exec w sender now c = Ok w' -> recordsKept w w'.
Proof.
  intros Hc. destruct c; simpl in Hc.
  - apply bind_ok in Hc as ([w1 id] & Hreg & Hc). injection Hc as <-.
    by eapply registerProducer_records.
  - unfold Registry.stakeAsVerifier in Hc. inv_ok Hc. subst. by apply recordsKept_same.
  - unfold Registry.unstake in Hc. inv_ok Hc. subst. by apply recordsKept_same.
  - unfold Registry.activateVerifier in Hc. inv_ok Hc. subst. by apply recordsKept_same.
  - unfold Registry.deactivateVerifier in Hc. inv_ok Hc; subst; by apply recordsKept_same.
  - unfold Registry.addToAllowlist in Hc. inv_ok Hc. subst. by apply recordsKept_same.
  - unfold Registry.removeFromAllowlist in Hc. inv_ok Hc. subst. by apply recordsKept_same.
  - unfold Registry.setPermissionedMode in Hc. inv_ok Hc. subst. by apply recordsKept_same.
  - unfold Registry.setQuorumBps in Hc. inv_ok Hc. subst. by apply recordsKept_same.
  - unfold Registry.setClaimWindow in Hc. inv_ok Hc. subst. by apply recordsKept_same.
  - unfold Registry.setMinStake in Hc. inv_ok Hc. subst. by apply recordsKept_same.
  - unfold Registry.setProductionOracle in Hc. inv_ok Hc. subst. by apply recordsKept_same.
  - unfold Registry.setConsumptionOracle in Hc. inv_ok Hc. subst. by apply recordsKept_same.
  - apply bind_ok in Hc as ([w1 id] & Hsnap & Hc). injection Hc as <-.
    by eapply createSnapshot_records.
  - unfold Registry.incrementFaults in Hc. inv_ok Hc. subst. by apply recordsKept_same.
  - rewrite reduceStake_ok in Hc. injection Hc as <-. by apply recordsKept_same.
  - apply distributeRewards_frame in Hc as (Hr & _). apply recordsKept_same.
    unfold registryRecords. by rewrite Hr.
  - unfold Treasury.claimRewards in Hc. inv_ok Hc. subst. by apply recordsKept_same.
  - unfold Treasury.recordFault in Hc. inv_ok Hc.
    apply recordsKept_same. by eapply countFault_records.
  - apply recordsKept_same. by eapply recordFaults_records.
  - unfold Treasury.slash in Hc. inv_ok Hc.
    + subst. apply recordsKept_refl.
    + apply recordsKept_same. by eapply slash_internal_records.
  - unfold Treasury.deposit in Hc. inv_ok Hc. subst. by apply recordsKept_same.
  - unfold Treasury.withdraw in Hc. inv_ok Hc. subst. by apply recordsKept_same.
  - unfold Treasury.setProductionOracle in Hc. inv_ok Hc. subst. by apply recordsKept_same.
  - unfold Treasury.setConsumptionOracle in Hc. inv_ok Hc. subst. by apply recordsKept_same.
  - unfold Treasury.setDisableSlashing in Hc. inv_ok Hc. subst. by apply recordsKept_same.
  - unfold Treasury.setRewardPerWhWei in Hc. inv_ok Hc. subst. by apply recordsKept_same.
  - unfold Treasury.setSlashBps in Hc. inv_ok Hc. subst. by apply recordsKept_same.
  - unfold Treasury.setFaultThreshold in Hc. inv_ok Hc. subst. by apply recordsKept_same.
  - apply mint_frame in Hc as (Hr & _). apply recordsKept_same.
    unfold registryRecords. by rewrite Hr.
  - unfold HourlyCredits.setProductionOracle in Hc. inv_ok Hc. subst.
    by apply recordsKept_same.
  - apply submitProduction_ok in Hc. cbv zeta in Hc.
    destruct Hc as (w1 & idx & _ & _ & Hw1 & _ & _ & _ & Hend).
    assert (H1 : recordsKept w w1).
    { destruct Hw1 as [[_ ->]|(_ & wr & id & Hsnap & _ & ->)]; [apply recordsKept_refl|].
      eapply recordsKept_trans; [by eapply createSnapshot_records|].
      by apply recordsKept_same. }
    eapply recordsKept_trans; [exact H1|].
    destruct Hend as [->|Hfv].
    + by apply recordsKept_same.
    + apply recordsKept_same. by apply finalizeWithValue_records in Hfv.
  - rewrite finalizeProduction_unfold in Hc. cbv zeta in Hc.
    apply bind_ok in Hc as (? & _ & Hc).
    apply bind_ok in Hc as (? & _ & Hc).
    apply bind_ok in Hc as (q & _ & Hc).
    match type of Hc with (if ?c then _ else _) = _ => destruct c end.
    + injection Hc as <-. by apply recordsKept_same.
    + unfold finalizeWinner in Hc. cbv zeta in Hc.
      apply bind_ok in Hc as (w1 & Hfv & Hc). apply finalizeWithValue_records in Hfv.
      apply recordsKept_same.
      match type of Hc with (if ?c then _ else _) = _ => destruct c end.
      * apply recordFaults_records in Hc. congruence.
      * by injection Hc as <-.
  - apply forceFinalize_registry in Hc. apply recordsKept_same.
    unfold registryRecords. by rewrite Hc.
  - unfold ProductionOracle.setBaselineMode in Hc. inv_ok Hc. subst. by apply recordsKept_same.
  - unfold ProductionOracle.setSingleVerifierOverride in Hc. inv_ok Hc. subst.
    by apply recordsKept_same.
  - unfold ProductionOracle.setClaimWindow in Hc. inv_ok Hc. subst. by apply recordsKept_same.
  - unfold ProductionOracle.setQuorumBps in Hc. inv_ok Hc. subst. by apply recordsKept_same.
Qed.

(** ... and so does no sequence of transactions, reverted ones included. *)
Lemma transactAll_records `{Chain} (txs : list Tx) (w : World) :
  recordsKept w (transactAll w txs).
Proof.
  revert w. induction txs as [|[[s n] c] txs IH]; intros w; [apply recordsKept_refl|].
  change (transactAll w ((s, n, c) :: txs)) with (transactAll (transact w s n c) txs).
  eapply recordsKept_trans; [|apply IH].
  destruct (transact_cases w s n c) as [->|Hex]; [apply recordsKept_refl|].
  by eapply exec_records.
Qed.

(** ** The Registry: stakes, producers and snapshots *)

(** Staking an amount and unstaking it again (while inactive) restores every
    verifier record; an active verifier cannot unstake at all. *)
Theorem stake_then_unstake `{Chain} (w w1 : World) (sender amount : Z) :
  reachable w ->
  Registry.stakeAsVerifier w sender amount true = Ok w1 ->
  stake (Registry.getVerifier w1 sender) = stake (Registry.getVerifier w sender) + amount /\
  (active (Registry.getVerifier w sender) = true ->
   Registry.unstake w1 sender amount true = Revert VerifierAlreadyActive) /\
  (active (Registry.getVerifier w sender) = false ->
   exists w2,
     Registry.unstake w1 sender amount true = Ok w2 /\
     forall u, Registry.getVerifier w2 u = Registry.getVerifier w u).
Proof.
  intros Hreach Hcall. pose proof (ri_stake _ (reachable_registryInv w Hreach) sender) as Hst.
  change (verifierOf (registry w) sender) with (Registry.getVerifier w sender) in Hst.
  unfold Registry.stakeAsVerifier in Hcall. inv_ok Hcall. subst.
  set (v := Registry.getVerifier w sender) in *.
  set (w1 := emit _ _).
  assert (Hv1 : Registry.getVerifier w1 sender = Registry.set_stake (stake v + amount) v).
  { unfold Registry.getVerifier, w1. simpl. by rewrite sload_insert. }
  rewrite Hv1. split; [done|].
  unfold Registry.unstake. rewrite E, Hv1. cbn [require bind active stake Registry.set_stake].
  split.
  - intros Hact. by rewrite Hact.
  - intros Hact. rewrite Hact. cbn [negb require bind].
    assert (Hle : amount <= stake v + amount) by (clearbody v w1; lia).
    apply Z.ltb_ge in Hle. rewrite Hle.
    cbn [negb require bind]. rewrite sub_fits by (clearbody v w1; lia). cbn [bind].
    eexists. split; [reflexivity|]. intros u.
    unfold Registry.getVerifier, w1. simpl. rewrite insert_insert_eq.
    destruct (decide (sender = u)) as [<-|Hne].
    + rewrite sload_insert. fold (Registry.getVerifier w sender). fold v.
      destruct v as [s f a al]. unfold Registry.set_stake. simpl. f_equal. lia.
    + by rewrite sload_insert_ne.
Qed.

(** A registered producer can be read back under the returned id with the
    data it was registered with, and producers registered before are
    unchanged.  This lasts: after any further transactions the producer still
    reads the same, and the same system id cannot be registered a second
    time, by anybody. *)
Theorem registerProducer_then_getProducer `{Chain} (w w' : World)
    (sender now systemIdHash metaHash payoutAddr id : Z) :
  sender <> 0 ->
  Registry.registerProducer w sender now systemIdHash metaHash payoutAddr = Ok (w', id) ->
  id = keccakProducerId sender systemIdHash now /\
  payoutAddr <> 0 /\
  Registry.getProducer w id = Revert ProducerNotFound /\
  Registry.getProducer w' id
  = Ok (mkProducer id systemIdHash metaHash payoutAddr sender true) /\
  (forall id', id' <> id -> Registry.getProducer w' id' = Registry.getProducer w id') /\
  (forall txs : list Tx,
     let w2 := transactAll w' txs in
     Registry.getProducer w2 id
     = Ok (mkProducer id systemIdHash metaHash payoutAddr sender true) /\
     forall sender' now' metaHash' payoutAddr',
       payoutAddr' <> 0 ->
       Registry.registerProducer w2 sender' now' systemIdHash metaHash' payoutAddr'
       = Revert SystemAlreadyRegistered).
Proof.
  intros Hsender Hcall. unfold Registry.registerProducer in Hcall. inv_ok Hcall.
  subst w' id. split; [done|].
  apply negb_true_iff, Z.eqb_neq in E. split; [done|].
  apply Z.eqb_eq in E1. split.
  { unfold Registry.getProducer. cbv zeta. rewrite E1. reflexivity. }
  split; [|split].
  - unfold Registry.getProducer. simpl. rewrite sload_insert. simpl.
    replace (sender =? 0) with false by (symmetry; by apply Z.eqb_neq). reflexivity.
  - intros id' Hne. unfold Registry.getProducer. simpl. by rewrite sload_insert_ne.
  - intros txs w2.
    destruct (transactAll_records txs
                (emit (ProducerRegistered (keccakProducerId sender systemIdHash now)
                         systemIdHash sender metaHash payoutAddr)
                   (setRegistryState
                      (Registry.set_systemIdRegistered
                         (<[systemIdHash := true]> (_systemIdRegistered (registry w)))
                         (Registry.set_producers
                            (<[keccakProducerId sender systemIdHash now :=
                                 mkProducer (keccakProducerId sender systemIdHash now)
                                   systemIdHash metaHash payoutAddr sender true]>
                               (_producers (registry w))) (registry w))) w)))
      as (Hsys & Hprod & _).
    fold w2 in Hsys, Hprod. split.
    + apply Hprod. unfold Registry.getProducer. simpl. rewrite sload_insert. simpl.
      replace (sender =? 0) with false by (symmetry; by apply Z.eqb_neq). reflexivity.
    + intros sender' now' metaHash' payoutAddr' Hp.
      unfold Registry.registerProducer. cbv zeta.
      replace (payoutAddr' =? 0) with false by (symmetry; by apply Z.eqb_neq).
      cbn [negb require bind].
      rewrite (Hsys systemIdHash); [reflexivity|]. simpl. apply sload_insert.
Qed.

(** No transaction rewrites a snapshot: the verifiers recorded under an id
    that has been handed out stay the same, and ids are never reused. *)
Theorem snapshots_are_immutable `{Chain} (w : World) (sender now : Z) (c : Call) (id : Z) :
  wellTyped c ->
  id < _nextSnapshotId (registry w) ->
  Registry.getSnapshotVerifiers (transact w sender now c) id
  = Registry.getSnapshotVerifiers w id /\
  _nextSnapshotId (registry w) <= _nextSnapshotId (registry (transact w sender now c)).
Proof.
  intros Hwt Hid.
  destruct (transact_cases w sender now c) as [->|Hex]; [split; [done|lia]|].
  apply exec_registry in Hex; [|done].
  destruct (regSteps_snapshots _ _ Hex) as [Hn Hs]. split; [|done].
  unfold Registry.getSnapshotVerifiers, sload. by rewrite Hs.
Qed.

(** A snapshot is created once per claim key: the call hands out the next id
    (at least 1) and stores the sorted, non-empty set of active verifiers
    under it.  After any further transactions the claim key still maps to
    that id, and every [createSnapshot] for the same claim key fails. *)
Theorem createSnapshot_once `{Chain} (w w' : World) (sender now claimKey id : Z) :
  reachable w ->
  Registry.createSnapshot w sender now claimKey = Ok (w', id) ->
  1 <= id /\ id = _nextSnapshotId (registry w) /\
  _nextSnapshotId (registry w') = id + 1 /\
  Registry.getSnapshotId w claimKey = 0 /\
  Registry.getSnapshotId w' claimKey = id /\
  0 < Registry.getSnapshotCount w' id /\
  Registry.getSnapshotVerifiers w' id
  = Registry._sortAddresses (Registry.getActiveVerifiers w) /\
  forall txs : list Tx,
    let w2 := transactAll w' txs in
    Registry.getSnapshotId w2 claimKey = id /\
    forall sender' now',
      Registry.createSnapshot w2 sender' now' claimKey = Revert OnlyAuthorizedOracle \/
      Registry.createSnapshot w2 sender' now' claimKey = Revert SnapshotAlreadyExists.
Proof.
  intros Hreach Hcall. pose proof (ri_next _ (reachable_registryInv w Hreach)) as Hnext.
  pose proof (createSnapshot_stores _ _ _ _ _ _ Hcall) as Hstore.
  pose proof (createSnapshot_next _ _ _ _ _ _ Hcall) as Hnx.
  assert (Hlater : forall txs : list Tx,
            Registry.getSnapshotId w' claimKey <> 0 ->
            Registry.getSnapshotId (transactAll w' txs) claimKey
            = Registry.getSnapshotId w' claimKey).
  { intros txs. apply (transactAll_records txs w'). }
  unfold Registry.createSnapshot in Hcall. inv_ok Hcall. subst w' id.
  apply Z.eqb_eq in E0. apply negb_true_iff, Z.eqb_neq in E1.
  split; [done|]. split; [done|]. split; [done|]. split; [done|].
  split; [unfold Registry.getSnapshotId; simpl; by rewrite sload_insert|].
  split.
  { unfold Registry.getSnapshotCount. rewrite Hstore.
    destruct (sortAddresses_sorted (_activeVerifiers (registry w))) as (_ & Hlen & _).
    rewrite Hlen. lia. }
  split; [done|].
  intros txs w2.
  assert (Hid : Registry.getSnapshotId w2 claimKey = _nextSnapshotId (registry w)).
  { unfold w2. rewrite Hlater; unfold Registry.getSnapshotId; simpl;
      rewrite sload_insert; [done | lia]. }
  split; [exact Hid|].
  intros sender' now'. unfold Registry.createSnapshot, Registry.onlyAuthorizedOracle.
  destruct ((sender' =? _) || (sender' =? _)); [right | by left].
  cbn [require bind]. unfold Registry.getSnapshotId in Hid. rewrite Hid.
  replace (_nextSnapshotId (registry w) =? 0) with false
    by (symmetry; apply Z.eqb_neq; lia).
  reflexivity.
Qed.

(** [_sortAddresses] returns its input in ascending order: the result is a
    permutation of the input in which no element is followed by a smaller
    one. *)
Theorem sortAddresses_ascending (arr : list Z) :
  Registry._sortAddresses arr ≡ₚ arr /\
  length (Registry._sortAddresses arr) = length arr /\
  forall (i j : nat) (x y : Z),
    (i < j)%nat ->
    Registry._sortAddresses arr !! i = Some x ->
    Registry._sortAddresses arr !! j = Some y -> x <= y.
Proof.
  destruct (sortAddresses_sorted arr) as (Hasc & Hlen & Hperm).
  split; [done|]. split; [done|]. exact Hasc.
Qed.

(** ** The Treasury *)

Lemma bitCount_filter (n k : nat) (b : Z) :
  bitCount n (Z.shiftr b (Z.of_nat k))
  = Z.of_nat (length (filter (fun i : nat => Z.testbit b (Z.of_nat i) = true) (seq k n))).
Proof.
  revert k. induction n as [|n IH]; intros k; [done|].
  rewrite bitCount_shift, Z.shiftr_shiftr by lia.
  replace (Z.of_nat k + 1) with (Z.of_nat (S k)) by lia. rewrite IH.
  rewrite Z.shiftr_spec by lia. rewrite Z.add_0_l.
  cbn [seq]. destruct (Z.testbit b (Z.of_nat k)) eqn:E.
  - rewrite filter_cons_True by done. cbn [length]. lia.
  - rewrite filter_cons_False by congruence. lia.
Qed.

(** [_popcount] returns the number of set bits of its 16-bit argument. *)
Theorem popcount_counts_bits (bitmap : Z) :
  fits UINT16 bitmap ->
  Treasury._popcount bitmap = Z.of_nat (length (setBits 16 bitmap)) /\
  0 <= Treasury._popcount bitmap <= 16 /\
  (Treasury._popcount bitmap = 0 <-> bitmap = 0).
Proof.
  intros Hb. rewrite popcount_bitCount by done.
  pose proof (bitCount_filter 16 0 bitmap) as Hf. rewrite Z.shiftr_0_r in Hf.
  split; [exact Hf|]. split.
  { split; [apply bitCount_nonneg | apply (bitCount_le 16)]. }
  split.
  - intros Hz. rewrite Hf in Hz. apply Z.bits_inj_0. intros i.
    destruct (Z.testbit bitmap i) eqn:E; [exfalso|done].
    assert (0 <= i < 16).
    { destruct (Z.le_gt_cases 0 i) as [Hi|Hi]; [|by rewrite Z.testbit_neg_r in E].
      destruct (Z.lt_ge_cases i 16) as [|Hge]; [lia|].
      unfold fits, UINT16 in Hb. rewrite Z.bits_above_log2 in E; [done | lia |].
      destruct (decide (bitmap = 0)) as [->|]; [simpl; lia|].
      assert (2 ^ 16 <= 2 ^ i) by (apply Z.pow_le_mono_r; lia).
      apply Z.log2_lt_pow2; lia. }
    assert (Hin : Z.to_nat i ∈ setBits 16 bitmap).
    { apply list_elem_of_filter. rewrite Z2Nat.id by lia. split; [done|].
      apply elem_of_seq. lia. }
    unfold setBits in Hin. destruct (filter _ _); [by apply elem_of_nil in Hin | done].
  - intros ->. apply bitCount_zero.
Qed.

(** *** The sum of the pending rewards *)

Lemma totalPending_insert (m : gmap Z Z) (v p : Z) :
  map_fold (fun _ x acc => x + acc) 0 (<[v := p]> m)
  = map_fold (fun _ x acc => x + acc) 0 m - sload 0 m v + p.
Proof.
  assert (Hcomm : forall (j1 j2 : Z) (z1 z2 y : Z), z1 + (z2 + y) = z2 + (z1 + y))
    by (intros; lia).
  rewrite <- insert_delete_eq.
  rewrite (map_fold_insert_L (fun _ x acc => x + acc)); [|auto|apply lookup_delete_eq].
  unfold sload. destruct (m !! v) as [x|] eqn:E; simpl.
  - rewrite (map_fold_delete_L (fun _ x acc => x + acc) 0 v x m); [lia|auto|done].
  - rewrite delete_id by done. lia.
Qed.

Lemma rewardLoop_total (b r : Z) (vs : list Z) (i : Z) (pending : gmap Z Z) (d : Z)
    (res : gmap Z Z * Z) :
  Treasury.rewardLoop b r i vs pending d = Ok res ->
  map_fold (fun _ x acc => x + acc) 0 (fst res) - snd res
  = map_fold (fun _ x acc => x + acc) 0 pending - d.
Proof.
  revert i pending d. induction vs as [|v vs IH]; intros i pending d Hc; simpl in Hc.
  - by injection Hc as <-.
  - destruct (i <? 16); [|by injection Hc as <-].
    destruct (Treasury.bitSet b i); [|by eapply IH].
    apply bind_ok in Hc as (p & Hp & Hc). apply add_ok in Hp as [-> _].
    apply bind_ok in Hc as (d' & Hd & Hc). apply add_ok in Hd as [-> _].
    apply IH in Hc. rewrite Hc, totalPending_insert. lia.
Qed.

(** [distributeRewards] creates no tokens and loses none: what leaves the
    reward pool is what the pending rewards gain. *)
Theorem distributeRewards_conserves (w w' : World) (sender winnerBitmap snapshotId wh : Z) :
  Treasury.distributeRewards w sender winnerBitmap snapshotId wh = Ok w' ->
  rewardPool (treasury w') + totalPending w' = rewardPool (treasury w) + totalPending w.
Proof.
  intros Hc. unfold Treasury.distributeRewards in Hc.
  apply bind_ok in Hc as (? & _ & Hc).
  destruct (Treasury._popcount winnerBitmap =? 0); [by injection Hc as <-|].
  apply bind_ok in Hc as (total & _ & Hc).
  destruct (total =? 0); [by injection Hc as <-|].
  apply bind_ok in Hc as (? & _ & Hc).
  apply bind_ok in Hc as (res & Hloop & Hc).
  apply bind_ok in Hc as (pool & Hpool & Hc). apply sub_ok in Hpool as [-> _].
  injection Hc as <-. apply rewardLoop_total in Hloop.
  unfold totalPending. simpl. lia.
Qed.

(** ** Access control *)

(** A call reserved to an owner, made by anybody else, reverts with
    [OwnableUnauthorizedAccount] and changes nothing. *)
Theorem only_owner `{Chain} (w : World) (sender now : Z) (c : Call) (owner : Z) :
  ownerOf w c = Some owner -> sender <> owner ->
  exec w sender now c = Revert OwnableUnauthorizedAccount /\
  transact w sender now c = w.
Proof.
  intros Hown Hne.
  assert (Hrev : exec w sender now c = Revert OwnableUnauthorizedAccount).
  { apply Z.eqb_neq in Hne.
    destruct c; try discriminate Hown; injection Hown as <-; simpl;
      unfold Registry.addToAllowlist, Registry.removeFromAllowlist,
        Registry.setPermissionedMode, Registry.setQuorumBps, Registry.setClaimWindow,
        Registry.setMinStake, Registry.setProductionOracle,
        Registry.setConsumptionOracle, Registry.onlyOwner,
        Treasury.withdraw, Treasury.setProductionOracle, Treasury.setConsumptionOracle,
        Treasury.setDisableSlashing, Treasury.setRewardPerWhWei, Treasury.setSlashBps,
        Treasury.setFaultThreshold, Treasury.onlyOwner,
        HourlyCredits.setProductionOracle,
        ProductionOracle.forceFinalize, ProductionOracle.setBaselineMode,
        ProductionOracle.setSingleVerifierOverride, ProductionOracle.setClaimWindow,
        ProductionOracle.setQuorumBps, ProductionOracle.onlyOwner;
      by rewrite Hne. }
  split; [done|]. unfold transact. by rewrite Hrev.
Qed.

(** A call reserved to the oracles, made by an address that is not one,
    reverts and changes nothing. *)
Theorem only_oracle `{Chain} (w : World) (sender now : Z) (c : Call) :
  oracleMay w sender c = Some false ->
  (exec w sender now c = Revert OnlyAuthorizedOracle \/
   exec w sender now c = Revert OnlyProductionOracle) /\
  transact w sender now c = w.
Proof.
  intros Hmay.
  assert (Hrev : exec w sender now c = Revert OnlyAuthorizedOracle \/
                 exec w sender now c = Revert OnlyProductionOracle).
  { destruct c; try discriminate Hmay; injection Hmay as Hmay; simpl;
      unfold Registry.createSnapshot, Registry.onlyAuthorizedOracle,
        Treasury.distributeRewards, Treasury.recordFault, Treasury.recordFaults,
        Treasury.onlyAuthorizedOracle, HourlyCredits.mint;
      rewrite Hmay; auto. }
  split; [done|]. unfold transact. by destruct Hrev as [-> | ->].
Qed.

(** ** The Treasury: claims, deposits and withdrawals *)

(** [claimRewards] pays the caller's pending rewards once: the pending amount
    was not zero and is zero afterwards, nobody else's pending rewards and
    not the reward pool change, and a second claim fails with [ZeroAmount]. *)
Theorem claimRewards_pays_once (w w' : World) (sender : Z) (tokenOk : bool) :
  Treasury.claimRewards w sender tokenOk = Ok w' ->
  tokenOk = true /\
  Treasury.getPendingRewards w sender <> 0 /\
  Treasury.getPendingRewards w' sender = 0 /\
  (forall v, v <> sender ->
     Treasury.getPendingRewards w' v = Treasury.getPendingRewards w v) /\
  totalPending w' = totalPending w - Treasury.getPendingRewards w sender /\
  rewardPool (treasury w') = rewardPool (treasury w) /\
  forall ok, Treasury.claimRewards w' sender ok = Revert ZeroAmount.
Proof.
  intros Hc. unfold Treasury.claimRewards in Hc. inv_ok Hc. subst.
  apply negb_true_iff, Z.eqb_neq in E.
  split; [done|]. split; [done|].
  unfold Treasury.getPendingRewards, totalPending, Treasury.claimRewards. simpl.
  rewrite sload_insert. split; [done|]. split.
  { intros v Hne. by rewrite sload_insert_ne. }
  split; [rewrite totalPending_insert; lia|]. split; [done|]. done.
Qed.

(** A deposit raises the reward pool by the amount; the owner can withdraw
    the same amount again, which restores the pool and touches no pending
    reward, and nobody can withdraw more than the pool holds. *)
Theorem deposit_then_withdraw (w w1 : World) (sender amount : Z) (tokenOk : bool) :
  0 <= rewardPool (treasury w) -> 0 <= amount ->
  Treasury.deposit w sender amount tokenOk = Ok w1 ->
  rewardPool (treasury w1) = rewardPool (treasury w) + amount /\
  (forall caller a ok, rewardPool (treasury w1) < a ->
     Treasury.withdraw w1 caller a ok = Revert OwnableUnauthorizedAccount \/
     Treasury.withdraw w1 caller a ok = Revert InsufficientPoolBalance) /\
  exists w2,
    Treasury.withdraw w1 (treasuryOwner (treasury w)) amount true = Ok w2 /\
    rewardPool (treasury w2) = rewardPool (treasury w) /\
    pendingRewards (treasury w2) = pendingRewards (treasury w).
Proof.
  intros Hpool Hamount Hc. unfold Treasury.deposit in Hc. inv_ok Hc. subst.
  split; [done|]. split.
  - intros caller a ok Ha. unfold Treasury.withdraw, Treasury.onlyOwner. simpl in *.
    destruct (caller =? treasuryOwner (treasury w)); [right | by left].
    cbn [require bind].
    replace (a =? 0) with false by (symmetry; apply Z.eqb_neq; lia). cbn [negb require bind].
    replace (rewardPool (treasury w) + amount <? a) with true
      by (symmetry; apply Z.ltb_lt; lia).
    reflexivity.
  - unfold Treasury.withdraw, Treasury.onlyOwner. simpl.
    rewrite Z.eqb_refl. cbn [require bind]. rewrite E. cbn [require bind].
    replace (rewardPool (treasury w) + amount <? amount) with false
      by (symmetry; apply Z.ltb_ge; lia).
    cbn [negb require bind]. rewrite sub_fits by lia. cbn [require bind].
    eexists. split; [reflexivity|]. simpl. split; [lia | done].
Qed.

(** ** The life of a claim *)

Lemma exec_keeps_claims `{Chain} (w w' : World) (sender now : Z) (c : Call) :
  wellTyped c -> claimCall c = false -> exec w sender now c = Ok w' ->
  _claimBuckets (oracle w') = _claimBuckets (oracle w) /\
  _hasSubmitted (oracle w') = _hasSubmitted (oracle w).
Proof.
  intros Hwt Hcc Hexec. destruct (oracleCall c) eqn:Hoc.
  2:{ destruct (exec_outside _ _ _ _ _ Hoc Hwt Hexec) as [_ Ho]. by rewrite Ho. }
  destruct c; try discriminate Hoc; try discriminate Hcc; simpl in Hexec.
  - unfold ProductionOracle.setBaselineMode in Hexec. inv_ok Hexec. by subst.
  - unfold ProductionOracle.setSingleVerifierOverride in Hexec. inv_ok Hexec. by subst.
  - unfold ProductionOracle.setClaimWindow in Hexec. inv_ok Hexec. by subst.
  - unfold ProductionOracle.setQuorumBps in Hexec. inv_ok Hexec. by subst.
Qed.

Lemma hasSubmitted_oracle (w w' : World) (ck v : Z) :
  _hasSubmitted (oracle w') = _hasSubmitted (oracle w) ->
  ProductionOracle.hasSubmitted w' ck v = ProductionOracle.hasSubmitted w ck v.
Proof. intros Ho. unfold ProductionOracle.hasSubmitted. by rewrite Ho. Qed.

Lemma getClaimBucket_buckets (w w' : World) (ck : Z) :
  _claimBuckets (oracle w') = _claimBuckets (oracle w) ->
  ProductionOracle.getClaimBucket w' ck = ProductionOracle.getClaimBucket w ck.
Proof. intros Ho. unfold ProductionOracle.getClaimBucket. by rewrite Ho. Qed.

(** What a successful [submitProduction] writes, per claim key. *)
Lemma submitProduction_claims `{Chain} (w w' : World) (sender now p h wh root sig : Z) :
  ProductionOracle.submitProduction w sender now p h wh root sig = Ok w' ->
  let ck0 := ProductionOracle.getClaimKey w p h in
  let v0 := ecrecover (this (oracle w)) p h wh root sig in
  finalized (ProductionOracle.getClaimBucket w ck0) = false /\
  ProductionOracle.hasSubmitted w ck0 v0 = false /\
  ProductionOracle.hasSubmitted w' ck0 v0 = true /\
  (forall ck v, ProductionOracle.hasSubmitted w ck v = true ->
                ProductionOracle.hasSubmitted w' ck v = true) /\
  (forall ck, ck <> ck0 ->
     ProductionOracle.getClaimBucket w' ck = ProductionOracle.getClaimBucket w ck) /\
  (snapshotId (ProductionOracle.getClaimBucket w ck0) <> 0 ->
   snapshotId (ProductionOracle.getClaimBucket w' ck0)
   = snapshotId (ProductionOracle.getClaimBucket w ck0) /\
   deadline (ProductionOracle.getClaimBucket w' ck0)
   = deadline (ProductionOracle.getClaimBucket w ck0)).
Proof.
  intros Hcall ck0 v0. apply submitProduction_ok in Hcall. cbv zeta in Hcall.
  fold ck0 v0 in Hcall.
  destruct Hcall as (w1 & idx & Hfin & _ & Hw1 & _ & _ & Hnew & Hend).
  set (bit := to_uint16 (Z.shiftl 1 idx)) in *.
  set (w9 := afterSubmission w1 ck0 v0 bit wh root) in *.
  (* opening the bucket *)
  assert (H1 : (forall ck v, ProductionOracle.hasSubmitted w1 ck v
                             = ProductionOracle.hasSubmitted w ck v) /\
               (forall ck, ck <> ck0 -> ProductionOracle.getClaimBucket w1 ck
                                        = ProductionOracle.getClaimBucket w ck) /\
               (snapshotId (ProductionOracle.getClaimBucket w ck0) <> 0 -> w1 = w)).
  { destruct Hw1 as [[_ ->]|(Hzero & wr & id & Hsnap & _ & ->)]; [done|].
    destruct (createSnapshot_oracle _ _ _ _ _ _ Hsnap) as (Ho & _).
    split; [|split; [|done]].
    - intros ck v. unfold ProductionOracle.hasSubmitted. simpl. by rewrite Ho.
    - intros ck Hne. rewrite getClaimBucket_store.
      destruct (decide (ck0 = ck)); [congruence|].
      unfold ProductionOracle.getClaimBucket. by rewrite Ho. }
  destruct H1 as (Hh1 & Hb1 & Hsame).
  (* the submission *)
  assert (H9 : (forall ck v, ProductionOracle.hasSubmitted w9 ck v
                  = if decide ((ck0, v0) = (ck, v)) then true
                    else ProductionOracle.hasSubmitted w ck v) /\
               (forall ck, ck <> ck0 -> ProductionOracle.getClaimBucket w9 ck
                                        = ProductionOracle.getClaimBucket w ck) /\
               ProductionOracle.getClaimBucket w9 ck0
               = acceptedBucket (ProductionOracle.getClaimBucket w1 ck0) bit wh).
  { split; [|split].
    - intros ck v. unfold w9. rewrite afterSubmission_hasSubmitted, Hh1. done.
    - intros ck Hne. unfold w9. rewrite afterSubmission_bucket.
      destruct (decide (ck0 = ck)); [congruence|]. by apply Hb1.
    - unfold w9. rewrite afterSubmission_bucket. by destruct (decide (ck0 = ck0)). }
  destruct H9 as (Hh9 & Hb9 & Hb0).
  (* the baseline shortcut *)
  assert (H' : (forall ck v, ProductionOracle.hasSubmitted w' ck v
                             = ProductionOracle.hasSubmitted w9 ck v) /\
               (forall ck, ck <> ck0 -> ProductionOracle.getClaimBucket w' ck
                                        = ProductionOracle.getClaimBucket w9 ck) /\
               snapshotId (ProductionOracle.getClaimBucket w' ck0)
               = snapshotId (ProductionOracle.getClaimBucket w9 ck0) /\
               deadline (ProductionOracle.getClaimBucket w' ck0)
               = deadline (ProductionOracle.getClaimBucket w9 ck0)).
  { destruct Hend as [->|Hfv]; [done|].
    apply finalizeWithValue_effect in Hfv as [_ Ho].
    split; [|split].
    - intros ck v. unfold ProductionOracle.hasSubmitted. by rewrite Ho.
    - intros ck Hne. rewrite (getClaimBucket_oracle _ _ _ Ho), getClaimBucket_store.
      destruct (decide (ck0 = ck)); [congruence|done].
    - rewrite (getClaimBucket_oracle _ _ _ Ho), getClaimBucket_store_eq. done. }
  destruct H' as (Hh' & Hb' & Hid' & Hdl').
  split; [done|]. split; [by rewrite <- Hh1|]. split.
  { rewrite Hh', Hh9. by destruct (decide ((ck0, v0) = (ck0, v0))). }
  split.
  { intros ck v Hv. rewrite Hh', Hh9. by destruct (decide ((ck0, v0) = (ck, v))). }
  split.
  { intros ck Hne. rewrite Hb', Hb9 by done. done. }
  intros Hopen. rewrite Hid', Hdl', Hb0, (Hsame Hopen). done.
Qed.

Lemma finalizeProduction_claims `{Chain} (w w' : World) (sender now p h : Z) :
  ProductionOracle.finalizeProduction w sender now p h = Ok w' ->
  let ck0 := ProductionOracle.getClaimKey w p h in
  finalized (ProductionOracle.getClaimBucket w ck0) = false /\
  _hasSubmitted (oracle w') = _hasSubmitted (oracle w) /\
  (forall ck, ck <> ck0 ->
     ProductionOracle.getClaimBucket w' ck = ProductionOracle.getClaimBucket w ck) /\
  snapshotId (ProductionOracle.getClaimBucket w' ck0)
  = snapshotId (ProductionOracle.getClaimBucket w ck0) /\
  deadline (ProductionOracle.getClaimBucket w' ck0)
  = deadline (ProductionOracle.getClaimBucket w ck0).
Proof.
  intros Hcall ck0. rewrite finalizeProduction_unfold in Hcall. cbv zeta in Hcall.
  fold ck0 in Hcall.
  apply bind_ok in Hcall as (? & Hfin & Hcall). apply require_ok, negb_true_iff in Hfin.
  apply bind_ok in Hcall as (? & _ & Hcall).
  apply bind_ok in Hcall as (q & _ & Hcall).
  split; [done|].
  assert (Ho : exists b', oracle w' = oracle (ProductionOracle.storeBucket ck0 b' w) /\
                 snapshotId b' = snapshotId (ProductionOracle.getClaimBucket w ck0) /\
                 deadline b' = deadline (ProductionOracle.getClaimBucket w ck0)).
  { destruct (maxTally w ck0 <? q).
    - injection Hcall as <-. by eexists.
    - apply finalizeWinner_ok in Hcall as [_ Ho]. fold ck0 in Ho. by eexists. }
  destruct Ho as (b' & Ho & Hid & Hdl).
  split; [by rewrite Ho|]. split.
  - intros ck Hne. rewrite (getClaimBucket_oracle _ _ _ Ho), getClaimBucket_store.
    destruct (decide (ck0 = ck)); [congruence|done].
  - by rewrite (getClaimBucket_oracle _ _ _ Ho), getClaimBucket_store_eq.
Qed.

Lemma forceFinalize_claims `{Chain} (w w' : World) (sender now p h wh root : Z) :
  ProductionOracle.forceFinalize w sender now p h wh root = Ok w' ->
  let ck0 := ProductionOracle.getClaimKey w p h in
  disputed (ProductionOracle.getClaimBucket w ck0) = true /\
  _hasSubmitted (oracle w') = _hasSubmitted (oracle w) /\
  (forall ck, ck <> ck0 ->
     ProductionOracle.getClaimBucket w' ck = ProductionOracle.getClaimBucket w ck) /\
  snapshotId (ProductionOracle.getClaimBucket w' ck0)
  = snapshotId (ProductionOracle.getClaimBucket w ck0) /\
  deadline (ProductionOracle.getClaimBucket w' ck0)
  = deadline (ProductionOracle.getClaimBucket w ck0).
Proof.
  intros Hcall ck0. unfold ProductionOracle.forceFinalize in Hcall. cbv zeta in Hcall.
  fold ck0 in Hcall.
  apply bind_ok in Hcall as (? & _ & Hcall).
  apply bind_ok in Hcall as (? & Hdis & Hcall). apply require_ok in Hdis.
  apply bind_ok in Hcall as (? & _ & Hcall).
  apply bind_ok in Hcall as (? & _ & Hcall).
  apply bind_ok in Hcall as (? & _ & Hcall).
  apply bind_ok in Hcall as (producer & _ & Hcall).
  apply bind_ok in Hcall as (w2 & Hmint & Hcall).
  apply mint_frame in Hmint as (_ & Ho & _). injection Hcall as <-.
  split; [done|].
  assert (Ho' : oracle (emit (ProductionFinalized ck0 p h wh root)
                          (emit (ForceFinalized ck0 sender wh) w2))
                = oracle (ProductionOracle.storeBucket ck0
                            (ProductionOracle.markFinalized wh
                               (winningValueHash (ProductionOracle.getClaimBucket w ck0))
                               root 0 (ProductionOracle.getClaimBucket w ck0)) w))
    by exact Ho.
  split; [by rewrite Ho'|]. split.
  - intros ck Hne. rewrite (getClaimBucket_oracle _ _ _ Ho'), getClaimBucket_store.
    destruct (decide (ck0 = ck)); [congruence|done].
  - by rewrite (getClaimBucket_oracle _ _ _ Ho'), getClaimBucket_store_eq.
Qed.

(** A finalized claim is final: no transaction changes its bucket. *)
Theorem finalized_is_terminal `{Chain} (w : World) (sender now : Z) (c : Call) (ck : Z) :
  reachable w -> wellTyped c ->
  finalized (ProductionOracle.getClaimBucket w ck) = true ->
  ProductionOracle.getClaimBucket (transact w sender now c) ck
  = ProductionOracle.getClaimBucket w ck.
Proof.
  intros Hreach Hwt Hfin.
  destruct (transact_cases w sender now c) as [->|Hex]; [done|].
  set (w' := transact w sender now c) in *.
  destruct (claimCall c) eqn:Hcc.
  2:{ apply getClaimBucket_buckets. by eapply exec_keeps_claims. }
  destruct c; try discriminate Hcc; simpl in Hex.
  - destruct (submitProduction_claims _ _ _ _ _ _ _ _ _ Hex) as (Hf & _ & _ & _ & Hother & _).
    apply Hother. intros ->. congruence.
  - destruct (finalizeProduction_claims _ _ _ _ _ _ Hex) as (Hf & _ & Hother & _).
    apply Hother. intros ->. congruence.
  - destruct (forceFinalize_claims _ _ _ _ _ _ _ _ Hex) as (Hd & _ & Hother & _).
    apply Hother. intros ->.
    destruct (ci_verified _ _ (reachable_claimInv w Hreach _) Hfin) as [_ Hnd]. congruence.
Qed.

(** Once a claim is open, no transaction changes its snapshot id or its
    deadline: the claim window cannot be moved. *)
Theorem claim_window_is_fixed `{Chain} (w : World) (sender now : Z) (c : Call) (ck : Z) :
  wellTyped c ->
  snapshotId (ProductionOracle.getClaimBucket w ck) <> 0 ->
  snapshotId (ProductionOracle.getClaimBucket (transact w sender now c) ck)
  = snapshotId (ProductionOracle.getClaimBucket w ck) /\
  deadline (ProductionOracle.getClaimBucket (transact w sender now c) ck)
  = deadline (ProductionOracle.getClaimBucket w ck).
Proof.
  intros Hwt Hopen.
  destruct (transact_cases w sender now c) as [->|Hex]; [done|].
  set (w' := transact w sender now c) in *.
  destruct (claimCall c) eqn:Hcc.
  2:{ rewrite (getClaimBucket_buckets w w' ck); [done|]. by eapply exec_keeps_claims. }
  destruct c; try discriminate Hcc; simpl in Hex.
  - destruct (submitProduction_claims _ _ _ _ _ _ _ _ _ Hex) as (_ & _ & _ & _ & Hother & Hsame).
    match type of Hother with
    | forall k, k <> ?key -> _ => destruct (decide (ck = key)) as [->|Hne]
    end.
    + by apply Hsame.
    + by rewrite Hother.
  - destruct (finalizeProduction_claims _ _ _ _ _ _ Hex) as (_ & _ & Hother & Hid & Hdl).
    match type of Hother with
    | forall k, k <> ?key -> _ => destruct (decide (ck = key)) as [->|Hne]
    end.
    + done.
    + by rewrite Hother.
  - destruct (forceFinalize_claims _ _ _ _ _ _ _ _ Hex) as (_ & _ & Hother & Hid & Hdl).
    match type of Hother with
    | forall k, k <> ?key -> _ => destruct (decide (ck = key)) as [->|Hne]
    end.
    + done.
    + by rewrite Hother.
Qed.

(** A verifier is accepted at most once per claim: an accepted submission
    marks the signer, a marked signer's submission is never accepted, and no
    transaction removes a mark. *)
Theorem one_submission_per_verifier `{Chain} (w : World) :
  (forall sender now p h wh root sig w',
     ProductionOracle.submitProduction w sender now p h wh root sig = Ok w' ->
     let ck := ProductionOracle.getClaimKey w p h in
     let v := ecrecover (this (oracle w)) p h wh root sig in
     ProductionOracle.hasSubmitted w ck v = false /\
     ProductionOracle.hasSubmitted w' ck v = true) /\
  (forall sender now p h wh root sig,
     ProductionOracle.hasSubmitted w (ProductionOracle.getClaimKey w p h)
       (ecrecover (this (oracle w)) p h wh root sig) = true ->
     exists e, ProductionOracle.submitProduction w sender now p h wh root sig = Revert e) /\
  (forall sender now c ck v,
     wellTyped c ->
     ProductionOracle.hasSubmitted w ck v = true ->
     ProductionOracle.hasSubmitted (transact w sender now c) ck v = true).
Proof.
  split; [|split].
  - intros sender now p h wh root sig w' Hcall ck v.
    by destruct (submitProduction_claims _ _ _ _ _ _ _ _ _ Hcall) as (_ & H1 & H2 & _).
  - intros sender now p h wh root sig Hsub.
    destruct (ProductionOracle.submitProduction w sender now p h wh root sig)
      as [w'|e] eqn:Hcall; [|by eexists].
    destruct (submitProduction_claims _ _ _ _ _ _ _ _ _ Hcall) as (_ & H1 & _). congruence.
  - intros sender now c ck v Hwt Hsub.
    destruct (transact_cases w sender now c) as [->|Hex]; [done|].
    set (w' := transact w sender now c) in *.
    destruct (claimCall c) eqn:Hcc.
    2:{ rewrite (hasSubmitted_oracle w w'); [done|]. by eapply exec_keeps_claims. }
    destruct c; try discriminate Hcc; simpl in Hex.
    + destruct (submitProduction_claims _ _ _ _ _ _ _ _ _ Hex) as (_ & _ & _ & Hmono & _).
      by apply Hmono.
    + destruct (finalizeProduction_claims _ _ _ _ _ _ Hex) as (_ & Ho & _).
      by rewrite (hasSubmitted_oracle w w').
    + destruct (forceFinalize_claims _ _ _ _ _ _ _ _ Hex) as (_ & Ho & _).
      by rewrite (hasSubmitted_oracle w w').
Qed.

(** ** Credits *)

(** What a successful [mint] changes. *)
Lemma mint_effect `{Chain} (w w' : World) (sender to h a k : Z) :
  HourlyCredits.mint w sender to h a k = Ok w' ->
  sender = creditsProductionOracle (hourlyCredits w) /\ to <> 0 /\
  HourlyCredits.balanceOf w' to h = HourlyCredits.balanceOf w to h + a /\
  forall to' h', (h', to') <> (h, to) ->
    HourlyCredits.balanceOf w' to' h' = HourlyCredits.balanceOf w to' h'.
Proof.
  intros Hc. unfold HourlyCredits.mint in Hc. inv_ok Hc. subst.
  apply Z.eqb_eq in E. apply negb_true_iff, Z.eqb_neq in E0.
  split; [done|]. split; [done|]. unfold HourlyCredits.balanceOf. simpl. split.
  - by rewrite sload_insert.
  - intros to' h' Hne. by rewrite sload_insert_ne.
Qed.

Lemma countFault_credits (w w' : World) (v : Z) (t : FaultType) :
  Treasury.countFault w v t = Ok w' -> hourlyCredits w' = hourlyCredits w.
Proof.
  intros Hc. unfold Treasury.countFault in Hc. inv_ok Hc; subst; [|done].
  unfold Treasury._slash in Hc. inv_ok Hc; subst; [|done].
  match goal with
  | Hr : Registry.reduceStake _ _ _ = Ok _ |- _ =>
      rewrite reduceStake_ok in Hr; injection Hr as <-
  end. done.
Qed.

Lemma faultLoop_credits (b : Z) (t : FaultType) (vs : list Z) (i : Z) (w w' : World) :
  Treasury.faultLoop b t i vs w = Ok w' -> hourlyCredits w' = hourlyCredits w.
Proof.
  revert i w. induction vs as [|v vs IH]; intros i w Hc; simpl in Hc.
  - by injection Hc as <-.
  - inv_ok Hc.
    + match goal with
      | Hf : Treasury.countFault _ _ _ = Ok _ |- _ => apply countFault_credits in Hf
      end.
      apply IH in Hc. congruence.
    + by eapply IH.
    + by subst.
Qed.

Lemma recordFaults_credits (w w' : World) (sender b id : Z) (t : FaultType) :
  Treasury.recordFaults w sender b id t = Ok w' -> hourlyCredits w' = hourlyCredits w.
Proof.
  intros Hc. unfold Treasury.recordFaults in Hc. inv_ok Hc.
  - by subst.
  - by eapply faultLoop_credits.
Qed.

Lemma balanceOf_credits `{Chain} (w w' : World) (to h : Z) :
  hourlyCredits w' = hourlyCredits w ->
  HourlyCredits.balanceOf w' to h = HourlyCredits.balanceOf w to h.
Proof. intros Hc. unfold HourlyCredits.balanceOf. by rewrite Hc. Qed.

(** The credits minted by [_finalizeWithValue]. *)
Lemma finalizeWithValue_credits `{Chain} (w w' : World) (ck p h wh root b : Z) :
  ProductionOracle._finalizeWithValue w ck p h wh root b = Ok w' ->
  exists producer,
    Registry.getProducer w p = Ok producer /\
    HourlyCredits.balanceOf w' (payoutAddr producer) h
    = HourlyCredits.balanceOf w (payoutAddr producer) h + wh /\
    forall to' h', (h', to') <> (h, payoutAddr producer) ->
      HourlyCredits.balanceOf w' to' h' = HourlyCredits.balanceOf w to' h'.
Proof.
  intros Hc. unfold ProductionOracle._finalizeWithValue in Hc. cbv zeta in Hc.
  apply bind_ok in Hc as (producer & Hprod & Hc).
  apply bind_ok in Hc as (w2 & Hmint & Hc).
  apply bind_ok in Hc as (w3 & Hdist & Hc). injection Hc as <-.
  apply mint_effect in Hmint as (_ & _ & Hbal & Hother).
  apply distributeRewards_frame in Hdist as (_ & _ & Hcred).
  exists producer. split; [exact Hprod|]. split.
  - etrans; [|exact Hbal]. by apply balanceOf_credits.
  - intros to' h' Hne. etrans; [|exact (Hother to' h' Hne)]. by apply balanceOf_credits.
Qed.

(** A claim finalized by [finalizeProduction] mints exactly its verified
    energy, as credits of that hour, to the payout address of the producer;
    no other balance changes. *)
Theorem finalization_mints_verified_energy `{Chain} (w w' : World) (sender now p h : Z) :
  ProductionOracle.finalizeProduction w sender now p h = Ok w' ->
  let ck := ProductionOracle.getClaimKey w p h in
  (finalized (ProductionOracle.getClaimBucket w' ck) = false ->
   hourlyCredits w' = hourlyCredits w) /\
  (finalized (ProductionOracle.getClaimBucket w' ck) = true ->
   exists producer,
     Registry.getProducer w p = Ok producer /\
     HourlyCredits.balanceOf w' (payoutAddr producer) h
     = HourlyCredits.balanceOf w (payoutAddr producer) h
       + verifiedEnergyWh (ProductionOracle.getClaimBucket w' ck) /\
     forall to' h', (h', to') <> (h, payoutAddr producer) ->
       HourlyCredits.balanceOf w' to' h' = HourlyCredits.balanceOf w to' h').
Proof.
  intros Hcall ck. rewrite finalizeProduction_unfold in Hcall. cbv zeta in Hcall.
  fold ck in Hcall.
  apply bind_ok in Hcall as (? & _ & Hcall).
  apply bind_ok in Hcall as (? & _ & Hcall).
  apply bind_ok in Hcall as (q & _ & Hcall).
  destruct (maxTally w ck <? q).
  { injection Hcall as <-. split; [done|]. intros Hfin. exfalso.
    change (finalized (ProductionOracle.getClaimBucket
                         (ProductionOracle.storeBucket ck
                            (ProductionOracle.markDisputed
                               (ProductionOracle.getClaimBucket w ck)) w) ck) = true)
      in Hfin.
    rewrite getClaimBucket_store_eq in Hfin. discriminate Hfin. }
  pose proof Hcall as Hok. apply finalizeWinner_ok in Hok as [_ Ho]. fold ck in Ho.
  set (t := ProductionOracle.getValueSubmissions w ck
              (fst (ProductionOracle.findWinner w ck))) in *.
  assert (Hb : ProductionOracle.getClaimBucket w' ck
             = ProductionOracle.markFinalized (energyWh t)
                 (keccakValue (energyWh t) (vsEvidenceRoot t))
                 (vsEvidenceRoot t) (verifierBitmap t)
                 (ProductionOracle.getClaimBucket w ck)).
  { rewrite (getClaimBucket_oracle _ _ _ Ho). apply getClaimBucket_store_eq. }
  rewrite Hb. cbn [finalized verifiedEnergyWh ProductionOracle.markFinalized].
  split; [done|]. intros _.
  unfold finalizeWinner in Hcall. cbv zeta in Hcall. fold ck t in Hcall.
  apply bind_ok in Hcall as (w1 & Hfv & Hcall).
  apply finalizeWithValue_credits in Hfv as (producer & Hprod & Hbal & Hother).
  assert (Hcred : hourlyCredits w' = hourlyCredits w1).
  { match type of Hcall with (if ?c then _ else _) = _ => destruct c end.
    - by eapply recordFaults_credits.
    - by injection Hcall as <-. }
  exists producer. split; [exact Hprod|]. split.
  - rewrite <- Hbal. by apply balanceOf_credits.
  - intros to' h' Hne. rewrite <- (Hother to' h' Hne). by apply balanceOf_credits.
Qed.

(** ** Faults and slashes are permanent *)

Lemma faultsKept_refl (w : World) : faultsKept w w.
Proof. intros v. split; [lia | done]. Qed.

Lemma faultsKept_trans (w1 w2 w3 : World) :
  faultsKept w1 w2 -> faultsKept w2 w3 -> faultsKept w1 w3.
Proof.
  intros H12 H23 v. destruct (H12 v) as [Hf1 Hs1]. destruct (H23 v) as [Hf2 Hs2].
  split; [lia | auto].
Qed.

Lemma faultsKept_same (w w' : World) :
  verifierFaults (treasury w') = verifierFaults (treasury w) ->
  isSlashed (treasury w') = isSlashed (treasury w) ->
  faultsKept w w'.
Proof.
  intros Hf Hs v. unfold Treasury.getFaults, Treasury.getSlashed. rewrite Hf, Hs.
  split; [lia | done].
Qed.

Lemma countFault_kept (w w' : World) (v : Z) (t : FaultType) :
  Treasury.countFault w v t = Ok w' -> faultsKept w w'.
Proof.
  intros Hc u. split.
  - apply countFault_effect in Hc. destruct Hc as (Hf & Hfo & _).
    destruct (decide (u = v)) as [->|Hne]; [lia | rewrite Hfo by done; lia].
  - intros Hu. by destruct (countFault_slashed _ _ _ _ _ Hu Hc).
Qed.

Lemma faultLoop_kept (b : Z) (t : FaultType) (vs : list Z) (i : Z) (w w' : World) :
  Treasury.faultLoop b t i vs w = Ok w' -> faultsKept w w'.
Proof.
  revert i w. induction vs as [|v vs IH]; intros i w Hc; simpl in Hc.
  - injection Hc as <-. apply faultsKept_refl.
  - destruct (i <? 16); [|injection Hc as <-; apply faultsKept_refl].
    destruct (Treasury.bitSet b i); [|by eapply IH].
    apply bind_ok in Hc as (w1 & Hcount & Hc).
    eapply faultsKept_trans; [by eapply countFault_kept | by eapply IH].
Qed.

Lemma recordFaults_kept (w w' : World) (sender b id : Z) (t : FaultType) :
  Treasury.recordFaults w sender b id t = Ok w' -> faultsKept w w'.
Proof.
  intros Hc. unfold Treasury.recordFaults in Hc. inv_ok Hc.
  - subst. apply faultsKept_refl.
  - by eapply faultLoop_kept.
Qed.

Lemma slash_internal_kept (w w' : World) (v : Z) :
  Treasury._slash w v = Ok w' -> faultsKept w w'.
Proof.
  intros Hc u. apply slash_internal_effect in Hc.
  destruct Hc as (_ & _ & Hs & _ & Hso & _ & Hf & _).
  rewrite Hf. split; [lia|]. intros Hu.
  destruct (decide (u = v)) as [->|Hne]; [done | by rewrite Hso].
Qed.

Lemma distributeRewards_kept (w w' : World) (sender b id e : Z) :
  Treasury.distributeRewards w sender b id e = Ok w' -> faultsKept w w'.
Proof.
  intros Hc. unfold Treasury.distributeRewards in Hc.
  inv_ok Hc; subst; by apply faultsKept_same.
Qed.

Lemma finalizeWithValue_kept `{Chain} (w w' : World) (ck p h wh root b : Z) :
  ProductionOracle._finalizeWithValue w ck p h wh root b = Ok w' -> faultsKept w w'.
Proof.
  intros Hc. unfold ProductionOracle._finalizeWithValue in Hc. cbv zeta in Hc.
  apply bind_ok in Hc as (producer & _ & Hc).
  apply bind_ok in Hc as (w2 & Hmint & Hc).
  apply bind_ok in Hc as (w3 & Hdist & Hc). injection Hc as <-.
  apply mint_frame in Hmint as (_ & _ & Ht). apply distributeRewards_kept in Hdist.
  intros v. destruct (Hdist v) as [Hf Hs].
  unfold Treasury.getFaults, Treasury.getSlashed in *. rewrite Ht in Hf, Hs.
  split; [exact Hf | exact Hs].
Qed.

Lemma exec_kept `{Chain} (w w' : World) (sender now : Z) (c : Call) :
  exec w sender now c = Ok w' -> faultsKept w w'.
Proof.
  intros Hc. destruct c; simpl in Hc.
  - unfold Registry.registerProducer in Hc. inv_ok Hc. subst. by apply faultsKept_same.
  - unfold Registry.stakeAsVerifier in Hc. inv_ok Hc. subst. by apply faultsKept_same.
  - unfold Registry.unstake in Hc. inv_ok Hc. subst. by apply faultsKept_same.
  - unfold Registry.activateVerifier in Hc. inv_ok Hc. subst. by apply faultsKept_same.
  - unfold Registry.deactivateVerifier in Hc. inv_ok Hc; subst; by apply faultsKept_same.
  - unfold Registry.addToAllowlist in Hc. inv_ok Hc. subst. by apply faultsKept_same.
  - unfold Registry.removeFromAllowlist in Hc. inv_ok Hc. subst. by apply faultsKept_same.
  - unfold Registry.setPermissionedMode in Hc. inv_ok Hc. subst. by apply faultsKept_same.
  - unfold Registry.setQuorumBps in Hc. inv_ok Hc. subst. by apply faultsKept_same.
  - unfold Registry.setClaimWindow in Hc. inv_ok Hc. subst. by apply faultsKept_same.
  - unfold Registry.setMinStake in Hc. inv_ok Hc. subst. by apply faultsKept_same.
  - unfold Registry.setProductionOracle in Hc. inv_ok Hc. subst. by apply faultsKept_same.
  - unfold Registry.setConsumptionOracle in Hc. inv_ok Hc. subst. by apply faultsKept_same.
  - inv_ok Hc. subst. destruct x as [w1 id]. simpl.
    unfold Registry.createSnapshot in E. inv_ok E. simplify_eq. by apply faultsKept_same.
  - unfold Registry.incrementFaults in Hc. inv_ok Hc. subst. by apply faultsKept_same.
  - rewrite reduceStake_ok in Hc. injection Hc as <-. by apply faultsKept_same.
  - by eapply distributeRewards_kept.
  - unfold Treasury.claimRewards in Hc. inv_ok Hc. subst. by apply faultsKept_same.
  - unfold Treasury.recordFault in Hc. inv_ok Hc. by eapply countFault_kept.
  - by eapply recordFaults_kept.
  - unfold Treasury.slash in Hc. inv_ok Hc.
    + subst. apply faultsKept_refl.
    + by eapply slash_internal_kept.
  - unfold Treasury.deposit in Hc. inv_ok Hc. subst. by apply faultsKept_same.
  - unfold Treasury.withdraw in Hc. inv_ok Hc. subst. by apply faultsKept_same.
  - unfold Treasury.setProductionOracle in Hc. inv_ok Hc. subst. by apply faultsKept_same.
  - unfold Treasury.setConsumptionOracle in Hc. inv_ok Hc. subst. by apply faultsKept_same.
  - unfold Treasury.setDisableSlashing in Hc. inv_ok Hc. subst. by apply faultsKept_same.
  - unfold Treasury.setRewardPerWhWei in Hc. inv_ok Hc. subst. by apply faultsKept_same.
  - unfold Treasury.setSlashBps in Hc. inv_ok Hc. subst. by apply faultsKept_same.
  - unfold Treasury.setFaultThreshold in Hc. inv_ok Hc. subst. by apply faultsKept_same.
  - apply mint_frame in Hc as (_ & _ & Ht). apply faultsKept_same; by rewrite Ht.
  - unfold HourlyCredits.setProductionOracle in Hc. inv_ok Hc. subst.
    by apply faultsKept_same.
  - apply submitProduction_ok in Hc. cbv zeta in Hc.
    destruct Hc as (w1 & idx & _ & _ & Hw1 & _ & _ & _ & Hend).
    assert (H1 : treasury w1 = treasury w).
    { destruct Hw1 as [[_ ->]|(_ & wr & id & Hsnap & _ & ->)]; [done|].
      by destruct (createSnapshot_oracle _ _ _ _ _ _ Hsnap) as (_ & Ht & _). }
    destruct Hend as [->|Hfv].
    + apply faultsKept_same; simpl; by rewrite H1.
    + apply finalizeWithValue_kept in Hfv. intros v. destruct (Hfv v) as [Hf Hs].
      unfold Treasury.getFaults, Treasury.getSlashed in *. simpl in Hf, Hs.
      rewrite H1 in Hf, Hs. split; [exact Hf | exact Hs].
  - rewrite finalizeProduction_unfold in Hc. cbv zeta in Hc.
    apply bind_ok in Hc as (? & _ & Hc).
    apply bind_ok in Hc as (? & _ & Hc).
    apply bind_ok in Hc as (q & _ & Hc).
    match type of Hc with (if ?c then _ else _) = _ => destruct c end.
    + injection Hc as <-. by apply faultsKept_same.
    + unfold finalizeWinner in Hc. cbv zeta in Hc.
      apply bind_ok in Hc as (w1 & Hfv & Hc). apply finalizeWithValue_kept in Hfv.
      eapply faultsKept_trans; [exact Hfv|].
      match type of Hc with (if ?c then _ else _) = _ => destruct c end.
      * by eapply recordFaults_kept.
      * injection Hc as <-. apply faultsKept_refl.
  - unfold ProductionOracle.forceFinalize in Hc. cbv zeta in Hc.
    apply bind_ok in Hc as (? & _ & Hc).
    apply bind_ok in Hc as (? & _ & Hc).
    apply bind_ok in Hc as (? & _ & Hc).
    apply bind_ok in Hc as (? & _ & Hc).
    apply bind_ok in Hc as (? & _ & Hc).
    apply bind_ok in Hc as (producer & _ & Hc).
    apply bind_ok in Hc as (w2 & Hmint & Hc).
    apply mint_frame in Hmint as (_ & _ & Ht). injection Hc as <-.
    apply faultsKept_same; simpl; by rewrite Ht.
  - unfold ProductionOracle.setBaselineMode in Hc. inv_ok Hc. subst. by apply faultsKept_same.
  - unfold ProductionOracle.setSingleVerifierOverride in Hc. inv_ok Hc. subst.
    by apply faultsKept_same.
  - unfold ProductionOracle.setClaimWindow in Hc. inv_ok Hc. subst. by apply faultsKept_same.
  - unfold ProductionOracle.setQuorumBps in Hc. inv_ok Hc. subst. by apply faultsKept_same.
Qed.

(** No transaction lowers a fault counter or removes a slash mark: the
    Treasury has no way to reset either. *)
Theorem faults_and_slashes_are_permanent `{Chain} (w : World) (sender now : Z) (c : Call)
    (v : Z) :
  Treasury.getFaults w v <= Treasury.getFaults (transact w sender now c) v /\
  (Treasury.getSlashed w v = true ->
   Treasury.getSlashed (transact w sender now c) v = true).
Proof.
  destruct (transact_cases w sender now c) as [->|Hex]; [split; [lia | done]|].
  by apply (exec_kept _ _ _ _ _ Hex).
Qed.

(** ** Baseline mode *)

(** The last step of an accepted submission: the world [w9] with the
    submission recorded is the result, unless the oracle is in baseline mode
    and the signer is the single verifier, in which case the claim is
    finalized with the submitted value. *)
Lemma submitProduction_last `{Chain} (w w' : World) (sender now p h wh root sig : Z) :
  ProductionOracle.submitProduction w sender now p h wh root sig = Ok w' ->
  let ck := ProductionOracle.getClaimKey w p h in
  let v := ecrecover (this (oracle w)) p h wh root sig in
  v <> 0 /\
  exists w9,
    baselineMode (oracle w9) = baselineMode (oracle w) /\
    singleVerifierOverride (oracle w9) = singleVerifierOverride (oracle w) /\
    finalized (ProductionOracle.getClaimBucket w9 ck) = false /\
    if baselineMode (oracle w9) && negb (singleVerifierOverride (oracle w9) =? 0)
       && (v =? singleVerifierOverride (oracle w9))
    then ProductionOracle._finalizeWithValue w9 ck p h wh root
           (verifierBitmap
              (ProductionOracle.getValueSubmissions w9 ck (keccakValue wh root))) = Ok w'
    else w' = w9.
Proof.
  intros Hc ck v. unfold ProductionOracle.submitProduction in Hc.
  fold ck in Hc. cbv zeta in Hc.
  apply bind_ok in Hc as (? & Hfin & Hc). apply require_ok in Hfin.
  apply negb_true_iff in Hfin.
  apply bind_ok in Hc as (? & _ & Hc).
  apply bind_ok in Hc as (v' & Hsig & Hc).
  assert (v' = v /\ v <> 0) as [-> Hv].
  { unfold ProductionOracle._validateSignature in Hsig. inv_ok Hsig. subst.
    split; [done|]. by apply negb_true_iff, Z.eqb_neq in E. }
  split; [exact Hv|].
  apply bind_ok in Hc as (? & _ & Hc).
  apply bind_ok in Hc as (w1 & Hw1 & Hc).
  assert (H1 : baselineMode (oracle w1) = baselineMode (oracle w) /\
               singleVerifierOverride (oracle w1) = singleVerifierOverride (oracle w) /\
               finalized (ProductionOracle.getClaimBucket w1 ck) = false).
  { destruct (snapshotId (ProductionOracle.getClaimBucket w ck) =? 0).
    - apply bind_ok in Hw1 as ([wr id] & Hsnap & Hw1).
      apply bind_ok in Hw1 as (dl & _ & Hw1). injection Hw1 as <-.
      destruct (createSnapshot_oracle _ _ _ _ _ _ Hsnap) as (Ho & _).
      rewrite getClaimBucket_store_eq.
      change (finalized
                (ProductionOracle.openBucket id dl (ProductionOracle.getClaimBucket wr ck)))
        with (finalized (ProductionOracle.getClaimBucket wr ck)).
      rewrite (getClaimBucket_oracle w wr ck Ho).
      unfold ProductionOracle.storeBucket, ProductionOracle.update. simpl.
      by rewrite Ho.
    - by injection Hw1 as <-. }
  destruct H1 as (Hbm & Hov & Hf1).
  destruct (deadline (ProductionOracle.getClaimBucket w1 ck) <? now).
  { apply bind_ok in Hc as (? & _ & Hc). discriminate. }
  destruct (Registry.getVerifierIndex w1 _ v) as [idx|]; [|discriminate].
  destruct (ProductionOracle.hasSubmitted w1 ck v).
  { apply bind_ok in Hc as (? & _ & Hc). discriminate. }
  apply bind_ok in Hc as (w9 & Hw9 & Hc).
  apply recordSubmission_ok in Hw9 as (Hw9 & _ & _).
  exists w9. split; [by rewrite Hw9|]. split; [by rewrite Hw9|]. split.
  { rewrite Hw9, afterSubmission_bucket. by destruct (decide (ck = ck)). }
  match type of Hc with
  | (if ?c then _ else _) = Ok w' => destruct c
  end; [exact Hc | by injection Hc].
Qed.

(** Baseline mode: a submission accepted from the single verifier finalizes
    the claim at once with the submitted energy and evidence root, whatever
    the quorum; the winners are the signers recorded for that value.  Any
    other accepted submission leaves the claim open. *)
Theorem baseline_submission_finalizes `{Chain} (w w' : World)
    (sender now p h wh root sig : Z) :
  ProductionOracle.submitProduction w sender now p h wh root sig = Ok w' ->
  let ck := ProductionOracle.getClaimKey w p h in
  let v := ecrecover (this (oracle w)) p h wh root sig in
  (baselineMode (oracle w) = true /\ v = singleVerifierOverride (oracle w) ->
   finalized (ProductionOracle.getClaimBucket w' ck) = true /\
   disputed (ProductionOracle.getClaimBucket w' ck) = false /\
   verifiedEnergyWh (ProductionOracle.getClaimBucket w' ck) = wh /\
   evidenceRoot (ProductionOracle.getClaimBucket w' ck) = root /\
   winningVerifierBitmap (ProductionOracle.getClaimBucket w' ck)
   = verifierBitmap (ProductionOracle.getValueSubmissions w' ck (keccakValue wh root))) /\
  (baselineMode (oracle w) = false \/ v <> singleVerifierOverride (oracle w) ->
   finalized (ProductionOracle.getClaimBucket w' ck) = false).
Proof.
  intros Hc ck v.
  destruct (submitProduction_last _ _ _ _ _ _ _ _ _ Hc) as (Hv & w9 & Hbm & Hov & Hf9 & Hlast).
  fold ck v in Hv, Hf9, Hlast. rewrite Hbm, Hov in Hlast.
  split.
  - intros [Hmode Hsingle]. rewrite Hmode, <- Hsingle, Z.eqb_refl in Hlast.
    replace (v =? 0) with false in Hlast by (symmetry; by apply Z.eqb_neq).
    simpl in Hlast.
    destruct (finalizeWithValue_effect _ _ _ _ _ _ _ _ Hlast) as [_ Ho].
    assert (Hb : ProductionOracle.getClaimBucket w' ck
                 = ProductionOracle.markFinalized wh (keccakValue wh root) root
                     (verifierBitmap
                        (ProductionOracle.getValueSubmissions w9 ck (keccakValue wh root)))
                     (ProductionOracle.getClaimBucket w9 ck)).
    { rewrite (getClaimBucket_oracle _ w' ck Ho). apply getClaimBucket_store_eq. }
    assert (Ht : ProductionOracle.getValueSubmissions w' ck (keccakValue wh root)
                 = ProductionOracle.getValueSubmissions w9 ck (keccakValue wh root)).
    { unfold ProductionOracle.getValueSubmissions. by rewrite Ho. }
    rewrite Hb, Ht. done.
  - intros Hnot.
    assert (Hcond : baselineMode (oracle w) && negb (singleVerifierOverride (oracle w) =? 0)
                    && (v =? singleVerifierOverride (oracle w)) = false).
    { destruct Hnot as [-> | Hne]; [done|].
      apply Z.eqb_neq in Hne. rewrite Hne. apply andb_false_r. }
    rewrite Hcond in Hlast. by rewrite Hlast.
Qed.

(** * Concrete runs: witnesses and counterexamples *)

Lemma reachable_run (w : World) (txs : list Tx) :
  @reachable toyChain w -> Forall validTx txs -> @reachable toyChain (run w txs).
Proof.
  intros Hw Htxs. revert w Hw.
  induction Htxs as [|[[sender now] c] txs (Hs & Hn & Hc) _ IH]; intros w Hw.
  - exact Hw.
  - unfold run. simpl. apply IH. by apply reachable_transact.
Qed.

Ltac valid_tx :=
  unfold theProducer, theHour in *;
  unfold validTx, fits, UINT256, admin, oracleAddr, producerOwnerAddr, otherOracle in *;
  simpl; unfold fits, UINT256, UINT64, UINT16;
  repeat match goal with |- _ /\ _ => split end; lia || exact I.

Ltac valid_txs :=
  repeat (apply Forall_cons; split; [valid_tx|]); apply Forall_nil; exact I.

Lemma genesis_reachable : @reachable toyChain genesis.
Proof. apply reachable_deploy. Qed.

Lemma stakedWorld_reachable : @reachable toyChain stakedWorld.
Proof. apply reachable_run; [apply genesis_reachable | valid_txs]. Qed.

Lemma reduceStake_never_fails_witness :
  (exists w',
     Registry.reduceStake stakedWorld 1 100 = Ok w' /\
     stakeOf w' 1 = (if 100 <=? stakeOf stakedWorld 1
                     then stakeOf stakedWorld 1 - 100 else 0) /\
     (forall u, u <> 1 -> Registry.getVerifier w' u = Registry.getVerifier stakedWorld u)) /\
  (forall u, 0 <= stakeOf stakedWorld u).
Proof.
  destruct (@reduceStake_never_fails toyChain stakedWorld 1 100) as [Htotal Hinv].
  split; [exact Htotal | apply Hinv, stakedWorld_reachable].
Defined.

Example stakedWorld_stake : stakeOf stakedWorld 1 = 70.
Proof. vm_compute. reflexivity. Qed.

(** Closed goals over concrete worlds. *)
Ltac decide_Z :=
  unfold fits;
  repeat match goal with
  | |- _ /\ _ => split
  | |- _ <= _ => apply Z.leb_le
  | |- _ < _ => apply Z.ltb_lt
  | |- _ <> _ => apply Z.eqb_neq
  end; vm_compute; reflexivity.

Lemma recordFault_keeps_registry_faults_witness :
  exists w',
    Treasury.recordFault faultWorld otherOracle 1 WrongValue = Ok w' /\
    Treasury.getFaults w' 1 = 1 /\
    faults (Registry.getVerifier w' 1) = 0.
Proof.
  destruct (Treasury.recordFault faultWorld otherOracle 1 WrongValue) as [w'|e] eqn:E;
    [|vm_compute in E; discriminate E].
  exists w'. split; [reflexivity|].
  destruct (proj1 (recordFault_keeps_registry_faults faultWorld otherOracle WrongValue)
              1 w' E) as [Hcount Hreg].
  rewrite Hcount, Hreg. split; vm_compute; reflexivity.
Defined.

(** Every value a storage map can return satisfies [P] when the default and
    all entries do. *)
Lemma sload_all {V : Type} (P : V -> Prop) (d : V) (m : gmap Z V) :
  P d -> map_Forall (fun _ x => P x) m -> forall k, P (sload d m k).
Proof.
  intros Hd Hm k. unfold sload. destruct (m !! k) as [x|] eqn:E; [|exact Hd].
  exact (Hm k x E).
Qed.

(** The entries of a concrete storage map, one goal each. *)
Ltac all_entries :=
  apply map_Forall_to_list;
  match goal with
  | |- Forall _ ?l =>
      let l' := eval vm_compute in l in
      replace l with l' by (vm_compute; reflexivity)
  end;
  repeat (apply Forall_cons; split; [cbn [uncurry fst snd] |]);
  try apply Forall_nil.

Lemma batchWorld_headroom : faultHeadroom batchWorld (100 * 10 ^ 18).
Proof.
  unfold faultHeadroom. split; [decide_Z|]. split; [|split; [|split; decide_Z]].
  - unfold Treasury.getFaults.
    apply (sload_all (fun x => x + 16 < UINT256)); [decide_Z|].
    all_entries; decide_Z.
  - unfold stakeOf, Registry.getVerifier.
    apply (sload_all (fun x => 0 <= stake x <= 100 * 10 ^ 18)); [decide_Z|].
    all_entries; decide_Z.
Qed.

Lemma slash_exactly_once_witness :
  (exists w',
     Treasury.recordFault twoFaultsWorld otherOracle 1 WrongValue = Ok w' /\
     stakeOf w' 1 = 90 * 10 ^ 18 /\
     rewardPool (treasury w') = 10 ^ 30 + 10 * 10 ^ 18 /\
     Treasury.getSlashed w' 1 = true) /\
  (exists w',
     Treasury.recordFaults batchWorld otherOracle 3 1 WrongValue = Ok w' /\
     stakeOf w' 1 = 90 * 10 ^ 18 /\
     rewardPool (treasury w') = 10 ^ 30 + 10 * 10 ^ 18 /\
     Treasury.getSlashed w' 1 = true).
Proof.
  split.
  - destruct (slash_exactly_once twoFaultsWorld 1) as (_ & Hone & _); try decide_Z.
    destruct (Hone otherOracle WrongValue) as (w' & Hcall & Hstake & Hpool & Hflag);
      try decide_Z.
    exists w'. split; [exact Hcall|]. split; [|split; [|exact Hflag]].
    + etrans; [exact Hstake | vm_compute; reflexivity].
    + etrans; [exact Hpool | vm_compute; reflexivity].
  - destruct (slash_exactly_once batchWorld 1) as (_ & _ & Hbatch & _); try decide_Z.
    destruct (Hbatch otherOracle 3 1 WrongValue) as [Hok Heffect].
    destruct (Hok (100 * 10 ^ 18)) as [w' Hcall];
      [vm_compute; reflexivity | exact batchWorld_headroom |].
    assert (Hvs : Registry.getSnapshotVerifiers batchWorld 1 = [1; 2; 3])
      by (vm_compute; reflexivity).
    destruct (Heffect w' 0%nat Hcall) as (Hstake & Hpool & Hflag).
    + rewrite Hvs. apply (bool_decide_unpack (NoDup [1; 2; 3])). vm_compute. exact I.
    + rewrite Hvs. reflexivity.
    + lia.
    + vm_compute. reflexivity.
    + exists w'. split; [exact Hcall|]. split; [|split; [|exact Hflag]].
      * etrans; [exact Hstake | vm_compute; reflexivity].
      * etrans; [exact Hpool | vm_compute; reflexivity].
Defined.

(** C6, as stated, fails when [slashBps] exceeds 10000: the third fault of
    verifier 1 (stake 100e18, slashBps 20000) computes
    [slashAmount = 200e18]; [reduceStake] clamps the stake to 0, so the stake
    drops by 100e18 and not by [slashAmount], while [rewardPool] grows by the
    full 200e18. *)
Lemma slash_amount_counterexample :
  let w := overSlashWorld in
  let amount := stakeOf w 1 * slashBps (treasury w) / 10000 in
  exists w',
    Treasury.recordFault w otherOracle 1 WrongValue = Ok w' /\
    slashingDisabled (treasury w) = false /\
    Treasury.getSlashed w 1 = false /\
    Treasury.getFaults w' 1 = faultThreshold (treasury w) /\
    Treasury.getSlashed w' 1 = true /\
    amount = 200 * 10 ^ 18 /\
    stakeOf w 1 = 100 * 10 ^ 18 /\
    stakeOf w' 1 = 0 /\
    stakeOf w' 1 <> stakeOf w 1 - amount /\
    rewardPool (treasury w') = rewardPool (treasury w) + amount.
Proof.
  cbv zeta.
  destruct (Treasury.recordFault overSlashWorld otherOracle 1 WrongValue)
    as [w'|e] eqn:E; [|vm_compute in E; discriminate E].
  exists w'. split; [reflexivity|].
  vm_compute in E. injection E as <-.
  repeat split; try (vm_compute; reflexivity). vm_compute. discriminate.
Qed.

Lemma distributeRewards_spec_witness :
  exists w',
    Treasury.distributeRewards snapshotWorld otherOracle 3 1 10 = Ok w' /\
    Treasury.getPendingRewards w' 1 = 5 * 10 ^ 12 /\
    Treasury.getPendingRewards w' 3 = 0 /\
    rewardPool (treasury w') = 10 ^ 30 - 10 ^ 13.
Proof.
  destruct (distributeRewards_spec snapshotWorld otherOracle 3 1 10)
    as (_ & _ & Hok); [vm_compute; reflexivity | decide_Z |].
  destruct Hok as (w' & Hcall & Hpend & _ & Hpool & _);
    [vm_compute; discriminate | decide_Z | decide_Z | |].
  { intros v. split.
    - unfold Treasury.getPendingRewards, sload. vm_compute. discriminate.
    - unfold Treasury.getPendingRewards, sload.
      change (pendingRewards (treasury snapshotWorld) !! v) with (@None Z).
      decide_Z. }
  exists w'. rewrite !Hpend, Hpool. repeat split; try done; vm_compute; reflexivity.
Defined.

(** C5, as stated, fails when a set bit of the bitmap has no verifier in the
    snapshot: with the 3-verifier snapshot 1 and [winnerBitmap = 0b1001],
    [popcount = 2] and [perWinner = 5e12], but only verifier 1 is paid, and
    [rewardPool] drops by [5e12], not by [perWinner * popcount = 1e13]. *)
Lemma distributeRewards_counterexample :
  let w := snapshotWorld in
  let perWinner := 10 * rewardPerWhWei (treasury w) / Treasury._popcount 9 in
  exists w',
    Treasury.distributeRewards w otherOracle 9 1 10 = Ok w' /\
    Treasury._popcount 9 = 2 /\
    perWinner = 5 * 10 ^ 12 /\
    rewardPool (treasury w) - rewardPool (treasury w') = 5 * 10 ^ 12 /\
    rewardPool (treasury w) - rewardPool (treasury w')
    <> perWinner * Treasury._popcount 9.
Proof.
  cbv zeta.
  destruct (Treasury.distributeRewards snapshotWorld otherOracle 9 1 10)
    as [w'|e] eqn:E; [|vm_compute in E; discriminate E].
  exists w'. split; [reflexivity|].
  vm_compute in E. injection E as <-.
  repeat split; try (vm_compute; reflexivity). vm_compute. discriminate.
Qed.

Lemma rejected_submission_records_no_fault_witness :
  let w := submittedWorld in
  let call := SubmitProduction theProducer theHour 5000 7 1 in
  @exec toyChain w 1 101 call = Revert DuplicateSubmission /\
  @transact toyChain w 1 101 call = w /\
  Treasury.getFaults (@transact toyChain w 1 101 call) 1 = 0 /\
  exists w2,
    Treasury.recordFault w oracleAddr 1 DuplicateSubmissionFault = Ok w2 /\
    Treasury.getFaults w2 1 = 1.
Proof.
  cbv zeta.
  destruct (@rejected_submission_records_no_fault toyChain submittedWorld
              1 101 theProducer theHour 5000 7 1) as (_ & Hdup & Hboth);
    try decide_Z.
  assert (Hidx : exists idx,
    Registry.getVerifierIndex submittedWorld
      (snapshotId (ProductionOracle.getClaimBucket submittedWorld
         (@ProductionOracle.getClaimKey toyChain submittedWorld theProducer theHour)))
      (@ecrecover toyChain (this (oracle submittedWorld)) theProducer theHour 5000 7 1)
    = Ok idx) by (exists 0; vm_compute; reflexivity).
  destruct Hboth as [Hsame Hfaults].
  { right. split; [decide_Z|]. split; [exact Hidx | vm_compute; reflexivity]. }
  split; [|split; [exact Hsame | split]].
  - rewrite Hdup; [vm_compute; reflexivity | decide_Z | exact Hidx | vm_compute; reflexivity].
  - transitivity (Treasury.getFaults submittedWorld 1);
      [exact Hfaults | vm_compute; reflexivity].
  - destruct (Treasury.recordFault submittedWorld oracleAddr 1 DuplicateSubmissionFault)
      as [w2|e] eqn:E; [|vm_compute in E; discriminate E].
    exists w2. split; [reflexivity|]. vm_compute in E. injection E as <-.
    vm_compute. reflexivity.
Defined.

(** The late path: verifier 2 submits after the deadline. *)
Example late_submission_records_no_fault :
  let call := SubmitProduction theProducer theHour 5000 7 2 in
  @exec toyChain submittedWorld 2 5000 call = Revert ClaimDeadlinePassed /\
  Treasury.getFaults (@transact toyChain submittedWorld 2 5000 call) 2 = 0.
Proof. split; vm_compute; reflexivity. Qed.

Lemma agreedWorld_headroom : faultHeadroom agreedWorld (100 * 10 ^ 18).
Proof.
  unfold faultHeadroom. split; [decide_Z|]. split; [|split; [|split; decide_Z]].
  - unfold Treasury.getFaults.
    apply (sload_all (fun x => x + 16 < UINT256)); [decide_Z|].
    all_entries; decide_Z.
  - unfold stakeOf, Registry.getVerifier.
    apply (sload_all (fun x => 0 <= stake x <= 100 * 10 ^ 18)); [decide_Z|].
    all_entries; decide_Z.
Qed.

Lemma agreedWorld_pending (v : Z) : Treasury.getPendingRewards agreedWorld v = 0.
Proof.
  unfold Treasury.getPendingRewards. revert v.
  apply (sload_all (fun x => x = 0)); [reflexivity|].
  all_entries; vm_compute; reflexivity.
Qed.

Lemma finalizeProduction_spec_witness :
  exists w',
    @ProductionOracle.finalizeProduction toyChain agreedWorld 9 5000 theProducer theHour
    = Ok w' /\
    finalized (ProductionOracle.getClaimBucket w' theClaim) = true /\
    verifiedEnergyWh (ProductionOracle.getClaimBucket w' theClaim) = 5000.
Proof.
  destruct (@finalizeProduction_spec toyChain agreedWorld 9 5000 theProducer theHour)
    as (_ & _ & Hquorum); try decide_Z.
  destruct Hquorum as (_ & _ & Hsucceeds & _); [decide_Z|].
  destruct (Hsucceeds (mkProducer theProducer 5 6 701 producerOwnerAddr true)
              (100 * 10 ^ 18)) as (w' & Hcall & Hfin & Hwh).
  - vm_compute. reflexivity.
  - decide_Z.
  - vm_compute. reflexivity.
  - decide_Z.
  - vm_compute. reflexivity.
  - vm_compute. reflexivity.
  - decide_Z.
  - decide_Z.
  - intros v. rewrite agreedWorld_pending. decide_Z.
  - exact agreedWorld_headroom.
  - exists w'. split; [exact Hcall|]. split; [exact Hfin|].
    etrans; [exact Hwh | vm_compute; reflexivity].
Defined.

(** The no-quorum branch on a concrete claim: 1 of 3 agree, 3 are required. *)
Example finalizeProduction_disputes :
  @quorumRequired toyChain splitWorld theClaim = 3 /\
  @maxTally toyChain splitWorld theClaim = 1 /\
  disputed (ProductionOracle.getClaimBucket disputedWorld theClaim) = true /\
  finalized (ProductionOracle.getClaimBucket disputedWorld theClaim) = false /\
  head (log disputedWorld) = Some (ClaimDisputed theClaim theProducer theHour).
Proof. repeat split; vm_compute; reflexivity. Qed.

(** C1, as stated, fails when the reward pool cannot pay: three of three
    verifiers agree on 5000 Wh, the deadline has passed, the quorum is
    reached, and [finalizeProduction] reverts with [InsufficientRewardPool];
    the claim stays unfinalized. *)
Lemma finalizeProduction_counterexample :
  let w := unfundedWorld in
  let call := FinalizeProduction theProducer theHour in
  finalized (ProductionOracle.getClaimBucket w theClaim) = false /\
  deadline (ProductionOracle.getClaimBucket w theClaim) = 3700 /\
  @quorumRequired toyChain w theClaim = 3 /\
  @maxTally toyChain w theClaim = 3 /\
  @exec toyChain w 9 5000 call = Revert InsufficientRewardPool /\
  finalized (ProductionOracle.getClaimBucket (@transact toyChain w 9 5000 call) theClaim)
  = false.
Proof. cbv zeta. repeat split; vm_compute; reflexivity. Qed.



(** *** Worlds with many verifiers *)

Lemma setup_valid (pool : Z) (vs : list Z) :
  fits UINT256 pool -> Forall (fits UINT256) vs -> Forall validTx (setup pool vs).
Proof.
  intros Hpool Hvs. unfold setup.
  apply Forall_app. split; [valid_txs|].
  apply Forall_app. split.
  { destruct (pool =? 0); [apply Forall_nil; exact I|].
    apply Forall_cons. split; [|apply Forall_nil; exact I].
    valid_tx. }
  apply Forall_cons; split; [valid_tx|].
  induction Hvs as [|v vs Hv _ IH]; [apply Forall_nil; exact I|].
  simpl. repeat (apply Forall_cons; split; [valid_tx|]).
  exact IH.
Qed.

Lemma verifiersUpTo_fit (n : nat) : Forall (fits UINT256) (verifiersUpTo (n `min` 1000)).
Proof.
  apply Forall_forall. intros x Hx. unfold verifiersUpTo in Hx.
  apply list_elem_of_fmap in Hx as (k & -> & Hk). apply elem_of_seq in Hk.
  unfold fits, UINT256. lia.
Qed.

Lemma crowd_reachable (n : nat) : @reachable toyChain (crowd (n `min` 1000)).
Proof.
  apply reachable_run; [apply genesis_reachable|].
  apply Forall_app. split; [apply setup_valid; [decide_Z | apply verifiersUpTo_fit]|].
  valid_txs.
Qed.

Lemma snapshot_index_witness :
  exists w' id,
    Registry.createSnapshot crowdedWorld otherOracle 12 4242 = Ok (w', id) /\
    active (Registry.getVerifier crowdedWorld 257) = true /\
    rank 257 (_activeVerifiers (registry crowdedWorld)) = 256 /\
    Registry.getSnapshotVerifiers w' id !! 256%nat = Some 257 /\
    Registry.getVerifierIndex w' id 257 = Ok 0 /\
    Registry.getVerifierIndex w' id 1 = Ok 0.
Proof.
  assert (Hs : succeeds (Registry.createSnapshot crowdedWorld otherOracle 12 4242) = true)
    by (vm_compute; reflexivity).
  destruct (Registry.createSnapshot crowdedWorld otherOracle 12 4242)
    as [[w' id]|e] eqn:E; [clear Hs|discriminate Hs].
  exists w', id. split; [reflexivity|].
  assert (Hact : active (Registry.getVerifier crowdedWorld 257) = true)
    by (vm_compute; reflexivity).
  assert (Hrank : rank 257 (_activeVerifiers (registry crowdedWorld)) = 256)
    by (vm_compute; reflexivity).
  destruct (@snapshot_index toyChain crowdedWorld w' otherOracle 12 4242 id
              (crowd_reachable 257) E) as (_ & _ & Hin & _).
  destruct (Hin 257 Hact) as (_ & Hpos & Hidx & _).
  destruct (Hin 1) as (_ & _ & Hfirst & _); [vm_compute; reflexivity|].
  rewrite Hrank in Hpos, Hidx. repeat split; done.
Defined.

(** *** Claims: bitmaps and finalization *)

(** The world after a successful call. *)
Lemma transact_exec `{Chain} (w w' : World) (sender now : Z) (c : Call) :
  exec w sender now c = Ok w' -> transact w sender now c = w'.
Proof. intros E. unfold transact. by rewrite E. Qed.

Lemma exec_submitProduction `{Chain} (w : World) (sender now p h wh root sig : Z) :
  exec w sender now (SubmitProduction p h wh root sig)
  = ProductionOracle.submitProduction w sender now p h wh root sig.
Proof. reflexivity. Qed.

Lemma exec_finalizeProduction `{Chain} (w : World) (sender now p h : Z) :
  exec w sender now (FinalizeProduction p h)
  = ProductionOracle.finalizeProduction w sender now p h.
Proof. reflexivity. Qed.

Lemma exec_forceFinalize `{Chain} (w : World) (sender now p h wh root : Z) :
  exec w sender now (ForceFinalize p h wh root)
  = ProductionOracle.forceFinalize w sender now p h wh root.
Proof. reflexivity. Qed.

Lemma verifiers_fit (vs : list Z) :
  forallb (fun v => (0 <=? v) && (v <? UINT256)) vs = true -> Forall (fits UINT256) vs.
Proof.
  intros Hvs. apply Forall_forall. intros v Hv.
  rewrite forallb_forall in Hvs. specialize (Hvs v).
  rewrite <- list_elem_of_In in Hvs. specialize (Hvs Hv).
  apply andb_true_iff in Hvs as [H1 H2]. unfold fits. lia.
Qed.

Lemma faultWorld_reachable : @reachable toyChain faultWorld.
Proof.
  apply (reachable_run genesis); [apply genesis_reachable|].
  apply Forall_app. split; [|valid_txs].
  apply setup_valid; [decide_Z | by apply verifiers_fit].
Qed.

Lemma submittedWorld_reachable : @reachable toyChain submittedWorld.
Proof. apply (reachable_run faultWorld); [apply faultWorld_reachable | valid_txs]. Qed.

Lemma agreedWorld_reachable : @reachable toyChain agreedWorld.
Proof.
  apply (reachable_run faultWorld); [apply faultWorld_reachable|].
  unfold threeSubmissions. valid_txs.
Qed.

Lemma disputedWorld_reachable : @reachable toyChain disputedWorld.
Proof.
  apply (reachable_run splitWorld); [|valid_txs].
  apply (reachable_run faultWorld); [apply faultWorld_reachable | valid_txs].
Qed.

Lemma forcedWorld_reachable : @reachable toyChain forcedWorld.
Proof. apply (reachable_run disputedWorld); [apply disputedWorld_reachable | valid_txs]. Qed.

Lemma submitters_bitmap_counts_witness :
  Treasury._popcount (allSubmittersBitmap (ProductionOracle.getClaimBucket agreedWorld theClaim))
  = submissionCount (ProductionOracle.getClaimBucket agreedWorld theClaim) /\
  submissionCount (ProductionOracle.getClaimBucket agreedWorld theClaim) = 3 /\
  length (claimSnapshot agreedWorld theClaim) = 3%nat.
Proof.
  assert (Hlen : (length (claimSnapshot agreedWorld theClaim) <= 16)%nat)
    by (vm_compute; lia).
  destruct (@submitters_bitmap_counts toyChain agreedWorld theClaim
              agreedWorld_reachable Hlen) as [Hpop _].
  split; [exact Hpop|]. split; vm_compute; reflexivity.
Defined.

Lemma submission_sets_one_bit_witness :
  exists w',
    @ProductionOracle.submitProduction toyChain submittedWorld 2 100
      theProducer theHour 5000 7 2 = Ok w' /\
    allSubmittersBitmap (ProductionOracle.getClaimBucket submittedWorld theClaim) = 1 /\
    allSubmittersBitmap (ProductionOracle.getClaimBucket w' theClaim) = 3 /\
    submissionCount (ProductionOracle.getClaimBucket w' theClaim) = 2.
Proof.
  assert (Hs : succeeds (@exec toyChain submittedWorld 2 100
                           (SubmitProduction theProducer theHour 5000 7 2)) = true)
    by (vm_compute; reflexivity).
  destruct (@exec toyChain submittedWorld 2 100
              (SubmitProduction theProducer theHour 5000 7 2))
    as [w'|e] eqn:E; [clear Hs|discriminate Hs].
  pose proof (transact_exec _ _ _ _ _ E) as Htr.
  rewrite exec_submitProduction in E. exists w'. split; [exact E|].
  assert (Hsnap : claimSnapshot w' theClaim = [1; 2; 3])
    by (rewrite <- Htr; vm_compute; reflexivity).
  assert (Hold : allSubmittersBitmap
                   (ProductionOracle.getClaimBucket submittedWorld theClaim) = 1)
    by (vm_compute; reflexivity).
  assert (Hcnt : submissionCount
                   (ProductionOracle.getClaimBucket submittedWorld theClaim) = 1)
    by (vm_compute; reflexivity).
  destruct (@submission_sets_one_bit toyChain submittedWorld w' 2 100
              theProducer theHour 5000 7 2 submittedWorld_reachable E)
    as (n & Hn & Hcount & _ & Hlow & _).
  change (claimSnapshot w' theClaim !! n = Some 2) in Hn.
  change (submissionCount (ProductionOracle.getClaimBucket w' theClaim)
          = submissionCount (ProductionOracle.getClaimBucket submittedWorld theClaim) + 1)
    in Hcount.
  rewrite Hsnap in Hn.
  assert (n = 1%nat) as ->.
  { destruct n as [|[|[|n]]]; [discriminate Hn | reflexivity | discriminate Hn..]. }
  destruct Hlow as (_ & Hall & _).
  { change (length (claimSnapshot w' theClaim) <= 16)%nat. rewrite Hsnap. simpl. lia. }
  change (allSubmittersBitmap (ProductionOracle.getClaimBucket w' theClaim)
          = Z.lor (allSubmittersBitmap
                     (ProductionOracle.getClaimBucket submittedWorld theClaim))
                  (2 ^ Z.of_nat 1)) in Hall.
  rewrite Hold in Hall. rewrite Hcnt in Hcount.
  split; [exact Hold|]. split; [exact Hall | exact Hcount].
Defined.

Lemma verified_within_submitted_witness :
  finalized (ProductionOracle.getClaimBucket forcedWorld theClaim) = true /\
  verifiedEnergyWh (ProductionOracle.getClaimBucket forcedWorld theClaim)
  <= maxSubmittedEnergyWh (ProductionOracle.getClaimBucket forcedWorld theClaim) /\
  verifiedEnergyWh (ProductionOracle.getClaimBucket forcedWorld theClaim) = 5000 /\
  maxSubmittedEnergyWh (ProductionOracle.getClaimBucket forcedWorld theClaim) = 6000.
Proof.
  assert (Hfin : finalized (ProductionOracle.getClaimBucket forcedWorld theClaim) = true)
    by (vm_compute; reflexivity).
  split; [exact Hfin|]. split.
  - exact (@verified_within_submitted toyChain forcedWorld theClaim
             forcedWorld_reachable Hfin).
  - split; vm_compute; reflexivity.
Defined.

Lemma quorum_of_winners_witness :
  exists w',
    @ProductionOracle.finalizeProduction toyChain agreedWorld 9 5000 theProducer theHour
    = Ok w' /\
    finalized (ProductionOracle.getClaimBucket w' theClaim) = true /\
    winningVerifierBitmap (ProductionOracle.getClaimBucket w' theClaim) = 7 /\
    @quorumRequired toyChain agreedWorld theClaim = 3 /\
    3 <= Treasury._popcount
           (winningVerifierBitmap (ProductionOracle.getClaimBucket w' theClaim)).
Proof.
  assert (Hs : succeeds (@exec toyChain agreedWorld 9 5000
                           (FinalizeProduction theProducer theHour)) = true)
    by (vm_compute; reflexivity).
  destruct (@exec toyChain agreedWorld 9 5000 (FinalizeProduction theProducer theHour))
    as [w'|e] eqn:E; [clear Hs|discriminate Hs].
  pose proof (transact_exec _ _ _ _ _ E) as Htr.
  rewrite exec_finalizeProduction in E. exists w'. split; [exact E|].
  assert (Hfin : finalized (ProductionOracle.getClaimBucket w' theClaim) = true)
    by (rewrite <- Htr; vm_compute; reflexivity).
  assert (Hq : @quorumRequired toyChain agreedWorld theClaim = 3)
    by (vm_compute; reflexivity).
  assert (Hlen : (length (claimSnapshot agreedWorld theClaim) <= 16)%nat)
    by (vm_compute; lia).
  destruct (@quorum_of_winners toyChain agreedWorld w' 9 5000 theProducer theHour
              agreedWorld_reachable E Hfin Hlen) as [Hbitmap Hpop].
  change (@quorumRequired toyChain agreedWorld theClaim
          <= Treasury._popcount
               (winningVerifierBitmap (ProductionOracle.getClaimBucket w' theClaim)))
    in Hpop.
  rewrite Hq in Hpop.
  split; [exact Hfin|]. split; [|split; [exact Hq | exact Hpop]].
  etrans; [exact Hbitmap | vm_compute; reflexivity].
Defined.

Lemma forceFinalize_effect_witness :
  exists w',
    @ProductionOracle.forceFinalize toyChain disputedWorld admin 6000
      theProducer theHour 5000 7 = Ok w' /\
    finalized (ProductionOracle.getClaimBucket w' theClaim) = true /\
    verifiedEnergyWh (ProductionOracle.getClaimBucket w' theClaim) = 5000 /\
    winningVerifierBitmap (ProductionOracle.getClaimBucket w' theClaim) = 0 /\
    treasury w' = treasury disputedWorld.
Proof.
  assert (Hs : succeeds (@exec toyChain disputedWorld admin 6000
                           (ForceFinalize theProducer theHour 5000 7)) = true)
    by (vm_compute; reflexivity).
  destruct (@exec toyChain disputedWorld admin 6000
              (ForceFinalize theProducer theHour 5000 7))
    as [w'|e] eqn:E; [clear Hs|discriminate Hs].
  rewrite exec_forceFinalize in E. exists w'. split; [exact E|].
  destruct (@forceFinalize_effect toyChain disputedWorld w' admin 6000
              theProducer theHour 5000 7 E) as (_ & (Hfin & _ & Hwh & _ & Hbm) & Ht & _).
  split; [exact Hfin|]. split; [exact Hwh|]. split; [exact Hbm | exact Ht].
Defined.

(** *** The Registry *)

Lemma snapshotWorld_reachable : @reachable toyChain snapshotWorld.
Proof. apply (reachable_run faultWorld); [apply faultWorld_reachable | valid_txs]. Qed.

Lemma active_set_consistent_witness :
  NoDup (Registry.getActiveVerifiers faultWorld) /\
  (2 ∈ Registry.getActiveVerifiers faultWorld) /\
  indexOf (registry faultWorld) 2 = 2 /\
  Registry.getActiveVerifiers faultWorld !! 1%nat = Some 2.
Proof.
  destruct (@active_set_consistent toyChain faultWorld faultWorld_reachable) as [Hnd Hall].
  destruct (Hall 2) as [Hin Hidx].
  assert (Hact : active (Registry.getVerifier faultWorld 2) = true)
    by (vm_compute; reflexivity).
  assert (Hi : indexOf (registry faultWorld) 2 = 2) by (vm_compute; reflexivity).
  destruct (Hidx Hact) as [_ Hat]. rewrite Hi in Hat.
  split; [exact Hnd|]. split; [by apply Hin|]. split; [exact Hi | exact Hat].
Defined.

Lemma deactivate_removes_caller_witness :
  exists w',
    Registry.deactivateVerifier faultWorld 1 = Ok w' /\
    Registry.getActiveVerifiers faultWorld = [1; 2; 3] /\
    (Registry.getActiveVerifiers faultWorld ≡ₚ 1 :: Registry.getActiveVerifiers w') /\
    (1 ∉ Registry.getActiveVerifiers w').
Proof.
  assert (Hact : active (Registry.getVerifier faultWorld 1) = true)
    by (vm_compute; reflexivity).
  assert (Hlen : Z.of_nat (length (Registry.getActiveVerifiers faultWorld)) < UINT256)
    by (vm_compute; reflexivity).
  destruct (@deactivate_removes_caller toyChain faultWorld 1 faultWorld_reachable Hlen)
    as [_ Hok].
  destruct (Hok Hact) as (w' & E & Hperm & Hnin & _).
  exists w'. split; [exact E|]. split; [vm_compute; reflexivity|].
  split; [exact Hperm | exact Hnin].
Defined.

Lemma activate_then_deactivate_witness :
  exists w1 w2,
    Registry.activateVerifier benchedWorld 1 = Ok w1 /\
    Registry.getActiveVerifiers benchedWorld = [3; 2] /\
    Registry.getActiveVerifiers w1 = [3; 2; 1] /\
    Registry.deactivateVerifier w1 1 = Ok w2 /\
    Registry.getActiveVerifiers w2 = [3; 2].
Proof.
  assert (Hs : succeeds (Registry.activateVerifier benchedWorld 1) = true)
    by (vm_compute; reflexivity).
  destruct (Registry.activateVerifier benchedWorld 1) as [w1|e] eqn:E;
    [clear Hs|discriminate Hs].
  assert (Hold : Registry.getActiveVerifiers benchedWorld = [3; 2])
    by (vm_compute; reflexivity).
  destruct (activate_then_deactivate benchedWorld w1 1 E)
    as (Hpush & _ & w2 & Hde & Hback & _).
  rewrite Hold in Hpush, Hback.
  exists w1, w2. split; [reflexivity|]. split; [exact Hold|].
  split; [exact Hpush|]. split; [exact Hde | exact Hback].
Defined.

Lemma stake_then_unstake_witness :
  exists w1 w2,
    Registry.stakeAsVerifier genesis 5 100 true = Ok w1 /\
    stake (Registry.getVerifier w1 5) = 100 /\
    Registry.unstake w1 5 100 true = Ok w2 /\
    stake (Registry.getVerifier w2 5) = 0.
Proof.
  assert (Hs : succeeds (Registry.stakeAsVerifier genesis 5 100 true) = true)
    by (vm_compute; reflexivity).
  destruct (Registry.stakeAsVerifier genesis 5 100 true) as [w1|e] eqn:E;
    [clear Hs|discriminate Hs].
  assert (Hold : Registry.getVerifier genesis 5 = Registry.getVerifier genesis 5 /\
                 stake (Registry.getVerifier genesis 5) = 0 /\
                 active (Registry.getVerifier genesis 5) = false)
    by (repeat split; vm_compute; reflexivity).
  destruct Hold as (_ & Hst & Hact).
  destruct (@stake_then_unstake toyChain genesis w1 5 100 genesis_reachable E)
    as (Hstake & _ & Hun).
  destruct (Hun Hact) as (w2 & Hcall & Hsame).
  exists w1, w2. split; [reflexivity|]. rewrite Hst in Hstake.
  split; [exact Hstake|]. split; [exact Hcall|]. by rewrite Hsame.
Defined.

Lemma registerProducer_then_getProducer_witness :
  exists w' id,
    @Registry.registerProducer toyChain genesis 700 10 5 6 701 = Ok (w', id) /\
    Registry.getProducer w' id = Ok (mkProducer id 5 6 701 700 true) /\
    let w2 := @transactAll toyChain w'
                [(702, 11, RegisterProducer 9 8 703); (1, 12, StakeAsVerifier 100 true)] in
    Registry.getProducer w2 id = Ok (mkProducer id 5 6 701 700 true) /\
    @Registry.registerProducer toyChain w2 702 13 5 8 703 = Revert SystemAlreadyRegistered.
Proof.
  assert (Hs : succeeds (@Registry.registerProducer toyChain genesis 700 10 5 6 701) = true)
    by (vm_compute; reflexivity).
  destruct (@Registry.registerProducer toyChain genesis 700 10 5 6 701)
    as [[w' id]|e] eqn:E; [clear Hs|discriminate Hs].
  assert (Hsender : 700 <> 0) by discriminate.
  assert (Hpay : 703 <> 0) by discriminate.
  destruct (@registerProducer_then_getProducer toyChain genesis w' 700 10 5 6 701 id
              Hsender E) as (_ & _ & _ & Hget & _ & Hlater).
  destruct (Hlater [(702, 11, RegisterProducer 9 8 703); (1, 12, StakeAsVerifier 100 true)])
    as [Hget2 Hagain].
  exists w', id. split; [reflexivity|]. split; [exact Hget|].
  split; [exact Hget2|]. exact (Hagain 702 13 8 703 Hpay).
Defined.

Lemma snapshots_are_immutable_witness :
  Registry.getSnapshotVerifiers (@transact toyChain snapshotWorld 2 13 DeactivateVerifier) 1
  = [1; 2; 3] /\
  Registry.getActiveVerifiers (@transact toyChain snapshotWorld 2 13 DeactivateVerifier)
  = [1; 3].
Proof.
  assert (Hid : 1 < _nextSnapshotId (registry snapshotWorld)) by (vm_compute; reflexivity).
  destruct (@snapshots_are_immutable toyChain snapshotWorld 2 13 DeactivateVerifier 1 I Hid)
    as [Hkeep _].
  split; [|vm_compute; reflexivity].
  etrans; [exact Hkeep | vm_compute; reflexivity].
Defined.

Lemma createSnapshot_once_witness :
  exists w' id,
    Registry.createSnapshot faultWorld otherOracle 12 4242 = Ok (w', id) /\
    id = 1 /\
    let w2 := @transactAll toyChain w'
                [(2, 13, DeactivateVerifier); (otherOracle, 14, CreateSnapshot 4343)] in
    Registry.getSnapshotId w2 4242 = 1 /\
    Registry.createSnapshot w2 otherOracle 15 4242 = Revert SnapshotAlreadyExists.
Proof.
  assert (Hs : succeeds (Registry.createSnapshot faultWorld otherOracle 12 4242) = true)
    by (vm_compute; reflexivity).
  destruct (Registry.createSnapshot faultWorld otherOracle 12 4242)
    as [[w' id]|e] eqn:E; [clear Hs|discriminate Hs].
  assert (Hnext : _nextSnapshotId (registry faultWorld) = 1) by (vm_compute; reflexivity).
  destruct (@createSnapshot_once toyChain faultWorld w' otherOracle 12 4242 id
              faultWorld_reachable E) as (_ & Hid & _ & _ & _ & _ & _ & Hlater).
  rewrite Hnext in Hid. subst id.
  destruct (Hlater [(2, 13, DeactivateVerifier); (otherOracle, 14, CreateSnapshot 4343)])
    as [Hget Hagain].
  exists w', 1. split; [reflexivity|]. split; [reflexivity|].
  split; [exact Hget|].
  destruct (Hagain otherOracle 15) as [Hauth|Hdup]; [exfalso | exact Hdup].
  vm_compute in E. injection E as <-. vm_compute in Hauth. discriminate Hauth.
Defined.

(** *** The Treasury *)

Lemma popcount_counts_bits_witness :
  Treasury._popcount 11 = 3 /\ setBits 16 11 = [0; 1; 3]%nat.
Proof.
  assert (Hfit : fits UINT16 11) by (unfold fits, UINT16; lia).
  destruct (popcount_counts_bits 11 Hfit) as (Hcount & _).
  split; [|vm_compute; reflexivity].
  etrans; [exact Hcount | vm_compute; reflexivity].
Defined.

Lemma distributeRewards_conserves_witness :
  exists w',
    Treasury.distributeRewards snapshotWorld otherOracle 5 1 1000 = Ok w' /\
    rewardPool (treasury w') + totalPending w' = 10 ^ 30 /\
    totalPending snapshotWorld = 0.
Proof.
  assert (Hs : succeeds (Treasury.distributeRewards snapshotWorld otherOracle 5 1 1000) = true)
    by (vm_compute; reflexivity).
  destruct (Treasury.distributeRewards snapshotWorld otherOracle 5 1 1000)
    as [w'|e] eqn:E; [clear Hs|discriminate Hs].
  assert (Hpend : totalPending snapshotWorld = 0) by (vm_compute; reflexivity).
  assert (Hpool : rewardPool (treasury snapshotWorld) = 10 ^ 30) by (vm_compute; reflexivity).
  pose proof (distributeRewards_conserves snapshotWorld w' otherOracle 5 1 1000 E) as Hsum.
  rewrite Hpend, Hpool, Z.add_0_r in Hsum.
  exists w'. split; [reflexivity|]. split; [exact Hsum | exact Hpend].
Defined.

Lemma claimRewards_pays_once_witness :
  exists w',
    Treasury.claimRewards paidWorld 1 true = Ok w' /\
    Treasury.getPendingRewards paidWorld 1 <> 0 /\
    Treasury.getPendingRewards w' 1 = 0 /\
    Treasury.claimRewards w' 1 true = Revert ZeroAmount.
Proof.
  assert (Hs : succeeds (Treasury.claimRewards paidWorld 1 true) = true)
    by (vm_compute; reflexivity).
  destruct (Treasury.claimRewards paidWorld 1 true) as [w'|e] eqn:E;
    [clear Hs|discriminate Hs].
  destruct (claimRewards_pays_once paidWorld w' 1 true E)
    as (_ & Hhad & Hnow & _ & _ & _ & Hagain).
  exists w'. split; [reflexivity|]. split; [exact Hhad|]. split; [exact Hnow|].
  apply Hagain.
Defined.

Lemma deposit_then_withdraw_witness :
  exists w1 w2,
    Treasury.deposit genesis 5 1000 true = Ok w1 /\
    rewardPool (treasury w1) = 1000 /\
    Treasury.withdraw w1 admin 1000 true = Ok w2 /\
    rewardPool (treasury w2) = 0.
Proof.
  assert (Hs : succeeds (Treasury.deposit genesis 5 1000 true) = true)
    by (vm_compute; reflexivity).
  destruct (Treasury.deposit genesis 5 1000 true) as [w1|e] eqn:E;
    [clear Hs|discriminate Hs].
  assert (Hpool : rewardPool (treasury genesis) = 0) by (vm_compute; reflexivity).
  assert (Hown : treasuryOwner (treasury genesis) = admin) by (vm_compute; reflexivity).
  assert (H0 : 0 <= rewardPool (treasury genesis)) by (rewrite Hpool; lia).
  assert (H1 : 0 <= 1000) by lia.
  destruct (deposit_then_withdraw genesis w1 5 1000 true H0 H1 E)
    as (Hup & _ & w2 & Hcall & Hback & _).
  rewrite Hpool in Hup, Hback. rewrite Hown in Hcall.
  exists w1, w2. split; [reflexivity|]. split; [exact Hup|].
  split; [exact Hcall | exact Hback].
Defined.

(** *** Access control *)

Lemma only_owner_witness :
  @exec toyChain faultWorld otherOracle 12 (SetSlashBps 20000)
  = Revert OwnableUnauthorizedAccount /\
  @transact toyChain faultWorld otherOracle 12 (SetSlashBps 20000) = faultWorld.
Proof.
  assert (Hown : @ownerOf faultWorld (SetSlashBps 20000) = Some admin)
    by (vm_compute; reflexivity).
  assert (Hne : otherOracle <> admin) by discriminate.
  exact (@only_owner toyChain faultWorld otherOracle 12 (SetSlashBps 20000) admin Hown Hne).
Defined.

Lemma only_oracle_witness :
  @exec toyChain faultWorld 1 12 (DistributeRewards 7 1 1000) = Revert OnlyAuthorizedOracle /\
  @transact toyChain faultWorld 1 12 (DistributeRewards 7 1 1000) = faultWorld.
Proof.
  assert (Hmay : oracleMay faultWorld 1 (DistributeRewards 7 1 1000) = Some false)
    by (vm_compute; reflexivity).
  destruct (@only_oracle toyChain faultWorld 1 12 (DistributeRewards 7 1 1000) Hmay)
    as [[Hrev|Hrev] Hsame].
  - split; [exact Hrev | exact Hsame].
  - exfalso.
    assert (Hs : @exec toyChain faultWorld 1 12 (DistributeRewards 7 1 1000)
                 = Revert OnlyAuthorizedOracle) by (vm_compute; reflexivity).
    rewrite Hs in Hrev. discriminate Hrev.
Defined.

(** *** The life of a claim *)

Lemma finalized_is_terminal_witness :
  finalized (ProductionOracle.getClaimBucket forcedWorld theClaim) = true /\
  ProductionOracle.getClaimBucket
    (@transact toyChain forcedWorld admin 7000 (ForceFinalize theProducer theHour 9999 8))
    theClaim
  = ProductionOracle.getClaimBucket forcedWorld theClaim.
Proof.
  assert (Hfin : finalized (ProductionOracle.getClaimBucket forcedWorld theClaim) = true)
    by (vm_compute; reflexivity).
  assert (Hwt : wellTyped (ForceFinalize theProducer theHour 9999 8)).
  { unfold wellTyped, theProducer, theHour, producerOwnerAddr, fits, UINT256, UINT64.
    repeat match goal with |- _ /\ _ => split end; lia. }
  split; [exact Hfin|].
  exact (@finalized_is_terminal toyChain forcedWorld admin 7000
           (ForceFinalize theProducer theHour 9999 8) theClaim
           forcedWorld_reachable Hwt Hfin).
Defined.

Lemma claim_window_is_fixed_witness :
  deadline (ProductionOracle.getClaimBucket submittedWorld theClaim) = 3700 /\
  deadline (ProductionOracle.getClaimBucket
              (@transact toyChain submittedWorld admin 200 (OracleSetClaimWindow 10))
              theClaim) = 3700.
Proof.
  assert (Hdl : deadline (ProductionOracle.getClaimBucket submittedWorld theClaim) = 3700)
    by (vm_compute; reflexivity).
  assert (Hid : snapshotId (ProductionOracle.getClaimBucket submittedWorld theClaim) <> 0)
    by (vm_compute; discriminate).
  assert (Hwt : wellTyped (OracleSetClaimWindow 10))
    by (unfold wellTyped, fits, UINT256; lia).
  destruct (@claim_window_is_fixed toyChain submittedWorld admin 200
              (OracleSetClaimWindow 10) theClaim Hwt Hid) as [_ Hsame].
  split; [exact Hdl|]. rewrite Hsame. exact Hdl.
Defined.

(** *** Credits *)

Lemma finalization_mints_verified_energy_witness :
  exists w',
    @ProductionOracle.finalizeProduction toyChain agreedWorld 9 5000 theProducer theHour
    = Ok w' /\
    HourlyCredits.balanceOf agreedWorld 701 theHour = 0 /\
    HourlyCredits.balanceOf w' 701 theHour = 5000.
Proof.
  assert (Hs : succeeds (@exec toyChain agreedWorld 9 5000
                           (FinalizeProduction theProducer theHour)) = true)
    by (vm_compute; reflexivity).
  destruct (@exec toyChain agreedWorld 9 5000 (FinalizeProduction theProducer theHour))
    as [w'|e] eqn:E; [clear Hs|discriminate Hs].
  pose proof (transact_exec _ _ _ _ _ E) as Htr.
  rewrite exec_finalizeProduction in E. exists w'. split; [exact E|].
  assert (Hfin : finalized (ProductionOracle.getClaimBucket w' theClaim) = true)
    by (rewrite <- Htr; vm_compute; reflexivity).
  assert (Hwh : verifiedEnergyWh (ProductionOracle.getClaimBucket w' theClaim) = 5000)
    by (rewrite <- Htr; vm_compute; reflexivity).
  assert (Hold : HourlyCredits.balanceOf agreedWorld 701 theHour = 0)
    by (vm_compute; reflexivity).
  assert (Hp : @Registry.getProducer agreedWorld theProducer
               = Ok (mkProducer theProducer 5 6 701 producerOwnerAddr true))
    by (vm_compute; reflexivity).
  destruct (@finalization_mints_verified_energy toyChain agreedWorld w' 9 5000
              theProducer theHour E) as [_ Hmint].
  destruct (Hmint Hfin) as (producer & Hget & Hbal & _).
  rewrite Hp in Hget. injection Hget as <-.
  change (HourlyCredits.balanceOf w' 701 theHour
          = HourlyCredits.balanceOf agreedWorld 701 theHour
            + verifiedEnergyWh (ProductionOracle.getClaimBucket w' theClaim)) in Hbal.
  rewrite Hold, Hwh in Hbal. split; [exact Hold | exact Hbal].
Defined.

(** *** Baseline mode *)

Lemma baseline_submission_finalizes_witness :
  exists w',
    @ProductionOracle.submitProduction toyChain baselineWorld 1 100
      theProducer theHour 5000 7 1 = Ok w' /\
    Registry.getSnapshotCount w' 1 = 3 /\
    finalized (ProductionOracle.getClaimBucket w' theClaim) = true /\
    verifiedEnergyWh (ProductionOracle.getClaimBucket w' theClaim) = 5000.
Proof.
  assert (Hs : succeeds (@exec toyChain baselineWorld 1 100
                           (SubmitProduction theProducer theHour 5000 7 1)) = true)
    by (vm_compute; reflexivity).
  destruct (@exec toyChain baselineWorld 1 100
              (SubmitProduction theProducer theHour 5000 7 1))
    as [w'|e] eqn:E; [clear Hs|discriminate Hs].
  pose proof (transact_exec _ _ _ _ _ E) as Htr.
  rewrite exec_submitProduction in E. exists w'. split; [exact E|].
  assert (Hcount : Registry.getSnapshotCount w' 1 = 3)
    by (rewrite <- Htr; vm_compute; reflexivity).
  assert (Hmode : baselineMode (oracle baselineWorld) = true) by (vm_compute; reflexivity).
  assert (Hsingle : 1 = singleVerifierOverride (oracle baselineWorld))
    by (vm_compute; reflexivity).
  destruct (@baseline_submission_finalizes toyChain baselineWorld w' 1 100
              theProducer theHour 5000 7 1 E) as [Hbase _].
  destruct (Hbase (conj Hmode Hsingle)) as (Hfin & _ & Hwh & _).
  split; [exact Hcount|]. split; [exact Hfin | exact Hwh].
Defined.
